(* ===== verification/_CoqProject ===== *)
-Q . S2P
Prelude.v
Keys.v
Files.v
Float64.v
Helpers.v
Sorting.v
BTStack.v
Wal.v
WalTheorems.v
WalRace.v
BTree.v
BTreeDelete.v
CacheSpec.v
BTreeInv.v
BTreeNode.v
BTreeShape.v
BTreeInsert.v
BTreeRead.v
BTreeRange.v
BTreeTheorems.v
BTreeRemove.v
BTreeShare.v
BTreeMerge.v
BTreeRemoveTheorems.v
Recovery.v
RecoveryTheorems.v
Replay.v
LogOrder.v
Disk.v
DiskRace.v
DiskTheorems.v
FreeList.v
Page.v
Pager.v
PagerTheorems.v
Workers.v
TinyLFU.v
TinyLFUTheorems.v
Clock.v
ClockTheorems.v
Latch.v
WTinyLFU.v
WTinyLFUTheorems.v
DirtyList.v
DirtyListTheorems.v
Shard.v
ShardInv.v
ShardTheorems.v
FailedReads.v
Sizing.v
BufferManagerTheorems.v
Lifecycle.v
LifecycleTheorems.v
Server.v
ServerTheorems.v
ServerDelete.v
PagerTool.v
Manual.v
Zipf.v
Generators.v
Logger.v
LoggerTheorems.v
