(* ===== verification/Prelude.v ===== *)
(** * A verification library for baobab, a key-value store in Go

    Baobab keeps byte-string keys and values in a B+ tree whose nodes are 8 KiB
    pages.  The tree ([pkg/bptree]) reads and writes nodes through a page cache,
    appends a record for every change to a write-ahead log ([pkg/wal]), and is
    rebuilt after a crash by replaying that log ([pkg/recovery]).  Pages reach the
    data file through the pager ([pkg/pager]), which allocates page ids from a
    free list, and the disk manager ([pkg/diskmanager]), which serves requests
    from one queue per page.  The buffer manager ([pkg/buffermanager]) keeps pages
    in shards of frames: each shard has a clock of frames divided into the segments
    of a W-TinyLFU policy, whose admission filter is [internal/tinylfu], and a
    background writer that stores dirty frames.  [main.go] serves the index over
    HTTP, and all packages write to one logger ([pkg/logger]).

    ** How the code is modelled

    Go functions become functions in a state monad with outcomes ([M] below): a
    call returns values, returns an error, panics, blocks on a lock, or uses up
    the fuel of a loop; the state survives all of them.  Integers are [Z] with
    the wrap-around of their width written out ([u8], [u32], [u64], [i32]),
    strings of bytes are lists of [Z], files are byte strings, and [if err != nil]
    is the monad's bind or [catch].  Slice indices out of range panic.

    ** The files

    - [Prelude]: outcomes, the monad and its proof rules ([returns], [fails],
      [go_step], [go_call]), machine words, little-endian encoding, locks.
    - [Keys]: [bytes.Compare] as a strict order, sorted association lists as
      finite maps.  [Files]: [ReadAt] and [WriteAt] on byte strings.  [Float64]: Go's
      [float64] as IEEE binary64 numbers, with the functions of [math] that are used.
    - [Helpers], [Sorting]: [pkg/helpers/helpers.go] (binary search, slices, LSNs,
      flags; sorting and lookup).
    - [BTStack]: [pkg/bptree/btstack.go], the stack of a descent.
    - [Wal], [WalTheorems]: [wal.go], [wal_buffer.go], [wal_writer.go];
      [WalRace]: concurrent callers of the log and its background writer, step by step.
    - [BTree], [BTreeDelete]: [pkg/bptree/bp_tree.go].  The record [BTree] has the
      struct's root, lock, log and cache.  [insert_one], [insert_descend],
      [propagate] and the like are the parts of the long functions, in their
      order; the map of the project names their lines.
    - [CacheSpec]: the interface of the page cache.  The tree imports
      [pkg/buffer_manager], which the repository does not contain, so its
      operations are the class [CacheOps] and what the tree relies on is the class
      [PageCache]: a synced page is read back, a new entry has a fresh id while
      there is room, pins are counted.  [MemCache] is an instance.
    - [BTreeInv] (the representation of a map by a tree of pages), [BTreeNode]
      (operations on one node), [BTreeShape] (how splits change the tree),
      [BTreeInsert], [BTreeRead], [BTreeRange], [BTreeRemove] (one operation
      each), [BTreeShare] (deletion that shares out two leaves), [BTreeMerge] (and one
      that merges them),
      [BTreeTheorems], [BTreeRemoveTheorems].
    - [Recovery], [RecoveryTheorems]: [pkg/recovery/recovery.go] and
      [pkg/wal/wal_reader.go], one record; [Replay]: the walk through a whole log;
      [LogOrder]: the walk through a log that two callers wrote out of order.
    - [Disk], [DiskRace], [DiskTheorems]: the disk manager, with the steps of its
      goroutines, and in [DiskRace] its callers interleaved with them; [FreeList], [Page], [Pager], [PagerTheorems]: [pkg/pager]; [Workers]: the
      pools of goroutines of the pager and of the shards, with their channel.
    - [TinyLFU], [TinyLFUTheorems]: [internal/tinylfu]; the hash (xxhash, a third
      party's) is the parameter [Sum64].
    - [Clock], [ClockTheorems]: frames and the clock's sweep ([frame.go],
      [clock.go]); [Latch]: the frames' latches; [WTinyLFU], [WTinyLFUTheorems]: segments, promotion and eviction
      with write-back ([wtinylfu.go]); [DirtyList], [DirtyListTheorems]: the linked
      list of dirty pages on a store of nodes ([p_dirty.go]).
    - [Shard]: [shard.go], [bgwriter.go] and [buffermanager.go], with the jobs and
      their channels; [ShardInv]: the invariant of frames, hash table and file;
      [ShardTheorems]: one shard; [FailedReads]: lookups of pages
      that do not exist; [BufferManagerTheorems]: the shards together;
      [Sizing]: the sizes that are computed in floating point ([NewCMS], [NewTinyLFU],
      the segments and the frames of a shard).
    - [Lifecycle], [LifecycleTheorems]: opening and closing the buffer manager with
      its workers, background writers, pager and files ([Manager] is a buffer manager
      with what runs around it).
    - [Server], [ServerTheorems], [ServerDelete]: routing, handlers and start-up of
      [main.go].  The JSON decoder is the parameter [Decode].
    - [PagerTool]: [cmd/pager/main.go].  [Generators]: the random data of [main.go] (and its sorting)
      and [helpers.go], with the randomness as parameters.  [Zipf]: [internal/zipf].
      [Manual]: [internal/manual], with C's [calloc] and [free] as parameters.
    - [Logger], [LoggerTheorems]: the logger's queue, and its goroutines as
      interleaved steps.

    ** What the theorems show

    - Service: PUT of bindings that are not empty and fit in a page, PUT of bodies that
      are refused, and GET of any path are a finite map ([http_refines_map]), also
      across a crash ([service_survives_crash]); range queries with any
      parameters return a sorted segment ([http_range]), and DELETE removes the binding where the leaf stays full
      enough, is the whole index or is one of two ([http_delete]).
    - Tree: puts and lookups refine a finite map through all splits
      ([tree_refines_map], [InsertValue_refines], [Get_found]); the search in a node
      is equivalent to a linear scan ([InsertBinarySearch_linear]); the tree is
      balanced ([tree_balanced]), each put is logged once ([put_logs_once]),
      such deletions remove the key and only it
      ([DeleteValue_removes], [DeleteValue_absent_key]).
    - Log: LSNs increase and the next LSN is always the position where the file
      and the buffer end ([log_follows_lsn], [assignLSN_increasing],
      [checkLogOverflow_length]); a restart resumes there ([restart_resumes]).  With
      concurrent callers every answered call's record is in the buffer or the file
      once, under an LSN of its own ([concurrent_log]), but not always in the order
      of the LSNs ([log_order_race]).
    - Recovery: records are parsed back ([log_roundtrip]), and replaying the log
      gives the map of all flushed puts while the log is within its first two pages;
      a longer one panics ([flush_and_recover]).
    - Pager and disk: what is written is read ([WritePage_ReadPage],
      [metadata_roundtrip], [freelist_reload]), requests are answered once in
      every interleaving of callers, which find or make a queue without a lock, and
      goroutines ([requests_answered_once]) and in order by one goroutine
      ([queue_serves_in_order]), stopping the workers ends and performs every accepted
      job once ([pager_shutdown]), page ids in use are never allocated again
      ([page_ids_fresh]), header updates write their field only
      ([header_update_frame]).
    - Buffer manager: a shard is a coherent cache of the file, whatever users,
      evictions and the background writer do ([cache_coherent]): requests that are
      refused are part of the runs, and what each of them can cost is one more frame
      that stays marked for eviction, whose page is then not looked up from memory;
      deletions and lookups of absent pages are not part of them.  Lookups go to the
      shard of their id, do not disturb the others, and fail only for the causes
      stated ([Get_routed]); a pass of the
      background writer stores what is due ([bg_cycle_flushes]); after it, closing and
      reopening keeps every page ([shutdown_durable]); the segments' counts
      are exact and within capacity ([wtinylfu_segments]); a sweep gives referenced
      entries a second chance ([evict_second_chance]) and never takes a pinned one
      ([pinned_not_evicted]); the dirty list is a list of frames, most recent first
      ([dirty_refines_lru]); a frame's latch excludes ([latch_exclusive]); a shard has the
      frames of its budget, or one more ([shard_frames]).
    - TinyLFU: no false negatives, counts bounded on both sides
      ([doorkeeper_no_false_negatives], [sketch_bounds], [lfu_counts]).
    - Logger: each message is written once, and one goroutine keeps the order
      ([log_messages_written]).
    - Sixteen theorems state where the code does something else than it means to:
      [empty_value_wedges], [merge_loses_index], [delete_empty_blocks], [RangeSearch_below_max],
      [long_log_stops_start], [boundary_desync], [writes_reordered],
      [page_id_wraps], [dead_page_twice], [freelist_loses_ids],
      [first_access_uncounted], [reused_id_loses_page],
      [evict_error_strands_frame], [failed_reads_exhaust_window],
      [restart_reissues_ids], [log_order_race].

    ** Fuel and bounds

    The tree's loops take fuel for one descent or one chain of siblings.  A tree
    with [n] bindings has height at most [log2 n] and at most [n] leaves, so [n]
    is enough, and the theorems say that the call returns with it.  The walk
    through the log takes a step per record.  [wait] lets the workers of a pool take
    [work] turns, which bounds the steps they have left.  A run of a disk queue needs one unit
    more than its requests.  Free-list loops are bounded by their page counts.
    [Zipf.GetNext] takes one draw of its list per round.  The sizes of [Sizing] are
    compared with the integer formulas by computation for up to [MAX_FRAMES] frames,
    which covers the shards of the default cache.

    ** Not modelled

    The server's sockets, signals and profiling, the text of errors and
    printing.  [fsync] has no effect in the model: a flushed
    write is in the file.  Concurrent calls of the tree are serial
    here; its lock is modelled as far as a call can block on it.  The callers of the
    log and of the disk manager ([WalRace], [DiskRace]) and the goroutines of both, of
    the logger and of the worker pools are interleaved.  In
    [Pager] and [Shard] a job runs in its caller, one after the other, so the latches
    of [Latch] do not appear there; timers and timeouts are left out.  The tree imports a package [pkg/buffer_manager] that the repository
    does not have, with other operations than [pkg/buffermanager], so the tree's
    theorems are over the interface of [CacheSpec] and not over [Shard].  Of
    the rebalancing branches of deletion, sharing out two leaves under a root with one
    separator has a specification, and merging them loses the index
    ([merge_loses_index]); the others are executed in [delete_breaks_lookup] and
    [merge_right_panics], where they damage the tree. *)

From stdpp Require Export base tactics list gmap strings.
From Stdlib Require Export ZArith Lia.

#[export] Set Default Goal Selector "!".

(** ** Outcomes and the Go effect monad *)

Declare Scope go_scope.
Delimit Scope go_scope with go.

(** The error types of the packages ([pkg/*/errors.go]); [IOEOF] is [io.EOF]
    and [CacheErr] an error returned by a component outside the repository. *)
Inductive error_kind :=
| HelperError | BTreeError | WalError | PagerError | FreelistError
| DiskManagerError | BufferManagerError | WTinyLFUError | TinyLFUError
| CountMinSketchError | RecoveryError | InvalidLogError | LoggerError
| GoError | IOEOF | CacheErr.

Record error := mkError { ekind : error_kind; Message : string }.

#[export] Instance error_kind_eq_dec : EqDecision error_kind.
Proof. solve_decision. Defined.
#[export] Instance error_eq_dec : EqDecision error.
Proof. solve_decision. Defined.

(** What a Go call can do: return its values with a nil error, return a non-nil
    error, panic, block for ever on a lock, or still be running when the fuel of
    the model's loops is used up. *)
Inductive outcome (A : Type) :=
| Val (a : A)
| Err (e : error)
| Panic (msg : string)
| Blocked
| OutOfFuel.
Arguments Val {A} _.
Arguments Err {A} _.
Arguments Panic {A} _.
Arguments Blocked {A}.
Arguments OutOfFuel {A}.

(** What follows a call that returned values. *)
Definition outcome_bind {A B} (o : outcome A) (f : A -> outcome B) : outcome B :=
  match o with
  | Val a => f a
  | Err e => Err e
  | Panic m => Panic m
  | Blocked => Blocked
  | OutOfFuel => OutOfFuel
  end.

(** [M S A]: a Go function over the mutable state [S]; the state survives an
    error, a panic and a block. *)
Definition M (S A : Type) : Type := S -> outcome A * S.

#[export] Instance M_ret S : MRet (M S) := fun A a s => (Val a, s).
#[export] Instance M_bind S : MBind (M S) := fun A B f m s =>
  match m s with
  | (Val a, s') => f a s'
  | (Err e, s') => (Err e, s')
  | (Panic p, s') => (Panic p, s')
  | (Blocked, s') => (Blocked, s')
  | (OutOfFuel, s') => (OutOfFuel, s')
  end.

Definition fail {S A} (k : error_kind) (msg : string) : M S A :=
  fun s => (Err (mkError k msg), s).
Definition panic {S A} (msg : string) : M S A := fun s => (Panic msg, s).
Definition blocked {S A} : M S A := fun s => (Blocked, s).
Definition out_of_fuel {S A} : M S A := fun s => (OutOfFuel, s).
Definition get_state {S} : M S S := fun s => (Val s, s).
Definition put_state {S} (s : S) : M S unit := fun _ => (Val tt, s).
Definition modify {S} (f : S -> S) : M S unit := fun s => (Val tt, f s).
Definition gets {S A} (f : S -> A) : M S A := fun s => (Val (f s), s).

(** Lift a stateless outcome. *)
Definition lift_outcome {S A} (o : outcome A) : M S A := fun s => (o, s).

(** [catch m]: the caller inspects [err] instead of returning it. *)
Definition catch {S A} (m : M S A) : M S (A + error) := fun s =>
  match m s with
  | (Val a, s') => (Val (inl a), s')
  | (Err e, s') => (Val (inr e), s')
  | (Panic p, s') => (Panic p, s')
  | (Blocked, s') => (Blocked, s')
  | (OutOfFuel, s') => (OutOfFuel, s')
  end.

(** [if err != nil { panic(err) }] *)
Definition or_panic {S A} (m : M S A) : M S A :=
  r ← catch m;
  match r with
  | inl a => mret a
  | inr e => panic (Message e)
  end.

(** The call's values and its error are both dropped. *)
Definition ignore {S A} (m : M S A) : M S unit := catch m;; mret tt.

(** Run a function over a part of the state. *)
Definition zoom {S T A} (get : S -> T) (set : T -> S -> S) (m : M T A) : M S A :=
  fun s => let '(o, t) := m (get s) in (o, set t s).

(** A list element by Go index: out of range panics. *)
Definition index_at {S A} (l : list A) (i : Z) : M S A :=
  if (i <? 0)%Z then panic "index out of range" else
  match l !! Z.to_nat i with
  | Some x => mret x
  | None => panic "index out of range"
  end.

(** ** Machine integers *)

Section Words.
Local Open Scope Z_scope.

Definition u8 (z : Z) : Z := z mod 2 ^ 8.
Definition u32 (z : Z) : Z := z mod 2 ^ 32.
Definition u64 (z : Z) : Z := z mod 2 ^ 64.
(** Conversion to [int32]: two's complement. *)
Definition i32 (z : Z) : Z := (z + 2 ^ 31) mod 2 ^ 32 - 2 ^ 31.

Lemma u32_small z : 0 <= z < 2 ^ 32 -> u32 z = z.
Proof. intros. by apply Z.mod_small. Qed.

Lemma u64_small z : 0 <= z < 2 ^ 64 -> u64 z = z.
Proof. intros. by apply Z.mod_small. Qed.

Lemma u8_small z : 0 <= z < 2 ^ 8 -> u8 z = z.
Proof. intros. by apply Z.mod_small. Qed.

Lemma u32_range z : 0 <= u32 z < 2 ^ 32.
Proof. apply Z.mod_pos_bound. lia. Qed.

Lemma u64_range z : 0 <= u64 z < 2 ^ 64.
Proof. apply Z.mod_pos_bound. lia. Qed.

Lemma i32_small z : - 2 ^ 31 <= z < 2 ^ 31 -> i32 z = z.
Proof. intros. unfold i32. rewrite Z.mod_small; lia. Qed.

(** ** Little-endian encoding ([encoding/binary.LittleEndian]) *)

(** [PutUint32] / [AppendUint32]: the four bytes of a 32-bit value. *)
Definition le32 (v : Z) : list Z :=
  [u8 v; u8 (Z.shiftr v 8); u8 (Z.shiftr v 16); u8 (Z.shiftr v 24)].

(** [Uint32]: reads the first four bytes and panics when there are fewer. *)
Definition of_le32 (b : list Z) : outcome Z :=
  match b with
  | b0 :: b1 :: b2 :: b3 :: _ =>
      Val (Z.lor b0 (Z.lor (Z.shiftl b1 8) (Z.lor (Z.shiftl b2 16) (Z.shiftl b3 24))))
  | _ => Panic "index out of range"
  end.

Lemma le32_length v : length (le32 v) = 4%nat.
Proof. done. Qed.

Lemma le32_decode v rest : 0 <= v < 2 ^ 32 -> of_le32 (le32 v ++ rest) = Val v.
Proof.
  intros Hv. cbn. f_equal.
  apply Z.bits_inj'. intros n Hn.
  unfold u8.
  rewrite !Z.lor_spec, !Z.shiftl_spec by done.
  destruct (decide (n < 8)); [|destruct (decide (n < 16)); [|destruct (decide (n < 24)); [|destruct (decide (n < 32))]]].
  - rewrite Z.mod_pow2_bits_low by lia.
    rewrite !(Z.testbit_neg_r _ (n - _)) by lia. by rewrite !orb_false_r.
  - rewrite Z.mod_pow2_bits_high by lia. rewrite Z.mod_pow2_bits_low by lia.
    rewrite !(Z.testbit_neg_r _ (n - 16)), !(Z.testbit_neg_r _ (n - 24)) by lia.
    rewrite Z.shiftr_spec by lia. rewrite !orb_false_r, orb_false_l. f_equal; lia.
  - rewrite !(Z.mod_pow2_bits_high _ 8) by lia. rewrite Z.mod_pow2_bits_low by lia.
    rewrite !(Z.testbit_neg_r _ (n - 24)) by lia.
    rewrite Z.shiftr_spec by lia. rewrite !orb_false_r, !orb_false_l. f_equal; lia.
  - rewrite !(Z.mod_pow2_bits_high _ 8 (n - 16)), !(Z.mod_pow2_bits_high _ 8 (n - 8)), !(Z.mod_pow2_bits_high _ 8 n) by lia.
    rewrite Z.mod_pow2_bits_low by lia.
    rewrite Z.shiftr_spec by lia. rewrite !orb_false_l. f_equal; lia.
  - rewrite !Z.mod_pow2_bits_high by lia.
    symmetry. destruct (decide (v = 0)) as [->|]; [by rewrite Z.bits_0|].
    apply Z.bits_above_log2; [lia|]. apply Z.log2_lt_pow2; [lia|].
    eapply Z.lt_le_trans; [apply Hv|]. apply Z.pow_le_mono_r; lia.
Qed.

Lemma le32_decode_nil v : 0 <= v < 2 ^ 32 -> of_le32 (le32 v) = Val v.
Proof. intros. rewrite <- (app_nil_r (le32 v)). by apply le32_decode. Qed.

End Words.

(** ** Reasoning about effectful code *)

(** [returns m s Q]: from state [s] the call returns with a nil error, and its
    values and final state satisfy [Q]; [fails m s e Q]: it returns error [e]. *)
Definition returns {S A} (m : M S A) (s : S) (Q : A -> S -> Prop) : Prop :=
  exists a s', m s = (Val a, s') /\ Q a s'.
Definition fails {S A} (m : M S A) (s : S) (e : error) (Q : S -> Prop) : Prop :=
  exists s', m s = (Err e, s') /\ Q s'.

Section Returns.
Context {S : Type}.

Lemma returns_ret {A} (a : A) (s : S) (Q : A -> S -> Prop) :
  Q a s -> returns (mret a) s Q.
Proof. intros. by exists a, s. Qed.

(** The next call when the first one returns. *)
Lemma bind_Val {A B} (m : M S A) (f : A -> M S B) s a s' : m s = (Val a, s') -> (m ≫= f) s = f a s'.
Proof. intros H. unfold mbind, M_bind. by rewrite H. Qed.

Lemma returns_bind {A B} (m : M S A) (f : A -> M S B) s (Q : B -> S -> Prop) :
  returns m s (fun a s' => returns (f a) s' Q) -> returns (m ≫= f) s Q.
Proof.
  intros (a & s' & Hm & b & s'' & Hf & HQ).
  exists b, s''. split; [|done]. unfold mbind, M_bind. by rewrite Hm.
Qed.

Lemma returns_mono {A} (m : M S A) s (Q Q' : A -> S -> Prop) :
  (forall a s', Q a s' -> Q' a s') -> returns m s Q -> returns m s Q'.
Proof. intros HQ (a & s' & Hm & H). exists a, s'. eauto. Qed.

Lemma returns_catch {A} (m : M S A) s (Q : A + error -> S -> Prop) :
  returns m s (fun a s' => Q (inl a) s') -> returns (catch m) s Q.
Proof.
  intros (a & s' & Hm & HQ). exists (inl a), s'. split; [|done].
  unfold catch. by rewrite Hm.
Qed.

Lemma returns_catch_err {A} (m : M S A) s e (Q : A + error -> S -> Prop) :
  fails m s e (fun s' => Q (inr e) s') -> returns (catch m) s Q.
Proof.
  intros (s' & Hm & HQ). exists (inr e), s'. split; [|done].
  unfold catch. by rewrite Hm.
Qed.

Lemma returns_or_panic {A} (m : M S A) s (Q : A -> S -> Prop) :
  returns m s Q -> returns (or_panic m) s Q.
Proof.
  intros H. apply returns_bind, returns_catch.
  eapply returns_mono; [|exact H]. intros a s' HQ. by apply returns_ret.
Qed.

Lemma returns_ignore {A} (m : M S A) s (Q : unit -> S -> Prop) :
  returns m s (fun _ s' => Q tt s') -> returns (ignore m) s Q.
Proof.
  intros H. apply returns_bind, returns_catch.
  eapply returns_mono; [|exact H]. intros a s' HQ. by apply returns_ret.
Qed.

Lemma returns_gets {A} (f : S -> A) s (Q : A -> S -> Prop) :
  Q (f s) s -> returns (gets f) s Q.
Proof. intros. by exists (f s), s. Qed.

Lemma returns_get_state s (Q : S -> S -> Prop) : Q s s -> returns get_state s Q.
Proof. intros. by exists s, s. Qed.

Lemma returns_modify (f : S -> S) s (Q : unit -> S -> Prop) :
  Q tt (f s) -> returns (modify f) s Q.
Proof. intros. by exists tt, (f s). Qed.

Lemma returns_lift {A} (o : outcome A) a s (Q : A -> S -> Prop) :
  o = Val a -> Q a s -> returns (lift_outcome o) s Q.
Proof. intros -> HQ. by exists a, s. Qed.

Lemma returns_zoom {T A} (get : S -> T) (set : T -> S -> S) (m : M T A) s
    (Q : A -> S -> Prop) :
  returns m (get s) (fun a t => Q a (set t s)) -> returns (zoom get set m) s Q.
Proof.
  intros (a & t & Hm & HQ). exists a, (set t s). split; [|done].
  unfold zoom. by rewrite Hm.
Qed.

Lemma returns_index {A} (l : list A) (i : nat) x s (Q : A -> S -> Prop) :
  l !! i = Some x -> Q x s -> returns (index_at l (Z.of_nat i)) s Q.
Proof.
  intros Hl HQ. unfold index_at.
  rewrite (proj2 (Z.ltb_ge (Z.of_nat i) 0)) by lia.
  rewrite Nat2Z.id, Hl. by apply returns_ret.
Qed.

Lemma fails_bind {A B} (m : M S A) (f : A -> M S B) s e (Q : S -> Prop) :
  returns m s (fun a s' => fails (f a) s' e Q) -> fails (m ≫= f) s e Q.
Proof.
  intros (a & s' & Hm & s'' & Hf & HQ).
  exists s''. split; [|done]. unfold mbind, M_bind. by rewrite Hm.
Qed.

Lemma fails_bind_now {A B} (m : M S A) (f : A -> M S B) s e (Q : S -> Prop) :
  fails m s e Q -> fails (m ≫= f) s e Q.
Proof.
  intros (s' & Hm & HQ). exists s'. split; [|done].
  unfold mbind, M_bind. by rewrite Hm.
Qed.

Lemma fails_fail {A} k msg s (Q : S -> Prop) :
  Q s -> fails (A:=A) (fail k msg) s (mkError k msg) Q.
Proof. intros. by exists s. Qed.

Lemma fails_mono {A} (m : M S A) s e (Q Q' : S -> Prop) :
  (forall s', Q s' -> Q' s') -> fails m s e Q -> fails m s e Q'.
Proof. intros HQ (s' & Hm & H). exists s'. eauto. Qed.

End Returns.

(** [settles m s Q E]: the call returns values and a state in [Q], or an error and
    a state in [E]; it neither panics nor blocks. *)
Definition settles {S A} (m : M S A) (s : S) (Q : A -> S -> Prop) (E : S -> Prop) : Prop :=
  match m s with
  | (Val a, s') => Q a s'
  | (Err _, s') => E s'
  | _ => False
  end.

Section Settles.
Context {S : Type}.

Lemma settles_returns {A} (m : M S A) s Q E : returns m s Q -> settles m s Q E.
Proof. intros (a & s' & Hm & HQ). unfold settles. by rewrite Hm. Qed.

Lemma settles_bind {A B} (m : M S A) (f : A -> M S B) s Q E :
  settles m s (fun a s' => settles (f a) s' Q E) E -> settles (m ≫= f) s Q E.
Proof. unfold settles, mbind, M_bind. destruct (m s) as [[]]; done. Qed.

Lemma settles_mono {A} (m : M S A) s (Q Q' : A -> S -> Prop) (E E' : S -> Prop) :
  (forall a s', Q a s' -> Q' a s') -> (forall s', E s' -> E' s') -> settles m s Q E -> settles m s Q' E'.
Proof. intros HQ HE. unfold settles. destruct (m s) as [[]]; auto. Qed.

(** A call that returns, before the rest. *)
Lemma settles_after {A B} (m : M S A) (f : A -> M S B) s (R : A -> S -> Prop) Q E :
  returns m s R -> (forall a s', R a s' -> settles (f a) s' Q E) -> settles (m ≫= f) s Q E.
Proof. intros Hm Hf. apply settles_bind, settles_returns. eapply returns_mono; [|exact Hm]. exact Hf. Qed.

End Settles.

(** ** Locks *)

(** [sync.RWMutex]: its writer and the number of its readers. *)
Record RWMutex := mkMutex { mu_writer : bool; mu_readers : nat }.
Definition free_mutex : RWMutex := mkMutex false 0.

(** ** Filters that keep everything or nothing *)

Lemma filter_all {A} (P : A -> Prop) `{!forall x, Decision (P x)} (l : list A) : Forall P l -> filter P l = l.
Proof. induction 1 as [|x l Hx _ IH]; [done|]. by rewrite filter_cons_True, IH. Qed.

Lemma filter_none {A} (P : A -> Prop) `{!forall x, Decision (P x)} (l : list A) : Forall (fun x => ~ P x) l -> filter P l = [].
Proof. induction 1 as [|x l Hx _ IH]; [done|]. by rewrite filter_cons_False, IH. Qed.

(** [go_step] takes the next step of a monadic goal whose next call is a
    primitive of the monad; calls of the program are stepped with their own
    specification through [go_call]. *)
Ltac go_step :=
  lazymatch goal with
  | |- returns (mret _) _ _ => apply returns_ret
  | |- returns (mbind _ _) _ _ => apply returns_bind
  | |- returns (gets _) _ _ => apply returns_gets
  | |- returns get_state _ _ => apply returns_get_state
  | |- returns (modify _) _ _ => apply returns_modify
  | |- returns (catch _) _ _ => apply returns_catch
  | |- returns (or_panic _) _ _ => apply returns_or_panic
  | |- returns (ignore _) _ _ => apply returns_ignore
  | |- returns (zoom _ _ _) _ _ => apply returns_zoom
  | |- fails (mbind _ _) _ _ _ => apply fails_bind
  | |- fails (fail _ _) _ _ _ => apply fails_fail
  end.
Ltac go_steps := repeat (go_step; cbn beta).
Tactic Notation "go_call" uconstr(H) := eapply returns_mono; [|eapply H].

(** Destruct a conjunction/existential hypothesis completely. *)
Ltac dest := repeat match goal with
  | H : _ /\ _ |- _ => destruct H
  | H : exists _, _ |- _ => destruct H
  end.

Create HintDb baobab.
#[export] Hint Resolve u32_small u64_small u8_small i32_small : baobab.

(** ** Lists with one element replaced *)

Lemma omap_insert_none {A B} (f : A -> option B) (l : list A) i x y :
  l !! i = Some x -> f x = None -> omap f (<[i := y]> l) ≡ₚ option_list (f y) ++ omap f l.
Proof.
  intros Hi Hx. destruct (list_elem_of_split_length l i x Hi) as (l1 & l2 & -> & ->).
  rewrite insert_app_r_alt, Nat.sub_diag by lia. cbn. rewrite !omap_app. cbn. rewrite Hx.
  destruct (f y); cbn; [|done]. symmetry. apply Permutation_middle.
Qed.

Lemma omap_insert_some {A B} (f : A -> option B) (l : list A) i x y b :
  l !! i = Some x -> f x = Some b -> f y = None -> omap f l ≡ₚ b :: omap f (<[i := y]> l).
Proof.
  intros Hi Hx Hy. destruct (list_elem_of_split_length l i x Hi) as (l1 & l2 & -> & ->).
  rewrite insert_app_r_alt, Nat.sub_diag by lia. cbn. rewrite !omap_app. cbn. rewrite Hx, Hy.
  symmetry. apply Permutation_middle.
Qed.

Lemma omap_insert_same {A B} (f : A -> option B) (l : list A) i x y :
  l !! i = Some x -> f y = f x -> omap f (<[i := y]> l) = omap f l.
Proof.
  intros Hi Hx. destruct (list_elem_of_split_length l i x Hi) as (l1 & l2 & -> & ->).
  rewrite insert_app_r_alt, Nat.sub_diag by lia. cbn. rewrite !omap_app. cbn. by rewrite Hx.
Qed.

Lemma omap_delete_none {A B} (f : A -> option B) (l : list A) i x :
  l !! i = Some x -> f x = None -> omap f (delete i l) = omap f l.
Proof.
  intros Hi Hx. destruct (list_elem_of_split_length l i x Hi) as (l1 & l2 & -> & ->).
  rewrite delete_middle, !omap_app. cbn. by rewrite Hx.
Qed.

Lemma insert_not_nil {A} (l : list A) i x y : l !! i = Some x -> <[i := y]> l <> [].
Proof. intros Hi Hn. apply lookup_lt_Some in Hi. apply (f_equal length) in Hn. rewrite length_insert in Hn. cbn in Hn. lia. Qed.

Lemma alter_at {A} (f : A -> A) (l : list A) i x : l !! i = Some x -> alter f i l = <[i := f x]> l.
Proof.
  intros Hx. apply list_eq. intros k. rewrite list_lookup_alter. case_decide as E; [subst k|by rewrite list_lookup_insert_ne].
  rewrite Hx, list_lookup_insert_eq by (by eapply lookup_lt_Some). done.
Qed.
