(* ===== verification/Keys.v ===== *)
(** * Byte-string keys, their order, and sorted association lists

    Keys and values are Go [[]byte]: lists of bytes, a byte being a [Z].  This
    file models [bytes.Compare], the order every search of the tree uses, and
    gives the vocabulary of the tree's specification: open bounds, strictly
    sorted association lists, the insertion of a binding, and the finite map
    ([gmap]) such a list stands for. *)

From stdpp Require Export sorting.
From S2P Require Import Prelude.
Local Open Scope Z_scope.

(** [Abbreviation]s, so that the [gmap] and list instances see through them. *)
Abbreviation bytes := (list Z).

(** The bytes of a string. *)
Definition str (s : string) : bytes := (fun a => Z.of_N (Ascii.N_of_ascii a)) <$> String.list_ascii_of_string s.

(** [bytes.Compare] *)
Fixpoint bytes_compare (a b : bytes) : Z :=
  match a, b with
  | [], [] => 0
  | [], _ :: _ => -1
  | _ :: _, [] => 1
  | x :: a', y :: b' =>
      if x <? y then -1 else if y <? x then 1 else bytes_compare a' b'
  end.

Definition key_lt (a b : bytes) : Prop := bytes_compare a b = -1.
Definition key_le (a b : bytes) : Prop := a = b \/ key_lt a b.

Declare Scope key_scope.
Delimit Scope key_scope with key.
Infix "<k" := key_lt (at level 70) : key_scope.
Infix "≤k" := key_le (at level 70) : key_scope.
Local Open Scope key_scope.

(** ** The order *)

Lemma bytes_compare_eq a b : bytes_compare a b = 0 <-> a = b.
Proof.
  revert b. induction a as [|x a IH]; intros [|y b]; cbn; try (split; [lia|done]); [done|].
  destruct (Z.ltb_spec x y), (Z.ltb_spec y x); try (split; [lia|naive_solver lia]).
  rewrite IH. split; [intros ->; f_equal; lia|naive_solver].
Qed.

Lemma bytes_compare_opp a b : bytes_compare a b = - bytes_compare b a.
Proof.
  revert b. induction a as [|x a IH]; intros [|y b]; cbn; try done.
  destruct (Z.ltb_spec x y), (Z.ltb_spec y x); try lia. apply IH.
Qed.

Lemma bytes_compare_range a b :
  bytes_compare a b = -1 \/ bytes_compare a b = 0 \/ bytes_compare a b = 1.
Proof.
  revert b. induction a as [|x a IH]; intros [|y b]; cbn; try lia.
  destruct (x <? y); [lia|]. destruct (y <? x); [lia|]. apply IH.
Qed.

Lemma key_lt_trans a b c : a <k b -> b <k c -> a <k c.
Proof.
  unfold key_lt. revert b c.
  induction a as [|x a IH]; intros [|y b] [|z c]; cbn; try lia.
  destruct (Z.ltb_spec x y), (Z.ltb_spec y z), (Z.ltb_spec x z); try lia;
    destruct (Z.ltb_spec y x), (Z.ltb_spec z y), (Z.ltb_spec z x); try lia.
  apply IH.
Qed.

Lemma key_lt_irrefl a : ~ a <k a.
Proof. unfold key_lt. rewrite (proj2 (bytes_compare_eq a a) eq_refl). lia. Qed.

#[export] Instance key_lt_strict : StrictOrder key_lt.
Proof. split; [intros a; apply key_lt_irrefl|intros a b c; apply key_lt_trans]. Qed.
#[export] Instance key_lt_transitive : Transitive key_lt := key_lt_trans.

#[export] Instance key_lt_dec a b : Decision (a <k b).
Proof. unfold key_lt. apply _. Defined.

Lemma compare_gt a b : bytes_compare a b = 1 <-> b <k a.
Proof. unfold key_lt. rewrite (bytes_compare_opp a b). lia. Qed.

Lemma key_trichotomy a b : a <k b \/ a = b \/ b <k a.
Proof.
  destruct (bytes_compare_range a b) as [H|[H|H]]; [by left| |].
  - right. left. by apply bytes_compare_eq.
  - right. right. by apply compare_gt.
Qed.

Lemma key_lt_not_eq a b : a <k b -> a <> b.
Proof. intros H ->. by apply key_lt_irrefl in H. Qed.

Lemma key_nlt a b : ~ a <k b <-> b ≤k a.
Proof.
  destruct (key_trichotomy a b) as [H|[->|H]]; unfold key_le.
  - split; [done|]. intros [->|H']; [by apply key_lt_irrefl in H|].
    intros _. exact (key_lt_irrefl a (key_lt_trans a b a H H')).
  - split; [auto|]. intros _. apply key_lt_irrefl.
  - split; [auto|]. intros _ H'. exact (key_lt_irrefl a (key_lt_trans a b a H' H)).
Qed.

Lemma key_le_lt_trans a b c : a ≤k b -> b <k c -> a <k c.
Proof. intros [->|H]; [done|]. intros. by etrans. Qed.

Lemma key_lt_le_trans a b c : a <k b -> b ≤k c -> a <k c.
Proof. intros H [<-|H']; [done|]. by etrans. Qed.

Lemma key_lt_le a b : a <k b -> a ≤k b.
Proof. by right. Qed.

Lemma key_le_trans a b c : a ≤k b -> b ≤k c -> a ≤k c.
Proof. intros [->|H] H'; [done|]. right. by eapply key_lt_le_trans. Qed.

#[export] Hint Resolve key_lt_irrefl key_lt_le : baobab.
#[export] Hint Resolve key_lt_trans key_le_lt_trans key_lt_le_trans key_le_trans : baobab.

(** ** Open bounds: [None] is minus, respectively plus, infinity *)

Abbreviation bound := (option bytes).

Definition lo_ok (lo : bound) (k : bytes) : Prop :=
  match lo with None => True | Some b => b ≤k k end.
Definition hi_ok (k : bytes) (hi : bound) : Prop :=
  match hi with None => True | Some b => k <k b end.
(** [lo_lt lo k]: the separator [k] is strictly above the bound [lo]. *)
Definition lo_lt (lo : bound) (k : bytes) : Prop :=
  match lo with None => True | Some b => b <k k end.

Lemma lo_ok_le lo k k' : lo_ok lo k -> k ≤k k' -> lo_ok lo k'.
Proof. destruct lo; cbn; [apply key_le_trans|done]. Qed.
Lemma hi_ok_le k k' hi : k' ≤k k -> hi_ok k hi -> hi_ok k' hi.
Proof. destruct hi; cbn; [apply key_le_lt_trans|done]. Qed.
Lemma lo_lt_ok lo k : lo_lt lo k -> lo_ok lo k.
Proof. destruct lo; cbn; [apply key_lt_le|done]. Qed.

#[export] Hint Resolve lo_lt_ok : baobab.

(** ** Sorted association lists *)

Abbreviation kvs := (list (bytes * bytes)).

Definition sorted (ks : list bytes) : Prop := StronglySorted key_lt ks.

(** The specification of a put on a sorted list of bindings. *)
Fixpoint kv_insert (k v : bytes) (m : kvs) : kvs :=
  match m with
  | [] => [(k, v)]
  | (k', v') :: m' =>
      if decide (k <k k') then (k, v) :: m
      else if decide (k = k') then (k, v) :: m'
      else (k', v') :: kv_insert k v m'
  end.

(** The finite map a list of bindings stands for. *)
Definition to_map (m : kvs) : gmap bytes bytes := list_to_map m.

Lemma sorted_app_inv l1 l2 :
  sorted (l1 ++ l2) <->
  sorted l1 /\ sorted l2 /\ (forall x y, x ∈ l1 -> y ∈ l2 -> x <k y).
Proof.
  induction l1 as [|x l1 IH]; cbn.
  - split; [|naive_solver]. intros. split_and!; [constructor|done|].
    intros ? ? []%not_elem_of_nil.
  - split.
    + intros [Hs Hf]%StronglySorted_inv. apply IH in Hs as (H1 & H2 & H3).
      rewrite Forall_app, !Forall_forall in Hf. destruct Hf as [Hf1 Hf2].
      split_and!; [|done|].
      * constructor; [done|]. by apply Forall_forall.
      * intros a b [->|Ha]%elem_of_cons Hb; [by apply Hf2|by apply H3].
    + intros (H1 & H2 & H3). apply StronglySorted_inv in H1 as [H1 Hf].
      constructor.
      * apply IH. split_and!; [done|done|]. intros a b Ha. apply H3. by right.
      * apply Forall_app. split; [done|]. apply Forall_forall. intros b Hb.
        apply H3; [by left|done].
Qed.

Lemma sorted_take n l : sorted l -> sorted (take n l).
Proof. intros Hs. rewrite <- (take_drop n l) in Hs. by apply sorted_app_inv in Hs as [Hs _]. Qed.

Lemma sorted_drop n l : sorted l -> sorted (drop n l).
Proof. intros Hs. rewrite <- (take_drop n l) in Hs. by apply sorted_app_inv in Hs as (_ & Hs & _). Qed.

Lemma sorted_lookup l i j x y :
  sorted l -> l !! i = Some x -> l !! j = Some y -> (i < j)%nat -> x <k y.
Proof.
  intros Hs Hi Hj Hij.
  rewrite <- (take_drop_middle l i x Hi) in Hs.
  apply sorted_app_inv in Hs as (_ & Hs & _).
  apply StronglySorted_inv in Hs as [_ Hf].
  rewrite Forall_forall in Hf. apply Hf. apply list_elem_of_lookup.
  exists (j - S i)%nat. rewrite lookup_drop. rewrite <- Hj. f_equal. lia.
Qed.

Lemma sorted_nodup l : sorted l -> NoDup l.
Proof.
  induction l as [|x l IH]; intros H; [constructor|].
  apply StronglySorted_inv in H as [Hs Hf]. constructor; [|by apply IH].
  rewrite Forall_forall in Hf. intros Hx. by apply Hf, key_lt_irrefl in Hx.
Qed.

(** [kv_insert] in a split list: the position found by the search. *)
Lemma kv_insert_app_lt l r k v :
  Forall (fun p => p.1 <k k) l ->
  (match r with [] => True | (k', _) :: _ => k <k k' end) ->
  kv_insert k v (l ++ r) = l ++ (k, v) :: r.
Proof.
  intros Hl Hr. induction l as [|[k1 v1] l IH]; cbn.
  - destruct r as [|[k' v'] r]; cbn; [done|]. by rewrite decide_True.
  - apply Forall_cons in Hl as [H1 Hl]. cbn in H1.
    rewrite decide_False by (intros H; exact (key_lt_irrefl _ (key_lt_trans _ _ _ H H1))).
    rewrite decide_False by (intros ->; by apply key_lt_irrefl in H1).
    f_equal. by apply IH.
Qed.

Lemma kv_insert_app_eq l r k v v0 :
  Forall (fun p => p.1 <k k) l ->
  kv_insert k v (l ++ (k, v0) :: r) = l ++ (k, v) :: r.
Proof.
  intros Hl. induction l as [|[k1 v1] l IH]; cbn.
  - rewrite decide_False by apply key_lt_irrefl. by rewrite decide_True.
  - apply Forall_cons in Hl as [H1 Hl]. cbn in H1.
    rewrite decide_False by (intros H; exact (key_lt_irrefl _ (key_lt_trans _ _ _ H H1))).
    rewrite decide_False by (intros ->; by apply key_lt_irrefl in H1).
    f_equal. by apply IH.
Qed.

(** [kv_insert] acts on the part of a concatenation whose range holds the key. *)
Lemma kv_insert_app_mid l m r k v :
  Forall (fun p => p.1 <k k) l -> Forall (fun p => k <k p.1) r ->
  kv_insert k v (l ++ m ++ r) = l ++ kv_insert k v m ++ r.
Proof.
  intros Hl Hr. induction l as [|[k1 v1] l IH]; cbn.
  - clear Hl. induction m as [|[k1 v1] m IH]; cbn.
    + destruct r as [|[k' v'] r]; cbn; [done|].
      apply Forall_cons in Hr as [Hr _]. by rewrite decide_True.
    + case_decide; [done|]. case_decide; [done|]. cbn. f_equal. apply IH.
  - apply Forall_cons in Hl as [H1 Hl]. cbn in H1.
    rewrite decide_False by (intros H; exact (key_lt_irrefl _ (key_lt_trans _ _ _ H H1))).
    rewrite decide_False by (intros ->; by apply key_lt_irrefl in H1).
    f_equal. by apply IH.
Qed.

Lemma kv_insert_elem k v m p :
  p ∈ kv_insert k v m -> p = (k, v) \/ p ∈ m.
Proof.
  induction m as [|[k1 v1] m IH]; cbn.
  - set_solver.
  - case_decide; [set_solver|]. case_decide; [set_solver|].
    intros [->|H']%elem_of_cons; [set_solver|]. apply IH in H'. set_solver.
Qed.

Lemma kv_insert_sorted k v m : sorted m.*1 -> sorted (kv_insert k v m).*1.
Proof.
  induction m as [|[k1 v1] m IH]; cbn; intros Hs.
  - by repeat constructor.
  - pose proof Hs as [Hs' Hf]%StronglySorted_inv. case_decide as H1.
    + constructor; [done|]. constructor; [done|].
      eapply Forall_impl; [exact Hf|]. intros x Hx. cbn. by etrans.
    + case_decide as H2; cbn; [by subst|]. constructor; [by apply IH|].
      apply Forall_forall. intros x (p & -> & Hp)%list_elem_of_fmap.
      apply kv_insert_elem in Hp as [->|Hp]; cbn.
      * destruct (key_trichotomy k k1) as [|[|]]; done.
      * rewrite Forall_forall in Hf. apply Hf. apply list_elem_of_fmap. eauto.
Qed.

Lemma to_map_kv_insert k v m : sorted m.*1 -> to_map (kv_insert k v m) = <[k:=v]> (to_map m).
Proof.
  induction m as [|[k1 v1] m IH]; cbn; intros Hs; [done|].
  apply StronglySorted_inv in Hs as [Hs _].
  case_decide; [done|]. case_decide as H2; cbn.
  - subst. by rewrite insert_insert_eq.
  - unfold to_map in IH. rewrite IH by done. by rewrite insert_insert_ne.
Qed.

Lemma to_map_lookup_Some k v m : sorted m.*1 -> to_map m !! k = Some v <-> (k, v) ∈ m.
Proof.
  intros Hs. symmetry. apply elem_of_list_to_map. by apply sorted_nodup.
Qed.

Lemma to_map_lookup_None k (m : kvs) : to_map m !! k = None <-> k ∉ m.*1.
Proof. symmetry. apply not_elem_of_list_to_map. Qed.

(** A finite map has one sorted list of bindings. *)
Definition pair_lt (p q : bytes * bytes) : Prop := p.1 <k q.1.

#[export] Instance pair_lt_antisym : AntiSymm (=) pair_lt.
Proof. intros p q H1 H2. exfalso. exact (key_lt_irrefl _ (key_lt_trans _ _ _ H1 H2)). Qed.

Lemma sorted_pairs m : sorted m.*1 -> StronglySorted pair_lt m.
Proof.
  induction m as [|p m IH]; intros Hs; [constructor|]. apply StronglySorted_inv in Hs as [Hs Hf].
  constructor; [by apply IH|]. exact (proj1 (Forall_fmap fst (key_lt p.1) m) Hf).
Qed.

Lemma to_map_inj m1 m2 : sorted m1.*1 -> sorted m2.*1 -> to_map m1 = to_map m2 -> m1 = m2.
Proof.
  intros H1 H2 H. apply (StronglySorted_unique pair_lt); [by apply sorted_pairs|by apply sorted_pairs|].
  apply list_to_map_inj; [by apply sorted_nodup|by apply sorted_nodup|done].
Qed.
