(* ===== verification/Files.v ===== *)
(** * Files as byte lists

    The calls of [os.File] the repository uses: positioned reads and writes,
    truncation.  A write past the end fills the gap with zero bytes. *)

From S2P Require Import Prelude Keys.
Local Open Scope Z_scope.

(** [fd.ReadAt(buf, off)] with a buffer of [n] bytes: what was read, and whether
    the end of the file came first. *)
Definition ReadAt (fd : bytes) (n off : Z) : bytes * bool :=
  let b := take (Z.to_nat n) (drop (Z.to_nat off) fd) in
  (b, Z.of_nat (length b) <? n).

(** [fd.Truncate(size)]: cut, or extend with zeros. *)
Definition Truncate (fd : bytes) (size : Z) : bytes :=
  take (Z.to_nat size) fd ++ replicate (Z.to_nat size - length fd) 0.

(** [fd.WriteAt(data, off)] *)
Definition WriteAt (fd data : bytes) (off : Z) : bytes :=
  let o := Z.to_nat off in
  take o fd ++ replicate (o - length fd) 0 ++ data ++ drop (o + length data) fd.

(** The content of [n] bytes at [off]. *)
Definition region (fd : bytes) (off n : nat) : bytes := take n (drop off fd).

Lemma ReadAt_region fd n off : ReadAt fd n off = (region fd (Z.to_nat off) (Z.to_nat n),
  Z.of_nat (length (region fd (Z.to_nat off) (Z.to_nat n))) <? n).
Proof. done. Qed.

Lemma WriteAt_length fd data off :
  length (WriteAt fd data off) = Nat.max (length fd) (Z.to_nat off + length data).
Proof.
  unfold WriteAt. rewrite !length_app, length_take, length_replicate, length_drop. lia.
Qed.

Lemma WriteAt_prefix (fd : bytes) off : length (take (Z.to_nat off) fd ++ replicate (Z.to_nat off - length fd) 0) = Z.to_nat off.
Proof. rewrite length_app, length_take, length_replicate. lia. Qed.

(** What was written is read back. *)
Lemma region_write_same fd data off : region (WriteAt fd data off) (Z.to_nat off) (length data) = data.
Proof.
  unfold region, WriteAt. rewrite (app_assoc (take _ _)).
  rewrite drop_app_length' by (by rewrite WriteAt_prefix). by rewrite take_app_length.
Qed.

(** A region that ends before the write, inside the old file. *)
Lemma region_write_before fd data off o n :
  (o + n <= Z.to_nat off)%nat -> (o + n <= length fd)%nat ->
  region (WriteAt fd data off) o n = region fd o n.
Proof.
  intros H1 H2. unfold region, WriteAt.
  rewrite !take_drop_commute. f_equal. rewrite take_app_le by (rewrite length_take; lia).
  rewrite take_take. f_equal. lia.
Qed.

(** A region that starts after the write. *)
Lemma region_write_after fd data off o n :
  (Z.to_nat off + length data <= o)%nat -> region (WriteAt fd data off) o n = region fd o n.
Proof.
  intros H. unfold region, WriteAt. rewrite (app_assoc (take _ _)), drop_app_ge by (rewrite WriteAt_prefix; lia).
  rewrite WriteAt_prefix, drop_app_ge by lia. rewrite drop_drop. do 2 f_equal. lia.
Qed.
