(* ===== verification/Float64.v ===== *)
(** * Binary64 arithmetic

    Go's [float64] as the IEEE binary64 numbers of the Standard Library's
    [SpecFloat], which are data and can be computed with.  The operations round to
    nearest, ties to even, as the language asks for; [Floor], [Ceil], [Round], [Log],
    [Exp] and [Pow] are those of package [math] in their portable versions.  The
    conversion to [uint64] is undefined for
    numbers that do not fit, as in the language. *)

From Stdlib Require Import SpecFloat.
From S2P Require Import Prelude.
Local Open Scope Z_scope.

Abbreviation float64 := spec_float.

Definition prec : Z := 53.
Definition emax : Z := 1024.

Definition fadd : float64 -> float64 -> float64 := SFadd prec emax.
Definition fsub : float64 -> float64 -> float64 := SFsub prec emax.
Definition fmul : float64 -> float64 -> float64 := SFmul prec emax.
Definition fdiv : float64 -> float64 -> float64 := SFdiv prec emax.

Declare Scope float64_scope.
Delimit Scope float64_scope with f64.
Infix "+" := fadd : float64_scope.
Infix "-" := fsub : float64_scope.
Infix "*" := fmul : float64_scope.
Infix "/" := fdiv : float64_scope.
Infix "<=?" := SFleb : float64_scope.
Infix "<?" := SFltb : float64_scope.

(** The conversion of an integer, and a constant given as a fraction: the nearest
    number. *)
Definition of_int (z : Z) : float64 := binary_normalize prec emax z 0 false.
Definition const (p q : Z) : float64 := fdiv (of_int p) (of_int q).

(** A normal number from its bits. *)
Definition of_bits (b : Z) : float64 :=
  let m := Z.land b (Z.ones 52) + 2 ^ 52 in
  let e := Z.land (Z.shiftr b 52) (Z.ones 11) - 1075 in
  S754_finite (Z.testbit b 63) (Z.to_pos m) e.

(** The integer next to a number: [up s q r d] decides whether [q + r/d] is rounded
    away from zero.  Zeros keep their sign, infinities and NaN are left alone. *)
Definition to_integer (up : bool -> Z -> Z -> Z -> bool) (x : float64) : float64 :=
  match x with
  | S754_finite s m e =>
      if 0 <=? e then x
      else
        let d := 2 ^ (- e) in
        let q := Zpos m / d in
        let n := if up s q (Zpos m mod d) d then q + 1 else q in
        if n =? 0 then S754_zero s else of_int (if s then - n else n)
  | _ => x
  end.

(** Half away from zero. *)
Definition Round : float64 -> float64 := to_integer (fun _ _ r d => d <=? 2 * r).
Definition Ceil : float64 -> float64 := to_integer (fun s _ r _ => negb s && (0 <? r)).
Definition Floor : float64 -> float64 := to_integer (fun s _ r _ => s && (0 <? r)).

(** [uint64(x)]: towards zero; [None] where the result is up to the implementation. *)
Definition to_uint64 (x : float64) : option Z :=
  match x with
  | S754_zero _ => Some 0
  | S754_finite s m e =>
      let n := if 0 <=? e then Zpos m * 2 ^ e else Zpos m / 2 ^ (- e) in
      if s && (0 <? n) || (2 ^ 64 <=? n) then None else Some n
  | _ => None
  end.

(** *** The natural logarithm *)

Definition Ln2Hi : float64 := of_bits 0x3FE62E42FEE00000.
Definition Ln2Lo : float64 := of_bits 0x3DEA39EF35793C76.
Definition L1 : float64 := of_bits 0x3FE5555555555593.
Definition L2 : float64 := of_bits 0x3FD999999997FA04.
Definition L3 : float64 := of_bits 0x3FD2492494229359.
Definition L4 : float64 := of_bits 0x3FCC71C51D8E78AF.
Definition L5 : float64 := of_bits 0x3FC7466496CB03DE.
Definition L6 : float64 := of_bits 0x3FC39A09D078C69F.
Definition L7 : float64 := of_bits 0x3FC2F112DF3E5244.
Definition HalfSqrt2 : float64 := of_bits 0x3FE6A09E667F3BCD.

Local Open Scope float64_scope.

Definition Log (x : float64) : float64 :=
  match x with
  | S754_nan | S754_infinity false => x
  | S754_zero _ => S754_infinity true
  | S754_infinity true | S754_finite true _ _ => S754_nan
  | S754_finite false _ _ =>
      let '(f1, ki) := SFfrexp prec emax x in
      let '(f1, ki) := if f1 <? HalfSqrt2 then (f1 * of_int 2, (ki - 1)%Z) else (f1, ki) in
      let f := f1 - of_int 1 in
      let k := of_int ki in
      let s := f / (of_int 2 + f) in
      let s2 := s * s in
      let s4 := s2 * s2 in
      let t1 := s2 * (L1 + s4 * (L3 + s4 * (L5 + s4 * L7))) in
      let t2 := s4 * (L2 + s4 * (L4 + s4 * L6)) in
      let R := t1 + t2 in
      let hfsq := const 1 2 * f * f in
      k * Ln2Hi - ((hfsq - (s * (hfsq + R) + k * Ln2Lo)) - f)
  end.

(** *** The exponential *)

Definition Log2e : float64 := of_bits 0x3FF71547652B82FE.
Definition Overflow : float64 := of_bits 0x40862E42FEFA39EF.
Definition Underflow : float64 := of_bits 0xC0874910D52D3051.
Definition NearZero : float64 := const 1 (2 ^ 28).
Definition P1 : float64 := of_bits 0x3FC5555555555555.
Definition P2 : float64 := of_bits 0xBF66C16C16BEBD93.
Definition P3 : float64 := of_bits 0x3F11566AAF25DE2C.
Definition P4 : float64 := of_bits 0xBEBBBD41C5D26BF1.
Definition P5 : float64 := of_bits 0x3E66376972BEA4D0.

(** [int(x)] of a finite number: towards zero. *)
Definition trunc (x : float64) : Z :=
  match x with
  | S754_finite s m e =>
      let n := if (0 <=? e)%Z then (Zpos m * 2 ^ e)%Z else (Zpos m / 2 ^ (- e))%Z in
      if s then (- n)%Z else n
  | _ => 0%Z
  end.

(** [e^r * 2^k] for [r = hi - lo]. *)
Definition expmulti (hi lo : float64) (k : Z) : float64 :=
  let r := hi - lo in
  let t := r * r in
  let c := r - t * (P1 + t * (P2 + t * (P3 + t * (P4 + t * P5)))) in
  let y := of_int 1 - ((lo - (r * c) / (of_int 2 - c)) - hi) in
  SFldexp prec emax y k.

Definition Exp (x : float64) : float64 :=
  match x with
  | S754_nan | S754_infinity false => x
  | S754_infinity true => S754_zero false
  | _ =>
      if Overflow <? x then S754_infinity false
      else if x <? Underflow then S754_zero false
      else if (SFopp NearZero <? x) && (x <? NearZero) then of_int 1 + x
      else
        let k := if x <? of_int 0 then trunc (Log2e * x - const 1 2) else trunc (Log2e * x + const 1 2) in
        expmulti (x - of_int k * Ln2Hi) (of_int k * Ln2Lo) k
  end.

(** *** Powers *)

Definition sign_bit (x : float64) : bool :=
  match x with
  | S754_zero s | S754_infinity s | S754_finite s _ _ => s
  | S754_nan => false
  end.
Definition is_inf (x : float64) : bool := match x with S754_infinity _ => true | _ => false end.
Definition is_zero (x : float64) : bool := match x with S754_zero _ => true | _ => false end.

Definition isOddInt (x : float64) : bool :=
  (SFabs x <? of_int (2 ^ 53)) && SFeqb (of_int (trunc x)) x && Z.odd (trunc x).

(** The bits of [i] from the lowest on: [a1 * 2^ae] times [(x1 * 2^xe)^i]. *)
Fixpoint pow_loop (fuel : nat) (i : Z) (a1 x1 : float64) (ae xe : Z) : float64 * Z :=
  match fuel with
  | O => (a1, ae)
  | S fuel' =>
      if (i =? 0)%Z then (a1, ae)
      else if (xe <? - 2 ^ 12)%Z || (2 ^ 12 <? xe)%Z then (a1, (ae + xe)%Z)
      else
        let '(a1, ae) := if Z.odd i then (a1 * x1, (ae + xe)%Z) else (a1, ae) in
        let x1 := x1 * x1 in
        let xe := (2 * xe)%Z in
        let '(x1, xe) := if x1 <? const 1 2 then (x1 + x1, (xe - 1)%Z) else (x1, xe) in
        pow_loop fuel' (i / 2)%Z a1 x1 ae xe
  end.

(** A base that is finite and not zero, and a finite exponent; the loop halves a
    63-bit number. *)
Definition pow_finite (x y : float64) : float64 :=
  let yi := trunc (SFabs y) in
  let yf := SFabs y - of_int yi in
  if negb (is_zero yf) && (x <? of_int 0) then S754_nan
  else if (2 ^ 63 <=? yi)%Z then
    if SFeqb x (of_int (-1)) then of_int 1
    else if Bool.eqb (SFabs x <? of_int 1) (of_int 0 <? y) then of_int 0 else S754_infinity false
  else
    let '(a1, yi) :=
      if is_zero yf then (of_int 1, yi)
      else
        let '(yf, yi) := if const 1 2 <? yf then (yf - of_int 1, (yi + 1)%Z) else (yf, yi) in
        (Exp (yf * Log x), yi) in
    let '(x1, xe) := SFfrexp prec emax x in
    let '(a1, ae) := pow_loop 64 yi a1 x1 0 xe in
    if y <? of_int 0 then SFldexp prec emax (of_int 1 / a1) (- ae) else SFldexp prec emax a1 ae.

(** An infinite base is inverted when it is negative: [Pow(-0, -y)]. *)
Definition pow_zero (x y : float64) : float64 :=
  if y <? of_int 0 then (if sign_bit x && isOddInt y then S754_infinity true else S754_infinity false)
  else (if sign_bit x && isOddInt y then x else of_int 0).

Definition Pow (x y : float64) : float64 :=
  if is_zero y || SFeqb x (of_int 1) then of_int 1
  else if SFeqb y (of_int 1) then x
  else match x, y with
  | S754_nan, _ | _, S754_nan => S754_nan
  | S754_zero _, _ => pow_zero x y
  | _, S754_infinity s =>
      if SFeqb x (of_int (-1)) then of_int 1
      else if Bool.eqb (SFabs x <? of_int 1) (negb s) then of_int 0 else S754_infinity false
  | S754_infinity true, _ => pow_zero (S754_zero true) (SFopp y)
  | S754_infinity false, _ => if y <? of_int 0 then of_int 0 else S754_infinity false
  | S754_finite _ _ _, _ =>
      if SFeqb y (const 1 2) then SFsqrt prec emax x
      else if SFeqb y (const (-1) 2) then of_int 1 / SFsqrt prec emax x
      else pow_finite x y
  end.

(** Known values. *)
Example Log_values : Log (of_int 1) = S754_zero false /\ Log (const 1 2) = of_bits 0xBFE62E42FEFA39EF /\ Log (of_int 10) = of_bits 0x40026BB1BBB55516.
Proof. vm_compute. done. Qed.

Example Round_half : Round (const 5 2) = of_int 3 /\ Round (const (-5) 2) = of_int (-3) /\ Ceil (const 1 4) = of_int 1 /\ Floor (const (-1) 4) = of_int (-1).
Proof. vm_compute. done. Qed.

Example Exp_values : Exp (of_int 1) = of_bits 0x4005BF0A8B145769 /\ Exp (of_int (-1)) = of_bits 0x3FD78B56362CEF38 /\ Exp (of_int 0) = of_int 1.
Proof. vm_compute. done. Qed.

Example Pow_values : Pow (of_int 3) (of_int 5) = of_int 243 /\ Pow (of_int 2) (of_int (-3)) = const 1 8 /\ Pow (of_int 9) (const 1 2) = of_int 3 /\
  Pow (of_int 0) (of_int (-2)) = S754_infinity false /\ Pow (of_int (-8)) (const 1 3) = S754_nan.
Proof. vm_compute. done. Qed.
