(* ===== verification/Helpers.v ===== *)
(** * Shared helpers ([pkg/helpers/helpers.go])

    Searches and updates of slices, log-sequence-number comparison, flag bits
    and page arithmetic, each as the function of the same name.  Slices are
    lists; an index is a Go [int], a [Z]. *)

From S2P Require Import Prelude Keys.
Local Open Scope Z_scope.
Local Open Scope key_scope.

(** ** Binary search for an insertion position *)

Section InsertBinarySearch.

(** The recursion of [InsertBinarySearch]; every recursive call is on a strictly
    shorter slice, so [length sortedList] calls are enough. *)
Fixpoint InsertBinarySearch_rec (fuel : nat) (sortedList : list bytes) (searchKey : bytes)
    (startIdx : Z) : outcome Z :=
  match fuel with
  | O => OutOfFuel
  | S fuel' =>
      let l := length sortedList in
      let m := (l / 2)%nat in
      match sortedList !! m with
      | None => Panic "index out of range"
      | Some km =>
          if bytes_compare km searchKey =? 0 then Val (Z.of_nat m + startIdx)
          else if (l =? 1)%nat then Val (Z.of_nat m + startIdx)
          else match sortedList !! pred m with
          | None => Panic "index out of range"
          | Some km1 =>
              if (bytes_compare searchKey km =? -1) && (bytes_compare searchKey km1 =? 1)
              then Val (Z.of_nat m + startIdx)
              else if bytes_compare km searchKey =? 1
              then InsertBinarySearch_rec fuel' (take m sortedList) searchKey startIdx
              else if bytes_compare km searchKey =? -1
              then InsertBinarySearch_rec fuel' (drop m sortedList) searchKey (Z.of_nat m + startIdx)
              else Val (-1)
          end
      end
  end.

Definition InsertBinarySearch (sortedList : list bytes) (searchKey : bytes) (startIdx : Z)
    : outcome Z :=
  InsertBinarySearch_rec (S (length sortedList)) sortedList searchKey startIdx.

(** A position [i] splits the slice around the key: everything before it is
    smaller and everything after it is greater. *)
Definition splits_at (l : list bytes) (k : bytes) (i : nat) (x : bytes) : Prop :=
  l !! i = Some x /\ Forall (fun y => y <k k) (take i l) /\ Forall (fun y => k <k y) (drop (S i) l).

Lemma splits_at_of_eq l k i : sorted l -> l !! i = Some k -> splits_at l k i k.
Proof.
  intros Hs Hi. split; [done|].
  rewrite <- (take_drop_middle l i k Hi) in Hs.
  apply sorted_app_inv in Hs as (_ & Hs & Hlt).
  apply StronglySorted_inv in Hs as [_ Hf]. split; [|done].
  apply Forall_forall. intros y Hy. apply Hlt; [done|by left].
Qed.

Lemma splits_at_of_gap l k i x x1 :
  sorted l -> l !! S i = Some x -> l !! i = Some x1 -> k <k x -> x1 <k k -> splits_at l k (S i) x.
Proof.
  intros Hs Hx Hx1 Hkx Hx1k. split; [done|]. split; apply Forall_forall; intros y Hy.
  - apply list_elem_of_lookup in Hy as (j & Hj). apply lookup_take_Some in Hj as [Hj Hlt].
    destruct (decide (j = i)) as [->|]; [naive_solver|].
    etrans; [|exact Hx1k]. eapply (sorted_lookup l j i); eauto. lia.
  - apply list_elem_of_lookup in Hy as (j & Hj). rewrite lookup_drop in Hj.
    etrans; [exact Hkx|]. eapply (sorted_lookup l (S i)); eauto. lia.
Qed.

Lemma splits_at_take l k m i x xm :
  sorted l -> l !! m = Some xm -> k <k xm -> splits_at (take m l) k i x -> splits_at l k i x.
Proof.
  intros Hs Hm Hk (Hi & Hb & Ha).
  apply lookup_take_Some in Hi as [Hi Hlt].
  split; [done|]. rewrite take_take, Nat.min_l in Hb by lia. split; [done|].
  rewrite <- (take_drop m l), drop_app_le by (rewrite length_take; apply lookup_lt_Some in Hm; lia).
  apply Forall_app. split; [done|]. apply Forall_forall. intros y Hy.
  apply list_elem_of_lookup in Hy as (j & Hj). rewrite lookup_drop in Hj.
  destruct (decide (j = 0)%nat) as [->|].
  - rewrite Nat.add_0_r in Hj. naive_solver.
  - etrans; [exact Hk|]. eapply (sorted_lookup l m); eauto. lia.
Qed.

Lemma splits_at_drop l k m i x xm :
  sorted l -> l !! m = Some xm -> xm <k k -> splits_at (drop m l) k i x -> splits_at l k (m + i) x.
Proof.
  intros Hs Hm Hk (Hi & Hb & Ha). rewrite lookup_drop in Hi. rewrite drop_drop in Ha.
  split; [done|]. split; [|by replace (S (m + i)) with (m + S i)%nat by lia].
  apply Forall_forall. intros y Hy.
  apply list_elem_of_lookup in Hy as (j & Hj). apply lookup_take_Some in Hj as [Hj Hlt].
  destruct (decide (j < m)%nat).
  - etrans; [|exact Hk]. by eapply (sorted_lookup l j m).
  - rewrite Forall_forall in Hb. apply Hb, list_elem_of_lookup. exists (j - m)%nat.
    rewrite lookup_take_lt, lookup_drop by lia. rewrite <- Hj. f_equal. lia.
Qed.

Lemma splits_at_single x k : splits_at [x] k 0 x.
Proof. split_and!; [done|constructor|constructor]. Qed.

Lemma drop_ne_nil {A} n (l : list A) : (n < length l)%nat -> drop n l <> [].
Proof. intros Hn H. apply (f_equal length) in H. rewrite length_drop in H. cbn [length] in H. lia. Qed.

Lemma take_ne_nil {A} n (l : list A) : l <> [] -> (0 < n)%nat -> take n l <> [].
Proof. intros Hl Hn. destruct l, n; cbn; [done|done|lia|done]. Qed.

Lemma InsertBinarySearch_rec_spec fuel l k start :
  sorted l -> l <> [] -> (length l < fuel)%nat ->
  exists i x, InsertBinarySearch_rec fuel l k start = Val (Z.of_nat i + start) /\ splits_at l k i x.
Proof.
  revert l start. induction fuel as [|fuel IH]; intros l start Hs Hne Hf; [lia|].
  cbn [InsertBinarySearch_rec]. destruct l as [|x0 l0] eqn:El; [done|]. rewrite <- El in *.
  assert (0 < length l)%nat as Hlen by (subst; cbn; lia).
  remember (length l / 2)%nat as m eqn:Em.
  assert (Hm : (m < length l)%nat) by (subst m; apply Nat.div_lt; lia).
  destruct (lookup_lt_is_Some_2 _ _ Hm) as [km Hkm]. rewrite Hkm.
  destruct (Z.eqb_spec (bytes_compare km k) 0) as [E|E].
  { apply bytes_compare_eq in E as ->. exists m, k. split; [done|]. by apply splits_at_of_eq. }
  destruct (Nat.eqb_spec (length l) 1) as [E1|E1].
  { assert (m = 0)%nat as Hm0 by (subst m; by rewrite E1). clear Em. subst m.
    exists 0%nat, x0. split; [done|]. subst l. destruct l0; [|done]. apply splits_at_single. }
  assert (Hm1 : (1 <= m)%nat) by (subst m; apply Nat.div_le_lower_bound; lia).
  clear Em. destruct m as [|m']; [lia|]. cbn [pred].
  destruct (lookup_lt_is_Some_2 l m' ltac:(lia)) as [km1 Hkm1]. rewrite Hkm1.
  destruct (Z.eqb_spec (bytes_compare k km) (-1)) as [E2|E2],
    (Z.eqb_spec (bytes_compare k km1) 1) as [E3|E3]; cbn [andb].
  1: { exists (S m'), km. split; [done|]. apply compare_gt in E3.
       by apply (splits_at_of_gap l k m' km km1). }
  all: pose proof (bytes_compare_range km k) as Hr; pose proof (bytes_compare_opp k km) as Ho.
  all: destruct (Z.eqb_spec (bytes_compare km k) 1) as [E4|E4];
    [|destruct (Z.eqb_spec (bytes_compare km k) (-1)) as [E5|E5]; [|lia]].
  all: try lia.
  1: destruct (IH (take (S m') l) start) as (i & x & -> & Hi);
    [by apply sorted_take|apply take_ne_nil; [done|lia]|rewrite length_take; lia|].
  1: { exists i, x. split; [done|]. apply compare_gt in E4. by apply (splits_at_take l k (S m') i x km). }
  all: destruct (IH (drop (S m') l) (Z.of_nat (S m') + start)) as (i & x & -> & Hi);
    [by apply sorted_drop|by apply drop_ne_nil|rewrite length_drop; lia|].
  all: exists (S m' + i)%nat, x; split; [f_equal; lia|by apply (splits_at_drop l k (S m') i x km)].
Qed.

End InsertBinarySearch.

Lemma InsertBinarySearch_spec l k start :
  sorted l -> l <> [] ->
  exists i x, InsertBinarySearch l k start = Val (Z.of_nat i + start) /\ splits_at l k i x.
Proof. intros. apply InsertBinarySearch_rec_spec; [done|done|lia]. Qed.

(** *** The same position by a linear scan *)

(** The number of keys below [k]; in a sorted slice, the index of the first key
    that is not below it. *)
Definition below (k : bytes) (l : list bytes) : nat := length (filter (fun y => y <k k) l).

(** The reference for the search: scan from the front, and stay in the slice. *)
Definition linear_position (l : list bytes) (k : bytes) : nat := Nat.min (below k l) (length l - 1).

Section Linear.
Context (l : list bytes) (k : bytes) (m : nat) (x : bytes).
Context (Hs : sorted l) (Hm : l !! m = Some x).

Lemma below_split : below k l = (below k (take m l) + below k (drop m l))%nat.
Proof. unfold below. by rewrite <- length_app, <- filter_app, take_drop. Qed.

Lemma below_take : k ≤k x -> below k l = below k (take m l).
Proof.
  intros Hk. rewrite below_split. assert (below k (drop m l) = 0%nat) as ->; [|lia].
  unfold below. rewrite filter_none; [done|]. apply Forall_forall. intros y Hin Hy.
  apply list_elem_of_lookup in Hin as (j & Hj). rewrite lookup_drop in Hj.
  destruct (decide (j = 0)%nat) as [->|Hj0].
  - rewrite Nat.add_0_r, Hm in Hj. injection Hj as ->. by apply key_nlt in Hk.
  - pose proof (sorted_lookup l m (m + j) x y Hs Hm Hj ltac:(lia)) as Hxy.
    exact (key_lt_irrefl _ (key_lt_le_trans _ _ _ Hxy (key_le_trans _ _ _ (key_lt_le _ _ Hy) Hk))).
Qed.

Lemma below_prefix : (forall y, y ∈ take m l -> y <k k) -> below k (take m l) = m.
Proof.
  intros Hall. unfold below. rewrite filter_all by (by apply Forall_forall).
  rewrite length_take. apply lookup_lt_Some in Hm. lia.
Qed.

Lemma below_drop : x <k k -> below k l = (m + below k (drop m l))%nat /\ (1 <= below k (drop m l))%nat.
Proof.
  intros Hk. rewrite below_split, below_prefix.
  - split; [done|]. unfold below. rewrite (drop_S _ _ _ Hm), filter_cons_True by done. cbn. lia.
  - intros y Hy. apply list_elem_of_lookup in Hy as (j & Hj). apply lookup_take_Some in Hj as [Hj Hlt].
    etrans; [|exact Hk]. by eapply (sorted_lookup l j m).
Qed.

End Linear.

Lemma below_at l k i : sorted l -> l !! i = Some k -> below k l = i.
Proof.
  intros Hs Hi. rewrite (below_take l k i k Hs Hi (or_introl eq_refl)). apply (below_prefix l k i k Hi).
  intros y Hy. destruct (splits_at_of_eq l k i Hs Hi) as (_ & Hb & _). rewrite Forall_forall in Hb. auto.
Qed.

Lemma InsertBinarySearch_rec_linear fuel : forall l k start, sorted l -> l <> [] -> (length l < fuel)%nat ->
  InsertBinarySearch_rec fuel l k start = Val (Z.of_nat (linear_position l k) + start).
Proof.
  induction fuel as [|fuel IH]; intros l k start Hs Hne Hf; [lia|]. cbn [InsertBinarySearch_rec].
  remember (length l / 2)%nat as m eqn:Em. assert (Hlen : (0 < length l)%nat) by (destruct l; [done|cbn; lia]).
  assert (Hm : (m < length l)%nat) by (subst m; apply Nat.div_lt; lia).
  destruct (lookup_lt_is_Some_2 _ _ Hm) as [km Hkm]. rewrite Hkm. unfold linear_position.
  destruct (Z.eqb_spec (bytes_compare km k) 0) as [E|E].
  { apply bytes_compare_eq in E as ->. rewrite (below_at l k m Hs Hkm). do 2 f_equal. lia. }
  destruct (Nat.eqb_spec (length l) 1) as [E1|E1]; [rewrite E1 in *; cbn in Em; subst m; do 2 f_equal; lia|].
  assert (Hm1 : (1 <= m)%nat) by (subst m; apply Nat.div_le_lower_bound; lia).
  clear Em. destruct m as [|m]; [lia|]. cbn [pred].
  destruct (lookup_lt_is_Some_2 l m ltac:(lia)) as [km1 Hkm1]. rewrite Hkm1.
  destruct (key_trichotomy k km) as [Hlt|[->|Hgt]]; [|by rewrite (proj2 (bytes_compare_eq km km)) in E|].
  - rewrite (proj2 (Z.eqb_eq _ _) Hlt). cbn [andb]. pose proof (below_take l k (S m) km Hs Hkm (key_lt_le _ _ Hlt)) as Hb.
    destruct (Z.eqb_spec (bytes_compare k km1) 1) as [Hgap%compare_gt|Hnot].
    + rewrite Hb, (below_prefix l k (S m) km Hkm); [do 2 f_equal; lia|]. intros y Hy.
      destruct (splits_at_of_gap l k m km km1 Hs Hkm Hkm1 Hlt Hgap) as (_ & Hall & _). rewrite Forall_forall in Hall. auto.
    + assert (Hk1 : k ≤k km1) by (apply key_nlt; intros H; by apply compare_gt in H).
      rewrite (proj2 (Z.eqb_eq _ _) (proj2 (compare_gt km k) Hlt)), IH;
        [|by apply sorted_take|apply take_ne_nil; [done|lia]|rewrite length_take; lia].
      unfold linear_position. rewrite <- Hb, length_take. pose proof (below_take l k m km1 Hs Hkm1 Hk1) as Hb1.
      assert (below k (take m l) <= m)%nat by (unfold below; etrans; [apply length_filter|rewrite length_take; lia]).
      do 2 f_equal. lia.
  - assert (bytes_compare k km = 1) as Ho by (by apply compare_gt). rewrite Ho. cbn [Z.eqb Z.opp andb].
    replace (1 =? -1) with false by done. cbn [andb]. rewrite (Hgt : bytes_compare km k = -1). cbn [Z.eqb].
    replace (-1 =? 1) with false by done. replace (-1 =? -1) with true by done.
    rewrite IH; [|by apply sorted_drop|by apply drop_ne_nil|rewrite length_drop; lia].
    destruct (below_drop l k (S m) km Hs Hkm Hgt) as [-> Hp]. unfold linear_position. rewrite length_drop. f_equal. lia.
Qed.

(** C8: the binary search of the nodes is equivalent to a scan from the front.  In a
    sorted slice that is not empty [InsertBinarySearch] returns the index of the
    first key that is not below the one searched for, and the last index when all
    keys are below it; so its result does not depend on how the slice is halved, and
    the recursion ends within the length of the slice. *)
Theorem InsertBinarySearch_linear l k start : sorted l -> l <> [] ->
  InsertBinarySearch l k start = Val (Z.of_nat (linear_position l k) + start).
Proof. intros. apply InsertBinarySearch_rec_linear; [done|done|lia]. Qed.

Module SearchSample.

Lemma InsertBinarySearch_linear_witness :
  InsertBinarySearch [[1]; [3]; [5]; [7]; [9]] [6] 2 = Val 5 /\ linear_position [[1]; [3]; [5]; [7]; [9]] [6] = 3%nat.
Proof.
  split; [|vm_compute; reflexivity].
  rewrite (InsertBinarySearch_linear [[1]; [3]; [5]; [7]; [9]] [6] 2); [reflexivity| |done].
  repeat (apply SSorted_cons; [|repeat (apply Forall_cons; split; [reflexivity|]); apply Forall_nil; exact I]). apply SSorted_nil.
Defined.

End SearchSample.

(** ** Updates of a slice by index *)

(** [InsertToList]: an index past the end appends; otherwise the tail is shifted
    by one ([append] of a zero value followed by [copy]). *)
Definition InsertToList {T} (l : list T) (idx : Z) (val : T) : outcome (list T) :=
  if idx <? 0 then Err (mkError HelperError "(insertToList) Index out of bounds")
  else if idx >? Z.of_nat (length l) - 1 then Val (l ++ [val])
  else Val (take (Z.to_nat idx) l ++ val :: drop (Z.to_nat idx) l).

Definition DeleteSliceKey {T} (l : list T) (idx : Z) : outcome (list T) :=
  if Z.of_nat (length l) <=? 0 then Err (mkError HelperError "(deleteSliceKey) Slice is empty")
  else if (idx <? 0) || (idx >=? Z.of_nat (length l))
  then Err (mkError HelperError "(deleteSliceKey) Index out of bounds")
  else Val (take (Z.to_nat idx) l ++ drop (S (Z.to_nat idx)) l).

Lemma InsertToList_spec {T} (l : list T) (i : nat) (x : T) :
  (i <= length l)%nat ->
  InsertToList l (Z.of_nat i) x = Val (take i l ++ x :: drop i l).
Proof.
  intros Hi. unfold InsertToList.
  rewrite (proj2 (Z.ltb_ge _ _)) by lia. rewrite Nat2Z.id.
  destruct (Z.gtb_spec (Z.of_nat i) (Z.of_nat (length l) - 1)); [|done].
  replace i with (length l) by lia. by rewrite firstn_all, drop_all.
Qed.

Lemma InsertToList_app {T} (l r : list T) (x : T) :
  InsertToList (l ++ r) (Z.of_nat (length l)) x = Val (l ++ x :: r).
Proof.
  rewrite InsertToList_spec by (rewrite length_app; lia).
  by rewrite take_app_length, drop_app_length.
Qed.

(** ** Log sequence numbers *)

Definition lsn_pair (lsn : bytes) : outcome (Z * Z) :=
  match of_le32 (take 4 lsn), of_le32 (drop 4 lsn) with
  | Val p, Val o => Val (p, o)
  | _, _ => Panic "index out of range"
  end.

Definition MaxLSN (lsnA lsnB : bytes) : outcome bytes :=
  if (length lsnA <? 8)%nat then Err (mkError HelperError "Invalid length for lsnA")
  else if (length lsnB <? 8)%nat then Err (mkError HelperError "Invalid length for lsnB")
  else match lsn_pair lsnA, lsn_pair lsnB with
  | Val (pageA, offsetA), Val (pageB, offsetB) =>
      if negb (pageA =? pageB) then (if pageA >? pageB then Val lsnA else Val lsnB)
      else if offsetA >? offsetA then Val lsnA
      else if offsetA <? offsetB then Val lsnB
      else Val lsnA
  | _, _ => Panic "index out of range"
  end.

Definition GreaterLSN (lsnA lsnB : bytes) : outcome bool :=
  if (length lsnA <? 8)%nat then Err (mkError HelperError "Invalid length for lsnA")
  else if (length lsnB <? 8)%nat then Err (mkError HelperError "Invalid length for lsnB")
  else match lsn_pair lsnA, lsn_pair lsnB with
  | Val (pageA, offsetA), Val (pageB, offsetB) =>
      if negb (pageA =? pageB) then (if pageA >? pageB then Val true else Val false)
      else if offsetA >? offsetB then Val true else Val false
  | _, _ => Panic "index out of range"
  end.

(** ** Flag bits of a byte *)

Definition flag_mask (pos : list Z) : Z :=
  foldl (fun mask p => Z.lor mask (u8 (Z.shiftl 1 (u8 p)))) 0 pos.

Definition BitIsSet (flag : Z) (pos : Z) : bool :=
  let mask := u8 (Z.shiftl 1 (u8 pos)) in
  let r := Z.land flag mask in
  r >? 0.

(** [*f & (^mask)]: the complement of a byte. *)
Definition UnsetFlag (f : Z) (pos : list Z) : Z := Z.land f (Z.lxor (flag_mask pos) 255).
Definition SetFlag (f : Z) (pos : list Z) : Z := Z.lor f (flag_mask pos).

(** ** Page arithmetic of the log *)

(** The quotients are integer divisions, so [math.Floor] is the identity on them. *)
Definition IsMultipage (startOff endOff pageSize : Z) : outcome bool :=
  if startOff >? endOff then Err (mkError HelperError "Start offset is greater that end offset.")
  else if pageSize =? 0 then Panic "integer divide by zero"
  else Val (negb (startOff / pageSize =? endOff / pageSize)).

(** *** Lemmas on flags *)

Definition is_byte (f : Z) : Prop := 0 <= f < 256.

Lemma bit_mask p : 0 <= p < 8 -> u8 (Z.shiftl 1 (u8 p)) = 2 ^ p.
Proof.
  intros Hp. rewrite (u8_small p) by lia. rewrite Z.shiftl_mul_pow2, Z.mul_1_l by lia.
  apply u8_small. split; [apply Z.pow_nonneg; lia|]. apply Z.pow_lt_mono_r; lia.
Qed.

Lemma land_pow2_gt f p : 0 <= f -> 0 <= p -> (Z.land f (2 ^ p) >? 0) = Z.testbit f p.
Proof.
  intros Hf Hp.
  destruct (Z.testbit f p) eqn:E.
  - assert (Z.land f (2 ^ p) <> 0) as Hne.
    { intros H. apply (f_equal (fun z => Z.testbit z p)) in H.
      rewrite Z.land_spec, Z.pow2_bits_true, E, Z.bits_0 in H by lia. done. }
    assert (0 <= Z.land f (2 ^ p)) by (apply Z.land_nonneg; lia).
    rewrite Z.gtb_ltb. apply Z.ltb_lt. lia.
  - assert (Z.land f (2 ^ p) = 0) as ->; [|done].
    apply Z.bits_inj'. intros n Hn. rewrite Z.land_spec, Z.bits_0, Z.pow2_bits_eqb by lia.
    destruct (Z.eqb_spec p n) as [->|]; [by rewrite E|by rewrite andb_false_r].
Qed.

Lemma BitIsSet_testbit f p : 0 <= f -> 0 <= p < 8 -> BitIsSet f p = Z.testbit f p.
Proof. intros Hf Hp. unfold BitIsSet. rewrite bit_mask by done. apply land_pow2_gt; lia. Qed.

Lemma flag_mask_acc pos mask p :
  0 <= p < 8 -> Forall (fun q => 0 <= q < 8) pos ->
  Z.testbit (foldl (fun mask p => Z.lor mask (u8 (Z.shiftl 1 (u8 p)))) mask pos) p =
  Z.testbit mask p || bool_decide (p ∈ pos).
Proof.
  intros Hp. revert mask. induction pos as [|q pos IH]; intros mask Hf; cbn.
  - rewrite bool_decide_eq_false_2 by apply not_elem_of_nil. by rewrite orb_false_r.
  - apply Forall_cons in Hf as [Hq Hf]. rewrite IH by done.
    rewrite bit_mask, Z.lor_spec, Z.pow2_bits_eqb by lia.
    rewrite <- orb_assoc. f_equal.
    destruct (Z.eqb_spec q p) as [->|]; cbn.
    + symmetry. apply bool_decide_eq_true_2. by left.
    + apply bool_decide_ext. set_solver.
Qed.

Lemma flag_mask_nonneg pos mask :
  0 <= mask -> 0 <= foldl (fun mask p => Z.lor mask (u8 (Z.shiftl 1 (u8 p)))) mask pos.
Proof.
  revert mask. induction pos as [|q pos IH]; intros mask Hm; cbn; [done|].
  apply IH. apply Z.lor_nonneg. split; [done|]. apply Z.mod_pos_bound. lia.
Qed.

Lemma flag_mask_bit pos p :
  0 <= p < 8 -> Forall (fun q => 0 <= q < 8) pos ->
  Z.testbit (flag_mask pos) p = bool_decide (p ∈ pos).
Proof. intros. unfold flag_mask. rewrite flag_mask_acc by done. by rewrite Z.bits_0. Qed.

Lemma testbit_255 p : 0 <= p < 8 -> Z.testbit 255 p = true.
Proof. intros. change 255 with (Z.ones 8). apply Z.ones_spec_low. lia. Qed.

Lemma SetFlag_bit f pos p :
  0 <= f -> 0 <= p < 8 -> Forall (fun q => 0 <= q < 8) pos ->
  BitIsSet (SetFlag f pos) p = BitIsSet f p || bool_decide (p ∈ pos).
Proof.
  intros Hf Hp Hq.
  assert (0 <= flag_mask pos) by (by apply flag_mask_nonneg).
  rewrite !BitIsSet_testbit by (done || (apply Z.lor_nonneg; lia)).
  unfold SetFlag. by rewrite Z.lor_spec, flag_mask_bit.
Qed.

Lemma UnsetFlag_bit f pos p :
  0 <= f -> 0 <= p < 8 -> Forall (fun q => 0 <= q < 8) pos ->
  BitIsSet (UnsetFlag f pos) p = BitIsSet f p && negb (bool_decide (p ∈ pos)).
Proof.
  intros Hf Hp Hq.
  rewrite !BitIsSet_testbit by (done || (apply Z.land_nonneg; lia)).
  unfold UnsetFlag.
  rewrite Z.land_spec, Z.lxor_spec, flag_mask_bit, testbit_255 by done.
  by rewrite xorb_true_r.
Qed.
