(* ===== verification/Sorting.v ===== *)
(** * Sorting, lookup and pointer slices ([pkg/helpers/helpers.go])

    The helpers no other package calls: bubble sort, the lookup in a sorted slice,
    and the functions on slices of pointers.  An ordered type is [Z]; a slice of
    pointers is a list of options, [nil] being [None].  The functions that update
    their argument in place return its final contents. *)

From S2P Require Import Prelude Keys Helpers.
From stdpp Require Import sorting.
Local Open Scope Z_scope.

(** ** Bubble sort *)

(** One pass from the second element on; [prev] is the element before. *)
Fixpoint bubble (prev : Z) (l : list Z) : list Z * bool :=
  match l with
  | [] => ([prev], false)
  | v :: l' =>
      if v <? prev then let '(r, _) := bubble prev l' in (v :: r, true)
      else let '(r, hasSwapped) := bubble v l' in (prev :: r, hasSwapped)
  end.
Definition swap (l : list Z) : list Z * bool :=
  match l with [] => ([], false) | x :: l' => bubble x l' end.

Fixpoint bubble_loop (fuel : nat) (l : list Z) : outcome (list Z) :=
  match fuel with
  | O => OutOfFuel
  | S fuel' => let '(l', swapped) := swap l in if swapped : bool then bubble_loop fuel' l' else Val l'
  end.

(** A pass with a swap removes an inversion, so this is enough fuel. *)
Definition BubbleSort (l : list Z) : outcome (list Z) := bubble_loop (S (length l * length l)) l.

(** Pairs in the wrong order. *)
Definition smaller (x : Z) (l : list Z) : nat := length (filter (fun y => y < x) l).
Fixpoint inversions (l : list Z) : nat :=
  match l with [] => 0%nat | x :: l' => (smaller x l' + inversions l')%nat end.

Lemma smaller_perm x l l' : l ≡ₚ l' -> smaller x l = smaller x l'.
Proof. intros H. unfold smaller. by rewrite H. Qed.

Lemma smaller_cons x y l : smaller x (y :: l) = ((if decide (y < x)%Z then 1 else 0) + smaller x l)%nat.
Proof. unfold smaller. rewrite filter_cons. by case_decide. Qed.

Lemma bubble_spec l : forall p r b, bubble p l = (r, b) ->
  r ≡ₚ p :: l /\ (if b then (inversions r < inversions (p :: l))%nat else r = p :: l /\ StronglySorted Z.le (p :: l)) /\
  (inversions r <= inversions (p :: l))%nat.
Proof.
  induction l as [|v l IH]; cbn [bubble]; intros p r b.
  { intros [= <- <-]. split_and!; [done|done|by repeat constructor|done]. }
  destruct (v <? p) eqn:E.
  - apply Z.ltb_lt in E. destruct (bubble p l) as [r' b'] eqn:Hb. intros [= <- <-].
    destruct (IH _ _ _ Hb) as (Hp & _ & Hle). cbn [inversions] in *.
    rewrite (smaller_perm v _ _ Hp), !smaller_cons. rewrite (decide_False (P := p < v)), (decide_True (P := v < p)) by lia.
    split_and!; [rewrite Hp; solve_Permutation|lia|lia].
  - apply Z.ltb_ge in E. destruct (bubble v l) as [r' b'] eqn:Hb. intros [= <- <-].
    destruct (IH _ _ _ Hb) as (Hp & Hc & Hle). cbn [inversions] in *. rewrite (smaller_perm p _ _ Hp).
    split_and!; [by rewrite Hp| |lia]. destruct b'; [lia|]. destruct Hc as [-> Hs]. split; [done|].
    constructor; [done|]. inversion_clear Hs. constructor; [done|]. eapply Forall_impl; [eassumption|]. cbn. lia.
Qed.

Lemma inversions_bound l : (inversions l <= length l * length l)%nat.
Proof.
  induction l as [|x l IH]; [done|]. cbn [inversions length]. unfold smaller. pose proof (length_filter (fun y => y < x) l). nia.
Qed.

Lemma bubble_loop_sorts fuel : forall l, (inversions l < fuel)%nat ->
  exists l', bubble_loop fuel l = Val l' /\ l' ≡ₚ l /\ StronglySorted Z.le l'.
Proof.
  induction fuel as [|fuel IH]; intros l Hf; [lia|]. cbn [bubble_loop]. destruct l as [|x l]; [by exists []; repeat constructor|].
  cbn [swap]. destruct (bubble x l) as [r b] eqn:Hb. destruct (bubble_spec _ _ _ _ Hb) as (Hp & Hc & _).
  destruct b.
  - destruct (IH r ltac:(lia)) as (l' & Hl & Hp' & Hs). exists l'. split_and!; [done|by rewrite Hp'|done].
  - destruct Hc as [-> Hs]. eauto.
Qed.

(** The sort returns its argument's elements in ascending order. *)
Lemma BubbleSort_sorts l : exists l', BubbleSort l = Val l' /\ l' ≡ₚ l /\ StronglySorted Z.le l'.
Proof. apply bubble_loop_sorts. pose proof (inversions_bound l). lia. Qed.

(** ** Lookup *)

Fixpoint LookupBinarySearch_rec (fuel : nat) (sortedList : list Z) (searchKey startIdx : Z) : outcome Z :=
  match fuel with
  | O => OutOfFuel
  | S fuel' =>
      let l := length sortedList in
      let m := (l / 2)%nat in
      match sortedList !! m with
      | None => Panic "index out of range"
      | Some x =>
          if x =? searchKey then Val (Z.of_nat m + startIdx)
          else if (l =? 1)%nat then Err (mkError HelperError "Key does not exist")
          else if x >? searchKey then LookupBinarySearch_rec fuel' (take m sortedList) searchKey startIdx
          else LookupBinarySearch_rec fuel' (drop m sortedList) searchKey (Z.of_nat m)
      end
  end.
Definition LookupBinarySearch (sortedList : list Z) (searchKey startIdx : Z) : outcome Z :=
  LookupBinarySearch_rec (S (length sortedList)) sortedList searchKey startIdx.

Lemma sorted_around (l : list Z) m x k : StronglySorted Z.lt l -> l !! m = Some x ->
  (k < x -> k ∈ l <-> k ∈ take m l) /\ (x < k -> k ∈ l <-> k ∈ drop m l).
Proof.
  intros Hs Hm. rewrite <- (take_drop_middle _ _ _ Hm) in Hs at 1.
  assert (Hbelow : forall y, y ∈ take m l -> y < x).
  { intros y Hy. eapply (StronglySorted_app_1_elem_of _ (take m l) (x :: drop (S m) l)); [exact Hs|done|set_solver]. }
  apply StronglySorted_app_1_r in Hs. apply StronglySorted_inv in Hs as [_ Habove]. rewrite Forall_forall in Habove.
  assert (Hd : drop m l = x :: drop (S m) l) by (by apply drop_S).
  assert (Hin : k ∈ l <-> k ∈ take m l \/ k = x \/ k ∈ drop (S m) l).
  { rewrite <- (take_drop m l) at 1. by rewrite Hd, elem_of_app, elem_of_cons. }
  rewrite Hin, Hd, elem_of_cons. split; intros Hk; split; [|by left|..|by right].
  - intros [?|[->|Hr]]; [done|lia|]. specialize (Habove _ Hr). lia.
  - intros [Hl|Hr]; [specialize (Hbelow _ Hl); lia|done].
Qed.

Lemma LookupBinarySearch_rec_spec fuel : forall l k start, StronglySorted Z.lt l -> l <> [] -> (length l < fuel)%nat ->
  match LookupBinarySearch_rec fuel l k start with Val _ => k ∈ l | Err _ => k ∉ l | _ => False end.
Proof.
  induction fuel as [|fuel IH]; intros l k start Hs Hne Hf; [lia|]. cbn [LookupBinarySearch_rec].
  assert (Hm : (length l / 2 < length l)%nat) by (apply Nat.div_lt; [destruct l; [done|cbn; lia]|lia]).
  destruct (lookup_lt_is_Some_2 _ _ Hm) as [x Hx]. rewrite Hx. destruct (x =? k) eqn:E; [apply Z.eqb_eq in E as <-; by eapply list_elem_of_lookup_2|].
  apply Z.eqb_neq in E. destruct (length l =? 1)%nat eqn:E1.
  { apply Nat.eqb_eq in E1. destruct l as [|y [|]]; try done. injection Hx as ->. set_solver. }
  apply Nat.eqb_neq in E1. assert (H1 : (0 < length l / 2)%nat) by (apply Nat.div_str_pos; destruct l as [|? []]; cbn in *; [done|lia|lia]).
  destruct (sorted_around l _ x k Hs Hx) as [Hlo Hhi].
  rewrite <- (take_drop (length l / 2) l) in Hs at 1. destruct (x >? k) eqn:Eg.
  - apply Z.gtb_lt in Eg. specialize (IH (take (length l / 2) l) k start).
    destruct (LookupBinarySearch_rec fuel (take _ l) k start); rewrite ?Hlo by done; apply IH;
      try (by eapply StronglySorted_app_1_l); try (by apply take_ne_nil); rewrite length_take; lia.
  - assert (x < k) by (rewrite Z.gtb_ltb, Z.ltb_ge in Eg; lia). specialize (IH (drop (length l / 2) l) k (Z.of_nat (length l / 2))).
    destruct (LookupBinarySearch_rec fuel (drop _ l) k _); rewrite ?Hhi by done; apply IH;
      try (by eapply StronglySorted_app_1_r); try (by apply drop_ne_nil); rewrite length_drop; lia.
Qed.

(** Whether a key is there is decided correctly ... *)
Lemma LookupBinarySearch_decides l k : StronglySorted Z.lt l -> l <> [] ->
  match LookupBinarySearch l k 0 with Val _ => k ∈ l | Err _ => k ∉ l | _ => False end.
Proof. intros Hs Hne. apply LookupBinarySearch_rec_spec; [done|done|lia]. Qed.

(** ... but where it is, is not: the right half starts at [m] and not at [m + startIdx]. *)
Example LookupBinarySearch_wrong_index : LookupBinarySearch [1; 2; 3; 4; 5; 6; 7; 8] 8 0 = Val 3.
Proof. reflexivity. Qed.

(** ** Slices of pointers *)

(** The loop that refills the slice runs once, whatever is missing. *)
Definition RemoveEmptyValues {T} (l : list (option T)) (idx : Z) : outcome (list (option T)) :=
  if Z.of_nat (length l) <=? idx + 1 then Err (mkError HelperError "Nothing to replace")
  else if idx <? 0 then Panic "index out of range"
  else match l !! Z.to_nat idx with
  | None => Panic "index out of range"
  | Some (Some _) => Err (mkError HelperError "Nothing to replace")
  | Some None =>
      let childOrder := (2 * 2 + 1)%nat in
      let n := delete (Z.to_nat idx) l in
      if (childOrder <=? length n)%nat then Val (take childOrder n) else Val (n ++ [None])
  end.

(** The items are moved to the front; the slots behind them up to the fifth are
    cleared, which panics in a shorter slice. *)
Definition Compact {T} (l : list (option T)) : outcome (list (option T)) :=
  let targetLen := 5%nat in
  if (length l <? targetLen)%nat then Panic "index out of range"
  else let kept := take targetLen (filter is_Some l) in Val (kept ++ replicate (targetLen - length kept) None).

Lemma Compact_five {T} (l : list (option T)) : (5 <= length l)%nat ->
  exists l', Compact l = Val l' /\ length l' = 5%nat /\ filter is_Some l' = take 5 (filter is_Some l).
Proof.
  intros Hl. unfold Compact. rewrite (proj2 (Nat.ltb_ge _ _)) by lia. eexists. split; [done|].
  split; [rewrite length_app, length_replicate, length_take; lia|]. rewrite filter_app.
  assert (filter is_Some (replicate (5 - length (take 5 (filter is_Some l))) (@None T)) = []) as ->.
  { generalize (5 - length (take 5 (filter is_Some l)))%nat. intros n. by induction n. }
  rewrite app_nil_r. assert (Forall is_Some (take 5 (filter is_Some l))) as H.
  { apply Forall_take, Forall_forall. intros x Hx. by apply list_elem_of_filter in Hx as [? _]. }
  induction H as [|x r Hx _ IH]; [done|]. rewrite filter_cons_True by done. by rewrite IH.
Qed.

(** [int32] keys as four bytes each, low byte first. *)
Definition KeysToBytes (s : list Z) : list bytes := le32 ∘ u32 <$> s.

Lemma KeysToBytes_decode s : (fun b => of_le32 b) <$> KeysToBytes s = (fun v => Val (u32 v)) <$> s.
Proof.
  unfold KeysToBytes. induction s as [|v s IH]; [done|]. cbn [fmap list_fmap]. f_equal; [|exact IH].
  apply le32_decode_nil. apply u32_range.
Qed.
