(* ===== verification/BTStack.v ===== *)
(** * The traversal stack of the tree ([pkg/bptree/btstack.go])

    Insertions and deletions push the internal nodes they go through, with the
    index of the child they follow, and pop them when a split or a merge
    propagates upwards.  The code stores the entries in a map keyed by a counter;
    [stack_repr] relates that map to the list of entries, the top one first. *)

From S2P Require Import Prelude.
Local Open Scope Z_scope.

Record TraversePath (N : Type) := mkPath { tp_n : N; tp_idx : Z }.
Arguments mkPath {N} _ _.
Arguments tp_n {N} _.
Arguments tp_idx {N} _.

Record BTStack (N : Type) := mkStack {
  Count : Z;
  stack : gmap Z (TraversePath N);
  maxId : Z;
  st_root : Z
}.
Arguments mkStack {N} _ _ _ _.
Arguments Count {N} _.
Arguments stack {N} _.
Arguments maxId {N} _.
Arguments st_root {N} _.

Section Operations.
Context {N : Type}.

Definition NewBTStack (root : Z) : BTStack N := mkStack 0 ∅ 0 root.

Definition Add (n : TraversePath N) : M (BTStack N) bool := fun st =>
  let newKey := maxId st + 1 in
  (Val true, mkStack (Count st + 1) (<[newKey := n]> (stack st)) (maxId st + 1) (st_root st)).

Definition Pop : M (BTStack N) (TraversePath N) := fun st =>
  if (Count st <=? 0) || (maxId st =? 0) then (Err (mkError BTreeError "No items in stack"), st)
  else
    let k := maxId st in
    match stack st !! k with
    | None => (Err (mkError BTreeError "No items in stack"), st)
    | Some v =>
        let count := if Count st >? 0 then Count st - 1 else Count st in
        (Val v, mkStack count (delete k (stack st)) (maxId st - 1) (st_root st))
    end.

Definition Clear : M (BTStack N) bool := fun st =>
  if Count st <=? 0 then (Val true, st)
  else (Val true, mkStack 0 (filter (fun kv => kv.1 = 0) (stack st)) 0 (st_root st)).

Definition Parent : M (BTStack N) (TraversePath N) := fun st =>
  if (Count st <=? 0) || (maxId st =? 0) then (Err (mkError BTreeError "No items in stack"), st)
  else match stack st !! maxId st with
  | None => (Err (mkError BTreeError "No items in stack"), st)
  | Some v => (Val v, st)
  end.

(** ** Refinement to a list, top first *)

Fixpoint stack_map (l : list (TraversePath N)) : gmap Z (TraversePath N) :=
  match l with
  | [] => ∅
  | x :: l' => <[Z.of_nat (length l) := x]> (stack_map l')
  end.

Definition stack_repr (st : BTStack N) (l : list (TraversePath N)) : Prop :=
  Count st = Z.of_nat (length l) /\ maxId st = Z.of_nat (length l) /\ stack st = stack_map l.

Lemma stack_map_above l k : Z.of_nat (length l) < k -> stack_map l !! k = None.
Proof.
  induction l as [|x l IH]; intros Hk; cbn [stack_map]; [apply lookup_empty|].
  cbn [length] in *. rewrite lookup_insert_ne by lia. apply IH. lia.
Qed.

Lemma stack_map_zero l : stack_map l !! 0 = None.
Proof.
  induction l as [|x l IH]; cbn [stack_map]; [apply lookup_empty|].
  cbn [length]. by rewrite lookup_insert_ne by lia.
Qed.

Lemma NewBTStack_repr r : stack_repr (NewBTStack r) [].
Proof. done. Qed.

Lemma Add_repr st l n :
  stack_repr st l ->
  returns (Add n) st (fun b st' => b = true /\ stack_repr st' (n :: l) /\ st_root st' = st_root st).
Proof.
  intros (Hc & Hm & Hs). eexists _, _. split; [done|]. cbn. split; [done|]. split; [|done].
  unfold stack_repr. cbn [Count maxId stack stack_map length].
  rewrite Hc, Hm, Hs. split_and!; [lia|lia|]. do 2 f_equal. lia.
Qed.

Lemma Pop_repr st l n :
  stack_repr st (n :: l) ->
  returns Pop st (fun v st' => v = n /\ stack_repr st' l /\ st_root st' = st_root st).
Proof.
  intros (Hc & Hm & Hs). unfold returns, Pop. cbn [length] in *.
  rewrite (proj2 (Z.leb_gt _ _)) by lia. rewrite (proj2 (Z.eqb_neq _ _)) by lia. cbn [orb].
  rewrite Hs, Hm. cbn [stack_map length]. rewrite lookup_insert_eq.
  eexists _, _. split; [done|]. split; [done|]. split; [|done].
  unfold stack_repr. cbn [Count maxId stack].
  rewrite Z.gtb_ltb, (proj2 (Z.ltb_lt _ _)) by lia. split_and!; [lia|lia|].
  apply delete_insert_id, stack_map_above. lia.
Qed.

Lemma Pop_empty st :
  stack_repr st [] -> fails Pop st (mkError BTreeError "No items in stack") (fun st' => st' = st).
Proof. intros (Hc & Hm & Hs). exists st. split; [|done]. unfold Pop. by rewrite Hc. Qed.

Lemma Parent_repr st l n :
  stack_repr st (n :: l) -> returns Parent st (fun v st' => v = n /\ st' = st).
Proof.
  intros (Hc & Hm & Hs). unfold returns, Parent. cbn [length] in *.
  rewrite (proj2 (Z.leb_gt _ _)) by lia. rewrite (proj2 (Z.eqb_neq _ _)) by lia. cbn [orb].
  rewrite Hs, Hm. cbn [stack_map length]. rewrite lookup_insert_eq. eauto.
Qed.

Lemma Clear_repr st l :
  stack_repr st l ->
  returns Clear st (fun b st' => b = true /\ stack_repr st' [] /\ st_root st' = st_root st).
Proof.
  intros (Hc & Hm & Hs). unfold returns, Clear.
  destruct (Z.leb_spec (Count st) 0).
  - destruct l; [|cbn [length] in *; lia]. eexists _, _. done.
  - eexists _, _. split; [done|]. split; [done|]. split; [|done]. unfold stack_repr. cbn.
    split_and!; [done|done|]. apply map_empty_filter. intros k x Hk. cbn. intros ->.
    rewrite Hs, stack_map_zero in Hk. done.
Qed.

End Operations.

(** *** The stack runs as a list of entries *)

(** A call of the stack, and the list machine it refines. *)
Inductive stack_op (N : Type) := OpAdd (n : TraversePath N) | OpPop | OpParent | OpClear.
Arguments OpAdd {N} _.
Arguments OpPop {N}.
Arguments OpParent {N}.
Arguments OpClear {N}.

Definition run_op {N} (o : stack_op N) : M (BTStack N) (option (TraversePath N)) :=
  match o with
  | OpAdd n => Add n;; mret None
  | OpPop => r ← catch Pop; mret (match r with inl v => Some v | inr _ => None end)
  | OpParent => r ← catch Parent; mret (match r with inl v => Some v | inr _ => None end)
  | OpClear => Clear;; mret None
  end.

Definition list_op {N} (o : stack_op N) (l : list (TraversePath N))
    : option (TraversePath N) * list (TraversePath N) :=
  match o with
  | OpAdd n => (None, n :: l)
  | OpPop => (head l, tail l)
  | OpParent => (head l, l)
  | OpClear => (None, [])
  end.

Fixpoint run_ops {N} (os : list (stack_op N)) : M (BTStack N) (list (option (TraversePath N))) :=
  match os with
  | [] => mret []
  | o :: os' => r ← run_op o; rs ← run_ops os'; mret (r :: rs)
  end.

Fixpoint list_ops {N} (os : list (stack_op N)) (l : list (TraversePath N))
    : list (option (TraversePath N)) :=
  match os with
  | [] => []
  | o :: os' => let '(r, l') := list_op o l in r :: list_ops os' l'
  end.

Lemma run_op_refines {N} (o : stack_op N) st l :
  stack_repr st l ->
  returns (run_op o) st (fun r st' => r = (list_op o l).1 /\ stack_repr st' (list_op o l).2).
Proof.
  intros Hr. destruct o; cbn [run_op list_op].
  - go_step. go_call Add_repr; [|done]. intros b st' (-> & Hst & _). by go_step.
  - go_step. destruct l as [|n l].
    + eapply returns_catch_err, fails_mono, Pop_empty; [|done]. intros s' ->. by go_step.
    + go_step. go_call Pop_repr; [|done]. intros v st' (-> & Hst & _). by go_step.
  - go_step. destruct l as [|n l].
    + eapply returns_catch_err. exists st. destruct Hr as (Hc & Hm & Hs).
      split; [unfold Parent; by rewrite Hc|]. by go_step.
    + go_step. go_call Parent_repr; [|done]. intros v st' (-> & ->). by go_step.
  - go_step. go_call Clear_repr; [|done]. intros b st' (-> & Hst & _). by go_step.
Qed.

(** The map-and-counters stack behaves as a list. *)
Lemma stack_refines_list {N} (os : list (stack_op N)) (root : Z) :
  returns (run_ops os) (NewBTStack root) (fun rs _ => rs = list_ops os []).
Proof.
  enough (forall st l, stack_repr st l ->
    returns (run_ops os) st (fun rs _ => rs = list_ops os l)) as H by (apply H, NewBTStack_repr).
  induction os as [|o os IH]; intros st l Hr; cbn [run_ops list_ops]; [by go_step|].
  go_step. go_call run_op_refines; [|done]. intros r st' [-> Hr'].
  go_step. go_call IH; [|exact Hr']. intros rs s2 ->. go_step. by destruct (list_op o l).
Qed.
