(* ===== verification/Wal.v ===== *)
(** * The write-ahead log ([pkg/wal])

    [wal.go] (records, their encoding, the [Add*Log] operations),
    [wal_buffer.go] (the in-memory list of pending records), [wal_writer.go]
    (LSN assignment, the write queue, the log and config files) and
    [wal_reader.go] (reading a record's header back).

    The log file and the config file are byte lists; the pending buffer is the
    list from its head.  A mutex of the package guards each operation for its
    whole duration, so an operation is one step. *)

From S2P Require Import Prelude Keys Helpers.
Local Open Scope Z_scope.

Definition WAL_PAGE_SIZE : Z := 8192.
Definition WAL_PAGE_HEADER_SIZE : Z := 8.
Definition BLOG_HEADER_SIZE : Z := 25.
Definition CHECKPOINT_SIZE : Z := 17.
Definition LSN_SIZE : Z := 12.
Definition WAL_MAGIC_NO : Z := 65544.
Definition LOGTYPE_FLAG_POS : Z := 7.

(** [PUT] is 0 and [DEL] is 1. *)
Inductive OperationType := PUT | DEL.
Definition op_byte (o : OperationType) : Z := match o with PUT => 0 | DEL => 1 end.

#[export] Instance op_eq_dec : EqDecision OperationType.
Proof. solve_decision. Defined.

Record BLogHeader := mkBLogHeader {
  h_flag : Z; h_lsn : bytes; h_pageId : Z; h_crc : Z; h_lSize : Z
}.

Record BLog := mkBLog {
  b_header : BLogHeader; b_opType : OperationType;
  b_keySize : Z; b_key : bytes; b_valSize : Z; b_val : bytes
}.

Record CheckPoint := mkCheckPoint { c_flag : Z; c_redoPoint : Z; c_checkpointLSN : bytes }.

Record WALPageHeader := mkPageHeader { p_magicNo : Z; p_pageId : Z }.

(** The [nodeValue] interface: what a node of the buffer holds. *)
Inductive nodeValue := NLog (b : BLog) | NCheckpoint (c : CheckPoint).

(** The writer and the files it owns, with the buffer of pending records. *)
Record WAL := mkWAL {
  walBuff : list nodeValue;
  maxPage : Z;
  maxOffset : Z;
  w_queue : list bytes;
  w_file : bytes;
  w_conf : bytes
}.

Definition set_walBuff (b : list nodeValue) (w : WAL) : WAL :=
  mkWAL b (maxPage w) (maxOffset w) (w_queue w) (w_file w) (w_conf w).
Definition set_max (p o : Z) (w : WAL) : WAL :=
  mkWAL (walBuff w) p o (w_queue w) (w_file w) (w_conf w).
Definition set_queue (q : list bytes) (w : WAL) : WAL :=
  mkWAL (walBuff w) (maxPage w) (maxOffset w) q (w_file w) (w_conf w).
Definition set_file (f : bytes) (w : WAL) : WAL :=
  mkWAL (walBuff w) (maxPage w) (maxOffset w) (w_queue w) f (w_conf w).
Definition set_conf (c : bytes) (w : WAL) : WAL :=
  mkWAL (walBuff w) (maxPage w) (maxOffset w) (w_queue w) (w_file w) c.

(** ** Encoding ([wal.go]) *)

(** [copy(dst[..n], src)] into a zeroed array of [n] bytes. *)
Definition copy_into (n : nat) (src : bytes) : bytes :=
  take n src ++ replicate (n - length src) 0.

Definition BLogHeader_toBytes (h : BLogHeader) : bytes :=
  [h_flag h] ++ copy_into 12 (h_lsn h) ++ le32 (h_lSize h) ++ le32 (h_pageId h) ++ le32 (h_crc h).

Definition WALPageHeader_toBytes (h : WALPageHeader) : bytes :=
  le32 (p_magicNo h) ++ le32 (p_pageId h).

(** Inserts the 8-byte page header where the record crosses a page boundary, or
    in front of it when it is the first record of its page.  A slice bound past
    the end of the record panics. *)
Definition checkLogOverflow (data : bytes) (page offset : Z) : outcome bytes :=
  let endOff := offset + Z.of_nat (length data) in
  if endOff <? WAL_PAGE_SIZE then
    if offset <=? WAL_PAGE_HEADER_SIZE
    then Val (WALPageHeader_toBytes (mkPageHeader WAL_MAGIC_NO page) ++ data)
    else Val data
  else
    let factor := u32 (offset / WAL_PAGE_SIZE + 1) in
    let idx := u32 (u32 (WAL_PAGE_SIZE * factor) - offset) in
    if Z.of_nat (length data) <? idx then Panic "slice bounds out of range"
    else
      let hdr := WALPageHeader_toBytes (mkPageHeader WAL_MAGIC_NO (u32 (page + 1))) in
      Val (take (Z.to_nat idx) data ++ hdr ++ drop (Z.to_nat idx) data).

(** The record's bytes before [checkLogOverflow]. *)
Definition BLog_payload (b : BLog) : bytes :=
  BLogHeader_toBytes (b_header b) ++ [op_byte (b_opType b)] ++ le32 (b_keySize b) ++ b_key b ++
  (if b_valSize b >? 0 then le32 (b_valSize b) ++ b_val b else []).

(** Page and offset are read back from the encoded header. *)
Definition BLog_toBytes (b : BLog) : outcome bytes :=
  let hdr := BLogHeader_toBytes (b_header b) in
  match of_le32 (take 4 (drop 1 hdr)), of_le32 (take 4 (drop 5 hdr)) with
  | Val pgeId, Val off => checkLogOverflow (BLog_payload b) pgeId off
  | _, _ => Panic "index out of range"
  end.

Definition CheckPoint_toBytes (c : CheckPoint) : outcome bytes :=
  let chckpnt := [c_flag c] ++ le32 (c_redoPoint c) ++ c_checkpointLSN c in
  match of_le32 (take 4 (c_checkpointLSN c)), of_le32 (drop 4 (c_checkpointLSN c)) with
  | Val page, Val off => checkLogOverflow chckpnt page off
  | _, _ => Panic "index out of range"
  end.

Definition toBytes (v : nodeValue) : outcome bytes :=
  match v with NLog b => BLog_toBytes b | NCheckpoint c => CheckPoint_toBytes c end.

(** ** The buffer ([wal_buffer.go]) *)

Definition walBuf_Add (b : nodeValue) : M WAL unit := modify (fun w => set_walBuff (walBuff w ++ [b]) w).

Fixpoint concat_bytes (vs : list nodeValue) : outcome bytes :=
  match vs with
  | [] => Val []
  | v :: vs' =>
      match toBytes v with
      | Val nodeByte =>
          match concat_bytes vs' with Val rest => Val (nodeByte ++ rest) | o => o end
      | o => o
      end
  end.

(** [None]: the buffer was empty and nothing is to be written. *)
Definition flushWal : M WAL (option bytes) :=
  w ← get_state;
  match walBuff w with
  | [] => mret None
  | (_ :: _) as vs =>
      modify (set_walBuff []);;
      data ← lift_outcome (concat_bytes vs);
      mret (Some data)
  end.

(** ** The writer ([wal_writer.go]) *)

Definition mkLSN (page offset size : Z) : bytes := le32 page ++ le32 offset ++ le32 size.

Definition assignLSN (logSize : Z) : M WAL bytes :=
  w ← get_state;
  let lsn := mkLSN (maxPage w) (maxOffset w) logSize in
  let newMaxOff := u32 (maxOffset w + logSize) in
  (if newMaxOff >=? WAL_PAGE_SIZE
   then modify (set_max (u32 (maxPage w + 1)) (u32 (newMaxOff - WAL_PAGE_SIZE + WAL_PAGE_HEADER_SIZE)))
   else modify (set_max (maxPage w) newMaxOff));;
  mret lsn.

(** Overwrites the config file. *)
Definition saveCheckpoint (lsn : bytes) : M WAL unit := modify (set_conf lsn).

Definition AddJob (data : bytes) : M WAL unit := modify (fun w => set_queue (w_queue w ++ [data]) w).

Definition unshift : M WAL (option bytes) :=
  w ← get_state;
  match w_queue w with
  | [] => mret None
  | h :: q => modify (set_queue q);; mret (Some h)
  end.

(** One write request: the file is opened in append mode. *)
Definition writeWal (data : bytes) : M WAL Z :=
  modify (fun w => set_file (w_file w ++ data) w);; mret (Z.of_nat (length data)).

(** The worker started by [AddJob] runs until the queue is empty. *)
Fixpoint queue_run (fuel : nat) : M WAL unit :=
  match fuel with
  | O => out_of_fuel
  | S fuel' =>
      job ← unshift;
      match job with
      | None => mret tt
      | Some data => writeWal data;; queue_run fuel'
      end
  end.

Definition initializeWriter : M WAL unit :=
  w ← get_state;
  if Z.of_nat (length (w_file w)) <=? 0 then
    let lsn := mkLSN 0 WAL_PAGE_HEADER_SIZE CHECKPOINT_SIZE in
    let cp := mkCheckPoint 128 WAL_PAGE_HEADER_SIZE lsn in
    data ← lift_outcome (CheckPoint_toBytes cp);
    modify (fun w => set_file (w_file w ++ data) w);;
    modify (fun w => set_max (maxPage w) (WAL_PAGE_HEADER_SIZE + CHECKPOINT_SIZE) w);;
    saveCheckpoint lsn
  else mret tt.

Definition calculatePageAndOffset (walSize : Z) : outcome (Z * Z) :=
  if walSize <=? 0 then Err (mkError WalError "Invalid wal size.")
  else
    let pge := Z.quot walSize WAL_PAGE_SIZE in
    let off := walSize - WAL_PAGE_SIZE * pge in
    Val (u32 pge, u32 off).

Definition loadMaxLSN (walSize : Z) : outcome (Z * Z) :=
  if walSize <=? 0 then Val (0, WAL_PAGE_HEADER_SIZE)
  else match calculatePageAndOffset walSize with
  | Val po => Val po
  | Err e => Panic (Message e)
  | o => o
  end.

(** Opens the files as they are on disk and initialises an empty log. *)
Definition NewWalWriter (file conf : bytes) : outcome WAL :=
  match loadMaxLSN (Z.of_nat (length file)) with
  | Val (p, o) =>
      match initializeWriter (mkWAL [] p o [] file conf) with
      | (Val _, w) => Val w
      | (_, _) => Panic "initialise"
      end
  | _ => Panic "load"
  end.

(** ** Operations of the log ([wal.go]) *)

Definition AddPutLog (pageId : Z) (key val : bytes) : M WAL bytes :=
  let kLen := Z.of_nat (length key) in
  let vLen := Z.of_nat (length val) in
  if kLen <=? 0 then fail WalError "Cannot add empty key in WAL"
  else if vLen <=? 0 then fail WalError "Cannot add empty val in WAL"
  else
    let lSize := BLOG_HEADER_SIZE + 9 + kLen + vLen in
    lsn ← assignLSN (u32 lSize);
    let hdr := mkBLogHeader 0 lsn pageId 0 (u32 lSize) in
    walBuf_Add (NLog (mkBLog hdr PUT (u32 kLen) key (u32 vLen) val));;
    mret lsn.

Definition AddDelLog (pageId : Z) (key : bytes) : M WAL bytes :=
  let kLen := Z.of_nat (length key) in
  if kLen <=? 0 then fail WalError "Cannot add empty key in WAL"
  else
    let lSize := BLOG_HEADER_SIZE + 5 + kLen in
    lsn ← assignLSN (u32 lSize);
    let hdr := mkBLogHeader 0 lsn pageId 0 (u32 lSize) in
    walBuf_Add (NLog (mkBLog hdr DEL (u32 kLen) key 0 []));;
    mret lsn.

Definition AddCheckpoint (latestLSN : bytes) : M WAL unit :=
  if negb (Z.of_nat (length latestLSN) =? LSN_SIZE) then fail WalError "Invalid LSN size"
  else
    s ← lift_outcome (of_le32 (take 4 (drop 8 latestLSN)));
    page ← lift_outcome (of_le32 (take 4 latestLSN));
    redoOffset ← lift_outcome (of_le32 (drop 4 latestLSN));
    let redoPoint := u32 (u32 (page * WAL_PAGE_SIZE) + redoOffset + s) in
    lsn ← assignLSN CHECKPOINT_SIZE;
    walBuf_Add (NCheckpoint (mkCheckPoint 128 redoPoint lsn));;
    or_panic (saveCheckpoint lsn).

(** The caller of [BLogWrite] waits for the number of bytes written, so the
    queue is run before it returns; one round of [walBgWriter]. *)
Definition BLogWrite : M WAL unit :=
  r ← catch flushWal;
  match r with
  | inr _ => mret tt
  | inl None => mret tt
  | inl (Some data) =>
      AddJob data;;
      w ← get_state;
      queue_run (S (length (w_queue w)))
  end.

(** ** Shared lemmas *)

Lemma assignLSN_returns size w :
  returns (assignLSN size) w (fun l w' => l = mkLSN (maxPage w) (maxOffset w) size /\
    walBuff w' = walBuff w /\ w_file w' = w_file w /\ w_queue w' = w_queue w /\ w_conf w' = w_conf w).
Proof.
  unfold assignLSN. go_step. go_step. go_step. case_match; go_step; by go_step.
Qed.
