(* ===== verification/WalTheorems.v ===== *)
(** * The log: sequence numbers, positions and the bytes on disk

    A log sequence number is a (page, offset, size) triple; [log_pos] is the byte
    position it stands for.  LSNs are assigned in strictly increasing order; as
    long as no record ends exactly on a page boundary, the file is as long as the
    next LSN says, so a restart finds the LSN to continue with; a record that does
    end on a boundary puts the file eight bytes ahead of the LSNs. *)

From S2P Require Import Prelude Keys Helpers Wal.
Local Open Scope Z_scope.

Definition log_pos (page offset : Z) : Z := page * WAL_PAGE_SIZE + offset.

(** ** LSN comparison *)

Definition u32_ok (z : Z) : Prop := 0 <= z < 2 ^ 32.

Lemma lsn_pair_mkLSN p o s : u32_ok p -> u32_ok o -> lsn_pair (mkLSN p o s) = Val (p, o).
Proof.
  intros Hp Ho. unfold lsn_pair, mkLSN.
  replace (take 4 (le32 p ++ le32 o ++ le32 s)) with (le32 p) by done.
  replace (drop 4 (le32 p ++ le32 o ++ le32 s)) with (le32 o ++ le32 s) by done.
  by rewrite le32_decode_nil, le32_decode.
Qed.

Lemma mkLSN_length p o s : length (mkLSN p o s) = 12%nat.
Proof. done. Qed.

(** The order of LSNs: page first, then offset. *)
Definition lsn_lt (a b : Z * Z) : Prop := a.1 < b.1 \/ (a.1 = b.1 /\ a.2 < b.2).

#[export] Instance lsn_lt_dec a b : Decision (lsn_lt a b).
Proof. unfold lsn_lt. apply _. Defined.

(** [GreaterLSN] decides the lexicographic order of page and offset. *)
Lemma GreaterLSN_order p1 o1 s1 p2 o2 s2 :
  u32_ok p1 -> u32_ok o1 -> u32_ok p2 -> u32_ok o2 ->
  GreaterLSN (mkLSN p1 o1 s1) (mkLSN p2 o2 s2) = Val (bool_decide (lsn_lt (p2, o2) (p1, o1))).
Proof.
  intros H1 H2 H3 H4. unfold GreaterLSN. rewrite !mkLSN_length, !lsn_pair_mkLSN by done.
  cbn [Nat.ltb Nat.leb]. unfold lsn_lt. cbn [fst snd].
  destruct (Z.eqb_spec p1 p2), (Z.gtb_spec p1 p2), (Z.gtb_spec o1 o2); cbn [negb]; f_equal; symmetry;
    (apply bool_decide_eq_true_2 || apply bool_decide_eq_false_2); lia.
Qed.

(** [MaxLSN] returns the greater of two LSNs (the first when they are at the
    same position). *)
Lemma MaxLSN_max p1 o1 s1 p2 o2 s2 :
  u32_ok p1 -> u32_ok o1 -> u32_ok p2 -> u32_ok o2 ->
  MaxLSN (mkLSN p1 o1 s1) (mkLSN p2 o2 s2) =
    Val (if decide (lsn_lt (p1, o1) (p2, o2)) then mkLSN p2 o2 s2 else mkLSN p1 o1 s1).
Proof.
  intros H1 H2 H3 H4. unfold MaxLSN. rewrite !mkLSN_length, !lsn_pair_mkLSN by done.
  cbn [Nat.ltb Nat.leb]. destruct (decide (lsn_lt (p1, o1) (p2, o2))) as [H|H]; unfold lsn_lt in H; cbn [fst snd] in H.
  all: destruct (Z.eqb_spec p1 p2), (Z.gtb_spec p1 p2), (Z.gtb_spec o1 o1), (Z.ltb_spec o1 o2); cbn [negb]; (done || lia).
Qed.

(** ** Assigning LSNs *)

(** The writer's position is inside a page and away from the end of the 32-bit range. *)
Definition wal_ok (w : WAL) : Prop :=
  0 <= maxPage w < 2 ^ 32 - 1 /\ WAL_PAGE_HEADER_SIZE <= maxOffset w < WAL_PAGE_SIZE.

(** A record that fits in the rest of two pages. *)
Definition size_ok (s : Z) : Prop := 0 < s <= WAL_PAGE_SIZE - 2 * WAL_PAGE_HEADER_SIZE.

Definition next_pos (p o s : Z) : Z * Z :=
  if o + s >=? WAL_PAGE_SIZE then (p + 1, o + s - WAL_PAGE_SIZE + WAL_PAGE_HEADER_SIZE) else (p, o + s).

Lemma assignLSN_eq w s : wal_ok w -> size_ok s ->
  assignLSN s w = (Val (mkLSN (maxPage w) (maxOffset w) s),
    set_max (next_pos (maxPage w) (maxOffset w) s).1 (next_pos (maxPage w) (maxOffset w) s).2 w).
Proof.
  intros [Hp Ho] Hs. unfold size_ok, WAL_PAGE_SIZE, WAL_PAGE_HEADER_SIZE in *.
  unfold assignLSN, mbind, M_bind, get_state, modify, next_pos, WAL_PAGE_SIZE, WAL_PAGE_HEADER_SIZE.
  rewrite (u32_small (maxOffset w + s)) by lia.
  destruct (Z.geb_spec (maxOffset w + s) 8192); cbn; rewrite ?u32_small by lia; done.
Qed.

Lemma next_pos_ok p o s : WAL_PAGE_HEADER_SIZE <= o < WAL_PAGE_SIZE -> size_ok s ->
  WAL_PAGE_HEADER_SIZE <= (next_pos p o s).2 < WAL_PAGE_SIZE /\ p <= (next_pos p o s).1 <= p + 1 /\
  lsn_lt (p, o) (next_pos p o s).
Proof.
  intros Ho Hs. unfold size_ok, next_pos, lsn_lt, WAL_PAGE_SIZE, WAL_PAGE_HEADER_SIZE in *.
  destruct (Z.geb_spec (o + s) 8192); cbn; lia.
Qed.

(** Two LSNs assigned one after the other are in strictly increasing order,
    across page boundaries too. *)
Lemma assignLSN_increasing w s1 s2 :
  wal_ok w -> size_ok s1 -> size_ok s2 ->
  returns (l1 ← assignLSN s1; l2 ← assignLSN s2; mret (l1, l2)) w (fun '(l1, l2) _ => GreaterLSN l2 l1 = Val true).
Proof.
  intros Hw H1 H2. pose proof Hw as [Hp Ho].
  pose proof (next_pos_ok (maxPage w) (maxOffset w) s1 Ho H1) as (Ho' & Hp' & Hlt).
  go_step. exists (mkLSN (maxPage w) (maxOffset w) s1). eexists. split; [by apply assignLSN_eq|].
  destruct (next_pos (maxPage w) (maxOffset w) s1) as [p o] eqn:E. cbn [fst snd] in *.
  go_step. go_call assignLSN_returns. intros l2 w2 (-> & _). go_step.
  unfold GreaterLSN. unfold WAL_PAGE_HEADER_SIZE, WAL_PAGE_SIZE in *.
  rewrite !mkLSN_length, !lsn_pair_mkLSN by (unfold u32_ok; cbn; lia). cbn [Nat.ltb Nat.leb maxPage maxOffset set_max].
  unfold lsn_lt in Hlt. cbn [fst snd] in Hlt.
  destruct (Z.eqb_spec p (maxPage w)), (Z.gtb_spec p (maxPage w)), (Z.gtb_spec o (maxOffset w)); cbn [negb]; (done || lia).
Qed.

(** ** Where the bytes of a record go *)

(** The bytes of a record take the file from its own position to the next record's. *)
Lemma checkLogOverflow_len data p o :
  0 <= p < 2 ^ 32 - 1 -> WAL_PAGE_HEADER_SIZE < o < WAL_PAGE_SIZE -> size_ok (Z.of_nat (length data)) ->
  exists out, checkLogOverflow data p o = Val out /\
    log_pos p o + Z.of_nat (length out) =
    log_pos (next_pos p o (Z.of_nat (length data))).1 (next_pos p o (Z.of_nat (length data))).2.
Proof.
  intros Hp Ho Hs. unfold size_ok, checkLogOverflow, next_pos, log_pos, WAL_PAGE_SIZE, WAL_PAGE_HEADER_SIZE in *.
  destruct (Z.ltb_spec (o + Z.of_nat (length data)) 8192).
  - destruct (Z.leb_spec o 8); [lia|]. rewrite Z.geb_leb, (proj2 (Z.leb_gt _ _)) by lia.
    eexists. split; [done|]. cbn. lia.
  - cbv zeta. replace (u32 (o / 8192 + 1)) with 1 by (by rewrite Z.div_small by lia).
    change (u32 (8192 * 1)) with 8192. rewrite (u32_small (8192 - o)) by lia.
    rewrite (proj2 (Z.ltb_ge _ _)) by lia. rewrite Z.geb_leb, (proj2 (Z.leb_le _ _)) by lia.
    eexists. split; [done|]. rewrite !length_app, length_take, length_drop. cbn [length WALPageHeader_toBytes].
    unfold WALPageHeader_toBytes. rewrite length_app, !le32_length. cbn [fst snd]. lia.
Qed.

(** The bytes written for a record fill the file from the record's position to
    the next record's; they are the payload alone when the record ends within its
    page, and otherwise the payload with the eight-byte header of the next page
    inserted at the file position where that page starts. *)
Lemma checkLogOverflow_length data p o :
  0 <= p < 2 ^ 32 - 1 -> WAL_PAGE_HEADER_SIZE < o < WAL_PAGE_SIZE -> size_ok (Z.of_nat (length data)) ->
  exists out, checkLogOverflow data p o = Val out /\
    log_pos p o + Z.of_nat (length out) =
    log_pos (next_pos p o (Z.of_nat (length data))).1 (next_pos p o (Z.of_nat (length data))).2 /\
    if o + Z.of_nat (length data) <? WAL_PAGE_SIZE then out = data
    else exists k : nat, log_pos p o + Z.of_nat k = log_pos (p + 1) 0 /\
      take k out ++ drop (k + 8) out = data /\
      take 8 (drop k out) = WALPageHeader_toBytes (mkPageHeader WAL_MAGIC_NO (p + 1)).
Proof.
  intros Hp Ho Hs. destruct (checkLogOverflow_len data p o Hp Ho Hs) as (out & Hout & Hpos).
  exists out. split_and!; [done..|]. clear Hpos.
  unfold checkLogOverflow, log_pos, size_ok, WAL_PAGE_SIZE, WAL_PAGE_HEADER_SIZE in *.
  destruct (Z.ltb_spec (o + Z.of_nat (length data)) 8192).
  - destruct (Z.leb_spec o 8); [lia|]. by simplify_eq.
  - cbv zeta in Hout. replace (u32 (o / 8192 + 1)) with 1 in Hout by (by rewrite Z.div_small by lia).
    change (u32 (8192 * 1)) with 8192 in Hout. rewrite (u32_small (8192 - o)), (u32_small (p + 1)) in Hout by lia.
    rewrite (proj2 (Z.ltb_ge _ _)) in Hout by lia.
    set (h := WALPageHeader_toBytes _) in *. assert (Hh : length h = 8%nat)
      by (unfold h, WALPageHeader_toBytes; by rewrite length_app, !le32_length).
    clearbody h. injection Hout as <-.
    assert (Hk : length (take (Z.to_nat (8192 - o)) data) = Z.to_nat (8192 - o)) by (rewrite length_take; lia).
    exists (Z.to_nat (8192 - o)). split_and!; [lia| |].
    + rewrite take_app_le, take_take, Nat.min_id by lia. rewrite drop_app_ge, Hk by lia.
      replace (_ + 8 - _)%nat with 8%nat by lia. rewrite (drop_app_length' h) by done. apply take_drop.
    + rewrite drop_app_length' by done. by apply take_app_length'.
Qed.

(** ** The file follows the LSNs *)

Lemma hdr_length h : length (BLogHeader_toBytes h) = 25%nat.
Proof.
  unfold BLogHeader_toBytes, copy_into. rewrite !length_app, length_take, length_replicate, !le32_length.
  cbn [length]. lia.
Qed.

Definition record_size (b : BLog) : Z :=
  BLOG_HEADER_SIZE + 5 + Z.of_nat (length (b_key b)) + (if b_valSize b >? 0 then 4 + Z.of_nat (length (b_val b)) else 0).

Lemma payload_length b : Z.of_nat (length (BLog_payload b)) = record_size b.
Proof.
  unfold BLog_payload, record_size, BLOG_HEADER_SIZE. rewrite !length_app, hdr_length, le32_length. cbn [length].
  destruct (b_valSize b >? 0); [rewrite length_app, le32_length|cbn [length]]; lia.
Qed.

(** The position in a record's header is the one of its LSN. *)
Lemma BLog_toBytes_eq b p o s : u32_ok p -> u32_ok o -> h_lsn (b_header b) = mkLSN p o s ->
  BLog_toBytes b = checkLogOverflow (BLog_payload b) p o.
Proof.
  intros Hp Ho Hl. unfold BLog_toBytes, BLogHeader_toBytes. rewrite Hl. cbv zeta.
  replace (take 4 (drop 1 ([h_flag (b_header b)] ++ copy_into 12 (mkLSN p o s) ++ _))) with (le32 p) by done.
  replace (take 4 (drop 5 ([h_flag (b_header b)] ++ copy_into 12 (mkLSN p o s) ++ _))) with (le32 o) by done.
  by rewrite !le32_decode_nil.
Qed.

Lemma CheckPoint_toBytes_eq f r p o s : u32_ok p -> u32_ok o ->
  CheckPoint_toBytes (mkCheckPoint f r (mkLSN p o s)) = checkLogOverflow ([f] ++ le32 r ++ mkLSN p o s) p o.
Proof.
  intros Hp Ho. unfold CheckPoint_toBytes. cbn [c_flag c_redoPoint c_checkpointLSN].
  replace (take 4 (mkLSN p o s)) with (le32 p) by done.
  replace (drop 4 (mkLSN p o s)) with (le32 o ++ le32 s) by done.
  by rewrite le32_decode_nil, le32_decode.
Qed.

(** File and pending records together end [d] bytes behind the next LSN's position. *)
Definition log_ahead (d : Z) (w : WAL) : Prop :=
  wal_ok w /\ WAL_PAGE_HEADER_SIZE < maxOffset w /\ w_queue w = [] /\
  exists pend, concat_bytes (walBuff w) = Val pend /\
    Z.of_nat (length (w_file w)) + Z.of_nat (length pend) = log_pos (maxPage w) (maxOffset w) + d.

(** The invariant: file and pending records together reach the next LSN's position. *)
Definition log_inv (w : WAL) : Prop := log_ahead 0 w.

Lemma concat_bytes_app vs v pend out :
  concat_bytes vs = Val pend -> toBytes v = Val out -> concat_bytes (vs ++ [v]) = Val (pend ++ out).
Proof.
  revert pend. induction vs as [|x vs IH]; cbn [concat_bytes app]; intros pend Hv Ho.
  - injection Hv as <-. rewrite Ho. cbn. by rewrite app_nil_r.
  - destruct (toBytes x); [|done..]. destruct (concat_bytes vs) as [rest| | | |]; [|done..].
    injection Hv as <-. rewrite (IH rest eq_refl Ho). by rewrite app_assoc.
Qed.

(** A record of size [s] can be added: it fits and does not end on a page boundary. *)
Definition fits (w : WAL) (s : Z) : Prop :=
  size_ok s /\ maxPage w + 1 < 2 ^ 32 - 1 /\ maxOffset w + s <> WAL_PAGE_SIZE.

(** Adding a record whose bytes are [data] moves file and LSN together. *)
Lemma log_ahead_add d w v data :
  log_ahead d w -> fits w (Z.of_nat (length data)) -> toBytes v = checkLogOverflow data (maxPage w) (maxOffset w) ->
  let n := next_pos (maxPage w) (maxOffset w) (Z.of_nat (length data)) in
  log_ahead d (set_walBuff (walBuff w ++ [v]) (set_max n.1 n.2 w)).
Proof.
  intros ([Hp Ho] & Ho8 & Hq & pend & Hb & Hlen) (Hs & Hpg & Hne) Hv n.
  destruct (checkLogOverflow_len data (maxPage w) (maxOffset w)) as (out & Hout & Hpos); [done|lia|done|].
  pose proof (next_pos_ok (maxPage w) (maxOffset w) _ Ho Hs) as (Ho' & Hp' & _). fold n in Ho', Hp', Hpos.
  split_and!; cbn [maxPage maxOffset walBuff w_queue w_file set_walBuff set_max]; [split; cbn; lia| |done|].
  - unfold n, next_pos, size_ok, WAL_PAGE_SIZE, WAL_PAGE_HEADER_SIZE in *.
    destruct (Z.geb_spec (maxOffset w + Z.of_nat (length data)) 8192); cbn; lia.
  - exists (pend ++ out). split; [apply concat_bytes_app; [done|by rewrite Hv]|]. rewrite length_app. lia.
Qed.

Lemma wal_ok_u32 w : wal_ok w -> u32_ok (maxPage w) /\ u32_ok (maxOffset w).
Proof. intros [? ?]. unfold u32_ok, WAL_PAGE_SIZE, WAL_PAGE_HEADER_SIZE in *. lia. Qed.

Definition put_size (k v : bytes) : Z := BLOG_HEADER_SIZE + 9 + Z.of_nat (length k) + Z.of_nat (length v).
Definition del_size (k : bytes) : Z := BLOG_HEADER_SIZE + 5 + Z.of_nat (length k).

(** The record of a [PUT]. *)
Definition put_log (pid : Z) (lsn k v : bytes) : BLog :=
  mkBLog (mkBLogHeader 0 lsn pid 0 (put_size k v)) PUT (Z.of_nat (length k)) k (Z.of_nat (length v)) v.

Lemma put_log_length pid lsn k v : v <> [] -> Z.of_nat (length (BLog_payload (put_log pid lsn k v))) = put_size k v.
Proof.
  intros Hv. assert (0 < Z.of_nat (length v)) by (destruct v; [done|cbn; lia]).
  rewrite payload_length. unfold record_size, put_size. cbn. rewrite Z.gtb_ltb, (proj2 (Z.ltb_lt _ _)) by done. lia.
Qed.

Lemma AddPutLog_eq pid k v w : wal_ok w -> size_ok (put_size k v) -> k <> [] -> v <> [] ->
  let n := next_pos (maxPage w) (maxOffset w) (put_size k v) in
  let lsn := mkLSN (maxPage w) (maxOffset w) (put_size k v) in
  AddPutLog pid k v w = (Val lsn, set_walBuff (walBuff w ++ [NLog (put_log pid lsn k v)]) (set_max n.1 n.2 w)).
Proof.
  intros Hw Hs Hk Hv n lsn. unfold AddPutLog. fold (put_size k v).
  assert (Hlk : 0 < Z.of_nat (length k)) by (destruct k; [done|cbn; lia]).
  assert (Hlv : 0 < Z.of_nat (length v)) by (destruct v; [done|cbn; lia]).
  pose proof Hs as Hs'. unfold size_ok, put_size, BLOG_HEADER_SIZE, WAL_PAGE_SIZE, WAL_PAGE_HEADER_SIZE in Hs'.
  rewrite (proj2 (Z.leb_gt _ _)), (proj2 (Z.leb_gt _ _)) by lia.
  rewrite (u32_small (put_size k v)) by (unfold put_size, BLOG_HEADER_SIZE; lia).
  erewrite bind_Val by (by apply assignLSN_eq). rewrite !u32_small by lia. done.
Qed.

Lemma AddDelLog_eq pid k w : wal_ok w -> size_ok (del_size k) -> k <> [] ->
  let n := next_pos (maxPage w) (maxOffset w) (del_size k) in
  let lsn := mkLSN (maxPage w) (maxOffset w) (del_size k) in
  AddDelLog pid k w = (Val lsn, set_walBuff (walBuff w ++
    [NLog (mkBLog (mkBLogHeader 0 lsn pid 0 (del_size k)) DEL (Z.of_nat (length k)) k 0 [])]) (set_max n.1 n.2 w)).
Proof.
  intros Hw Hs Hk n lsn. unfold AddDelLog. fold (del_size k).
  assert (Hlk : 0 < Z.of_nat (length k)) by (destruct k; [done|cbn; lia]).
  pose proof Hs as Hs'. unfold size_ok, del_size, BLOG_HEADER_SIZE, WAL_PAGE_SIZE, WAL_PAGE_HEADER_SIZE in Hs'.
  rewrite (proj2 (Z.leb_gt _ _)) by lia.
  rewrite (u32_small (del_size k)) by (unfold del_size, BLOG_HEADER_SIZE; lia).
  erewrite bind_Val by (by apply assignLSN_eq). rewrite !u32_small by lia. done.
Qed.

Lemma AddCheckpoint_eq p o s w : wal_ok w -> u32_ok p -> u32_ok o -> u32_ok s ->
  let n := next_pos (maxPage w) (maxOffset w) CHECKPOINT_SIZE in
  let lsn := mkLSN (maxPage w) (maxOffset w) CHECKPOINT_SIZE in
  AddCheckpoint (mkLSN p o s) w = (Val tt, set_conf lsn (set_walBuff (walBuff w ++
    [NCheckpoint (mkCheckPoint 128 (u32 (u32 (p * WAL_PAGE_SIZE) + o + s)) lsn)]) (set_max n.1 n.2 w))).
Proof.
  intros Hw Hp Ho Hs n lsn. unfold AddCheckpoint. rewrite mkLSN_length. change (negb (Z.of_nat 12 =? LSN_SIZE)) with false. cbv iota.
  replace (take 4 (drop 8 (mkLSN p o s))) with (le32 s) by done.
  replace (take 4 (mkLSN p o s)) with (le32 p) by done.
  replace (drop 4 (mkLSN p o s)) with (le32 o ++ le32 s) by done.
  rewrite !le32_decode_nil, le32_decode by done.
  do 3 (erewrite bind_Val by reflexivity; cbv beta). cbv zeta.
  by erewrite bind_Val by (by apply assignLSN_eq).
Qed.

(** One write of everything pending. *)
Lemma BLogWrite_eq w pend : concat_bytes (walBuff w) = Val pend -> w_queue w = [] ->
  exists w', BLogWrite w = (Val tt, w') /\ walBuff w' = [] /\ w_queue w' = [] /\ w_file w' = w_file w ++ pend /\
    maxPage w' = maxPage w /\ maxOffset w' = maxOffset w /\ w_conf w' = w_conf w.
Proof.
  intros Hb Hq. unfold BLogWrite, flushWal, mbind, M_bind, catch, get_state.
  destruct (walBuff w) as [|v vs] eqn:E.
  - cbn in Hb. injection Hb as <-. exists w. rewrite app_nil_r. split_and!; done.
  - unfold modify, lift_outcome, mret, M_ret. cbv beta iota. rewrite Hb. unfold AddJob, modify. cbn. rewrite Hq. cbn.
    eexists. split; [done|]. done.
Qed.

(** ** Runs of the log *)

Inductive wal_step : WAL -> WAL -> Prop :=
| ws_put pid k v l w w' : k <> [] -> v <> [] -> fits w (put_size k v) ->
    AddPutLog pid k v w = (Val l, w') -> wal_step w w'
| ws_del pid k l w w' : k <> [] -> fits w (del_size k) -> AddDelLog pid k w = (Val l, w') -> wal_step w w'
| ws_checkpoint p o s w w' : u32_ok p -> u32_ok o -> u32_ok s -> fits w CHECKPOINT_SIZE ->
    AddCheckpoint (mkLSN p o s) w = (Val tt, w') -> wal_step w w'
| ws_flush w w' : BLogWrite w = (Val tt, w') -> wal_step w w'.

Lemma log_ahead_put d pid k v l w w' : log_ahead d w -> k <> [] -> v <> [] -> fits w (put_size k v) ->
  AddPutLog pid k v w = (Val l, w') -> log_ahead d w'.
Proof.
  intros Hi Hk Hv Hf E. pose proof Hi as (Hw & _). pose proof (wal_ok_u32 _ Hw) as [Hp Ho].
  rewrite AddPutLog_eq in E by (done || apply Hf). injection E as _ <-.
  pose proof (put_log_length pid (mkLSN (maxPage w) (maxOffset w) (put_size k v)) k v Hv) as Hlen.
  rewrite <- Hlen at 2 3. apply log_ahead_add; [done|by rewrite Hlen|]. by eapply BLog_toBytes_eq.
Qed.

Lemma log_ahead_del d pid k l w w' : log_ahead d w -> k <> [] -> fits w (del_size k) ->
  AddDelLog pid k w = (Val l, w') -> log_ahead d w'.
Proof.
  intros Hi Hk Hf E. pose proof Hi as (Hw & _). pose proof (wal_ok_u32 _ Hw) as [Hp Ho].
  rewrite AddDelLog_eq in E by (done || apply Hf). injection E as _ <-.
  match goal with |- log_ahead d (set_walBuff (_ ++ [NLog ?b]) _) => set (r := b); assert (Hlen : Z.of_nat (length (BLog_payload r)) = del_size k) end.
  { rewrite payload_length. unfold record_size, del_size. cbn [b_valSize b_key b_val r]. cbn. lia. }
  rewrite <- Hlen. apply log_ahead_add; [done|by rewrite Hlen|]. by eapply BLog_toBytes_eq.
Qed.

Lemma log_ahead_checkpoint d p o s w w' : log_ahead d w -> u32_ok p -> u32_ok o -> u32_ok s -> fits w CHECKPOINT_SIZE ->
  AddCheckpoint (mkLSN p o s) w = (Val tt, w') -> log_ahead d w'.
Proof.
  intros Hi Hp Ho Hs Hf E. pose proof Hi as (Hw & _). pose proof (wal_ok_u32 _ Hw) as [Hp' Ho'].
  rewrite AddCheckpoint_eq in E by done. injection E as <-.
  match goal with |- log_ahead d (set_conf _ (set_walBuff (_ ++ [?v]) _)) =>
    assert (Hv : toBytes v = checkLogOverflow ([128] ++ le32 (u32 (u32 (p * WAL_PAGE_SIZE) + o + s)) ++
      mkLSN (maxPage w) (maxOffset w) CHECKPOINT_SIZE) (maxPage w) (maxOffset w)) by (by apply CheckPoint_toBytes_eq) end.
  eapply (log_ahead_add d w _ ([128] ++ le32 (u32 (u32 (p * WAL_PAGE_SIZE) + o + s)) ++
    mkLSN (maxPage w) (maxOffset w) CHECKPOINT_SIZE) Hi Hf) in Hv as (Hw' & Ho8 & Hq & pend & Hb & Hlen).
  split_and!; [exact Hw'|exact Ho8|exact Hq|]. by exists pend.
Qed.

Lemma log_ahead_flush d w w' : log_ahead d w -> BLogWrite w = (Val tt, w') -> log_ahead d w' /\ walBuff w' = [].
Proof.
  intros (Hw & Ho8 & Hq & pend & Hb & Hlen) E. destruct (BLogWrite_eq w pend Hb Hq) as (w1 & E1 & Hb1 & Hq1 & Hf1 & Hp1 & Ho1 & _).
  assert (w1 = w') as -> by congruence. split; [|done]. unfold log_ahead, wal_ok. rewrite Hp1, Ho1, Hb1, Hf1. split_and!; try done; try apply Hw.
  exists []. split; [done|]. rewrite length_app. cbn. lia.
Qed.

Lemma log_ahead_step d w w' : log_ahead d w -> wal_step w w' -> log_ahead d w'.
Proof.
  intros Hi Hs. destruct Hs; eauto using log_ahead_put, log_ahead_del, log_ahead_checkpoint. by eapply log_ahead_flush in H as [? _].
Qed.

Lemma log_ahead_run d w w' : log_ahead d w -> rtc wal_step w w' -> log_ahead d w'.
Proof. intros Hi Hr. induction Hr as [w|w1 w2 w3 Hs Hr IH]; [done|]. apply IH. by eapply log_ahead_step. Qed.

(** An empty log directory: the first checkpoint is written. *)
Definition new_log : WAL :=
  mkWAL [] 0 25 [] (WALPageHeader_toBytes (mkPageHeader WAL_MAGIC_NO 0) ++ [128] ++ le32 8 ++ mkLSN 0 8 17) (mkLSN 0 8 17).

Lemma NewWalWriter_new conf : NewWalWriter [] conf = Val new_log.
Proof. reflexivity. Qed.

Lemma new_log_inv : log_inv new_log.
Proof. unfold log_inv, log_ahead, wal_ok, WAL_PAGE_HEADER_SIZE, WAL_PAGE_SIZE. cbn. split_and!; try lia; [done|]. exists []. done. Qed.

Lemma restart_same w : log_inv w -> walBuff w = [] ->
  NewWalWriter (w_file w) (w_conf w) = Val w.
Proof.
  intros ([Hp Ho] & Ho8 & Hq & pend & Hb & Hlen) Hw. rewrite Hw in Hb. injection Hb as <-.
  unfold log_pos, WAL_PAGE_SIZE, WAL_PAGE_HEADER_SIZE in *. cbn [length Z.of_nat] in Hlen.
  assert (Hquot : Z.quot (Z.of_nat (length (w_file w))) 8192 = maxPage w).
  { symmetry. apply Z.quot_unique with (r := maxOffset w); lia. }
  unfold NewWalWriter, loadMaxLSN, calculatePageAndOffset. rewrite (proj2 (Z.leb_gt _ _)) by lia.
  unfold WAL_PAGE_SIZE. rewrite Hquot, !u32_small by lia.
  unfold initializeWriter, mbind, M_bind, get_state. cbn [w_file]. rewrite (proj2 (Z.leb_gt _ _)) by lia.
  cbn. destruct w. cbn in *. subst. do 3 f_equal. lia.
Qed.

(** C10: in every reachable state of the log (records of any kind and of at most 8176
    bytes added, buffer flushed at any moment, no record ending on a page boundary,
    fewer than 2^32 - 1 pages), the file and the pending bytes reach exactly the
    position of the next LSN. *)
Theorem log_follows_lsn conf w0 w :
  NewWalWriter [] conf = Val w0 -> rtc wal_step w0 w -> log_inv w.
Proof.
  rewrite NewWalWriter_new. intros [= <-] Hr. eapply log_ahead_run; [exact new_log_inv|exact Hr].
Qed.

(** After a flush, opening the files again restores the writer exactly: the
    same next LSN, nothing pending, file and checkpoint unchanged. *)
Lemma restart_resumes conf w0 w w1 :
  NewWalWriter [] conf = Val w0 -> rtc wal_step w0 w -> BLogWrite w = (Val tt, w1) ->
  NewWalWriter (w_file w1) (w_conf w1) = Val w1.
Proof.
  rewrite NewWalWriter_new. intros [= <-] Hr Hf.
  assert (log_inv w) as Hi by (eapply log_ahead_run; [exact new_log_inv|exact Hr]).
  destruct (log_ahead_flush 0 w w1 Hi Hf) as [Hi1 Hb1]. by apply restart_same.
Qed.

(** ** A record that ends on a page boundary *)

(** The bytes of a record that ends with its page carry the header of the next page
    behind them. *)
Lemma checkLogOverflow_edge data p o :
  0 <= p < 2 ^ 32 - 1 -> WAL_PAGE_HEADER_SIZE < o -> o + Z.of_nat (length data) = WAL_PAGE_SIZE -> data <> [] ->
  checkLogOverflow data p o = Val (data ++ WALPageHeader_toBytes (mkPageHeader WAL_MAGIC_NO (p + 1))).
Proof.
  intros Hp Ho He Hne. assert (0 < Z.of_nat (length data)) by (destruct data; [done|cbn; lia]).
  unfold checkLogOverflow, WAL_PAGE_SIZE, WAL_PAGE_HEADER_SIZE in *. rewrite (proj2 (Z.ltb_ge _ _)) by lia. cbv zeta.
  replace (u32 (o / 8192 + 1)) with 1 by (by rewrite Z.div_small by lia).
  change (u32 (8192 * 1)) with 8192. rewrite (u32_small (8192 - o)), (u32_small (p + 1)), (proj2 (Z.ltb_ge _ _)) by lia.
  rewrite take_ge, drop_ge by lia. by rewrite app_nil_r.
Qed.

(** The bytes of a record that starts a page carry that page's header before them. *)
Lemma checkLogOverflow_first data p : Z.of_nat (length data) < WAL_PAGE_SIZE - WAL_PAGE_HEADER_SIZE ->
  checkLogOverflow data p WAL_PAGE_HEADER_SIZE = Val (WALPageHeader_toBytes (mkPageHeader WAL_MAGIC_NO p) ++ data).
Proof.
  intros H. unfold checkLogOverflow, WAL_PAGE_SIZE, WAL_PAGE_HEADER_SIZE in *. by rewrite (proj2 (Z.ltb_lt _ _)) by lia.
Qed.

(** C32: when a [PUT]'s record ends exactly on a page boundary, the header of the next
    page is written twice, once behind that record and once before the next one (a
    [PUT] that fits in a page), and from then on, for as long as this writer runs, file
    and pending records together stay eight bytes further behind the LSNs than they
    were: [d + 8] instead of [d], over any sequence of records and flushes in which
    no other record ends on a boundary. *)
Theorem boundary_desync d pid1 k1 v1 pid2 k2 v2 w w1 w2 w3 l1 l2 :
  log_ahead d w -> k1 <> [] -> v1 <> [] -> k2 <> [] -> v2 <> [] -> maxPage w + 1 < 2 ^ 32 - 1 ->
  size_ok (put_size k1 v1) -> maxOffset w + put_size k1 v1 = WAL_PAGE_SIZE ->
  size_ok (put_size k2 v2) ->
  AddPutLog pid1 k1 v1 w = (Val l1, w1) -> AddPutLog pid2 k2 v2 w1 = (Val l2, w2) -> BLogWrite w2 = (Val tt, w3) ->
  (exists pend, concat_bytes (walBuff w) = Val pend /\
    let header := WALPageHeader_toBytes (mkPageHeader WAL_MAGIC_NO (maxPage w + 1)) in
    w_file w3 = w_file w ++ pend ++ BLog_payload (put_log pid1 l1 k1 v1) ++ header ++ header ++ BLog_payload (put_log pid2 l2 k2 v2)) /\
  forall w', rtc wal_step w3 w' -> log_ahead (d + WAL_PAGE_HEADER_SIZE) w'.
Proof.
  intros (Hw & Ho8 & Hq & pend & Hb & Hlen) Hk1 Hv1 Hk2 Hv2 Hpg Hs1 Hend Hs2 E1 E2 E3.
  pose proof Hw as [Hp Ho]. pose proof (wal_ok_u32 _ Hw) as [Hpu Hou].
  assert (Hn1 : next_pos (maxPage w) (maxOffset w) (put_size k1 v1) = (maxPage w + 1, 8)).
  { unfold next_pos. by rewrite Hend. }
  assert (Hn2 : next_pos (maxPage w + 1) 8 (put_size k2 v2) = (maxPage w + 1, 8 + put_size k2 v2)).
  { unfold next_pos, size_ok, WAL_PAGE_SIZE, WAL_PAGE_HEADER_SIZE in *. by rewrite Z.geb_leb, (proj2 (Z.leb_gt _ _)) by lia. }
  rewrite AddPutLog_eq, Hn1 in E1 by done. injection E1 as <- <-.
  rewrite AddPutLog_eq in E2; [|split; cbn; unfold WAL_PAGE_SIZE, WAL_PAGE_HEADER_SIZE; lia|done..].
  cbn [maxPage maxOffset walBuff set_walBuff set_max fst snd] in E2. rewrite Hn2 in E2. injection E2 as <- <-.
  set (r1 := put_log pid1 _ k1 v1) in *. set (r2 := put_log pid2 _ k2 v2) in *.
  set (header := WALPageHeader_toBytes _).
  assert (Hl1 : Z.of_nat (length (BLog_payload r1)) = put_size k1 v1) by by apply put_log_length.
  assert (Hl2 : Z.of_nat (length (BLog_payload r2)) = put_size k2 v2) by by apply put_log_length.
  assert (B1 : toBytes (NLog r1) = Val (BLog_payload r1 ++ header)).
  { cbn [toBytes]. rewrite (BLog_toBytes_eq r1 (maxPage w) (maxOffset w) (put_size k1 v1)) by done. apply checkLogOverflow_edge; [done|done|by rewrite Hl1|].
    intros E. rewrite E in Hl1. cbn in Hl1. destruct Hs1. lia. }
  assert (B2 : toBytes (NLog r2) = Val (header ++ BLog_payload r2)).
  { cbn [toBytes]. rewrite (BLog_toBytes_eq r2 (maxPage w + 1) 8 (put_size k2 v2)) by (done || unfold u32_ok; lia). apply checkLogOverflow_first. rewrite Hl2.
    unfold size_ok, WAL_PAGE_SIZE, WAL_PAGE_HEADER_SIZE in *. lia. }
  pose proof (concat_bytes_app _ _ _ _ (concat_bytes_app _ _ _ _ Hb B1) B2) as Hb2.
  match type of E3 with BLogWrite ?W = _ => destruct (BLogWrite_eq W _ Hb2 Hq) as (w4 & E4 & Hb4 & Hq4 & Hfile & Hp4 & Ho4 & _) end.
  assert (w4 = w3) as -> by congruence. clear E3 E4.
  cbn [w_file maxPage maxOffset set_walBuff set_max] in *. split; [exists pend; split; [done|]; by rewrite Hfile, <- !app_assoc|].
  intros w' Hr. eapply log_ahead_run; [|exact Hr]. unfold size_ok, WAL_PAGE_SIZE, WAL_PAGE_HEADER_SIZE in *.
  unfold log_ahead, wal_ok. rewrite Hp4, Ho4, Hb4, Hfile. unfold WAL_PAGE_SIZE, WAL_PAGE_HEADER_SIZE. split_and!; [lia..|done|exists []]. split; [done|].
  rewrite !length_app. assert (length header = 8%nat) as -> by done.
  unfold log_pos, WAL_PAGE_SIZE in *. cbn [length Z.of_nat]. lia.
Qed.

(** ** Concrete runs *)

Module WalSample.

Lemma GreaterLSN_order_witness :
  u32_ok 3 /\ GreaterLSN (mkLSN 3 9 40) (mkLSN 2 8000 50) = Val (bool_decide (lsn_lt (2, 8000) (3, 9))).
Proof. split; [unfold u32_ok; lia|]. apply (GreaterLSN_order 3 9 40 2 8000 50); unfold u32_ok; lia. Defined.

Lemma MaxLSN_max_witness :
  u32_ok 3 /\ MaxLSN (mkLSN 3 9 40) (mkLSN 3 8000 50) =
    Val (if decide (lsn_lt (3, 9) (3, 8000)) then mkLSN 3 8000 50 else mkLSN 3 9 40).
Proof. split; [unfold u32_ok; lia|]. apply (MaxLSN_max 3 9 40 3 8000 50); unfold u32_ok; lia. Defined.

Lemma assignLSN_increasing_witness :
  wal_ok new_log /\
  returns (l1 ← assignLSN 8000; l2 ← assignLSN 500; mret (l1, l2)) new_log (fun '(l1, l2) _ => GreaterLSN l2 l1 = Val true).
Proof.
  split; [apply new_log_inv|].
  apply (assignLSN_increasing new_log 8000 500); [apply new_log_inv|unfold size_ok; vm_compute; done|unfold size_ok; vm_compute; done].
Defined.

Lemma checkLogOverflow_length_witness :
  size_ok (Z.of_nat (length (replicate 100 7))) /\
  exists out, checkLogOverflow (replicate 100 7) 2 8150 = Val out /\
    log_pos 2 8150 + Z.of_nat (length out) = log_pos (next_pos 2 8150 100).1 (next_pos 2 8150 100).2 /\
    exists k : nat, log_pos 2 8150 + Z.of_nat k = log_pos 3 0 /\
      take k out ++ drop (k + 8) out = replicate 100 7 /\
      take 8 (drop k out) = WALPageHeader_toBytes (mkPageHeader WAL_MAGIC_NO 3).
Proof.
  split; [unfold size_ok; vm_compute; done|].
  apply (checkLogOverflow_length (replicate 100 7) 2 8150); [lia|unfold WAL_PAGE_HEADER_SIZE, WAL_PAGE_SIZE; lia|unfold size_ok; vm_compute; done].
Defined.

(** Two records, a checkpoint between them, then a flush. *)
Definition log1 : WAL := (AddPutLog 1 [65] [66; 67] new_log).2.
Definition log2 : WAL := (AddCheckpoint (mkLSN 0 25 37) log1).2.
Definition log3 : WAL := (AddDelLog 1 [65] log2).2.

Ltac fits_tac := unfold fits, size_ok; vm_compute; split_and!; done.

Lemma log3_run : rtc wal_step new_log log3.
Proof.
  eapply rtc_l; [eapply (ws_put 1 [65] [66; 67] (mkLSN 0 25 37) new_log log1); [done|done|fits_tac|vm_compute; reflexivity]|].
  eapply rtc_l; [eapply (ws_checkpoint 0 25 37 log1 log2); [split; done|split; done|split; done|fits_tac|vm_compute; reflexivity]|].
  eapply rtc_l; [eapply (ws_del 1 [65] (mkLSN 0 79 31) log2 log3); [done|fits_tac|vm_compute; reflexivity]|]. apply rtc_refl.
Qed.

Lemma log_follows_lsn_witness : NewWalWriter [] [] = Val new_log /\ log_inv log3.
Proof.
  split; [reflexivity|]. apply (log_follows_lsn [] new_log log3); [reflexivity|exact log3_run].
Defined.

Lemma restart_resumes_witness :
  BLogWrite log3 = (Val tt, (BLogWrite log3).2) /\
  NewWalWriter (w_file (BLogWrite log3).2) (w_conf (BLogWrite log3).2) = Val (BLogWrite log3).2.
Proof.
  split; [vm_compute; reflexivity|].
  apply (restart_resumes [] new_log log3 (BLogWrite log3).2); [reflexivity|exact log3_run|vm_compute; reflexivity].
Defined.

(** A value that makes the first record of a new log end at byte 8192. *)
Definition big : bytes := replicate 8132 1.
Definition edge1 : WAL := (AddPutLog 1 [65] big new_log).2.
Definition edge2 : WAL := (AddPutLog 1 [66] [67] edge1).2.

(** A later record, flushed too. *)
Definition edge3 : WAL := (BLogWrite edge2).2.
Definition edge4 : WAL := (AddPutLog 1 [68] [69] edge3).2.

Lemma boundary_desync_witness :
  maxOffset new_log + put_size [65] big = WAL_PAGE_SIZE /\
  (let header := WALPageHeader_toBytes (mkPageHeader WAL_MAGIC_NO 1) in
   exists pend, concat_bytes (walBuff new_log) = Val pend /\
   w_file edge3 = w_file new_log ++ pend ++ BLog_payload (put_log 1 (mkLSN 0 25 (put_size [65] big)) [65] big) ++ header ++ header ++
     BLog_payload (put_log 1 (mkLSN 1 8 (put_size [66] [67])) [66] [67])) /\
  log_ahead 8 edge4.
Proof.
  split; [vm_compute; reflexivity|].
  destruct (boundary_desync 0 1 [65] big 1 [66] [67] new_log edge1 edge2 edge3
    (mkLSN 0 25 (put_size [65] big)) (mkLSN 1 8 (put_size [66] [67]))) as [Hf Ha];
    [apply new_log_inv|done|done|done|done|cbn; lia|unfold size_ok; vm_compute; done|vm_compute; reflexivity
    |unfold size_ok; vm_compute; done|vm_compute; reflexivity|vm_compute; reflexivity|vm_compute; reflexivity|].
  split; [exact Hf|]. apply (Ha edge4). apply rtc_once.
  apply (ws_put 1 [68] [69] (mkLSN 1 44 36) edge3 edge4); [done|done|fits_tac|vm_compute; reflexivity].
Defined.

End WalSample.
