(* ===== verification/WalRace.v ===== *)
(** * Concurrent writers of the log

    [AddPutLog], [AddDelLog] and [AddCheckpoint] take two locks one after the other: the
    writer's for the LSN ([assignLSN]) and the buffer's for the record ([walBuff.Add]);
    a checkpoint then takes the writer's lock again ([saveCheckpoint]).  Here the
    callers run as a step relation with these critical sections as steps, next to the
    background writer, whose [BLogWrite] takes the buffer, queues the bytes, and waits
    for the queue's worker, which takes the job and appends it to the file.  Every
    record reaches the file once, whatever the interleaving; but the order of the
    records is the order of the second lock, and not that of the LSNs. *)

From S2P Require Import Prelude Keys Helpers Wal WalTheorems.
Local Open Scope Z_scope.

(** A call of [AddPutLog] or [AddDelLog]. *)
Record logcall := mkCall { rq_op : OperationType; rq_page : Z; rq_key : bytes; rq_val : bytes }.

Definition req_size (r : logcall) : Z :=
  match rq_op r with PUT => put_size (rq_key r) (rq_val r) | DEL => del_size (rq_key r) end.

(** Up to the end of the first critical section. *)
Definition log_begin (r : logcall) : M WAL bytes :=
  if Z.of_nat (length (rq_key r)) <=? 0 then fail WalError "Cannot add empty key in WAL"
  else if bool_decide (rq_op r = PUT) && (Z.of_nat (length (rq_val r)) <=? 0) then fail WalError "Cannot add empty val in WAL"
  else assignLSN (u32 (req_size r)).

(** The record, and the second critical section. *)
Definition record_of (r : logcall) (lsn : bytes) : BLog :=
  let hdr := mkBLogHeader 0 lsn (rq_page r) 0 (u32 (req_size r)) in
  match rq_op r with
  | PUT => mkBLog hdr PUT (u32 (Z.of_nat (length (rq_key r)))) (rq_key r) (u32 (Z.of_nat (length (rq_val r)))) (rq_val r)
  | DEL => mkBLog hdr DEL (u32 (Z.of_nat (length (rq_key r)))) (rq_key r) 0 []
  end.
Definition log_append (r : logcall) (lsn : bytes) : M WAL bytes := walBuf_Add (NLog (record_of r lsn));; mret lsn.

(** The two sections in a row are the operations of [Wal]. *)
Lemma AddPutLog_sections pid k v w : AddPutLog pid k v w = (lsn ← log_begin (mkCall PUT pid k v); log_append (mkCall PUT pid k v) lsn) w.
Proof.
  unfold AddPutLog, log_begin, log_append. cbn [rq_op rq_key rq_val rq_page]. rewrite bool_decide_eq_true_2 by done. cbn [andb].
  destruct (_ <=? 0); [done|]. by destruct (_ <=? 0).
Qed.

Lemma AddDelLog_sections pid k w : AddDelLog pid k w = (lsn ← log_begin (mkCall DEL pid k []); log_append (mkCall DEL pid k []) lsn) w.
Proof.
  unfold AddDelLog, log_begin, log_append. cbn [rq_op rq_key rq_val rq_page]. rewrite bool_decide_eq_false_2 by done. cbn [andb].
  by destruct (_ <=? 0).
Qed.

(** [AddCheckpoint]: the redo point (of the twelve bytes that get past the guard), the
    LSN, and the second critical section. *)
Definition redo_point (latestLSN : bytes) : Z :=
  match of_le32 (take 4 (drop 8 latestLSN)), of_le32 (take 4 latestLSN), of_le32 (drop 4 latestLSN) with
  | Val s, Val page, Val redoOffset => u32 (u32 (page * WAL_PAGE_SIZE) + redoOffset + s)
  | _, _, _ => 0
  end.
Definition checkpoint_begin (latestLSN : bytes) : M WAL bytes :=
  if negb (Z.of_nat (length latestLSN) =? LSN_SIZE) then fail WalError "Invalid LSN size" else assignLSN CHECKPOINT_SIZE.
Definition checkpoint_append (latestLSN lsn : bytes) : M WAL unit :=
  walBuf_Add (NCheckpoint (mkCheckPoint 128 (redo_point latestLSN) lsn)).

Lemma AddCheckpoint_sections l w :
  AddCheckpoint l w = (lsn ← checkpoint_begin l; checkpoint_append l lsn;; or_panic (saveCheckpoint lsn)) w.
Proof.
  unfold AddCheckpoint, checkpoint_begin, checkpoint_append, redo_point. destruct (Z.eqb_spec (Z.of_nat (length l)) LSN_SIZE) as [E|]; [|done].
  unfold LSN_SIZE in E. do 12 (destruct l as [|? l]; [cbn in E; lia|]). destruct l; [|cbn in E; lia]. done.
Qed.

(** A request of a caller: a change to log, or a checkpoint behind an LSN. *)
Inductive request := Change (r : logcall) | Mark (latestLSN : bytes).

Definition entry_size (q : request) : Z := match q with Change r => u32 (req_size r) | Mark _ => CHECKPOINT_SIZE end.
Definition entry_begin (q : request) : M WAL bytes := match q with Change r => log_begin r | Mark l => checkpoint_begin l end.
Definition entry_append (q : request) (lsn : bytes) : M WAL unit :=
  match q with Change r => log_append r lsn;; mret tt | Mark l => checkpoint_append l lsn end.
(** The node [entry_append] adds. *)
Definition entry_of (q : request) (lsn : bytes) : nodeValue :=
  match q with Change r => NLog (record_of r lsn) | Mark l => NCheckpoint (mkCheckPoint 128 (redo_point l) lsn) end.

(** ** Callers and the background writer *)

Inductive caller :=
| Calling (q : request)
| Numbered (q : request) (lsn : bytes)
| Saving (lsn : bytes)
| Returned (lsn : bytes)
| Refused (e : error).

(** Behind the second critical section a change is done and a checkpoint is saved. *)
Definition behind (q : request) (lsn : bytes) : caller := match q with Change _ => Returned lsn | Mark _ => Saving lsn end.

(** The background writer inside [BLogWrite]: nothing at hand; the records taken from
    the buffer, with their bytes; the job queued; the job with the queue's worker. *)
Inductive flusher :=
| FIdle
| FTaken (vs : list nodeValue) (data : bytes)
| FQueued (vs : list nodeValue)
| FWriting (vs : list nodeValue) (data : bytes).

(** The log, the callers, the writer, what was handed out so far and what was written so far. *)
Record conc := mkConc {
  cc_wal : WAL; cc_callers : list caller; cc_writer : flusher; cc_given : list (request * bytes); cc_flushed : list nodeValue
}.

(** [cs_take]: [flushWal] empties the buffer under its lock; the bytes are built from
    what was taken and from nothing else.  [cs_write]: the worker's append and the
    answer the writer waits for. *)
Inductive conc_step : conc -> conc -> Prop :=
| cs_assign i q lsn w cs f g fl w' : cs !! i = Some (Calling q) -> entry_begin q w = (Val lsn, w') ->
    conc_step (mkConc w cs f g fl) (mkConc w' (<[i := Numbered q lsn]> cs) f (g ++ [(q, lsn)]) fl)
| cs_refuse i q e w cs f g fl w' : cs !! i = Some (Calling q) -> entry_begin q w = (Err e, w') ->
    conc_step (mkConc w cs f g fl) (mkConc w' (<[i := Refused e]> cs) f g fl)
| cs_add i q lsn w cs f g fl w' : cs !! i = Some (Numbered q lsn) -> entry_append q lsn w = (Val tt, w') ->
    conc_step (mkConc w cs f g fl) (mkConc w' (<[i := behind q lsn]> cs) f g fl)
| cs_save i lsn w cs f g fl w' : cs !! i = Some (Saving lsn) -> saveCheckpoint lsn w = (Val tt, w') ->
    conc_step (mkConc w cs f g fl) (mkConc w' (<[i := Returned lsn]> cs) f g fl)
| cs_nothing w cs g fl w' : flushWal w = (Val None, w') ->
    conc_step (mkConc w cs FIdle g fl) (mkConc w' cs FIdle g fl)
| cs_take w cs g fl data w' : flushWal w = (Val (Some data), w') ->
    conc_step (mkConc w cs FIdle g fl) (mkConc w' cs (FTaken (walBuff w) data) g fl)
| cs_queue w cs vs data g fl w' : AddJob data w = (Val tt, w') ->
    conc_step (mkConc w cs (FTaken vs data) g fl) (mkConc w' cs (FQueued vs) g fl)
| cs_job w cs vs data g fl w' : unshift w = (Val (Some data), w') ->
    conc_step (mkConc w cs (FQueued vs) g fl) (mkConc w' cs (FWriting vs data) g fl)
| cs_write w cs vs data n g fl w' : writeWal data w = (Val n, w') ->
    conc_step (mkConc w cs (FWriting vs data) g fl) (mkConc w' cs FIdle g (fl ++ vs)).

Definition start (w : WAL) (qs : list request) : conc := mkConc w (Calling <$> qs) FIdle [] [].

(** ** The invariant *)

(** The next position behind a record of size [s]. *)
Definition advance (q : Z * Z) (s : Z) : Z * Z :=
  let newMaxOff := u32 (q.2 + s) in
  if newMaxOff >=? WAL_PAGE_SIZE then (u32 (q.1 + 1), u32 (newMaxOff - WAL_PAGE_SIZE + WAL_PAGE_HEADER_SIZE)) else (q.1, newMaxOff).

(** LSNs one behind the other, from [p] to [q]. *)
Inductive handed (p : Z * Z) : list (request * bytes) -> Z * Z -> Prop :=
| handed_nil : handed p [] p
| handed_snoc l q r : handed p l q ->
    handed p (l ++ [(r, mkLSN q.1 q.2 (entry_size r))]) (advance q (entry_size r)).

(** The records a list of callers has still to add. *)
Definition waiting (cs : list caller) : list nodeValue :=
  omap (fun c => match c with Numbered q lsn => Some (entry_of q lsn) | _ => None end) cs.

(** The records the background writer has taken and not yet written. *)
Definition in_flight (f : flusher) : list nodeValue :=
  match f with FIdle => [] | FTaken vs _ | FQueued vs | FWriting vs _ => vs end.

Definition logged (g : list (request * bytes)) : list nodeValue := (fun x => entry_of x.1 x.2) <$> g.

(** The job queue, and the bytes of the records in flight. *)
Definition flight_ok (f : flusher) (queue : list bytes) : Prop :=
  match f with
  | FIdle => queue = []
  | FTaken vs data | FWriting vs data => queue = [] /\ concat_bytes vs = Val data
  | FQueued vs => exists data, queue = [data] /\ concat_bytes vs = Val data
  end.

Record conc_ok (w0 : WAL) (s : conc) : Prop := {
  ok_lsns : handed (maxPage w0, maxOffset w0) (cc_given s) (maxPage (cc_wal s), maxOffset (cc_wal s));
  ok_once : cc_flushed s ++ in_flight (cc_writer s) ++ walBuff (cc_wal s) ++ waiting (cc_callers s) ≡ₚ logged (cc_given s);
  ok_file : exists data, concat_bytes (cc_flushed s) = Val data /\ w_file (cc_wal s) = w_file w0 ++ data;
  ok_flight : flight_ok (cc_writer s) (w_queue (cc_wal s))
}.

Lemma assignLSN_advance s w : assignLSN s w = (Val (mkLSN (maxPage w) (maxOffset w) s),
  set_max (advance (maxPage w, maxOffset w) s).1 (advance (maxPage w, maxOffset w) s).2 w).
Proof. unfold assignLSN, advance, mbind, M_bind, get_state, modify. cbn. by destruct (_ >=? _). Qed.

Lemma entry_begin_val q lsn w w' : entry_begin q w = (Val lsn, w') -> assignLSN (entry_size q) w = (Val lsn, w').
Proof.
  destruct q as [r|l]; cbn; unfold log_begin, checkpoint_begin; [|by destruct (negb _)]. destruct (_ <=? 0); [done|]. by destruct (_ && _).
Qed.

Lemma entry_begin_err q e w w' : entry_begin q w = (Err e, w') -> w' = w.
Proof.
  destruct q as [r|l]; cbn; unfold log_begin, checkpoint_begin; repeat case_match; first [by intros [= _ <-]|by rewrite assignLSN_advance].
Qed.

Lemma entry_append_eq q lsn w : entry_append q lsn w = (Val tt, set_walBuff (walBuff w ++ [entry_of q lsn]) w).
Proof. by destruct q. Qed.

Lemma waiting_behind q lsn : waiting [behind q lsn] = [].
Proof. by destruct q. Qed.

(** A caller at position [i] moves on. *)
Lemma waiting_split i c c' cs : cs !! i = Some c ->
  waiting cs ≡ₚ waiting [c] ++ waiting (take i cs ++ drop (S i) cs) /\
  waiting (<[i := c']> cs) ≡ₚ waiting [c'] ++ waiting (take i cs ++ drop (S i) cs).
Proof.
  intros Hi. unfold waiting. split.
  - rewrite <- (take_drop_middle _ _ _ Hi) at 1. change (c :: drop (S i) cs) with ([c] ++ drop (S i) cs). rewrite !omap_app. solve_Permutation.
  - rewrite insert_take_drop by (by eapply lookup_lt_Some). change (c' :: drop (S i) cs) with ([c'] ++ drop (S i) cs). rewrite !omap_app. solve_Permutation.
Qed.

Lemma concat_bytes_both l1 l2 d1 d2 : concat_bytes l1 = Val d1 -> concat_bytes l2 = Val d2 -> concat_bytes (l1 ++ l2) = Val (d1 ++ d2).
Proof.
  revert d1. induction l1 as [|x l1 IH]; cbn [concat_bytes app]; intros d1 H1 H2; [by injection H1 as <-|].
  destruct (toBytes x); [|done..]. destruct (concat_bytes l1) as [rest| | | |]; [|done..]. injection H1 as <-.
  rewrite (IH rest eq_refl H2). by rewrite app_assoc.
Qed.

(** What a flush that finds something takes. *)
Lemma flushWal_some w data w' : flushWal w = (Val (Some data), w') -> concat_bytes (walBuff w) = Val data /\ w' = set_walBuff [] w.
Proof.
  unfold flushWal, mbind, M_bind, get_state, modify, lift_outcome, mret, M_ret. destruct (walBuff w); [done|].
  destruct (concat_bytes _); [|done..]. by intros [= <- <-].
Qed.

(** An undisturbed flush is [BLogWrite]. *)
Lemma BLogWrite_steps w cs g fl pend : concat_bytes (walBuff w) = Val pend -> w_queue w = [] ->
  exists w', BLogWrite w = (Val tt, w') /\ rtc conc_step (mkConc w cs FIdle g fl) (mkConc w' cs FIdle g (fl ++ walBuff w)).
Proof.
  intros Hb Hq. destruct (walBuff w) as [|v vs] eqn:Ew.
  - exists w. unfold BLogWrite, flushWal, mbind, M_bind, catch, get_state. rewrite Ew, app_nil_r. split; [done|apply rtc_refl].
  - exists (set_file (w_file w ++ pend) (set_queue [] (set_queue [pend] (set_walBuff [] w)))).
    assert (flushWal w = (Val (Some pend), set_walBuff [] w)) as Hf.
    { unfold flushWal, mbind, M_bind, get_state, modify, lift_outcome, mret, M_ret. by rewrite Ew, Hb. }
    split.
    + unfold BLogWrite, catch, mbind, M_bind. rewrite Hf. unfold AddJob, modify. cbn. by rewrite Hq.
    + eapply rtc_l; [apply cs_take; exact Hf|]. rewrite Ew.
      eapply rtc_l; [apply cs_queue; unfold AddJob, modify; cbn; by rewrite Hq|].
      eapply rtc_l; [by apply cs_job|]. apply rtc_once. by eapply cs_write.
Qed.

Lemma waiting_calling qs : waiting (Calling <$> qs) = [].
Proof. induction qs as [|q qs IH]; [done|]. cbn. exact IH. Qed.

(** A caller's step. *)
Lemma conc_ok_caller w0 w cs f g fl i c c' w' : conc_ok w0 (mkConc w cs f g fl) -> cs !! i = Some c ->
  maxPage w' = maxPage w -> maxOffset w' = maxOffset w -> w_file w' = w_file w -> w_queue w' = w_queue w ->
  walBuff w' ++ waiting [c'] ≡ₚ walBuff w ++ waiting [c] ->
  conc_ok w0 (mkConc w' (<[i := c']> cs) f g fl).
Proof.
  intros [Hl Ho Hf Hq] Hi Hp Hoff Hfile Hqueue Hbuf. cbn [cc_wal cc_callers cc_given cc_flushed cc_writer] in *.
  destruct (waiting_split i c c' cs Hi) as [H1 H2].
  split; cbn [cc_wal cc_callers cc_given cc_flushed cc_writer]; rewrite ?Hp, ?Hoff, ?Hfile, ?Hqueue; [done| |done|done].
  by rewrite H2, <- Ho, H1, (app_assoc (walBuff w')), Hbuf, <- (app_assoc (walBuff w)).
Qed.

Lemma conc_ok_step w0 s s' : conc_ok w0 s -> conc_step s s' -> conc_ok w0 s'.
Proof.
  intros Hok Hs. destruct Hs as [i q lsn w cs f g fl w' Hi Hb|i q e w cs f g fl w' Hi Hb|i q lsn w cs f g fl w' Hi Hb|i lsn w cs f g fl w' Hi Hb
    |w cs g fl w' Hb|w cs g fl data w' Hb|w cs vs data g fl w' Hb|w cs vs data g fl w' Hb|w cs vs data n g fl w' Hb].
  - destruct Hok as [Hl Ho Hf Hq]. apply entry_begin_val in Hb. rewrite assignLSN_advance in Hb. injection Hb as <- <-.
    destruct (waiting_split i _ (Numbered q (mkLSN (maxPage w) (maxOffset w) (entry_size q))) cs Hi) as [H1 H2].
    split; cbn [cc_wal cc_callers cc_given cc_flushed cc_writer maxPage maxOffset walBuff w_file w_queue set_max] in *; [|..|done|done].
    + rewrite <- surjective_pairing. exact (handed_snoc _ _ _ q Hl).
    + unfold logged in *. rewrite fmap_app, <- Ho, H2, H1. cbn. solve_Permutation.
  - apply entry_begin_err in Hb as ->. by eapply conc_ok_caller.
  - rewrite entry_append_eq in Hb. injection Hb as <-. eapply conc_ok_caller; [done|done|done..|]. rewrite waiting_behind. by rewrite app_nil_r.
  - injection Hb as <-. by eapply conc_ok_caller.
  - unfold flushWal, mbind, M_bind, get_state in Hb. destruct (walBuff w) eqn:Ew; [by injection Hb as <-|].
    unfold modify, lift_outcome in Hb. by destruct (concat_bytes _).
  - destruct Hok as [Hl Ho Hf Hq]. apply flushWal_some in Hb as [Hb ->]. by split.
  - destruct Hok as [Hl Ho Hf [Hq Hd]]. injection Hb as <-. split; [done|done|done|]. exists data. cbn in *. by rewrite Hq.
  - destruct Hok as [Hl Ho Hf (d & Hq & Hd)]. cbn in Hq. unfold unshift, mbind, M_bind, get_state, modify in Hb. rewrite Hq in Hb.
    injection Hb as <- <-. by split.
  - destruct Hok as [Hl Ho (d & Hd & Hf) [Hq Hv]]. injection Hb as _ <-. split; cbn in *; [done| | |done].
    + by rewrite <- Ho, <- app_assoc.
    + exists (d ++ data). split; [by apply concat_bytes_both|]. by rewrite Hf, app_assoc.
Qed.

(** C11: concurrent writers lose no record.  From a log with nothing pending, in every
    interleaving of any number of callers (puts, deletions and checkpoints) with the
    background writer, the LSNs handed out lie one behind the other, and each of them
    belongs to exactly one record, which is in the file, in the hands of the writer,
    in the buffer, or still in the hands of its caller.  The file has grown by the
    bytes of the records written. *)
Theorem concurrent_log w0 qs s : walBuff w0 = [] -> w_queue w0 = [] -> rtc conc_step (start w0 qs) s ->
  handed (maxPage w0, maxOffset w0) (cc_given s) (maxPage (cc_wal s), maxOffset (cc_wal s)) /\
  cc_flushed s ++ in_flight (cc_writer s) ++ walBuff (cc_wal s) ++ waiting (cc_callers s) ≡ₚ logged (cc_given s) /\
  exists data, concat_bytes (cc_flushed s) = Val data /\ w_file (cc_wal s) = w_file w0 ++ data.
Proof.
  intros Hb Hq Hr. assert (conc_ok w0 s) as [Hl Ho Hf _]; [|done].
  assert (conc_ok w0 (start w0 qs)) as H0.
  { split; cbn; [constructor| |by exists []; rewrite app_nil_r|done]. by rewrite Hb, waiting_calling. }
  clear Hb Hq. remember (start w0 qs) as s0 eqn:E. clear E. induction Hr as [|s1 s2 s3 Hs _ IH]; [done|]. apply IH. by eapply conc_ok_step.
Qed.

(** ** The order of the records *)

(** Requests the log accepts. *)
Definition req_ok (r : logcall) : Prop := rq_key r <> [] /\ (rq_op r = PUT -> rq_val r <> []).

Lemma log_begin_ok r w : req_ok r -> wal_ok w -> size_ok (req_size r) -> maxOffset w + req_size r < WAL_PAGE_SIZE ->
  log_begin r w = (Val (mkLSN (maxPage w) (maxOffset w) (req_size r)), set_max (maxPage w) (maxOffset w + req_size r) w).
Proof.
  intros [Hk Hv] Hw Hs Hfit. unfold log_begin. rewrite (proj2 (Z.leb_gt _ _)) by (destruct (rq_key r); [done|cbn; lia]).
  assert (bool_decide (rq_op r = PUT) && (Z.of_nat (length (rq_val r)) <=? 0) = false) as ->.
  { case_bool_decide as E; [|done]. apply Z.leb_gt. specialize (Hv E). destruct (rq_val r); [done|cbn; lia]. }
  unfold size_ok, WAL_PAGE_SIZE, WAL_PAGE_HEADER_SIZE in *. rewrite u32_small by lia. rewrite assignLSN_eq by done.
  unfold next_pos. rewrite Z.geb_leb, (proj2 (Z.leb_gt _ _)) by (unfold WAL_PAGE_SIZE; lia). done.
Qed.

Lemma record_size_of r lsn : req_ok r -> size_ok (req_size r) -> record_size (record_of r lsn) = req_size r.
Proof.
  intros [_ Hv] Hs. unfold size_ok, WAL_PAGE_SIZE, WAL_PAGE_HEADER_SIZE, req_size, record_of, record_size, put_size, del_size in *.
  destruct (rq_op r); cbn; [|lia]. assert (0 < Z.of_nat (length (rq_val r))) by (specialize (Hv eq_refl); destruct (rq_val r); [done|cbn; lia]).
  unfold BLOG_HEADER_SIZE in *. rewrite u32_small, Z.gtb_ltb, (proj2 (Z.ltb_lt _ _)) by lia. lia.
Qed.

(** A record inside a page that is not the first of its page is written as it is. *)
Lemma record_bytes r p o : req_ok r -> u32_ok p -> WAL_PAGE_HEADER_SIZE < o -> size_ok (req_size r) -> o + req_size r < WAL_PAGE_SIZE ->
  toBytes (NLog (record_of r (mkLSN p o (req_size r)))) = Val (BLog_payload (record_of r (mkLSN p o (req_size r)))).
Proof.
  intros Hr Hp Ho Hs Hfit. cbn [toBytes]. unfold size_ok, WAL_PAGE_SIZE, WAL_PAGE_HEADER_SIZE in *.
  rewrite (BLog_toBytes_eq _ p o (req_size r)); [|done|unfold u32_ok; lia|by unfold record_of; destruct (rq_op r)].
  unfold checkLogOverflow. rewrite payload_length, record_size_of by done. unfold WAL_PAGE_SIZE, WAL_PAGE_HEADER_SIZE.
  by rewrite (proj2 (Z.ltb_lt _ _)), (proj2 (Z.leb_gt _ _)) by lia.
Qed.

(** Of two callers whose records fit in the current page, the first takes the smaller
    LSN, and the second appends its record before the first one does.  Both calls
    return, and behind the flush the record of the second caller lies at the file
    position of the first one's LSN. *)
Lemma race_in_file w r1 r2 :
  log_inv w -> walBuff w = [] -> req_ok r1 -> req_ok r2 -> size_ok (req_size r1) -> size_ok (req_size r2) ->
  maxOffset w + req_size r1 + req_size r2 < WAL_PAGE_SIZE ->
  let lsn1 := mkLSN (maxPage w) (maxOffset w) (req_size r1) in
  let lsn2 := mkLSN (maxPage w) (maxOffset w + req_size r1) (req_size r2) in
  Z.of_nat (length (w_file w)) = log_pos (maxPage w) (maxOffset w) /\
  exists s, rtc conc_step (start w [Change r1; Change r2]) s /\ cc_callers s = [Returned lsn1; Returned lsn2] /\
    cc_writer s = FIdle /\ walBuff (cc_wal s) = [] /\ w_queue (cc_wal s) = [] /\ w_conf (cc_wal s) = w_conf w /\
    maxPage (cc_wal s) = maxPage w /\ maxOffset (cc_wal s) = maxOffset w + req_size r1 + req_size r2 /\
    w_file (cc_wal s) = w_file w ++ BLog_payload (record_of r2 lsn2) ++ BLog_payload (record_of r1 lsn1).
Proof.
  intros (Hw & Ho & Hq & pend & Hp & Hpos) Hb Hr1 Hr2 Hs1 Hs2 Hfit lsn1 lsn2. pose proof Hw as [Hwp Hwo].
  rewrite Hb in Hp. injection Hp as <-. cbn [length Z.of_nat] in Hpos. split; [lia|].
  assert (0 < req_size r1 /\ 0 < req_size r2) as [P1 P2] by (unfold size_ok in *; lia).
  set (w1 := set_max (maxPage w) (maxOffset w + req_size r1) w). set (w2 := set_max (maxPage w) (maxOffset w + req_size r1 + req_size r2) w1).
  assert (log_begin r1 w = (Val lsn1, w1)) as E1 by (apply log_begin_ok; [done|done|done|lia]).
  assert (log_begin r2 w1 = (Val lsn2, w2)) as E2 by (apply log_begin_ok; [done|split; cbn; lia|done|cbn; lia]).
  set (w3 := set_walBuff [NLog (record_of r2 lsn2)] w2). set (w4 := set_walBuff [NLog (record_of r2 lsn2); NLog (record_of r1 lsn1)] w2).
  assert (log_append r2 lsn2 w2 = (Val lsn2, w3)) as E3 by (unfold log_append, walBuf_Add, modify, mbind, M_bind; cbn; by rewrite Hb).
  assert (log_append r1 lsn1 w3 = (Val lsn1, w4)) as E4 by done.
  assert (u32_ok (maxPage w)) as Hpu by (unfold u32_ok; lia).
  assert (Hb4 : concat_bytes (walBuff w4) = Val (BLog_payload (record_of r2 lsn2) ++ BLog_payload (record_of r1 lsn1))).
  { cbn [walBuff w4 set_walBuff concat_bytes]. unfold lsn1, lsn2. rewrite !record_bytes by (done || lia). by rewrite app_nil_r. }
  destruct (BLogWrite_eq w4 _ Hb4 Hq) as (w5 & Hw5 & Hb5 & Hq5 & Hf5 & Hp5 & Ho5 & Hc5).
  destruct (BLogWrite_steps w4 [Returned lsn1; Returned lsn2] ([] ++ [(Change r1, lsn1)] ++ [(Change r2, lsn2)]) [] _ Hb4 Hq) as (w5' & Hw5' & Hsteps).
  assert (w5' = w5) as -> by congruence.
  eexists (mkConc w5 [Returned lsn1; Returned lsn2] FIdle _ _). split_and!; [|done|done|exact Hb5|exact Hq5|exact Hc5|exact Hp5|exact Ho5|exact Hf5].
  eapply rtc_l; [apply (cs_assign 0%nat (Change r1) lsn1); [done|exact E1]|].
  eapply rtc_l; [apply (cs_assign 1%nat (Change r2) lsn2); [done|exact E2]|].
  eapply rtc_l; [apply (cs_add 1%nat (Change r2) lsn2 _ _ _ _ _ w3); [done|cbn [entry_append]; unfold mbind, M_bind; by rewrite E3]|].
  eapply rtc_l; [apply (cs_add 0%nat (Change r1) lsn1 _ _ _ _ _ w4); [done|cbn [entry_append]; unfold mbind, M_bind; by rewrite E4]|].
  exact Hsteps.
Qed.

Module RaceSample.

Definition put_a : logcall := mkCall PUT 1 [65] [1].
Definition put_b : logcall := mkCall PUT 1 [65] [2].

(** A checkpoint has its LSN, one put has its own, another has returned, and the
    writer has taken its record and queued the bytes. *)
Definition calls : list request := [Change put_a; Change put_b; Mark (mkLSN 0 25 36)].
Definition numbered : WAL := (checkpoint_begin (mkLSN 0 25 36) (log_begin put_b (log_begin put_a new_log).2).2).2.
Definition mid : conc :=
  let w := (log_append put_b (mkLSN 0 61 36) numbered).2 in
  let data := match (flushWal w).1 with Val (Some d) => d | _ => [] end in
  mkConc (AddJob data (flushWal w).2).2 [Numbered (Change put_a) (mkLSN 0 25 36); Returned (mkLSN 0 61 36); Numbered (Mark (mkLSN 0 25 36)) (mkLSN 0 97 17)]
    (FQueued (walBuff w)) [(Change put_a, mkLSN 0 25 36); (Change put_b, mkLSN 0 61 36); (Mark (mkLSN 0 25 36), mkLSN 0 97 17)] [].

Lemma mid_reach : rtc conc_step (start new_log calls) mid.
Proof.
  eapply rtc_l; [apply (cs_assign 0%nat (Change put_a) (mkLSN 0 25 36)); [done|vm_compute; reflexivity]|].
  eapply rtc_l; [apply (cs_assign 1%nat (Change put_b) (mkLSN 0 61 36)); [done|vm_compute; reflexivity]|].
  eapply rtc_l; [apply (cs_assign 2%nat (Mark (mkLSN 0 25 36)) (mkLSN 0 97 17)); [done|vm_compute; reflexivity]|].
  eapply rtc_l; [apply (cs_add 1%nat (Change put_b) (mkLSN 0 61 36)); [done|vm_compute; reflexivity]|].
  eapply rtc_l; [apply cs_take; vm_compute; reflexivity|].
  apply rtc_once. apply cs_queue. vm_compute. reflexivity.
Qed.

Lemma concurrent_log_witness :
  cc_writer mid = FQueued [NLog (record_of put_b (mkLSN 0 61 36))] /\
  (handed (maxPage new_log, maxOffset new_log) (cc_given mid) (maxPage (cc_wal mid), maxOffset (cc_wal mid)) /\
   cc_flushed mid ++ in_flight (cc_writer mid) ++ walBuff (cc_wal mid) ++ waiting (cc_callers mid) ≡ₚ logged (cc_given mid) /\
   exists data, concat_bytes (cc_flushed mid) = Val data /\ w_file (cc_wal mid) = w_file new_log ++ data).
Proof. split; [vm_compute; reflexivity|]. apply (concurrent_log new_log calls mid); [reflexivity|reflexivity|exact mid_reach]. Defined.

End RaceSample.
