(* ===== verification/BTree.v ===== *)
(** * The B+ tree index ([pkg/bptree/bp_tree.go]): data and node operations

    The tree keeps its nodes in pages it reaches through a cache.  The cache the
    package imports ([pkg/buffer_manager]) is not part of the repository, so it
    is a parameter: [CacheOps] lists the calls the tree makes, and
    [CacheSpec.v] states what the tree relies on.  Everything else is
    translated: the log is the model of [Wal.v], the searches are those of
    [Helpers.v] and the traversal stack that of [BTStack.v].

    A [Node] is built from a page by [loadNode] for one call and is private to
    it, so node latches are not modelled; the tree's own lock [bt.mu] is, because
    a call that returns with it held makes later calls block. *)

From S2P Require Import Prelude Keys Helpers BTStack Wal.
Local Open Scope Z_scope.

Definition DEGREE : nat := 2.
Definition ORDER : nat := (DEGREE * 2)%nat.

(** ** The cache interface *)

(** What [Frame.GetMinPage] decodes from a page. *)
Record MinPage := mkMinPage {
  mp_Keys : list bytes;
  mp_Vals : list bytes;
  mp_Children : list Z;
  mp_PageId : Z;
  mp_RightSibling : Z;
  mp_LeftSibling : Z
}.

(** The calls the tree makes on the cache and its frames. *)
Class CacheOps (C F : Type) := {
  fr_Key : F -> Z;
  c_Get : Z -> M C F;
  c_CreateNewEntry : bytes -> list bytes -> option (list bytes) -> option (list Z) -> bool -> M C F;
  c_SyncFrame : F -> bytes -> list bytes -> list bytes -> list Z -> Z -> Z -> M C unit;
  c_ReleaseFrame : F -> bool -> M C unit;
  c_MarkFrameDirty : F -> M C unit;
  c_SetNewRoot : F -> M C unit;
  c_GetRootPageId : C -> Z;
  c_Close : M C unit;
  fr_MarkAsDead : F -> M C unit;
  fr_UpdatePageLSN : F -> bytes -> M C unit;
  fr_GetMinPage : F -> M C MinPage;
  fr_Internal : F -> M C bool
}.

(** ** Data *)

Record Node := mkNode {
  Keys : list bytes;
  Children : list Z;
  Leaf : bool;
  Values : list bytes;
  LeftSibling : Z;
  RightSibling : Z;
  PageId : Z;
  n_lsn : bytes
}.

Definition set_Keys (k : list bytes) (n : Node) : Node :=
  mkNode k (Children n) (Leaf n) (Values n) (LeftSibling n) (RightSibling n) (PageId n) (n_lsn n).
Definition set_Children (c : list Z) (n : Node) : Node :=
  mkNode (Keys n) c (Leaf n) (Values n) (LeftSibling n) (RightSibling n) (PageId n) (n_lsn n).
Definition set_Values (v : list bytes) (n : Node) : Node :=
  mkNode (Keys n) (Children n) (Leaf n) v (LeftSibling n) (RightSibling n) (PageId n) (n_lsn n).
Definition set_Left (p : Z) (n : Node) : Node :=
  mkNode (Keys n) (Children n) (Leaf n) (Values n) p (RightSibling n) (PageId n) (n_lsn n).
Definition set_Right (p : Z) (n : Node) : Node :=
  mkNode (Keys n) (Children n) (Leaf n) (Values n) (LeftSibling n) p (PageId n) (n_lsn n).
Definition set_PageId (p : Z) (n : Node) : Node :=
  mkNode (Keys n) (Children n) (Leaf n) (Values n) (LeftSibling n) (RightSibling n) p (n_lsn n).
Definition set_lsn (l : bytes) (n : Node) : Node :=
  mkNode (Keys n) (Children n) (Leaf n) (Values n) (LeftSibling n) (RightSibling n) (PageId n) l.

Record SplitResponse := mkSplit {
  PromotedSeparatorKey : bytes; NewNodeId : Z; OpLSN : bytes
}.
Definition empty_split : SplitResponse := mkSplit [] 0 [].

Record MergeMetadata := mkMerge {
  rebalanceKey : bytes; rightMerge : bool; merged : bool; mr_OpLSN : bytes
}.
Definition empty_merge : MergeMetadata := mkMerge [] false false [].

Record RangeItem := mkItem { ri_Key : bytes; ri_Val : bytes }.

Record BTree (C : Type) := mkBTree {
  Root : Z;
  bt_mu : RWMutex;
  bt_wal : WAL;
  bt_cache : C
}.
Arguments mkBTree {C} _ _ _ _.
Arguments Root {C} _.
Arguments bt_mu {C} _.
Arguments bt_wal {C} _.
Arguments bt_cache {C} _.

Section Tree.
Context {C F : Type} `{!CacheOps C F}.
Local Abbreviation MT := (M (BTree C)).
Local Abbreviation Stack := (BTStack Node).

Definition set_Root (r : Z) (t : BTree C) : BTree C := mkBTree r (bt_mu t) (bt_wal t) (bt_cache t).
Definition set_mu (m : RWMutex) (t : BTree C) : BTree C := mkBTree (Root t) m (bt_wal t) (bt_cache t).
Definition set_wal (w : WAL) (t : BTree C) : BTree C := mkBTree (Root t) (bt_mu t) w (bt_cache t).
Definition set_cache (c : C) (t : BTree C) : BTree C := mkBTree (Root t) (bt_mu t) (bt_wal t) c.

(** A call on [bt.cache] or one of its frames, and a call on [bt.wal]. *)
Definition onC {A} (m : M C A) : MT A := zoom bt_cache set_cache m.
Definition onW {A} (m : M WAL A) : MT A := zoom bt_wal set_wal m.

(** A call on a local variable of the function. *)
Definition onL {L A} (m : M L A) (l : L) : MT (A * L) := fun t =>
  match m l with
  | (Val a, l') => (Val (a, l'), t)
  | (Err e, _) => (Err e, t)
  | (Panic p, _) => (Panic p, t)
  | (Blocked, _) => (Blocked, t)
  | (OutOfFuel, _) => (OutOfFuel, t)
  end.

Definition mu_Lock : MT unit := fun t =>
  if mu_writer (bt_mu t) || negb (mu_readers (bt_mu t) =? 0)%nat then (Blocked, t)
  else (Val tt, set_mu (mkMutex true 0) t).
Definition mu_Unlock : MT unit := fun t =>
  if mu_writer (bt_mu t) then (Val tt, set_mu (mkMutex false (mu_readers (bt_mu t))) t)
  else (Panic "sync: Unlock of unlocked RWMutex", t).
Definition mu_RLock : MT unit := fun t =>
  if mu_writer (bt_mu t) then (Blocked, t)
  else (Val tt, set_mu (mkMutex false (S (mu_readers (bt_mu t)))) t).
Definition mu_RUnlock : MT unit := fun t =>
  match mu_readers (bt_mu t) with
  | O => (Panic "sync: RUnlock of unlocked RWMutex", t)
  | S r => (Val tt, set_mu (mkMutex (mu_writer (bt_mu t)) r) t)
  end.

(** [n.SyncFrame]: every call passes the node's fields in this way. *)
Definition sync_node (fr : F) (lsn : bytes) (n : Node) : MT unit :=
  onC (c_SyncFrame fr lsn (Keys n) (Values n) (Children n) (u32 (RightSibling n)) (u32 (LeftSibling n))).

(** [NewIndex] *)
Definition NewIndex (w : WAL) (c : C) : BTree C := mkBTree (c_GetRootPageId c) free_mutex w c.

(** ** Building and splitting nodes *)

(** Both guards ask for a length below the minimum and above the maximum. *)
Definition createNode (separatorKeys : list bytes) (isLeaf isRoot : bool) : outcome Node :=
  let n := length separatorKeys in
  if negb isLeaf && ((n <? DEGREE - 1)%nat && (ORDER - 1 <? n)%nat)
  then Err (mkError BTreeError "Keys must be between 1 to 3")
  else if isLeaf && ((n <? DEGREE)%nat && (ORDER <? n)%nat)
  then Err (mkError BTreeError "Keys must be from 2 to 4")
  else if isLeaf
  then Val (mkNode separatorKeys [] isLeaf (replicate (2 * DEGREE) []) 0 0 0 [])
  else Val (mkNode separatorKeys [] isLeaf [] 0 0 0 []).

(** Returns the node cut down to its left half, the new right node, and the
    promoted key of an internal node. *)
Definition split (n : Node) (lsn : bytes) : MT (Node * Node * bytes) :=
  let mid := (length (Keys n) / 2)%nat in
  if Leaf n then
    if (length (Values n) <? mid)%nat then panic "slice bounds out of range" else
    let rightKeys := drop mid (Keys n) in
    let rightVals := drop mid (Values n) in
    let n' := set_Values (take mid (Values n)) (set_Keys (take mid (Keys n)) n) in
    rightNode ← or_panic (lift_outcome (createNode rightKeys true false));
    mret (n', set_lsn lsn (set_Values rightVals rightNode), [])
  else
    promotedKey ← index_at (Keys n) (Z.of_nat mid);
    if (length (Children n) <? mid + 1)%nat then panic "slice bounds out of range" else
    let rightKeys := drop (mid + 1) (Keys n) in
    let rightChildren := drop (mid + 1) (Children n) in
    let n' := set_Children (take (mid + 1) (Children n)) (set_Keys (take mid (Keys n)) n) in
    rightNode ← or_panic (lift_outcome (createNode rightKeys false false));
    mret (n', set_lsn lsn (set_Children rightChildren rightNode), promotedKey).

(** Creates a page for the node and sets its [PageId]. *)
Definition assignFrame (n : Node) (lsn : bytes) (isRoot : bool) : MT (F * Node) :=
  if Leaf n then
    fr ← onC (c_CreateNewEntry lsn (Keys n) (Some (Values n)) None isRoot);
    mret (fr, set_PageId (i32 (fr_Key fr)) n)
  else
    fr ← onC (c_CreateNewEntry lsn (Keys n) None (Some (Children n)) isRoot);
    mret (fr, set_PageId (i32 (fr_Key fr)) n).

Definition loadNode (fr : F) : MT Node :=
  minPge ← onC (fr_GetMinPage fr);
  internalNode ← onC (fr_Internal fr);
  if internalNode : bool then
    mret (mkNode (mp_Keys minPge) (mp_Children minPge) (negb internalNode) []
            (mp_LeftSibling minPge) (mp_RightSibling minPge) (i32 (mp_PageId minPge)) [])
  else
    mret (mkNode (mp_Keys minPge) [] (negb internalNode) (mp_Vals minPge)
            (mp_LeftSibling minPge) (mp_RightSibling minPge) (i32 (mp_PageId minPge)) []).

Definition buildPage (pageId : Z) : MT (F * Node) :=
  frame ← onC (c_Get pageId);
  node ← loadNode frame;
  mret (frame, node).

(** ** Inserting in a node *)

(** [if len(lsn) <= 0 { lsn, err = bt.wal.AddPutLog(..); if err != nil { panic } }] *)
Definition put_lsn (lsn : bytes) (pageId : Z) (key val : bytes) : MT bytes :=
  if (length lsn =? 0)%nat then or_panic (onW (AddPutLog (u32 pageId) key val)) else mret lsn.

(** The result of [InsertToList] is stored through the pointer; its error is dropped. *)
Definition insert_to {T} (l : list T) (idx : Z) (x : T) : list T :=
  match InsertToList l idx x with Val l' => l' | _ => l end.

(** The slot update of the leaf branch: before, replacing, or after [idx]. *)
Definition leaf_put (n : Node) (idx : Z) (kAtIdx key val : bytes) : MT Node :=
  if bytes_compare key kAtIdx =? -1 then
    mret (set_Values (insert_to (Values n) idx val) (set_Keys (insert_to (Keys n) idx key) n))
  else if bytes_compare key kAtIdx =? 0 then
    if (length (Values n) <=? Z.to_nat idx)%nat then panic "index out of range" else
    mret (set_Values (<[Z.to_nat idx := val]> (Values n)) (set_Keys (<[Z.to_nat idx := key]> (Keys n)) n))
  else
    mret (set_Values (insert_to (Values n) (idx + 1) val) (set_Keys (insert_to (Keys n) (idx + 1) key) n)).

(** Overflow of a leaf: split it, give the right half a page, relink the
    siblings, and report the separator and the new page. *)
Definition leaf_overflow (lsn : bytes) (n : Node) (fr : F) (rp : SplitResponse) : MT SplitResponse :=
  '(n, newRightNode, _) ← split n lsn;
  '(newRightFr, newRightNode) ← or_panic (assignFrame newRightNode lsn false);
  let newRightNode := set_Left (PageId n) newRightNode in
  let newRightNode := set_Right (RightSibling n) newRightNode in
  oldRight ← (if RightSibling n >? 0 then
                '(oldRightFr, oldRightSibling) ← buildPage (u32 (RightSibling n));
                mret (Some (oldRightFr, set_Left (PageId newRightNode) oldRightSibling))
              else mret None);
  let n := set_Right (PageId newRightNode) n in
  sepKey ← index_at (Keys newRightNode) 0;
  let rp := mkSplit sepKey (u32 (PageId newRightNode)) lsn in
  or_panic (sync_node newRightFr lsn newRightNode);;
  or_panic (sync_node fr lsn n);;
  (match oldRight with
   | Some (oldRightFr, oldRightSibling) => or_panic (sync_node oldRightFr lsn oldRightSibling)
   | None => mret tt
   end);;
  mret rp.

(** [insert]: the page to follow (0 once the key is stored), the split of the
    leaf if any, and the stack with this node pushed when it is internal. *)
Definition insert (lsn : bytes) (n : Node) (fr : F) (key val : bytes) (rp : SplitResponse)
    (st : Stack) : MT (Z * SplitResponse * Stack) :=
  if (length (Keys n) =? 0)%nat && (length (Values n) =? 0)%nat then
    lsn ← put_lsn lsn (PageId n) key val;
    let n := set_lsn lsn (set_Values (Values n ++ [val]) (set_Keys (Keys n ++ [key]) n)) in
    sync_node fr lsn n;;
    mret (0, rp, st)
  else
    idx ← or_panic (lift_outcome (InsertBinarySearch (Keys n) key 0));
    kAtIdx ← index_at (Keys n) idx;
    if Leaf n then
      lsn ← put_lsn lsn (PageId n) key val;
      n ← leaf_put (set_lsn lsn n) idx kAtIdx key val;
      if (ORDER <? length (Keys n))%nat then
        rp ← leaf_overflow lsn n fr rp;
        mret (0, rp, st)
      else
        ignore (sync_node fr lsn n);;
        mret (0, rp, st)
    else if bytes_compare key kAtIdx =? -1 then
      '(_, st) ← onL (Add (mkPath n (u32 idx))) st;
      child ← index_at (Children n) idx;
      mret (u32 child, rp, st)
    else
      '(_, st) ← onL (Add (mkPath n (u32 (idx + 1)))) st;
      child ← index_at (Children n) (idx + 1);
      mret (u32 child, rp, st).

(** ** Inserting in the tree *)

Definition release_opt (f : option F) : MT unit :=
  match f with Some f => onC (c_ReleaseFrame f false) | None => mret tt end.

(** No root yet: a leaf with the one binding becomes the root.  [lsn] is the
    variable of the whole call, so the log record's number stays in it. *)
Definition insert_root (lsn key val : bytes) : MT bytes :=
  let rootNode := mkNode [key] [] true [val] 0 0 0 [] in
  '(rootFr, rootNode) ← assignFrame rootNode [] true;
  mu_Lock;;
  modify (set_Root (fr_Key rootFr));;
  root ← gets Root;
  lsn ← (if (length lsn =? 0)%nat then or_panic (onW (AddPutLog (u32 root) key val)) else mret lsn);
  or_panic (onC (fr_UpdatePageLSN rootFr lsn));;
  or_panic (onC (c_SyncFrame rootFr lsn (Keys rootNode) (Values rootNode) (Children rootNode) 0 0));;
  mu_Unlock;;
  mret lsn.

(** The descent to the leaf; each frame is released once its child is loaded. *)
Fixpoint insert_descend (fuel : nat) (lsn key val : bytes) (nodePageId : Z) (oldFrame : option F)
    (rp : SplitResponse) (st : Stack) : MT (option F * SplitResponse * Stack) :=
  if nodePageId =? 0 then mret (oldFrame, rp, st) else
  match fuel with
  | O => out_of_fuel
  | S fuel' =>
      '(frame, node) ← buildPage nodePageId;
      or_panic (release_opt oldFrame);;
      mu_Lock;;
      root ← gets Root;
      (if nodePageId =? root then modify (set_Root nodePageId) else mret tt);;
      mu_Unlock;;
      r ← catch (insert lsn node frame key val rp st);
      match r with
      | inr e =>
          ignore (onC (c_ReleaseFrame frame false));;
          ignore (release_opt oldFrame);;
          fail (ekind e) (Message e)
      | inl (next, rp, st) => insert_descend fuel' lsn key val next (Some frame) rp st
      end
  end.

(** Overflow of an internal node during propagation: its new content, and the
    split to propagate to its own parent. *)
Definition parent_overflow (n : Node) (insertRes : SplitResponse) : MT (Node * SplitResponse) :=
  let lsn := OpLSN insertRes in
  '(n, newRightNode, promoted) ← split n lsn;
  '(newRightFr, newRightNode) ← assignFrame newRightNode lsn false;
  let newRightNode := set_Left (PageId n) newRightNode in
  let newRightNode := set_Right (RightSibling n) newRightNode in
  (if RightSibling n >? 0 then
     '(oldRightFr, oldRightSibling) ← buildPage (u32 (RightSibling n));
     let oldRightSibling := set_Left (PageId newRightNode) oldRightSibling in
     or_panic (sync_node oldRightFr lsn oldRightSibling)
   else mret tt);;
  let n := set_Right (PageId newRightNode) n in
  let r := mkSplit promoted (u32 (PageId newRightNode)) lsn in
  or_panic (sync_node newRightFr lsn newRightNode);;
  mret (n, r).

(** The split reached the top: a new root over the old one and the new node. *)
Definition add_root (insertRes : SplitResponse) : MT unit :=
  newRoot ← lift_outcome (createNode [PromotedSeparatorKey insertRes] false true);
  root ← gets Root;
  let newRoot := set_Children (Children newRoot ++ [i32 root] ++ [i32 (NewNodeId insertRes)]) newRoot in
  '(rootFr, newRoot) ← or_panic (assignFrame newRoot (OpLSN insertRes) true);
  or_panic (sync_node rootFr (OpLSN insertRes) newRoot);;
  mu_Lock;;
  modify (set_Root (u32 (PageId newRoot)));;
  mu_Unlock.

Fixpoint propagate (fuel : nat) (insertRes : SplitResponse) (st : Stack) : MT Stack :=
  if NewNodeId insertRes =? 0 then mret st else
  match fuel with
  | O => out_of_fuel
  | S fuel' =>
      if Count st >? 0 then
        '(parent, st) ← onL Pop st;
        let n := tp_n parent in
        parentFr ← onC (c_Get (u32 (PageId n)));
        keys ← lift_outcome (InsertToList (Keys n) (tp_idx parent) (PromotedSeparatorKey insertRes));
        children ← lift_outcome (InsertToList (Children n) (u32 (tp_idx parent + 1)) (i32 (NewNodeId insertRes)));
        let n := set_Children children (set_Keys keys n) in
        '(n, insertRes) ←
          (if (ORDER - 1 <? length (Keys n))%nat then parent_overflow n insertRes
           else mret (n, mkSplit [] 0 (OpLSN insertRes)));
        or_panic (sync_node parentFr (OpLSN insertRes) n);;
        ignore (onC (c_ReleaseFrame parentFr false));;
        propagate fuel' insertRes st
      else
        add_root insertRes;;
        mret st
  end.

(** One iteration of [InsertValue]'s loop; the new value of [lsn]. *)
Definition insert_one (fuel : nat) (lsn key val : bytes) : MT bytes :=
  root ← gets Root;
  let st := NewBTStack root in
  if root =? 0 then insert_root lsn key val
  else
    mu_RLock;;
    nodePageId ← gets Root;
    mu_RUnlock;;
    '(oldFrame, insertRes, st) ← insert_descend fuel lsn key val nodePageId None empty_split st;
    or_panic (release_opt oldFrame);;
    st ← propagate fuel insertRes st;
    (if Count st >? 0 then onL Clear st;; mret tt else mret tt);;
    mret lsn.

Fixpoint InsertValue (fuel : nat) (keys vals : list bytes) (lsn : bytes) : MT bool :=
  match keys, vals with
  | [], _ => mret true
  | _ :: _, [] => panic "index out of range"
  | key :: keys', val :: vals' =>
      lsn ← insert_one fuel lsn key val;
      InsertValue fuel keys' vals' lsn
  end.

(** ** Lookup *)

(** [search]: the value found, and the child to follow (0 in a leaf). *)
Definition search (n : Node) (key : bytes) : MT (bytes * Z) :=
  if (length (Keys n) =? 0)%nat || ((length (Values n) =? 0)%nat && (length (Children n) =? 0)%nat)
  then panic "Invalid node"
  else
    idx ← lift_outcome (InsertBinarySearch (Keys n) key 0);
    k ← index_at (Keys n) idx;
    if Leaf n then
      if bytes_compare key k =? 0 then
        v ← index_at (Values n) idx; mret (v, 0)
      else fail BTreeError "Key not found"
    else if bytes_compare key k =? -1 then
      c ← index_at (Children n) idx; mret ([], c)
    else
      c ← index_at (Children n) (idx + 1); mret ([], c).

Fixpoint get_loop (fuel : nat) (key : bytes) (nodePageId : Z) (oldFrame : option F) (val : bytes)
    : MT (option F * bytes) :=
  if negb (nodePageId >? 0) then mret (oldFrame, val) else
  match fuel with
  | O => out_of_fuel
  | S fuel' =>
      fr ← onC (c_Get (u32 nodePageId));
      pge ← loadNode fr;
      or_panic (release_opt oldFrame);;
      r ← catch (search pge key);
      match r with
      | inr e =>
          ignore (onC (c_ReleaseFrame fr false));;
          ignore (release_opt oldFrame);;
          fail (ekind e) (Message e)
      | inl (val, next) => get_loop fuel' key next (Some fr) val
      end
  end.

Definition Get (fuel : nat) (key : bytes) : MT bytes :=
  mu_RLock;;
  root ← gets Root;
  if root =? 0 then mu_RUnlock;; fail BTreeError "Key Value store not initialized"
  else
    mu_RUnlock;;
    '(oldFrame, val) ← get_loop fuel key (i32 root) None [];
    or_panic (release_opt oldFrame);;
    mret val.

(** ** Range queries *)

(** The bindings of a leaf from [idx] on; a missing value panics. *)
Fixpoint range_items (keys vals : list bytes) : MT (list RangeItem) :=
  match keys, vals with
  | [], _ => mret []
  | _ :: _, [] => panic "index out of range"
  | k :: keys', v :: vals' => items ← range_items keys' vals'; mret (mkItem k v :: items)
  end.

(** [rangeSearch]: items, right sibling, and the child to follow; [None] leaves
    the caller's variable as it is. *)
Definition rangeSearch (n : Node) (key : bytes) : MT (list RangeItem * Z * option Z) :=
  if (length (Keys n) =? 0)%nat || ((length (Values n) =? 0)%nat && (length (Children n) =? 0)%nat)
  then mret ([], 0, None)
  else
    idx ← lift_outcome (InsertBinarySearch (Keys n) key 0);
    k ← index_at (Keys n) idx;
    if Leaf n then
      if bytes_compare key k =? 0 then
        if (length (Values n) <? Z.to_nat idx)%nat then panic "slice bounds out of range" else
        items ← range_items (drop (Z.to_nat idx) (Keys n)) (drop (Z.to_nat idx) (Values n));
        mret (items, RightSibling n, Some 0)
      else fail BTreeError "Key not found"
    else if bytes_compare key k =? -1 then
      c ← index_at (Children n) idx; mret ([], 0, Some c)
    else
      c ← index_at (Children n) (idx + 1); mret ([], 0, Some c).

Fixpoint range_descend (fuel : nat) (minKey : bytes) (nodePageId : Z) (items : list RangeItem) (rightSibId : Z)
    : MT (list RangeItem * Z) :=
  if negb (nodePageId >? 0) then mret (items, rightSibId) else
  match fuel with
  | O => out_of_fuel
  | S fuel' =>
      '(_, pge) ← buildPage (u32 nodePageId);
      '(items, rsib, next) ← rangeSearch pge minKey;
      range_descend fuel' minKey (default nodePageId next) items rsib
  end.

(** The keys of one right sibling: the items so far, and whether to leave the loop. *)
Fixpoint range_scan (maxKey : bytes) (count : Z) (keys vals : list bytes) (items : list RangeItem)
    : MT (list RangeItem * bool) :=
  match keys with
  | [] => mret (items, false)
  | k :: keys' =>
      if negb (length maxKey =? 0)%nat && (bytes_compare maxKey k =? 1) then mret (items, true)
      else match vals with
      | [] => panic "index out of range"
      | v :: vals' =>
          let items := items ++ [mkItem k v] in
          if Z.of_nat (length items) >=? count then mret (items, true)
          else range_scan maxKey count keys' vals' items
      end
  end.

Fixpoint range_loop (fuel : nat) (maxKey : bytes) (count : Z) (rightSibId : Z) (items : list RangeItem)
    : MT (list RangeItem) :=
  if negb (rightSibId >? 0) then mret items else
  match fuel with
  | O => out_of_fuel
  | S fuel' =>
      '(_, rightSib) ← buildPage (u32 rightSibId);
      if negb (Leaf rightSib) then fail BTreeError "Encountered internal node during range scan."
      else
        '(items, stop) ← range_scan maxKey count (Keys rightSib) (Values rightSib) items;
        if stop : bool then mret items
        else range_loop fuel' maxKey count (RightSibling rightSib) items
  end.

Definition RangeSearch (fuel : nat) (minKey maxKey : bytes) (count : Z) : MT (list RangeItem) :=
  root ← gets Root;
  if root =? 0 then fail BTreeError "Key Value store not initialized"
  else if negb (i32 root >? 0) then panic "invalid memory address or nil pointer dereference"
  else
    '(items, rightSibId) ← range_descend fuel minKey (i32 root) [] 0;
    range_loop fuel maxKey count rightSibId items.

Definition Shutdown : MT unit := onC c_Close.

End Tree.
