(* ===== verification/BTreeDelete.v ===== *)
(** * Deletion in the B+ tree ([pkg/bptree/bp_tree.go])

    [deleteValue], the underflow handlers and the loop of [DeleteValue].  The
    [MergeMetadata] the code updates through a pointer is passed and returned;
    a handler that can return an error after updating it returns both. *)

From S2P Require Import Prelude Keys Helpers BTStack Wal BTree.
Local Open Scope Z_scope.

Section Delete.
Context {C F : Type} `{!CacheOps C F}.
Local Abbreviation MT := (M (BTree C)).
Local Abbreviation Stack := (BTStack Node).

Definition set_merged (b : bool) (mr : MergeMetadata) : MergeMetadata :=
  mkMerge (rebalanceKey mr) (rightMerge mr) b (mr_OpLSN mr).
Definition set_rebalance (k : bytes) (mr : MergeMetadata) : MergeMetadata :=
  mkMerge k (rightMerge mr) (merged mr) (mr_OpLSN mr).
Definition set_rightMerge (b : bool) (mr : MergeMetadata) : MergeMetadata :=
  mkMerge (rebalanceKey mr) b (merged mr) (mr_OpLSN mr).
Definition set_opLSN (l : bytes) (mr : MergeMetadata) : MergeMetadata :=
  mkMerge (rebalanceKey mr) (rightMerge mr) (merged mr) l.

(** [l[i:]] and [l[:i]] of a slice: out of range panics. *)
Definition slice_from {A} (l : list A) (i : Z) : MT (list A) :=
  if (i <? 0) || (Z.of_nat (length l) <? i) then panic "slice bounds out of range"
  else mret (drop (Z.to_nat i) l).
Definition slice_to {A} (l : list A) (i : Z) : MT (list A) :=
  if (i <? 0) || (Z.of_nat (length l) <? i) then panic "slice bounds out of range"
  else mret (take (Z.to_nat i) l).

(** [append(l[:i], l[i+1:]...)] *)
Definition remove_at {A} (l : list A) (i : Z) : MT (list A) :=
  a ← slice_to l i; b ← slice_from l (i + 1); mret (a ++ b).

(** A step of a handler: its error is returned together with the metadata. *)
Definition guard {A} (m : MT A) (mr : MergeMetadata) (k : A -> MT (MergeMetadata * option error))
    : MT (MergeMetadata * option error) :=
  r ← catch m;
  match r with
  | inl a => k a
  | inr e => mret (mr, Some e)
  end.

(** *** Leaf underflow *)

(** The last leaf of the tree: it may underflow, and an empty root is dropped. *)
Definition leaf_no_sibling (mr : MergeMetadata) (n : Node) (fr : F) : MT (MergeMetadata * option error) :=
  mu_Lock;;
  root ← gets Root;
  if root =? u32 (PageId n) then
    guard
      (if (length (Keys n) =? 0)%nat
       then onC (fr_MarkAsDead fr);; modify (set_Root 0)
       else mret tt) mr (fun _ =>
      let mr := set_rebalance [] (set_merged false mr) in
      ignore (sync_node fr (mr_OpLSN mr) n);;
      mu_Unlock;;
      mret (mr, None))
  else
    mu_Unlock;;
    mret (mr, Some (mkError BTreeError "No sibling to merge/borrow leaf node")).

(** Enough keys in the two leaves together: share them out evenly. *)
Definition leaf_redistribute (mr : MergeMetadata) (n : Node) (fr : F) (sib : Node) (sibFr : F) (right : bool)
    : MT (MergeMetadata * option error) :=
  let totKeys := if right then Keys n ++ Keys sib else Keys sib ++ Keys n in
  let totVals := if right then Values n ++ Values sib else Values sib ++ Values n in
  let mid := (length totKeys / 2)%nat in
  if (length totVals <? mid)%nat then panic "slice bounds out of range" else
  let n' := if right then set_Values (take mid totVals) (set_Keys (take mid totKeys) n)
            else set_Values (drop mid totVals) (set_Keys (drop mid totKeys) n) in
  let sib' := if right then set_Values (drop mid totVals) (set_Keys (drop mid totKeys) sib)
              else set_Values (take mid totVals) (set_Keys (take mid totKeys) sib) in
  k ← index_at (Keys (if right then sib' else n')) 0;
  let mr := set_rebalance k mr in
  or_panic (sync_node fr (mr_OpLSN mr) n');;
  or_panic (sync_node sibFr (mr_OpLSN mr) sib');;
  or_panic (onC (c_MarkFrameDirty sibFr));;
  mret (set_rightMerge right mr, None).

(** Relinks the neighbour on the far side of the removed leaf. *)
Definition relink (mr : MergeMetadata) (pid : Z) (upd : Node -> Node) : MT unit :=
  '(frame, nb) ← buildPage (u32 pid);
  let nb := upd nb in
  or_panic (sync_node frame (mr_OpLSN mr) nb);;
  or_panic (onC (c_MarkFrameDirty frame));;
  ignore (onC (c_ReleaseFrame frame false)).

Definition leaf_merge (mr : MergeMetadata) (n : Node) (fr : F) (sib : Node) (sibFr : F) (right : bool)
    : MT (MergeMetadata * option error) :=
  let sib := if right
    then set_Values (Values n ++ Values sib) (set_Keys (Keys n ++ Keys sib) sib)
    else set_Values (Values sib ++ Values n) (set_Keys (Keys sib ++ Keys n) sib) in
  guard
    (if right then
       if LeftSibling n >? 0 then
         relink mr (LeftSibling n) (set_Right (RightSibling n));; mret (set_Left (LeftSibling n) sib)
       else mret sib
     else
       if RightSibling n >? 0 then
         relink mr (RightSibling n) (set_Left (LeftSibling n));; mret (set_Right (RightSibling n) sib)
       else mret sib) mr (fun sib =>
    let mr := set_merged true mr in
    guard (onC (fr_MarkAsDead fr)) mr (fun _ =>
      or_panic (sync_node fr (mr_OpLSN mr) n);;
      or_panic (sync_node sibFr (mr_OpLSN mr) sib);;
      or_panic (onC (c_MarkFrameDirty sibFr));;
      mret (set_rightMerge right mr, None))).

Definition handleLeafUnderflow (mr : MergeMetadata) (n : Node) (fr : F) : MT (MergeMetadata * option error) :=
  if negb (Leaf n)
  then mret (mr, Some (mkError BTreeError "(handleLeafUnderflow) Tried to merge internal node"))
  else
    let right := RightSibling n >? 0 in
    if right || (LeftSibling n >? 0) then
      guard (buildPage (u32 (if right then RightSibling n else LeftSibling n))) mr
        (fun '(mergeFr, mergeSibling) =>
        if (ORDER <=? length (Keys n) + length (Keys mergeSibling))%nat
        then leaf_redistribute mr n fr mergeSibling mergeFr right
        else leaf_merge mr n fr mergeSibling mergeFr right)
    else leaf_no_sibling mr n fr.

(** [deleteValue]: the page to follow, -1 when there is nothing to do below,
    and 1 after a removal without underflow. *)
Definition deleteValue (lsn : bytes) (n : Node) (f : F) (key : bytes) (st : Stack) (mr : MergeMetadata)
    : MT (Z * Stack * MergeMetadata) :=
  if (length (Keys n) =? 0)%nat then mret (-1, st, mr)
  else
    idx ← lift_outcome (InsertBinarySearch (Keys n) key 0);
    kAtIdx ← index_at (Keys n) idx;
    if Leaf n then
      if negb (bytes_compare key kAtIdx =? 0) then mret (-1, st, mr)
      else
        lsn ← (if (length lsn =? 0)%nat then or_panic (onW (AddDelLog (u32 (PageId n)) key)) else mret lsn);
        keys ← remove_at (Keys n) idx;
        vals ← remove_at (Values n) idx;
        let n := set_Values vals (set_Keys keys (set_lsn lsn n)) in
        if (length (Keys n) <? DEGREE)%nat then
          let mr := set_opLSN lsn mr in
          '(mr, _) ← handleLeafUnderflow mr n f;
          mret (-1, st, mr)
        else
          sync_node f lsn n;;
          mret (1, st, mr)
    else if bytes_compare key kAtIdx =? -1 then
      '(_, st) ← onL (Add (mkPath n (u32 idx))) st;
      child ← index_at (Children n) idx;
      mret (child, st, mr)
    else
      '(_, st) ← onL (Add (mkPath n (u32 (idx + 1)))) st;
      child ← index_at (Children n) (idx + 1);
      mret (child, st, mr).

(** *** Internal underflow *)

(** No sibling: the node replaces the root [st_root], which is marked dead. *)
Definition internal_no_sibling (n : Node) (fr : F) (mr : MergeMetadata) (st : Stack)
    : MT (MergeMetadata * option error) :=
  mu_Lock;;
  if st_root st =? u32 (PageId n) then mret (set_rebalance [] (set_merged false mr), None)
  else
    guard (buildPage (st_root st)) mr (fun '(rootfr, rootNode) =>
    guard (onC (fr_MarkAsDead rootfr)) mr (fun _ =>
      ignore (onC (c_SetNewRoot fr));;
      modify (set_Root (fr_Key fr));;
      mu_Unlock;;
      guard (sync_node rootfr (mr_OpLSN mr) rootNode) mr (fun _ =>
        mret (set_rebalance [] (set_merged false mr), None)))).

(** With the right sibling only the node itself is given its half. *)
Definition internal_redistribute (n : Node) (fr : F) (sib : Node) (sibFr : F) (right : bool) (mr : MergeMetadata)
    : MT (MergeMetadata * option error) :=
  let totKeys := if right then Keys n ++ Keys sib else Keys sib ++ Keys n in
  let totChildren := if right then Children n ++ Children sib else Children sib ++ Children n in
  let midK := (length totKeys / 2)%nat in
  let midC := (length totChildren / 2)%nat in
  let n' := if right then set_Children (take midC totChildren) (set_Keys (take midK totKeys) n)
            else set_Children (drop midC totChildren) (set_Keys (drop midK totKeys) n) in
  let sib' := if right then sib
              else set_Children (take midC totChildren) (set_Keys (take midK totKeys) sib) in
  k ← index_at (Keys (if right then sib' else n')) 0;
  let mr := set_rebalance k mr in
  guard (sync_node fr (mr_OpLSN mr) n') mr (fun _ =>
  guard (sync_node sibFr (mr_OpLSN mr) sib') mr (fun _ =>
    or_panic (onC (c_MarkFrameDirty sibFr));;
    mret (set_rightMerge right mr, None))).

(** The far neighbour, as in [relink]: its frame stays pinned here, and the
    synchronisation error is returned on the left and panics on the right. *)
Definition relink_internal (mr : MergeMetadata) (pid : Z) (upd : Node -> Node) (right : bool) : MT unit :=
  '(frame, nb) ← buildPage (u32 pid);
  let nb := upd nb in
  (if right then sync_node frame (mr_OpLSN mr) nb else or_panic (sync_node frame (mr_OpLSN mr) nb));;
  or_panic (onC (c_MarkFrameDirty frame)).

Definition internal_merge (n : Node) (fr : F) (sib : Node) (sibFr : F) (right : bool) (mr : MergeMetadata)
    (path : TraversePath Node) : MT (MergeMetadata * option error) :=
  sepKey ← index_at (Keys (tp_n path)) (if right then tp_idx path else u32 (tp_idx path - 1));
  let sib := if right
    then set_Children (Children n ++ Children sib) (set_Keys (Keys n ++ [sepKey] ++ Keys sib) sib)
    else set_Children (Children sib ++ Children n) (set_Keys (Keys sib ++ [sepKey] ++ Keys n) sib) in
  guard
    (if right then
       if LeftSibling n >? 0 then
         relink_internal mr (LeftSibling n) (set_Right (RightSibling n)) true;;
         mret (set_Left (LeftSibling n) sib)
       else mret (set_Left 0 sib)
     else
       if RightSibling n >? 0 then
         relink_internal mr (RightSibling n) (set_Left (LeftSibling n)) false;;
         mret (set_Right (RightSibling n) sib)
       else mret (set_Right 0 sib)) mr (fun sib =>
    or_panic (onC (fr_MarkAsDead fr));;
    let mr := set_merged true mr in
    or_panic (sync_node fr (mr_OpLSN mr) n);;
    or_panic (sync_node sibFr (mr_OpLSN mr) sib);;
    or_panic (onC (c_MarkFrameDirty sibFr));;
    mret (set_rightMerge right mr, None)).

Definition handleInternalUnderflow (n : Node) (fr : F) (mr : MergeMetadata) (st : Stack)
    : MT (MergeMetadata * option error) :=
  if Leaf n then mret (mr, Some (mkError BTreeError "Tried to merge leaf node"))
  else
    p ← catch (onL Parent st);
    match p with
    | inr e => if negb (st_root st =? u32 (PageId n)) then mret (mr, Some e) else mret (mr, None)
    | inl (path, _) =>
        let right := RightSibling n >? 0 in
        if right || (LeftSibling n >? 0) then
          guard (buildPage (u32 (if right then RightSibling n else LeftSibling n))) mr
            (fun '(mergeFr, mergeSibling) =>
            if (ORDER + 1 <=? length (Children n) + length (Children mergeSibling))%nat
            then internal_redistribute n fr mergeSibling mergeFr right mr
            else internal_merge n fr mergeSibling mergeFr right mr path)
        else internal_no_sibling n fr mr st
    end.

(** *** The loop of [DeleteValue] *)

Fixpoint delete_descend (fuel : nat) (lsn key : bytes) (nodePageId : Z) (oldFrame : option F)
    (st : Stack) (mr : MergeMetadata) : MT (option F * Stack * MergeMetadata) :=
  if negb (nodePageId >? 0) then mret (oldFrame, st, mr) else
  match fuel with
  | O => out_of_fuel
  | S fuel' =>
      r ← catch (buildPage (u32 nodePageId));
      match r with
      | inr e => fail GoError ("Unable to delete val: " +:+ Message e)
      | inl (frame, node) =>
          ignore (release_opt oldFrame);;
          d ← catch (deleteValue lsn node frame key st mr);
          match d with
          | inr e =>
              ignore (onC (c_ReleaseFrame frame false));;
              ignore (release_opt oldFrame);;
              fail (ekind e) (Message e)
          | inl (next, st, mr) =>
              or_panic (onC (c_MarkFrameDirty frame));;
              delete_descend fuel' lsn key next (Some frame) st mr
          end
      end
  end.

(** The parent's keys and children after the child was rebalanced or merged. *)
Definition update_parent (path : TraversePath Node) (mr : MergeMetadata) (keyIdx : Z) : MT Node :=
  let n := tp_n path in
  if negb (length (rebalanceKey mr) =? 0)%nat then
    if (length (Keys n) =? 1)%nat then
      if (Z.of_nat (length (Keys n)) <=? keyIdx) || (keyIdx <? 0) then panic "index out of range"
      else mret (set_Keys (<[Z.to_nat keyIdx := rebalanceKey mr]> (Keys n)) n)
    else
      let i := if rightMerge mr then keyIdx else keyIdx - 1 in
      a ← slice_to (Keys n) i; b ← slice_from (Keys n) i;
      mret (set_Keys (a ++ [rebalanceKey mr] ++ b) n)
  else if merged mr then
    keys ← (if rightMerge mr then remove_at (Keys n) keyIdx
            else a ← slice_to (Keys n) (keyIdx - 1); b ← slice_from (Keys n) keyIdx; mret (a ++ b));
    children ← remove_at (Children n) (tp_idx path);
    mret (set_Children children (set_Keys keys n))
  else mret n.

(** The parent is the root and has one child left: that child becomes the root. *)
Definition collapse_root (n : Node) (mr : MergeMetadata) : MT unit :=
  c0 ← index_at (Children n) 0;
  '(nodeFr, _) ← or_panic (buildPage (u32 c0));
  mu_Lock;;
  modify (set_Root (u32 c0));;
  ignore (onC (c_SetNewRoot nodeFr));;
  or_panic (onC (fr_MarkAsDead nodeFr));;
  sync_node nodeFr (mr_OpLSN mr) n;;
  mu_Unlock.

(** The error of the [buildPage] of the last branch is dropped and a nil frame is
    synchronised: a nil dereference. *)
Fixpoint delete_propagate (fuel : nat) (key : bytes) (mr : MergeMetadata) (st : Stack) : MT Stack :=
  if negb (merged mr || negb (length (rebalanceKey mr) =? 0)%nat) then mret st else
  match fuel with
  | O => out_of_fuel
  | S fuel' =>
      '(path, st) ← onL Pop st;
      fr ← onC (c_Get (u32 (PageId (tp_n path))));
      keyIdx ← lift_outcome (InsertBinarySearch (Keys (tp_n path)) key 0);
      n ← update_parent path mr keyIdx;
      let mr := set_rebalance [] (set_merged false mr) in
      root ← gets Root;
      mr ← (if (length (Keys n) <? DEGREE - 1)%nat && negb (root =? u32 (PageId n)) then
              '(mr, e) ← handleInternalUnderflow n fr mr st;
              match e with Some e => fail (ekind e) (Message e) | None => mret mr end
            else if (length (Keys n) <? DEGREE - 1)%nat && (root =? u32 (PageId n))
                    && (length (Children n) =? 1)%nat then
              collapse_root n mr;; mret mr
            else
              '(pathFr, _) ← or_panic (buildPage (u32 (PageId n)));
              sync_node pathFr (mr_OpLSN mr) n;; mret mr);
      or_panic (onC (c_MarkFrameDirty fr));;
      ignore (onC (c_ReleaseFrame fr false));;
      delete_propagate fuel' key mr st
  end.

(** The loop body returns, so only the first key is deleted. *)
Definition DeleteValue (fuel : nat) (keys : list bytes) (lsn : bytes) : MT bool :=
  match keys with
  | [] => mret true
  | key :: _ =>
      root ← gets Root;
      let st := NewBTStack root in
      mu_RLock;;
      root ← gets Root;
      if root =? 0 then fail BTreeError "BTree not initialized."
      else
        mu_RUnlock;;
        '(oldFrame, st, mr) ← delete_descend fuel lsn key (i32 root) None st empty_merge;
        ignore (release_opt oldFrame);;
        st ← delete_propagate fuel key mr st;
        onL Clear st;;
        mret true
  end.

End Delete.
