(* ===== verification/CacheSpec.v ===== *)
(** * What the tree relies on in the cache, and an in-memory cache

    [PageCache] is the contract between the B+ tree and the page cache it is
    given: an abstract view of a cache state as a finite map from page ids to
    decoded pages, and what each call does to it.  The tree's theorems are proved
    against this interface.  [MemCache] is an executable cache that satisfies it;
    the concrete runs of the development use it. *)

From S2P Require Import Prelude Keys Helpers BTStack Wal BTree.
Local Open Scope Z_scope.

(** A page as the tree sees it. *)
Record Page := mkPage {
  pg_keys : list bytes;
  pg_vals : list bytes;
  pg_children : list Z;
  pg_internal : bool;
  pg_dead : bool;
  pg_right : Z;
  pg_left : Z
}.

(** The page after [SyncFrame]: what kind of node it is does not change. *)
Definition synced (pg : Page) (ks vs : list bytes) (cs : list Z) (r l : Z) : Page :=
  mkPage ks vs cs (pg_internal pg) (pg_dead pg) (i32 r) (i32 l).

Definition killed (pg : Page) : Page :=
  mkPage (pg_keys pg) (pg_vals pg) (pg_children pg) (pg_internal pg) true (pg_right pg) (pg_left pg).

(** The page made by [CreateNewEntry] from what the caller passes. *)
Definition created (ks : list bytes) (vs : option (list bytes)) (cs : option (list Z)) : Page :=
  mkPage ks (default [] vs) (default [] cs) (bool_decide (is_Some cs)) false 0 0.

Definition min_page (p : Z) (pg : Page) : MinPage :=
  mkMinPage (pg_keys pg) (pg_vals pg) (pg_children pg) p (pg_right pg) (pg_left pg).

(** The contract.  [room] is how many pages can still be created before the
    32-bit page ids run out, [pinned] the pin count of a page, and [cell_ok] the
    keys and values small enough for [ORDER] of them to fit in a page. *)
Class PageCache (C F : Type) `{!CacheOps C F} := {
  view : C -> gmap Z Page;
  cinv : C -> Prop;
  room : C -> Z;
  pinned : C -> Z -> nat;
  cell_ok : bytes -> Prop;

  (** Page ids are positive [int32] values. *)
  view_range c p pg : cinv c -> view c !! p = Some pg -> 0 < p < 2 ^ 31;

  (** [Get] pins the frame of a live page and leaves the contents alone. *)
  get_spec c p pg : cinv c -> view c !! p = Some pg -> pg_dead pg = false ->
    returns (c_Get p) c (fun f c' => fr_Key f = p /\ cinv c' /\ view c' = view c /\
      room c' = room c /\ forall q, pinned c' q = (pinned c q + if decide (q = p) then 1 else 0)%nat);

  (** A dead page is not handed out. *)
  get_dead c p pg : cinv c -> view c !! p = Some pg -> pg_dead pg = true ->
    exists e c', c_Get p c = (Err e, c') /\ cinv c' /\ view c' = view c;

  (** [CreateNewEntry] makes a page under an id that is not in use. *)
  create_spec c lsn ks vs cs isRoot : cinv c -> 0 < room c ->
    (length ks <= ORDER)%nat -> Forall cell_ok ks -> Forall cell_ok (default [] vs) ->
    returns (c_CreateNewEntry lsn ks vs cs isRoot) c (fun f c' =>
      cinv c' /\ view c !! fr_Key f = None /\ 0 < fr_Key f < 2 ^ 31 /\
      view c' = <[fr_Key f := created ks vs cs]> (view c) /\
      room c' = room c - 1 /\ forall q, (pinned c q <= pinned c' q)%nat);

  (** [SyncFrame] stores a node's contents in its page. *)
  sync_spec c f lsn ks vs cs r l pg : cinv c -> view c !! fr_Key f = Some pg ->
    (length ks <= ORDER)%nat -> Forall cell_ok ks -> Forall cell_ok vs ->
    returns (c_SyncFrame f lsn ks vs cs r l) c (fun _ c' =>
      cinv c' /\ view c' = <[fr_Key f := synced pg ks vs cs r l]> (view c) /\
      room c' = room c /\ forall q, pinned c' q = pinned c q);

  (** [ReleaseFrame] drops one pin of a pinned page; otherwise it may return an
      error, and it never changes a page. *)
  release_spec c f b : cinv c -> (0 < pinned c (fr_Key f))%nat ->
    returns (c_ReleaseFrame f b) c (fun _ c' => cinv c' /\ view c' = view c /\ room c' = room c /\
      forall q, pinned c' q = (pinned c q - if decide (q = fr_Key f) then 1 else 0)%nat);
  release_any c f b : cinv c ->
    returns (ignore (c_ReleaseFrame f b)) c (fun _ c' =>
      cinv c' /\ view c' = view c /\ room c' = room c);

  (** Reading a frame. *)
  minpage_spec c f pg : cinv c -> view c !! fr_Key f = Some pg ->
    returns (fr_GetMinPage f) c (fun mp c' => mp = min_page (fr_Key f) pg /\ c' = c);
  internal_spec c f pg : cinv c -> view c !! fr_Key f = Some pg ->
    returns (fr_Internal f) c (fun b c' => b = pg_internal pg /\ c' = c);

  (** Page metadata the tree does not read back. *)
  updatelsn_spec c f lsn pg : cinv c -> view c !! fr_Key f = Some pg -> length lsn = 12%nat ->
    returns (fr_UpdatePageLSN f lsn) c (fun _ c' => cinv c' /\ view c' = view c /\
      room c' = room c /\ forall q, pinned c' q = pinned c q);
  dirty_spec c f pg : cinv c -> view c !! fr_Key f = Some pg ->
    returns (c_MarkFrameDirty f) c (fun _ c' => cinv c' /\ view c' = view c /\
      room c' = room c /\ forall q, pinned c' q = pinned c q);
  dead_spec c f pg : cinv c -> view c !! fr_Key f = Some pg ->
    returns (fr_MarkAsDead f) c (fun _ c' => cinv c' /\ view c' = <[fr_Key f := killed pg]> (view c) /\
      room c' = room c /\ forall q, pinned c' q = pinned c q);
  setroot_spec c f : cinv c ->
    returns (ignore (c_SetNewRoot f)) c (fun _ c' => cinv c' /\ view c' = view c /\ room c' = room c)
}.

(** ** An in-memory cache *)

Module MemCache.

Record cache := mkCache {
  mc_pages : gmap Z Page; mc_next : Z; mc_root : Z; mc_pins : gmap Z nat
}.

Definition empty : cache := mkCache ∅ 1 0 ∅.

Definition MAX_CELL : nat := 1000.
Definition small (b : bytes) : bool := (length b <? MAX_CELL)%nat.

Definition node_fits (ks vs : list bytes) : bool :=
  (length ks <=? ORDER)%nat && forallb small ks && forallb small vs.

Definition pins (c : cache) (p : Z) : nat := default 0%nat (mc_pins c !! p).

Definition Get (p : Z) : M cache Z := fun c =>
  match mc_pages c !! p with
  | Some pg => if pg_dead pg then (Err (mkError CacheErr "No entry found."), c)
      else (Val p, mkCache (mc_pages c) (mc_next c) (mc_root c) (<[p := S (pins c p)]> (mc_pins c)))
  | None => (Err (mkError CacheErr "No entry found."), c)
  end.

Definition CreateNewEntry (lsn : bytes) (ks : list bytes) (vs : option (list bytes)) (cs : option (list Z))
    (isRoot : bool) : M cache Z := fun c =>
  if (mc_next c >=? 2 ^ 31) || negb (node_fits ks (default [] vs)) then (Err (mkError CacheErr "No space."), c)
  else (Val (mc_next c), mkCache (<[mc_next c := created ks vs cs]> (mc_pages c)) (mc_next c + 1)
          (if isRoot then mc_next c else mc_root c) (<[mc_next c := S (pins c (mc_next c))]> (mc_pins c))).

(** Change the page of a frame; a frame whose page is gone is an error. *)
Definition on_page (f : Z) (upd : Page -> Page) : M cache unit := fun c =>
  match mc_pages c !! f with
  | Some pg => (Val tt, mkCache (<[f := upd pg]> (mc_pages c)) (mc_next c) (mc_root c) (mc_pins c))
  | None => (Err (mkError CacheErr "No such page."), c)
  end.

Definition SyncFrame (f : Z) (lsn : bytes) (ks vs : list bytes) (cs : list Z) (r l : Z) : M cache unit :=
  if node_fits ks vs then on_page f (fun pg => synced pg ks vs cs r l) else fail CacheErr "No space.".

Definition ReleaseFrame (f : Z) (b : bool) : M cache unit := fun c =>
  match pins c f with
  | O => (Err (mkError CacheErr "Frame not pinned."), c)
  | S n => (Val tt, mkCache (mc_pages c) (mc_next c) (mc_root c) (<[f := n]> (mc_pins c)))
  end.

Definition read {A} (f : Z) (g : Page -> A) : M cache A := fun c =>
  match mc_pages c !! f with
  | Some pg => (Val (g pg), c)
  | None => (Err (mkError CacheErr "No such page."), c)
  end.

#[export] Instance ops : CacheOps cache Z := {
  fr_Key f := f;
  c_Get := Get;
  c_CreateNewEntry := CreateNewEntry;
  c_SyncFrame := SyncFrame;
  c_ReleaseFrame := ReleaseFrame;
  c_MarkFrameDirty f := on_page f id;
  c_SetNewRoot f := modify (fun c => mkCache (mc_pages c) (mc_next c) f (mc_pins c));
  c_GetRootPageId := mc_root;
  c_Close := mret tt;
  fr_MarkAsDead f := on_page f killed;
  fr_UpdatePageLSN f lsn := if (length lsn =? 12)%nat then on_page f id else fail CacheErr "LSN size is invalid.";
  fr_GetMinPage f := read f (min_page f);
  fr_Internal f := read f pg_internal
}.

Definition inv (c : cache) : Prop :=
  1 <= mc_next c <= 2 ^ 31 /\ forall p pg, mc_pages c !! p = Some pg -> 1 <= p < mc_next c.

Lemma small_spec b : small b = true <-> (length b < MAX_CELL)%nat.
Proof. apply Nat.ltb_lt. Qed.

Lemma node_fits_spec ks vs :
  (length ks <= ORDER)%nat -> Forall (fun b => small b = true) ks -> Forall (fun b => small b = true) vs ->
  node_fits ks vs = true.
Proof.
  intros Hl Hk Hv. unfold node_fits.
  rewrite (proj2 (Nat.leb_le _ _)) by done. cbn [andb].
  rewrite (proj2 (forallb_forall _ _)), (proj2 (forallb_forall _ _)); [done| |].
  - by apply List.Forall_forall.
  - by apply List.Forall_forall.
Qed.

Lemma pins_insert c p q n pages next root :
  pins (mkCache pages next root (<[p := n]> (mc_pins c))) q = if decide (q = p) then n else pins c q.
Proof.
  unfold pins. cbn. destruct (decide (q = p)) as [->|]; [by rewrite lookup_insert_eq|].
  by rewrite lookup_insert_ne.
Qed.

Lemma on_page_spec c f upd pg (Q : unit -> cache -> Prop) :
  mc_pages c !! f = Some pg ->
  Q tt (mkCache (<[f := upd pg]> (mc_pages c)) (mc_next c) (mc_root c) (mc_pins c)) ->
  returns (on_page f upd) c Q.
Proof. intros Hf HQ. unfold returns, on_page. rewrite Hf. eauto. Qed.

Lemma inv_update c f pg pg' root pins' :
  inv c -> mc_pages c !! f = Some pg -> inv (mkCache (<[f := pg']> (mc_pages c)) (mc_next c) root pins').
Proof.
  intros [Hn Hp] Hf. split; [done|]. cbn. intros p pg2 Hl.
  destruct (decide (p = f)) as [->|]; [eauto|]. rewrite lookup_insert_ne in Hl by done. eauto.
Qed.

#[export] Program Instance page_cache : PageCache cache Z := {
  view := mc_pages;
  cinv := inv;
  room c := 2 ^ 31 - mc_next c;
  pinned := pins;
  cell_ok b := small b = true
}.
Next Obligation. intros c p pg [Hn Hp] H%Hp. lia. Qed.
Next Obligation.
  intros c p pg [Hn Hp] Hl Hd. unfold returns. cbn. unfold Get. rewrite Hl, Hd.
  eexists _, _. split; [done|]. split_and!; [done|done|done|done|].
  intros q. rewrite pins_insert. case_decide; subst; lia.
Qed.
Next Obligation.
  intros c p pg Hc Hl Hd. cbn. unfold Get. rewrite Hl, Hd. by eexists _, _.
Qed.
Next Obligation.
  intros c lsn ks vs cs isRoot [Hn Hp] Hr Hl Hk Hv. unfold returns. cbn in *. unfold CreateNewEntry.
  rewrite node_fits_spec by done. rewrite Z.geb_leb, (proj2 (Z.leb_gt _ _)) by lia. cbn [orb negb].
  eexists _, _. split; [done|]. cbn. split_and!; [| |lia|lia|done|lia|].
  - split; cbn; [lia|]. intros p pg Hl'.
    destruct (decide (p = mc_next c)) as [->|]; [lia|]. rewrite lookup_insert_ne in Hl' by done.
    apply Hp in Hl'. lia.
  - destruct (mc_pages c !! mc_next c) as [pg|] eqn:E; [|done]. apply Hp in E. lia.
  - intros q. rewrite pins_insert. case_decide; subst; lia.
Qed.
Next Obligation.
  intros c f lsn ks vs cs r l pg Hc Hf Hl Hk Hv. cbn in *. unfold SyncFrame.
  rewrite node_fits_spec by done. eapply on_page_spec; [done|]. split_and!; [|done..].
  by eapply inv_update.
Qed.
Next Obligation.
  intros c f b Hc Hp. unfold returns. cbn in *. unfold ReleaseFrame.
  destruct (pins c f) as [|n] eqn:E; [lia|]. eexists _, _. split; [done|].
  split_and!; [done|done|done|]. intros q. rewrite pins_insert. case_decide; subst; lia.
Qed.
Next Obligation.
  intros c f b Hc. cbn. unfold returns, ignore, catch, mbind, M_bind, ReleaseFrame.
  destruct (pins c f) as [|n]; eexists _, _; (split; [done|]); done.
Qed.
Next Obligation. intros c f pg Hc Hf. cbn in *. unfold returns, read. rewrite Hf. eauto. Qed.
Next Obligation. intros c f pg Hc Hf. cbn in *. unfold returns, read. rewrite Hf. eauto. Qed.
Next Obligation.
  intros c f lsn pg Hc Hf Hl. cbn in *. rewrite Hl. cbn.
  eapply on_page_spec; [done|]. cbn. rewrite insert_id by done. split_and!; [|done..].
  by destruct Hc.
Qed.
Next Obligation.
  intros c f pg Hc Hf. cbn in *.
  eapply on_page_spec; [done|]. cbn. rewrite insert_id by done. split_and!; [|done..].
  by destruct Hc.
Qed.
Next Obligation.
  intros c f pg Hc Hf. cbn in *.
  eapply on_page_spec; [done|]. cbn. split_and!; [|done..]. by eapply inv_update.
Qed.
Next Obligation.
  intros c f Hc. cbn. apply returns_ignore, returns_modify. cbn. by split_and!.
Qed.

End MemCache.
