(* ===== verification/BTreeInv.v ===== *)
(** * The shape invariant of the tree, and contexts for its updates

    [rep V mn h p lo hi fp lv m]: in the pages [V], page [p] is the root of a
    subtree of height [h] whose keys are within the bounds [lo] (inclusive) and
    [hi] (exclusive); [fp] lists its pages, [lv] its leaves and [m] its bindings,
    the last two from left to right.  [ctx] is the rest of the tree around such a
    subtree, with the traversal stack of a descent to it. *)

From S2P Require Import Prelude Keys Helpers BTStack Wal BTree CacheSpec.
Local Open Scope Z_scope.
Local Open Scope key_scope.

Abbreviation pages := (gmap Z Page).

(** A page without its left link: what the search structure depends on. *)
Definition core (pg : Page) : Page :=
  mkPage (pg_keys pg) (pg_vals pg) (pg_children pg) (pg_internal pg) (pg_dead pg) (pg_right pg) 0.

Definition leaf_core (m : kvs) (r : Z) : Page := mkPage m.*1 m.*2 [] false false r 0.
Definition inner_core (ks : list bytes) (cs : list Z) (r : Z) : Page := mkPage ks [] cs true false r 0.

(** [V] and [V'] hold the same content in the pages of [fp]. *)
Definition agree (V V' : pages) (fp : list Z) : Prop :=
  forall x, x ∈ fp -> core <$> V' !! x = core <$> V !! x.

Lemma agree_sub V V' fp fp' : fp' ⊆ fp -> agree V V' fp -> agree V V' fp'.
Proof. unfold agree. set_solver. Qed.

Lemma agree_refl V fp : agree V V fp.
Proof. done. Qed.

Lemma agree_trans V1 V2 V3 fp : agree V1 V2 fp -> agree V2 V3 fp -> agree V1 V3 fp.
Proof. intros H1 H2 x Hx. rewrite H2, H1; done. Qed.

Lemma agree_insert_ne V p pg fp : p ∉ fp -> agree V (<[p := pg]> V) fp.
Proof. intros Hp x Hx. rewrite lookup_insert_ne; [done|]. by intros ->. Qed.

Lemma agree_insert_core V p pg pg' fp : V !! p = Some pg -> core pg' = core pg -> agree V (<[p := pg']> V) fp.
Proof.
  intros Hp Hc x Hx. destruct (decide (x = p)) as [->|].
  - by rewrite lookup_insert_eq, Hp; cbn; rewrite Hc.
  - by rewrite lookup_insert_ne.
Qed.

(** ** Chains of subtrees *)

Section Chain.
(** [R c lo hi fp lv m]: what is required of each child. *)
Context (R : Z -> bound -> bound -> list Z -> list Z -> kvs -> Prop).

(** The children left of a position, and the separators after each of them. *)
Inductive lchain : bound -> list bytes -> list Z -> bound -> list Z -> list Z -> kvs -> Prop :=
| l_nil lo : lchain lo [] [] lo [] [] []
| l_cons lo k ks c cs lo' fp lv m fp' lv' m' :
    R c lo (Some k) fp lv m -> lchain (Some k) ks cs lo' fp' lv' m' ->
    lchain lo (k :: ks) (c :: cs) lo' (fp ++ fp') (lv ++ lv') (m ++ m').

(** The children right of a position, and the separators before each of them. *)
Inductive rchain : bound -> list bytes -> list Z -> bound -> list Z -> list Z -> kvs -> Prop :=
| r_nil hi : rchain hi [] [] hi [] [] []
| r_cons k ks c cs hi' hi fp lv m fp' lv' m' :
    R c (Some k) hi' fp lv m -> rchain hi' ks cs hi fp' lv' m' ->
    rchain (Some k) (k :: ks) (c :: cs) hi (fp ++ fp') (lv ++ lv') (m ++ m').

(** The children of a node. *)
Inductive chain : bound -> list bytes -> list Z -> bound -> list Z -> list Z -> kvs -> Prop :=
| chain_one lo hi c fp lv m : R c lo hi fp lv m -> chain lo [] [c] hi fp lv m
| chain_cons lo k ks c cs hi fp lv m fp' lv' m' :
    R c lo (Some k) fp lv m -> chain (Some k) ks cs hi fp' lv' m' ->
    chain lo (k :: ks) (c :: cs) hi (fp ++ fp') (lv ++ lv') (m ++ m').

Lemma lchain_len lo ks cs lo' fp lv m : lchain lo ks cs lo' fp lv m -> length ks = length cs.
Proof. induction 1; cbn; lia. Qed.

Lemma rchain_len hi' ks cs hi fp lv m : rchain hi' ks cs hi fp lv m -> length ks = length cs.
Proof. induction 1; cbn; lia. Qed.

Lemma chain_len lo ks cs hi fp lv m : chain lo ks cs hi fp lv m -> length cs = S (length ks).
Proof. induction 1; cbn; lia. Qed.

Lemma chain_head lo ks cs hi fp lv m : chain lo ks cs hi fp lv m ->
  exists c cs' hi' fp1 lv1 m1 fp2 lv2 m2, cs = c :: cs' /\ R c lo hi' fp1 lv1 m1 /\
    rchain hi' ks cs' hi fp2 lv2 m2 /\ fp = fp1 ++ fp2 /\ lv = lv1 ++ lv2 /\ m = m1 ++ m2.
Proof.
  induction 1 as [|lo k ks c cs hi fp lv m fp' lv' m' HR Hc IH].
  - exists c, [], hi, fp, lv, m, [], [], []. rewrite !app_nil_r. split_and!; try done. constructor.
  - destruct IH as (c2 & cs2 & hi2 & fp1 & lv1 & m1 & fp2 & lv2 & m2 & -> & HR2 & Hr & -> & -> & ->).
    eexists _, _, _, _, _, _, _, _, _. split_and!; try done. by constructor 2 with hi2.
Qed.

Lemma head_chain lo ks cs hi hi' c fp1 lv1 m1 fp2 lv2 m2 :
  R c lo hi' fp1 lv1 m1 -> rchain hi' ks cs hi fp2 lv2 m2 ->
  chain lo ks (c :: cs) hi (fp1 ++ fp2) (lv1 ++ lv2) (m1 ++ m2).
Proof.
  intros HR Hr. revert lo c fp1 lv1 m1 HR. induction Hr; intros.
  - rewrite !app_nil_r. by constructor.
  - constructor; [done|]. by apply IHHr.
Qed.

(** Focus on the child at position [i], and back. *)
Lemma chain_focus i lo ks cs hi fp lv m : chain lo ks cs hi fp lv m -> (i <= length ks)%nat ->
  exists c lo' hi' fpl lvl ml fpc lvc mc fpr lvr mr,
    cs !! i = Some c /\ lchain lo (take i ks) (take i cs) lo' fpl lvl ml /\ R c lo' hi' fpc lvc mc /\
    rchain hi' (drop i ks) (drop (S i) cs) hi fpr lvr mr /\
    fp = fpl ++ fpc ++ fpr /\ lv = lvl ++ lvc ++ lvr /\ m = ml ++ mc ++ mr.
Proof.
  intros Hc. revert i. induction Hc as [|lo k ks c cs hi fp lv m fp' lv' m' HR Hc IH]; intros i Hi.
  - destruct i; [|cbn in Hi; lia].
    exists c, lo, hi, [], [], [], fp, lv, m, [], [], []. rewrite !app_nil_r.
    split_and!; [done|apply l_nil|done|apply r_nil|done..].
  - destruct i as [|i].
    + pose proof Hc as (c2 & cs2 & hi2 & fp1 & lv1 & m1 & fp2 & lv2 & m2 & -> & HR2 & Hr & -> & -> & ->)%chain_head.
      eexists _, _, _, [], [], [], _, _, _, _, _, _.
      split_and!; [done|constructor|done| |done|done|done]. cbn. by constructor 2 with hi2.
    + destruct (IH i ltac:(cbn in Hi; lia)) as
        (c2 & lo' & hi' & fpl & lvl & ml & fpc & lvc & mc & fpr & lvr & mr & Hl & Hlc & HR2 & Hr & -> & -> & ->).
      eexists _, _, _, _, _, _, _, _, _, _, _, _.
      split_and!; [done|cbn; by constructor 2 with (lo' := lo') (fp' := fpl) (lv' := lvl) (m' := ml)|done|done|..];
        by rewrite app_assoc.
Qed.

Lemma chain_unfocus lo ksL csL lo' fpl lvl ml c hi' fpc lvc mc ksR csR hi fpr lvr mr :
  lchain lo ksL csL lo' fpl lvl ml -> R c lo' hi' fpc lvc mc -> rchain hi' ksR csR hi fpr lvr mr ->
  chain lo (ksL ++ ksR) (csL ++ c :: csR) hi (fpl ++ fpc ++ fpr) (lvl ++ lvc ++ lvr) (ml ++ mc ++ mr).
Proof.
  induction 1 as [|lo k ks c0 cs lo' fp lv m fp' lv' m' HR Hl IH]; intros HRc Hr; cbn.
  - by eapply head_chain.
  - rewrite <- !(app_assoc _ _ (_ ++ _)). constructor; [done|]. by apply IH.
Qed.

(** Cut a chain at the separator at position [i]. *)
Lemma chain_cut i k lo ks cs hi fp lv m : chain lo ks cs hi fp lv m -> ks !! i = Some k ->
  exists fp1 lv1 m1 fp2 lv2 m2,
    chain lo (take i ks) (take (S i) cs) (Some k) fp1 lv1 m1 /\
    chain (Some k) (drop (S i) ks) (drop (S i) cs) hi fp2 lv2 m2 /\
    fp = fp1 ++ fp2 /\ lv = lv1 ++ lv2 /\ m = m1 ++ m2.
Proof.
  intros Hc. revert i. induction Hc as [|lo k0 ks c cs hi fp lv m fp' lv' m' HR Hc IH]; intros i Hi; [done|].
  destruct i as [|i].
  - cbn in Hi. injection Hi as ->. eexists _, _, _, _, _, _. cbn.
    split_and!; [by constructor|exact Hc|done|done|done].
  - destruct (IH i Hi) as (fp1 & lv1 & m1 & fp2 & lv2 & m2 & H1 & H2 & -> & -> & ->).
    exists (fp ++ fp1), (lv ++ lv1), (m ++ m1), fp2, lv2, m2.
    split_and!; [cbn; by constructor|exact H2|by rewrite app_assoc..].
Qed.

End Chain.

(** A stronger requirement on the children carries over, given their pages. *)
Section ChainMono.
Context (R R' : Z -> bound -> bound -> list Z -> list Z -> kvs -> Prop).

Lemma lchain_mono lo ks cs lo' fp lv m : lchain R lo ks cs lo' fp lv m ->
  (forall c lo hi fp1 lv m, fp1 ⊆ fp -> R c lo hi fp1 lv m -> R' c lo hi fp1 lv m) ->
  lchain R' lo ks cs lo' fp lv m.
Proof.
  induction 1 as [|lo k ks c cs lo' fp lv m fp' lv' m' HR Hl IH]; intros HRR; constructor.
  - apply HRR; [set_solver|done].
  - apply IH. intros. apply HRR; [set_solver|done].
Qed.

Lemma rchain_mono hi' ks cs hi fp lv m : rchain R hi' ks cs hi fp lv m ->
  (forall c lo hi fp1 lv m, fp1 ⊆ fp -> R c lo hi fp1 lv m -> R' c lo hi fp1 lv m) ->
  rchain R' hi' ks cs hi fp lv m.
Proof.
  induction 1 as [|k ks c cs hi' hi fp lv m fp' lv' m' HR Hl IH]; intros HRR; econstructor.
  - apply HRR; [set_solver|done].
  - apply IH. intros. apply HRR; [set_solver|done].
Qed.

Lemma chain_mono lo ks cs hi fp lv m : chain R lo ks cs hi fp lv m ->
  (forall c lo hi fp1 lv m, fp1 ⊆ fp -> R c lo hi fp1 lv m -> R' c lo hi fp1 lv m) ->
  chain R' lo ks cs hi fp lv m.
Proof.
  induction 1 as [|lo k ks c cs hi fp lv m fp' lv' m' HR Hl IH]; intros HRR; constructor.
  - apply HRR; [set_solver|done].
  - apply HRR; [set_solver|done].
  - apply IH. intros. apply HRR; [set_solver|done].
Qed.

End ChainMono.

(** ** Subtrees *)

Definition in_bounds (lo hi : bound) (x : bytes) : Prop := lo_ok lo x /\ hi_ok x hi.

Section Rep.
(** The keys and values a page has room for. *)
Context (ok : bytes -> Prop).

Definition leaf_ok (mn : nat) (lo hi : bound) (m : kvs) : Prop :=
  sorted m.*1 /\ Forall (in_bounds lo hi) m.*1 /\ (1 <= mn <= length m)%nat /\
  (length m <= ORDER)%nat /\ Forall ok m.*1 /\ Forall ok m.*2.

Definition inner_ok (ks : list bytes) : Prop :=
  (1 <= length ks <= ORDER - 1)%nat /\ Forall ok ks.

(** [mn] is the least number of bindings of a leaf: 1 at the root, [DEGREE] below. *)
Fixpoint rep (V : pages) (mn h : nat) (p : Z) (lo hi : bound) (fp lv : list Z) (m : kvs) : Prop :=
  match h with
  | O => fp = [p] /\ lv = [p] /\ leaf_ok mn lo hi m /\ exists r, core <$> V !! p = Some (leaf_core m r)
  | S h' => exists ks cs r fpc, fp = p :: fpc /\ inner_ok ks /\
      core <$> V !! p = Some (inner_core ks cs r) /\ chain (rep V DEGREE h') lo ks cs hi fpc lv m
  end.

Lemma rep_frame V V' mn h p lo hi fp lv m :
  rep V mn h p lo hi fp lv m -> agree V V' fp -> rep V' mn h p lo hi fp lv m.
Proof.
  revert mn p lo hi fp lv m. induction h as [|h IH]; cbn; intros mn p lo hi fp lv m.
  - intros (-> & -> & Hm & r & Hr) Ha. split_and!; try done. exists r. rewrite Ha; [done|set_solver].
  - intros (ks & cs & r & fpc & -> & Hk & Hp & Hc) Ha. exists ks, cs, r, fpc.
    split_and!; try done.
    + rewrite Ha; [done|set_solver].
    + eapply chain_mono; [exact Hc|]. intros ? ? ? fp1 ? ? Hsub Hrep. eapply IH; [done|].
      eapply agree_sub; [|exact Ha]. set_solver.
Qed.

(** *** What a subtree says about its bindings *)

Definition bounded (lo hi : bound) (m : kvs) : Prop :=
  m <> [] /\ sorted m.*1 /\ Forall (in_bounds lo hi) m.*1.

Lemma in_bounds_lo lo lo' hi x : (forall y, lo_ok lo' y -> lo_ok lo y) -> in_bounds lo' hi x -> in_bounds lo hi x.
Proof. intros H [? ?]. split; auto. Qed.

(** Two adjacent ranges. *)
Lemma bounded_app lo k hi m1 m2 :
  bounded lo (Some k) m1 -> bounded (Some k) hi m2 -> bounded lo hi (m1 ++ m2).
Proof.
  intros (Hn1 & Hs1 & Hb1) (Hn2 & Hs2 & Hb2). split; [by destruct m1|]. rewrite !fmap_app.
  rewrite Forall_forall in Hb1, Hb2.
  assert (Hlt : forall x y, x ∈ m1.*1 -> y ∈ m2.*1 -> x <k y).
  { intros x y Hx Hy. destruct (Hb1 x Hx) as [_ H1]. destruct (Hb2 y Hy) as [H2 _].
    cbn in *. by eapply key_lt_le_trans. }
  split; [apply sorted_app_inv; done|].
  destruct m1 as [|p1 m1]; [done|]. destruct m2 as [|p2 m2]; [done|]. clear Hn1 Hn2.
  assert (H1 : p1.1 ∈ (p1 :: m1).*1) by (cbn; set_solver).
  assert (H2 : p2.1 ∈ (p2 :: m2).*1) by (cbn; set_solver).
  apply Forall_app. split; apply Forall_forall; intros x Hx.
  - split; [by apply Hb1|]. eapply hi_ok_le; [|apply (Hb2 _ H2)]. apply key_lt_le, Hlt; done.
  - split; [|by apply Hb2]. eapply lo_ok_le; [apply (Hb1 _ H1)|]. apply key_lt_le, Hlt; done.
Qed.

Lemma chain_bounded R lo ks cs hi fp lv m :
  (forall c lo hi fp lv m, R c lo hi fp lv m -> bounded lo hi m) ->
  chain R lo ks cs hi fp lv m -> bounded lo hi m.
Proof. intros HR. induction 1; [eauto|]. eapply bounded_app; eauto. Qed.

Lemma rep_bounded V mn h p lo hi fp lv m : rep V mn h p lo hi fp lv m -> bounded lo hi m.
Proof.
  revert mn p lo hi fp lv m. induction h as [|h IH]; cbn; intros mn p lo hi fp lv m.
  - intros (_ & _ & (Hs & Hb & Hl & _) & _). split; [|done]. destruct m; [cbn in *; lia|done].
  - intros (ks & cs & r & fpc & _ & _ & _ & Hc). eapply chain_bounded; [|exact Hc]. eauto.
Qed.

(** The separators left and right of a position that is inside its bounds. *)
Lemma lchain_lt V h lo ks cs lo' fp lv m k :
  lchain (rep V DEGREE h) lo ks cs lo' fp lv m -> lo_ok lo' k ->
  lo_ok lo k /\ Forall (fun p => p.1 <k k) m /\ Forall (fun s => s ≤k k) ks.
Proof.
  intros Hc Hk. induction Hc as [|lo s ks c cs lo' fp lv m fp' lv' m' HR Hl IH].
  - split_and!; [done|constructor|constructor].
  - destruct (IH Hk) as (Hlo & Hm & Hks). cbn in Hlo.
    apply rep_bounded in HR as (Hne & _ & Hb). rewrite Forall_fmap, Forall_forall in Hb.
    split_and!; [| |by constructor].
    + destruct m as [|p m]; [done|]. destruct (Hb p) as [Hp1 Hp2]; [by left|]. cbn in *.
      eapply lo_ok_le; [exact Hp1|]. apply key_lt_le. by eapply key_lt_le_trans.
    + apply Forall_app. split; [|done]. apply Forall_forall. intros p Hp.
      destruct (Hb p Hp) as [_ Hlt]. cbn in *. by eapply key_lt_le_trans.
Qed.

Lemma rchain_gt V h hi' ks cs hi fp lv m k :
  rchain (rep V DEGREE h) hi' ks cs hi fp lv m -> hi_ok k hi' ->
  hi_ok k hi /\ Forall (fun p => k <k p.1) m /\ Forall (fun s => k <k s) ks.
Proof.
  intros Hc. induction Hc as [|s ks c cs hi' hi fp lv m fp' lv' m' HR Hl IH]; intros Hk.
  - split_and!; [done|constructor|constructor].
  - cbn in Hk. apply rep_bounded in HR as (Hne & _ & Hb). rewrite Forall_fmap, Forall_forall in Hb.
    assert (Hhi : hi_ok k hi').
    { destruct m as [|p m]; [done|]. destruct (Hb p) as [Hp1 Hp2]; [by left|]. cbn in *.
      eapply hi_ok_le; [|exact Hp2]. apply key_lt_le. by eapply key_lt_le_trans. }
    destruct (IH Hhi) as (Hh & Hm & Hks).
    split_and!; [done| |by constructor].
    apply Forall_app. split; [|done]. apply Forall_forall. intros p Hp.
    destruct (Hb p Hp) as [Hge _]. cbn in *. by eapply key_lt_le_trans.
Qed.

Lemma chain_keys_sorted V h lo ks cs hi fp lv m :
  chain (rep V DEGREE h) lo ks cs hi fp lv m ->
  sorted ks /\ Forall (fun k => lo_lt lo k /\ hi_ok k hi) ks.
Proof.
  induction 1 as [lo hi c fp lv m HR|lo k ks c cs hi fp lv m fp' lv' m' HR Hc [IHs IHf]].
  - split; constructor.
  - assert (Hlo : lo_lt lo k).
    { apply rep_bounded in HR as (Hne & _ & Hb). destruct m as [|p m]; [done|].
      apply Forall_cons in Hb as [[H1 H2] _]. destruct lo; [|done]. cbn in *. by eapply key_le_lt_trans. }
    assert (Hhi : hi_ok k hi).
    { apply (chain_bounded _ _ _ _ _ _ _ _ (rep_bounded V DEGREE h)) in Hc as (Hne & _ & Hb).
      destruct m' as [|p m']; [done|].
      apply Forall_cons in Hb as [[H1 H2] _]. cbn in *. by eapply hi_ok_le. }
    split.
    + constructor; [done|]. eapply Forall_impl; [exact IHf|]. by intros x [? _].
    + constructor; [done|]. eapply Forall_impl; [exact IHf|]. cbn. intros x [Hx ?].
      split; [|done]. destruct lo; cbn in *; [by etrans|done].
Qed.

(** *** Sizes *)

Lemma chain_leaves R lo ks cs hi fp lv m :
  (forall c lo hi fp lv m, R c lo hi fp lv m -> lv ⊆+ fp) -> chain R lo ks cs hi fp lv m -> lv ⊆+ fp.
Proof. intros HR. induction 1; [eauto|]. apply submseteq_app; eauto. Qed.

Lemma rep_leaves V mn h p lo hi fp lv m : rep V mn h p lo hi fp lv m -> lv ⊆+ fp.
Proof.
  revert mn p lo hi fp lv m. induction h as [|h IH]; cbn; intros mn p lo hi fp lv m.
  - intros (-> & -> & _). done.
  - intros (ks & cs & r & fpc & -> & _ & _ & Hc). apply submseteq_cons.
    eapply chain_leaves; [|exact Hc]. eauto.
Qed.

(** Every child has at least [a] leaves, two bindings per leaf, and fewer inner pages than leaves. *)
Lemma chain_sizes R a lo ks cs hi fp lv m :
  (forall c lo hi fp lv m, R c lo hi fp lv m ->
     (a <= length lv /\ 2 * length lv <= length m /\ length fp + 1 <= 2 * length lv)%nat) ->
  chain R lo ks cs hi fp lv m ->
  (a * length cs <= length lv /\ 2 * length lv <= length m /\ length fp + length cs <= 2 * length lv)%nat.
Proof.
  intros HR. induction 1 as [lo hi c fp lv m H|lo k ks c cs hi fp lv m fp' lv' m' H Hc IH].
  - apply HR in H. cbn. lia.
  - apply HR in H. rewrite !length_app. cbn [length]. lia.
Qed.

Lemma rep_sizes_deg V h p lo hi fp lv m : rep V DEGREE h p lo hi fp lv m ->
  (S h <= length lv /\ 2 * length lv <= length m /\ length fp + 1 <= 2 * length lv)%nat.
Proof.
  revert p lo hi fp lv m. induction h as [|h IH]; intros p lo hi fp lv m.
  - intros (-> & -> & (_ & _ & Hl & _) & _). cbn [length]. unfold DEGREE in *. lia.
  - intros (ks & cs & r & fpc & -> & [Hk _] & _ & Hc).
    pose proof (chain_len _ _ _ _ _ _ _ _ Hc) as Hlen.
    eapply (chain_sizes _ (S h)) in Hc as (H1 & H2 & H3); [|exact IH].
    cbn [length]. nia.
Qed.

(** A tree of [n] bindings has at most [n] pages and is not higher than [n]. *)
Lemma rep_sizes V mn h p lo hi fp lv m : rep V mn h p lo hi fp lv m ->
  (S h <= length m /\ length fp <= length m)%nat.
Proof.
  destruct h as [|h].
  - intros (-> & -> & (_ & _ & Hl & _) & _). cbn [length]. lia.
  - intros (ks & cs & r & fpc & -> & [Hk _] & _ & Hc).
    pose proof (chain_len _ _ _ _ _ _ _ _ Hc) as Hlen.
    eapply (chain_sizes _ (S h)) in Hc as (H1 & H2 & H3); [|apply rep_sizes_deg].
    cbn [length]. nia.
Qed.

End Rep.

(** ** Sibling links *)

(** Every right link of a page of [fp] is null or leads to a page of [fp] of the
    same kind. *)
Definition sib_ok (V : pages) (fp : list Z) : Prop :=
  forall p pg, p ∈ fp -> V !! p = Some pg -> pg_right pg = 0 \/
    (pg_right pg ∈ fp /\ exists pg', V !! pg_right pg = Some pg' /\ pg_internal pg' = pg_internal pg).

Lemma sib_ok_perm V fp fp' : fp ≡ₚ fp' -> sib_ok V fp -> sib_ok V fp'.
Proof.
  intros Hp Hs p pg Hin Hl. rewrite <- Hp in Hin. destruct (Hs p pg Hin Hl) as [?|[? ?]]; [by left|].
  right. by rewrite <- Hp.
Qed.

(** [linked V prev lv next]: the leaves [lv] form a doubly linked list between
    [prev] and [next]. *)
Fixpoint linked (V : pages) (prev : Z) (lv : list Z) (next : Z) : Prop :=
  match lv with
  | [] => True
  | p :: lv' => (exists pg, V !! p = Some pg /\ pg_internal pg = false /\
                   pg_left pg = prev /\ pg_right pg = hd next lv') /\ linked V p lv' next
  end.

Lemma linked_app V prev l1 l2 next :
  linked V prev (l1 ++ l2) next <->
  linked V prev l1 (hd next l2) /\ linked V (List.last l1 prev) l2 next.
Proof.
  revert prev. induction l1 as [|p l1 IH]; intros prev; cbn [linked app]; [naive_solver|].
  rewrite IH.
  assert (List.last (p :: l1) prev = List.last l1 p) as ->.
  { clear. destruct l1 as [|q l1]; [done|]. revert q. induction l1 as [|x l1 IH]; intros q; [done|].
    cbn. apply IH. }
  assert (hd next (l1 ++ l2) = hd (hd next l2) l1) as -> by (by destruct l1).
  tauto.
Qed.

Lemma linked_frame V V' prev lv next :
  linked V prev lv next ->
  (forall p pg, p ∈ lv -> V !! p = Some pg -> pg_internal pg = false -> V' !! p = Some pg) ->
  linked V' prev lv next.
Proof.
  revert prev. induction lv as [|p lv IH]; intros prev; cbn [linked]; [done|].
  intros [(pg & Hp & Hi & Hl & Hr) Hlk] Hf. split.
  - exists pg. split_and!; try done. apply Hf; [by left|done|done].
  - apply IH; [done|]. intros q pg' Hq. apply Hf. by right.
Qed.

Lemma linked_leaf V prev lv next p :
  linked V prev lv next -> p ∈ lv -> exists pg, V !! p = Some pg /\ pg_internal pg = false.
Proof.
  revert prev. induction lv as [|q lv IH]; intros prev; cbn [linked]; [set_solver|].
  intros [(pg & Hp & Hi & _) Hlk] [->|Hin]%elem_of_cons; eauto.
Qed.

(** Relinking around a leaf split: [q] is new between [p] and its right sibling. *)
Lemma linked_split V V' lvL p lvR q pgp :
  linked V 0 (lvL ++ [p] ++ lvR) 0 -> NoDup (lvL ++ [p] ++ lvR) ->
  V !! p = Some pgp ->
  (exists pg, V' !! p = Some pg /\ pg_internal pg = false /\ pg_left pg = pg_left pgp /\ pg_right pg = q) ->
  (exists pg, V' !! q = Some pg /\ pg_internal pg = false /\ pg_left pg = p /\ pg_right pg = pg_right pgp) ->
  (forall r lvR' pg, lvR = r :: lvR' -> V !! r = Some pg ->
     exists pg', V' !! r = Some pg' /\ pg_internal pg' = pg_internal pg /\ pg_left pg' = q /\
       pg_right pg' = pg_right pg) ->
  (forall x, x ∈ lvL -> V' !! x = V !! x) ->
  (forall x, x ∈ tail lvR -> V' !! x = V !! x) ->
  linked V' 0 (lvL ++ [p] ++ [q] ++ lvR) 0.
Proof.
  intros Hlk Hnd Hp Hp' Hq' Hr' HL HR.
  apply linked_app in Hlk as [HlL Hlk]. cbn [linked app hd] in Hlk.
  destruct Hlk as [(pg0 & Hpg0 & Hi0 & Hl0 & Hr0) HlR].
  assert (pg0 = pgp) as -> by congruence.
  apply linked_app. split; [|cbn [linked app hd]; split_and!].
  - cbn [hd app] in *. eapply linked_frame; [exact HlL|]. intros x pg Hx Hpg _. by rewrite HL.
  - destruct Hp' as (pg & ? & ? & ? & ?). exists pg. split_and!; congruence.
  - destruct Hq' as (pg & ? & ? & ? & ?). exists pg. split_and!; congruence.
  - destruct lvR as [|r lvR]; [done|]. cbn [linked tail] in *.
    destruct HlR as [(pgr & Hpgr & Hir & Hlr & Hrr) HlR].
    destruct (Hr' r lvR pgr eq_refl Hpgr) as (pg' & H1 & H2 & H3 & H4). split.
    + exists pg'. split_and!; congruence.
    + eapply linked_frame; [exact HlR|]. intros x pg Hx Hpg _. by rewrite HR.
Qed.

(** ** Contexts *)

(** The node read from page [p]; its left link is the one of the page. *)
Definition node_of (p : Z) (pg : Page) : Node :=
  mkNode (pg_keys pg) (if pg_internal pg then pg_children pg else []) (negb (pg_internal pg))
    (if pg_internal pg then [] else pg_vals pg) (pg_left pg) (pg_right pg) p [].

(** A node of the traversal stack is the one of its page, left link apart. *)
Definition path_node (V : pages) (p : Z) (n : Node) : Prop :=
  exists pg l, core <$> V !! p = Some (core pg) /\ n = set_Left l (node_of p pg).

Section Ctx.
Context (ok : bytes -> Prop).

(** [ctx V root mn h c lo hi st fp lvL lvR mL mR]: the tree rooted at [root] with
    a hole at page [c] for a subtree of height [h]; [st] is the stack of a
    descent to the hole, [lvL], [mL] the leaves and bindings left of it and
    [lvR], [mR] those right of it. *)
Inductive ctx (V : pages) (root : Z) : nat -> nat -> Z -> bound -> bound -> list (TraversePath Node) ->
    list Z -> list Z -> list Z -> kvs -> kvs -> Prop :=
| ctx_top h : ctx V root 1 h root None None [] [] [] [] [] []
| ctx_in mn h p lo hi st fp lvL lvR mL mR n ksL ksR csL csR c lo' hi' r fpl lvl ml fpr lvr mr :
    ctx V root mn (S h) p lo hi st fp lvL lvR mL mR ->
    core <$> V !! p = Some (inner_core (ksL ++ ksR) (csL ++ c :: csR) r) -> path_node V p n ->
    inner_ok ok (ksL ++ ksR) ->
    lchain (rep ok V DEGREE h) lo ksL csL lo' fpl lvl ml ->
    rchain (rep ok V DEGREE h) hi' ksR csR hi fpr lvr mr ->
    ctx V root DEGREE h c lo' hi' (mkPath n (Z.of_nat (length csL)) :: st)
      (p :: fpl ++ fpr ++ fp) (lvL ++ lvl) (lvr ++ lvR) (mL ++ ml) (mr ++ mR).

Lemma ctx_frame V V' root mn h c lo hi st fp lvL lvR mL mR :
  ctx V root mn h c lo hi st fp lvL lvR mL mR -> agree V V' fp ->
  ctx V' root mn h c lo hi st fp lvL lvR mL mR.
Proof.
  induction 1 as [h|mn h p lo hi st fp lvL lvR mL mR n ksL ksR csL csR c lo' hi' r fpl lvl ml fpr lvr mr
    Hc IH Hp Hn Hk Hl Hr]; intros Ha.
  - constructor.
  - assert (core <$> V' !! p = core <$> V !! p) as Hpp by (apply Ha; set_solver).
    econstructor.
    + apply IH. eapply agree_sub; [|exact Ha]. set_solver.
    + by rewrite Hpp.
    + destruct Hn as (pg & l & Hpg & ->). exists pg, l. split; [by rewrite Hpp|done].
    + done.
    + eapply lchain_mono; [exact Hl|]. intros. eapply rep_frame; [done|]. eapply agree_sub; [|exact Ha]. set_solver.
    + eapply rchain_mono; [exact Hr|]. intros. eapply rep_frame; [done|]. eapply agree_sub; [|exact Ha]. set_solver.
Qed.

(** Filling the hole gives the tree. *)
Lemma ctx_plug V root mn h c lo hi st fp lvL lvR mL mR fpc lvc mc :
  ctx V root mn h c lo hi st fp lvL lvR mL mR -> rep ok V mn h c lo hi fpc lvc mc ->
  exists fp', fp' ≡ₚ fpc ++ fp /\
    rep ok V 1 (h + length st) root None None fp' (lvL ++ lvc ++ lvR) (mL ++ mc ++ mR).
Proof.
  intros Hc. revert fpc lvc mc.
  induction Hc as [h|mn h p lo hi st fp lvL lvR mL mR n ksL ksR csL csR c lo' hi' r fpl lvl ml fpr lvr mr
    Hc IH Hp Hn Hk Hl Hr]; intros fpc lvc mc Hrep; cbn [length].
  - exists fpc. rewrite !app_nil_r, Nat.add_0_r. done.
  - destruct (IH (p :: fpl ++ fpc ++ fpr) (lvl ++ lvc ++ lvr) (ml ++ mc ++ mr)) as (fp' & Hfp' & Hrep').
    { exists (ksL ++ ksR), (csL ++ c :: csR), r, (fpl ++ fpc ++ fpr). split_and!; [done|done|done|].
      by eapply chain_unfocus. }
    exists fp'. split.
    + rewrite Hfp'. solve_Permutation.
    + rewrite <- !app_assoc in *. by rewrite Nat.add_succ_r.
Qed.

(** What lies left and right of a hole whose bounds hold [k]. *)
Lemma ctx_sides V root mn h c lo hi st fp lvL lvR mL mR k :
  ctx V root mn h c lo hi st fp lvL lvR mL mR -> lo_ok lo k -> hi_ok k hi ->
  Forall (fun p => p.1 <k k) mL /\ Forall (fun p => k <k p.1) mR.
Proof.
  induction 1 as [h|mn h p lo hi st fp lvL lvR mL mR n ksL ksR csL csR c lo' hi' r fpl lvl ml fpr lvr mr
    Hc IH Hp Hn Hk Hl Hr]; intros Hlo Hhi; [done|].
  destruct (lchain_lt _ _ _ _ _ _ _ _ _ _ k Hl Hlo) as (H1 & H2 & _).
  destruct (rchain_gt _ _ _ _ _ _ _ _ _ _ k Hr Hhi) as (H3 & H4 & _).
  destruct (IH H1 H3). split; by apply Forall_app.
Qed.

Lemma ctx_leaves V root mn h c lo hi st fp lvL lvR mL mR :
  ctx V root mn h c lo hi st fp lvL lvR mL mR -> lvL ++ lvR ⊆+ fp.
Proof.
  induction 1 as [h|mn h p lo hi st fp lvL lvR mL mR n ksL ksR csL csR c lo' hi' r fpl lvl ml fpr lvr mr
    Hc IH Hp Hn Hk Hl Hr]; [done|].
  assert (lvl ⊆+ fpl) as H1 by (clear -Hl; induction Hl; [done|]; apply submseteq_app; [by eapply rep_leaves|done]).
  assert (lvr ⊆+ fpr) as H2 by (clear -Hr; induction Hr; [done|]; apply submseteq_app; [by eapply rep_leaves|done]).
  apply submseteq_cons.
  trans (lvl ++ lvr ++ (lvL ++ lvR)); [|repeat apply submseteq_app; done].
  apply Permutation_submseteq. solve_Permutation.
Qed.

End Ctx.
