(* ===== verification/BTreeNode.v ===== *)
(** * Specifications of the node-level operations of the tree

    Each operation of [BTree.v] on one node or page, against the cache contract:
    loading and storing a node, updating a leaf slot, splitting.  [cstep] says
    what a sequence of cache calls did: the new pages and how many were created. *)

From S2P Require Import Prelude Keys Helpers BTStack Wal BTree CacheSpec BTreeInv.
Local Open Scope Z_scope.
Local Open Scope key_scope.

Lemma i32_u32 x : i32 (u32 x) = i32 x.
Proof. unfold i32, u32. by rewrite Zplus_mod_idemp_l. Qed.

Lemma pid_i32 p : 0 <= p < 2 ^ 31 -> i32 p = p.
Proof. intros. apply i32_small. lia. Qed.

Lemma pid_u32 p : 0 <= p < 2 ^ 31 -> u32 p = p.
Proof. intros. apply u32_small. lia. Qed.

#[export] Hint Rewrite i32_u32 : baobab.

Section Node.
Context {C F : Type} `{!CacheOps C F} `{!PageCache C F}.
Local Abbreviation V := view.

(** The cache went from [c] to [c'], whose pages are [V'], with [n] pages created. *)
Definition cstep (c c' : C) (V' : pages) (n : Z) : Prop :=
  cinv c' /\ view c' = V' /\ room c' = room c - n /\ forall q, (pinned c q <= pinned c' q)%nat.

Lemma cstep_trans c1 c2 c3 V2 V3 n1 n2 :
  cstep c1 c2 V2 n1 -> cstep c2 c3 V3 n2 -> cstep c1 c3 V3 (n1 + n2).
Proof.
  intros (_ & _ & Hr1 & Hp1) (Hi & Hv & Hr2 & Hp2). split_and!; [done|done|lia|].
  intros q. specialize (Hp1 q). specialize (Hp2 q). lia.
Qed.

Lemma onC_returns {A} (m : M C A) r mu w c (Q : A -> BTree C -> Prop) :
  returns m c (fun a c' => Q a (mkBTree r mu w c')) -> returns (onC m) (mkBTree r mu w c) Q.
Proof. intros H. by apply returns_zoom. Qed.

Lemma onW_returns {A} (m : M WAL A) r mu w c (Q : A -> BTree C -> Prop) :
  returns m w (fun a w' => Q a (mkBTree r mu w' c)) -> returns (onW m) (mkBTree r mu w c) Q.
Proof. intros H. by apply returns_zoom. Qed.

Lemma onL_returns {L A} (m : M L A) l t (Q : A * L -> BTree C -> Prop) :
  returns m l (fun a l' => Q (a, l') t) -> returns (onL m l) t Q.
Proof. intros (a & l' & Hm & HQ). exists (a, l'), t. unfold onL. by rewrite Hm. Qed.

Lemma lock_returns r w c (Q : unit -> BTree C -> Prop) :
  Q tt (mkBTree r (mkMutex true 0) w c) -> returns mu_Lock (mkBTree r free_mutex w c) Q.
Proof. intros. eexists _, _. done. Qed.

Lemma unlock_returns r w c (Q : unit -> BTree C -> Prop) :
  Q tt (mkBTree r free_mutex w c) -> returns mu_Unlock (mkBTree r (mkMutex true 0) w c) Q.
Proof. intros. eexists _, _. done. Qed.

Lemma rlock_returns r w c (Q : unit -> BTree C -> Prop) :
  Q tt (mkBTree r (mkMutex false 1) w c) -> returns mu_RLock (mkBTree r free_mutex w c) Q.
Proof. intros. eexists _, _. done. Qed.

Lemma runlock_returns r w c (Q : unit -> BTree C -> Prop) :
  Q tt (mkBTree r free_mutex w c) -> returns mu_RUnlock (mkBTree r (mkMutex false 1) w c) Q.
Proof. intros. eexists _, _. done. Qed.

(** ** Loading and storing nodes *)

Lemma loadNode_spec r mu w c f pg :
  cinv c -> V c !! fr_Key f = Some pg ->
  returns (loadNode f) (mkBTree r mu w c) (fun n t' =>
    n = node_of (fr_Key f) pg /\ t' = mkBTree r mu w c).
Proof.
  intros Hc Hf. pose proof (view_range _ _ _ Hc Hf) as Hr. unfold loadNode.
  go_step. apply onC_returns. go_call minpage_spec; [|done|done]. intros mp c1 (-> & ->).
  go_step. apply onC_returns. go_call internal_spec; [|done|done]. intros b c1 (-> & ->).
  unfold node_of. cbn. destruct (pg_internal pg); go_step; (rewrite pid_i32 by lia); done.
Qed.

Lemma buildPage_spec r mu w c p pg :
  cinv c -> V c !! p = Some pg -> pg_dead pg = false ->
  returns (buildPage p) (mkBTree r mu w c) (fun '(f, n) t' => exists c',
    t' = mkBTree r mu w c' /\ fr_Key f = p /\ n = node_of p pg /\ cstep c c' (V c) 0 /\
    forall q, pinned c' q = (pinned c q + if decide (q = p) then 1 else 0)%nat).
Proof.
  intros Hc Hp Hd. unfold buildPage. go_step. apply onC_returns.
  go_call get_spec; [|done|done|done]. intros f c1 (Hf & Hc1 & Hv & Hr & Hpin).
  go_step. eapply returns_mono; [|apply loadNode_spec; [done|by rewrite Hv, Hf]].
  intros n t (-> & ->). go_step. exists c1. split_and!; try done.
  - by rewrite Hf.
  - split_and!; [done|done|lia|]. intros q. rewrite Hpin. lia.
Qed.

(** The page a node is stored to. *)
Definition node_page (pg : Page) (n : Node) : Page :=
  mkPage (Keys n) (Values n) (Children n) (pg_internal pg) (pg_dead pg) (i32 (RightSibling n)) (i32 (LeftSibling n)).

Lemma sync_node_spec r mu w c f lsn n pg :
  cinv c -> V c !! fr_Key f = Some pg ->
  (length (Keys n) <= ORDER)%nat -> Forall cell_ok (Keys n) -> Forall cell_ok (Values n) ->
  returns (sync_node f lsn n) (mkBTree r mu w c) (fun _ t' => exists c',
    t' = mkBTree r mu w c' /\ cstep c c' (<[fr_Key f := node_page pg n]> (V c)) 0).
Proof.
  intros Hc Hf Hl Hk Hv. unfold sync_node. apply onC_returns.
  go_call sync_spec; [|done|done|done|done|done]. intros _ c' (Hc' & Hv' & Hr & Hp).
  exists c'. split; [done|]. split_and!; [done| |lia|intros q; by rewrite Hp].
  rewrite Hv'. unfold synced, node_page. by rewrite !i32_u32.
Qed.

(** Storing a node back with another left link keeps the page's content. *)
Lemma node_page_left p pg l :
  (pg_internal pg = true -> pg_vals pg = []) -> (pg_internal pg = false -> pg_children pg = []) ->
  i32 (pg_right pg) = pg_right pg ->
  node_page pg (set_Left l (node_of p pg)) = mkPage (pg_keys pg) (pg_vals pg) (pg_children pg)
    (pg_internal pg) (pg_dead pg) (pg_right pg) (i32 l).
Proof.
  intros H1 H2 H3. unfold node_page, node_of. cbn. rewrite H3.
  destruct (pg_internal pg); [rewrite H1|rewrite H2]; done.
Qed.

Definition old_pinned (c : C) (old : option F) : Prop :=
  match old with Some f => (0 < pinned c (fr_Key f))%nat | None => True end.

Lemma release_opt_spec r mu w c old :
  cinv c -> old_pinned c old ->
  returns (or_panic (release_opt old)) (mkBTree r mu w c) (fun _ t' => exists c',
    t' = mkBTree r mu w c' /\ cinv c' /\ V c' = V c /\ room c' = room c /\
    forall q, pinned c' q = (pinned c q - match old with Some f => if decide (q = fr_Key f) then 1 else 0 | None => 0 end)%nat).
Proof.
  intros Hc Ho. go_step. destruct old as [f|]; cbn [release_opt].
  - apply onC_returns. go_call release_spec; [|done|done]. intros _ c' (? & ? & ? & ?). by exists c'.
  - go_step. exists c. split_and!; try done. intros q. lia.
Qed.

(** ** Updating a leaf slot *)

Lemma splits_pairs (m : kvs) k i x : splits_at m.*1 k i x ->
  exists v l r, m = l ++ (x, v) :: r /\ length l = i /\
    Forall (fun p => p.1 <k k) l /\ Forall (fun p => k <k p.1) r.
Proof.
  intros (Hi & Hl & Hr). rewrite list_lookup_fmap in Hi.
  destruct (m !! i) as [[x' v]|] eqn:E; [|done]. cbn in Hi. injection Hi as ->.
  exists v, (take i m), (drop (S i) m). split_and!.
  - by rewrite take_drop_middle.
  - apply lookup_lt_Some in E. rewrite length_take. lia.
  - rewrite <- fmap_take in Hl. exact (proj1 (Forall_fmap fst (fun y => y <k k) _) Hl).
  - rewrite <- fmap_drop in Hr. exact (proj1 (Forall_fmap fst (fun y => k <k y) _) Hr).
Qed.

Lemma insert_to_app {T} (l r : list T) i x : i = Z.of_nat (length l) -> insert_to (l ++ r) i x = l ++ x :: r.
Proof. intros ->. unfold insert_to. by rewrite InsertToList_app. Qed.

(** A put at the position found by the search is the specification's put. *)
Lemma leaf_put_spec n m key val i x (t : BTree C) :
  Keys n = m.*1 -> Values n = m.*2 -> splits_at m.*1 key i x ->
  returns (leaf_put n (Z.of_nat i) x key val) t (fun n' t' =>
    n' = set_Values (kv_insert key val m).*2 (set_Keys (kv_insert key val m).*1 n) /\ t' = t).
Proof.
  intros Hk Hv Hs. apply splits_pairs in Hs as (v & l & r & -> & <- & Hl & Hr).
  unfold leaf_put. rewrite Hk, Hv, !fmap_app. cbn [fmap list_fmap fst snd].
  destruct (Z.eqb_spec (bytes_compare key x) (-1)) as [E|E].
  { go_step. rewrite !insert_to_app by (by rewrite length_fmap).
    rewrite kv_insert_app_lt by (cbn; done). rewrite !fmap_app. done. }
  destruct (Z.eqb_spec (bytes_compare key x) 0) as [E2|E2].
  { apply bytes_compare_eq in E2 as ->. rewrite Nat2Z.id.
    rewrite (proj2 (Nat.leb_gt _ _)) by (rewrite length_app, length_fmap; cbn; lia).
    go_step. rewrite !(insert_app_r_alt _ _ (length l)) by (rewrite length_fmap; lia).
    rewrite !length_fmap, Nat.sub_diag. cbn [list_insert].
    rewrite kv_insert_app_eq by done. rewrite !fmap_app. done. }
  assert (x <k key) as Hx by (destruct (key_trichotomy x key) as [|[->|]]; [done| |done];
    by rewrite (proj2 (bytes_compare_eq key key) eq_refl) in E2).
  go_step. rewrite !(cons_middle _ _ (_ <$> r)), !app_assoc.
  rewrite !insert_to_app by (rewrite length_app, length_fmap; cbn; lia).
  rewrite (cons_middle (x, v) l r), app_assoc, kv_insert_app_lt.
  - by rewrite !fmap_app.
  - apply Forall_app. by repeat constructor.
  - destruct r as [|[k' ?] r]; [done|]. by apply Forall_cons in Hr as [? _].
Qed.

(** ** Splitting *)

Lemma createNode_leaf ks : createNode ks true false = Val (mkNode ks [] true (replicate (2 * DEGREE) []) 0 0 0 []).
Proof.
  unfold createNode. cbn [negb andb].
  destruct (Nat.ltb_spec (length ks) DEGREE), (Nat.ltb_spec ORDER (length ks)); cbn [andb]; try done.
  unfold ORDER in *. lia.
Qed.

Lemma createNode_inner ks isRoot : createNode ks false isRoot = Val (mkNode ks [] false [] 0 0 0 []).
Proof.
  unfold createNode. cbn [negb andb].
  destruct (Nat.ltb_spec (length ks) (DEGREE - 1)), (Nat.ltb_spec (ORDER - 1) (length ks)); cbn [andb]; try done.
  unfold ORDER in *. lia.
Qed.

Lemma split_leaf_spec n m lsn (t : BTree C) :
  Leaf n = true -> Keys n = m.*1 -> Values n = m.*2 ->
  let mid := (length m / 2)%nat in
  returns (split n lsn) t (fun '(n', q, _) t' => t' = t /\
    n' = set_Values (take mid m).*2 (set_Keys (take mid m).*1 n) /\
    q = mkNode (drop mid m).*1 [] true (drop mid m).*2 0 0 0 lsn).
Proof.
  intros Hlf Hk Hv mid. unfold split. rewrite Hlf, Hk, Hv, !length_fmap. fold mid.
  rewrite (proj2 (Nat.ltb_ge _ _)) by (apply Nat.Div0.div_le_upper_bound; lia).
  go_step. go_step. eapply returns_lift; [apply createNode_leaf|].
  go_step. cbn. by rewrite !fmap_take, !fmap_drop.
Qed.

Lemma split_inner_spec n lsn (t : BTree C) k :
  let mid := (length (Keys n) / 2)%nat in
  Leaf n = false -> length (Children n) = S (length (Keys n)) -> Keys n !! mid = Some k ->
  returns (split n lsn) t (fun '(n', q, pk) t' => t' = t /\ pk = k /\
    n' = set_Children (take (S mid) (Children n)) (set_Keys (take mid (Keys n)) n) /\
    q = mkNode (drop (S mid) (Keys n)) (drop (S mid) (Children n)) false [] 0 0 0 lsn).
Proof.
  intros mid Hlf Hlen Hk. unfold split. rewrite Hlf. fold mid.
  go_step. eapply returns_index; [exact Hk|].
  apply lookup_lt_Some in Hk.
  rewrite (proj2 (Nat.ltb_ge _ _)) by lia. rewrite Nat.add_1_r.
  go_step. go_step. eapply returns_lift; [apply createNode_inner|]. by go_step.
Qed.

Lemma assignFrame_spec r mu w c n lsn isRoot :
  cinv c -> 0 < room c ->
  (length (Keys n) <= ORDER)%nat -> Forall cell_ok (Keys n) ->
  (if Leaf n then Forall cell_ok (Values n) else True) ->
  returns (assignFrame n lsn isRoot) (mkBTree r mu w c) (fun '(f, n') t' => exists c',
    t' = mkBTree r mu w c' /\ V c !! fr_Key f = None /\ 0 < fr_Key f < 2 ^ 31 /\
    n' = set_PageId (fr_Key f) n /\
    cstep c c' (<[fr_Key f := created (Keys n) (if Leaf n then Some (Values n) else None)
                               (if Leaf n then None else Some (Children n))]> (V c)) 1).
Proof.
  intros Hc Hr Hl Hk Hv. unfold assignFrame.
  destruct (Leaf n) eqn:E; go_step; apply onC_returns.
  all: go_call create_spec; [|done|done|done|done|cbn; try done].
  all: intros f c' (Hc' & Hf & Hfr & Hv' & Hr' & Hp); go_step.
  all: exists c'; rewrite pid_i32 by lia; unfold cstep; split_and!; (done || lia).
Qed.

End Node.
