(* ===== verification/BTreeShape.v ===== *)
(** * How the tree's shape changes when a node is stored or split

    The page updates of an insertion, without the code that makes them: storing
    a leaf, splitting a leaf, adding a separator to an inner node, splitting an
    inner node, adding a root.  [tree] is the invariant of a whole tree and
    [pend] that of a tree whose last split is not yet known to the parent. *)

From S2P Require Import Prelude Keys Helpers BTStack Wal BTree CacheSpec BTreeInv.
Local Open Scope Z_scope.
Local Open Scope key_scope.

(** ** Leaves *)

Lemma kv_insert_length k v m : (length m <= length (kv_insert k v m) <= S (length m))%nat.
Proof.
  induction m as [|[k' v'] m IH]; cbn; [lia|].
  case_decide; [cbn; lia|]. case_decide; cbn; lia.
Qed.

Lemma kv_insert_Forall (P : bytes * bytes -> Prop) k v m :
  P (k, v) -> Forall P m -> Forall P (kv_insert k v m).
Proof.
  intros Hk Hm. apply Forall_forall. intros p Hp. apply kv_insert_elem in Hp as [->|Hp]; [done|].
  rewrite Forall_forall in Hm. auto.
Qed.

Section Leaf.
Context (ok : bytes -> Prop).

(** The same requirements without the lengths. *)
Definition leaf_content (lo hi : bound) (m : kvs) : Prop :=
  sorted m.*1 /\ Forall (in_bounds lo hi) m.*1 /\ Forall ok m.*1 /\ Forall ok m.*2.

Lemma leaf_content_insert mn lo hi m k v :
  leaf_ok ok mn lo hi m -> lo_ok lo k -> hi_ok k hi -> ok k -> ok v ->
  leaf_content lo hi (kv_insert k v m).
Proof.
  intros (Hs & Hb & _ & _ & H1 & H2) Hlo Hhi Hk Hv. split; [by apply kv_insert_sorted|].
  rewrite !Forall_fmap in *. split_and!; apply kv_insert_Forall; done.
Qed.

Lemma leaf_content_halves lo hi m mid sep :
  leaf_content lo hi m -> m.*1 !! mid = Some sep ->
  leaf_content lo (Some sep) (take mid m) /\ leaf_content (Some sep) hi (drop mid m).
Proof.
  intros (Hs & Hb & H1 & H2) Hsep.
  unfold leaf_content. rewrite !fmap_take, !fmap_drop.
  rewrite !Forall_forall in Hb.
  split; split_and!;
    try (by apply sorted_take); try (by apply sorted_drop); try (by apply Forall_take); try (by apply Forall_drop).
  - apply Forall_forall. intros x Hx.
    apply list_elem_of_lookup in Hx as (j & Hj). apply lookup_take_Some in Hj as [Hj Hlt].
    split; [apply Hb; apply list_elem_of_lookup; eauto|]. cbn. by eapply (sorted_lookup m.*1 j mid).
  - apply Forall_forall. intros x Hx. apply list_elem_of_lookup in Hx as (j & Hj). rewrite lookup_drop in Hj.
    split; [|apply Hb; apply list_elem_of_lookup; eauto].
    destruct (decide (j = 0)%nat) as [->|].
    + rewrite Nat.add_0_r in Hj. left. congruence.
    + right. eapply (sorted_lookup m.*1 mid); [done|done|done|lia].
Qed.

Lemma leaf_ok_content mn lo hi m :
  leaf_content lo hi m -> (1 <= mn <= length m)%nat -> (length m <= ORDER)%nat -> leaf_ok ok mn lo hi m.
Proof. intros (? & ? & ? & ?). by unfold leaf_ok. Qed.

End Leaf.

(** ** Relinking around a split *)

Definition left_to (q : Z) (pg : Page) : Page :=
  mkPage (pg_keys pg) (pg_vals pg) (pg_children pg) (pg_internal pg) (pg_dead pg) (pg_right pg) q.

(** Pages other than the split one and the new one only change in that the old
    right sibling [r] has the new page as its left sibling. *)
Definition relinked (V V' : pages) (p q r : Z) : Prop :=
  forall x, x <> p -> x <> q -> V' !! x = (if decide (x = r) then left_to q <$> V !! x else V !! x).

Lemma relinked_agree V V' p q r fp : relinked V V' p q r -> p ∉ fp -> q ∉ fp -> agree V V' fp.
Proof.
  intros Hr Hp Hq x Hx. rewrite Hr by set_solver. case_decide; [|done]. by destruct (V !! x).
Qed.

Lemma relinked_alter V p q r P Q : relinked V (alter (left_to q) r (<[p := P]> (<[q := Q]> V))) p q r.
Proof.
  intros x Hp Hq. case_decide as Hr.
  - subst r. by rewrite lookup_alter_eq, !lookup_insert_ne.
  - by rewrite lookup_alter_ne, !lookup_insert_ne.
Qed.

(** The right link and the kind of a page. *)
Definition links (pg : Page) : Z * bool := (pg_right pg, pg_internal pg).

Lemma core_links pg pg' : core pg = core pg' -> links pg = links pg'.
Proof. unfold core, links. congruence. Qed.

Lemma sib_ok_same V V' fp :
  (forall x, x ∈ fp -> links <$> V' !! x = links <$> V !! x) -> sib_ok V fp -> sib_ok V' fp.
Proof.
  intros Hl Hs p pg' Hp Hpg'. pose proof (Hl p Hp) as E. rewrite Hpg' in E. cbn in E.
  destruct (V !! p) as [pg|] eqn:Hpg; [|done]. cbn in E. unfold links in E. injection E as Er Ei.
  destruct (Hs p pg Hp Hpg) as [H0|(Hin & pgr & Hr & Hi)]; [left; congruence|].
  right. rewrite Er. split; [done|]. pose proof (Hl _ Hin) as E2. rewrite Hr in E2. cbn in E2.
  destruct (V' !! pg_right pg) as [pgr'|]; [|done]. cbn in E2. unfold links in E2. injection E2 as _ Ei2.
  exists pgr'. split; [done|]. congruence.
Qed.

Lemma sib_ok_agree V V' fp : agree V V' fp -> sib_ok V fp -> sib_ok V' fp.
Proof.
  intros Ha. apply sib_ok_same. intros x Hx. specialize (Ha x Hx).
  destruct (V !! x), (V' !! x); try done. cbn in *. f_equal. apply core_links. congruence.
Qed.

Lemma sib_ok_split V V' p q fp pgp P Q :
  sib_ok V fp -> p ∈ fp -> V !! p = Some pgp -> q ∉ fp -> V' !! p = Some P -> V' !! q = Some Q ->
  links P = (q, pg_internal pgp) -> links Q = links pgp -> relinked V V' p q (pg_right pgp) ->
  sib_ok V' (q :: fp).
Proof.
  intros Hs Hp Hpgp Hq HP HQ HlP HlQ Hr.
  unfold links in *. injection HlP as HrP HiP. injection HlQ as HrQ HiQ.
  assert (Hother : forall x, x ∈ fp -> x <> p -> links <$> V' !! x = links <$> V !! x).
  { intros x Hx Hne. rewrite Hr by set_solver. case_decide; [|done]. by destruct (V !! x). }
  assert (Hkind : forall x pg, x ∈ fp -> V !! x = Some pg ->
            exists pg', V' !! x = Some pg' /\ pg_internal pg' = pg_internal pg).
  { intros x pg Hx Hpg. destruct (decide (x = p)) as [->|Hne]; [exists P; split; congruence|].
    specialize (Hother x Hx Hne). rewrite Hpg in Hother.
    destruct (V' !! x) as [pg'|]; [|done]. exists pg'. split; [done|].
    cbn in Hother. unfold links in Hother. congruence. }
  assert (Hgo : forall pg, pg_internal pg = pg_internal pg ->
     pg_right pg = 0 \/ (pg_right pg ∈ fp /\ exists pg', V !! pg_right pg = Some pg' /\ pg_internal pg' = pg_internal pg) ->
     pg_right pg = 0 \/ (pg_right pg ∈ q :: fp /\ exists pg', V' !! pg_right pg = Some pg' /\ pg_internal pg' = pg_internal pg)).
  { intros pg _ [?|(Hin & pg' & Hpg' & Hi)]; [by left|]. right. split; [by right|].
    destruct (Hkind _ _ Hin Hpg') as (pg2 & ? & ?). exists pg2. split; congruence. }
  intros x pg Hx Hpg. apply elem_of_cons in Hx as [->|Hx].
  - assert (pg = Q) as -> by congruence. rewrite HrQ, HiQ. apply Hgo; [done|]. by apply (Hs p).
  - destruct (decide (x = p)) as [->|Hne].
    + assert (pg = P) as -> by congruence. right. rewrite HrP, HiP. split; [by left|]. eauto.
    + specialize (Hother x Hx Hne). rewrite Hpg in Hother.
      destruct (V !! x) as [pg0|] eqn:Hpg0; [|done]. cbn in Hother. unfold links in Hother.
      injection Hother as Er Ei. rewrite Er, Ei. apply Hgo; [done|]. by apply (Hs x).
Qed.

(** ** Whole trees *)

Section Tree.
Context (ok : bytes -> Prop).

Lemma chain_pages R (V : pages) lo ks cs hi fp lv m :
  (forall c lo hi fp lv m, R c lo hi fp lv m -> forall x, x ∈ fp -> is_Some (V !! x)) ->
  chain R lo ks cs hi fp lv m -> forall x, x ∈ fp -> is_Some (V !! x).
Proof.
  intros HR. induction 1 as [|lo k ks c cs hi fp lv m fp' lv' m' HRc Hc IH]; intros x Hx; [eauto|].
  apply elem_of_app in Hx as [?|?]; eauto.
Qed.

Lemma rep_pages V mn h p lo hi fp lv m :
  rep ok V mn h p lo hi fp lv m -> forall x, x ∈ fp -> is_Some (V !! x).
Proof.
  revert mn p lo hi fp lv m. induction h as [|h IH]; cbn; intros mn p lo hi fp lv m.
  - intros (-> & _ & _ & r & Hr) x ->%list_elem_of_singleton. by destruct (V !! p).
  - intros (ks & cs & r & fpc & -> & _ & Hp & Hc) x [->|Hx]%elem_of_cons; [by destruct (V !! p)|].
    eapply chain_pages; [|exact Hc|exact Hx]. eauto.
Qed.

Lemma lchain_pages V h lo ks cs lo' fp lv m :
  lchain (rep ok V DEGREE h) lo ks cs lo' fp lv m -> forall x, x ∈ fp -> is_Some (V !! x).
Proof.
  induction 1 as [|? ? ? ? ? ? ? ? ? ? ? ? HR Hc IH]; intros x Hx; [set_solver|].
  apply elem_of_app in Hx as [?|?]; [by eapply rep_pages|eauto].
Qed.

Lemma rchain_pages V h hi' ks cs hi fp lv m :
  rchain (rep ok V DEGREE h) hi' ks cs hi fp lv m -> forall x, x ∈ fp -> is_Some (V !! x).
Proof.
  induction 1 as [|? ? ? ? ? ? ? ? ? ? ? ? HR Hc IH]; intros x Hx; [set_solver|].
  apply elem_of_app in Hx as [?|?]; [by eapply rep_pages|eauto].
Qed.

Lemma ctx_pages V root mn h c lo hi st fp lvL lvR mL mR :
  ctx ok V root mn h c lo hi st fp lvL lvR mL mR -> forall x, x ∈ fp -> is_Some (V !! x).
Proof.
  induction 1 as [h|mn h p lo hi st fp lvL lvR mL mR n ksL ksR csL csR c lo' hi' r fpl lvl ml fpr lvr mr
    Hc IH Hp Hn Hk Hl Hr]; intros x Hx; [set_solver|].
  apply elem_of_cons in Hx as [->|Hx]; [by destruct (V !! p)|].
  rewrite !elem_of_app in Hx. destruct Hx as [Hx|[Hx|Hx]]; [|  |eauto].
  - by eapply lchain_pages.
  - by eapply rchain_pages.
Qed.

(** A tree of height [h] over [nfp] pages with the bindings [m]. *)
Definition tree (V : pages) (root : Z) (h nfp : nat) (m : kvs) : Prop :=
  exists fp lv, rep ok V 1 h root None None fp lv m /\ NoDup fp /\ sib_ok V fp /\ linked V 0 lv 0 /\ length fp = nfp.

(** The state between the levels of an insertion: either the tree is complete, or
    the page [c] at the hole of a context was split and [q] is its new right half. *)
Inductive pend (V : pages) (root : Z) (H nfp : nat) (m : kvs) : SplitResponse -> list (TraversePath Node) -> Prop :=
| pend_done rp st : NewNodeId rp = 0 -> tree V root H nfp m -> pend V root H nfp m rp st
| pend_split st lsn h mn c q k lo hi fpC lvL lvR mL mR fp1 lv1 m1 fp2 lv2 m2 :
    ctx ok V root mn h c lo hi st fpC lvL lvR mL mR ->
    rep ok V DEGREE h c lo (Some k) fp1 lv1 m1 -> rep ok V DEGREE h q (Some k) hi fp2 lv2 m2 ->
    ok k -> 0 < q < 2 ^ 31 ->
    NoDup (fp1 ++ fp2 ++ fpC) -> sib_ok V (fp1 ++ fp2 ++ fpC) -> linked V 0 (lvL ++ lv1 ++ lv2 ++ lvR) 0 ->
    nfp = length (fp1 ++ fp2 ++ fpC) -> m = mL ++ m1 ++ m2 ++ mR -> H = (h + length st)%nat ->
    pend V root H nfp m (mkSplit k q lsn) st.

(** Filling a hole and collecting the rest of the invariant. *)
Lemma tree_plug V root mn h c lo hi st fpC lvL lvR mL mR fp lv m :
  ctx ok V root mn h c lo hi st fpC lvL lvR mL mR -> rep ok V mn h c lo hi fp lv m ->
  NoDup (fp ++ fpC) -> sib_ok V (fp ++ fpC) -> linked V 0 (lvL ++ lv ++ lvR) 0 ->
  tree V root (h + length st) (length (fp ++ fpC)) (mL ++ m ++ mR).
Proof.
  intros Hc Hr Hnd Hs Hl. destruct (ctx_plug _ _ _ _ _ _ _ _ _ _ _ _ _ _ _ _ _ Hc Hr) as (fp' & Hp & Hr').
  exists fp', (lvL ++ lv ++ lvR). split_and!; [done|by rewrite Hp| |done|by rewrite Hp].
  by eapply sib_ok_perm; [symmetry|].
Qed.

(** Requirements of a hole with a subtree in it. *)
Definition hole (V : pages) (root : Z) (mn h : nat) (c : Z) (lo hi : bound) (st : list (TraversePath Node))
    (fpC lvL lvR : list Z) (mL mR : kvs) (fp lv : list Z) (m : kvs) : Prop :=
  ctx ok V root mn h c lo hi st fpC lvL lvR mL mR /\ rep ok V mn h c lo hi fp lv m /\
  NoDup (fp ++ fpC) /\ sib_ok V (fp ++ fpC) /\ linked V 0 (lvL ++ lv ++ lvR) 0.

Lemma tree_hole V root h nfp m : tree V root h nfp m ->
  exists fp lv, hole V root 1 h root None None [] [] [] [] [] [] fp lv m /\ length fp = nfp.
Proof.
  intros (fp & lv & ? & ? & ? & ? & ?). exists fp, lv. split; [|done].
  unfold hole. rewrite !app_nil_r. split_and!; try done. constructor.
Qed.

Lemma hole_tree V root mn h c lo hi st fpC lvL lvR mL mR fp lv m :
  hole V root mn h c lo hi st fpC lvL lvR mL mR fp lv m ->
  tree V root (h + length st) (length (fp ++ fpC)) (mL ++ m ++ mR).
Proof. intros (? & ? & ? & ? & ?). by eapply tree_plug. Qed.

Lemma hole_kv V root mn h c lo hi st fpC lvL lvR mL mR fp lv m k v :
  hole V root mn h c lo hi st fpC lvL lvR mL mR fp lv m -> lo_ok lo k -> hi_ok k hi ->
  kv_insert k v (mL ++ m ++ mR) = mL ++ kv_insert k v m ++ mR.
Proof.
  intros (Hc & _) Hlo Hhi. destruct (ctx_sides _ _ _ _ _ _ _ _ _ _ _ _ _ _ k Hc Hlo Hhi).
  by apply kv_insert_app_mid.
Qed.

(** The page of the hole is live. *)
Lemma rep_page V mn h c lo hi fp lv m : rep ok V mn h c lo hi fp lv m ->
  exists pg, V !! c = Some pg /\ pg_dead pg = false /\ c ∈ fp.
Proof.
  destruct h as [|h]; cbn.
  - intros (-> & _ & _ & r & Hr). destruct (V !! c) as [pg|]; [|done]. exists pg.
    injection Hr as ? ? ? ? Hd ?. split_and!; [done|done|set_solver].
  - intros (ks & cs & r & fpc & -> & _ & Hr & _). destruct (V !! c) as [pg|]; [|done]. exists pg.
    injection Hr as ? ? ? ? Hd ?. split_and!; [done|done|set_solver].
Qed.

(** Every page of the tree is live and stored the way a node of its kind is. *)
Definition page_ok (pg : Page) : Prop :=
  pg_dead pg = false /\ (pg_internal pg = true -> pg_vals pg = []) /\ (pg_internal pg = false -> pg_children pg = []) /\
  (length (pg_keys pg) <= ORDER)%nat /\ Forall ok (pg_keys pg) /\ Forall ok (pg_vals pg).

Lemma page_ok_core pg pg' : core pg = core pg' -> page_ok pg' -> page_ok pg.
Proof. unfold core, page_ok. intros [= -> -> -> -> -> _]. done. Qed.

Lemma leaf_core_ok mn lo hi m r : leaf_ok ok mn lo hi m -> page_ok (leaf_core m r).
Proof.
  intros (_ & _ & _ & Hl & H1 & H2). unfold page_ok, leaf_core. cbn.
  split_and!; try done. by rewrite length_fmap.
Qed.

Lemma inner_core_ok ks cs r : inner_ok ok ks -> page_ok (inner_core ks cs r).
Proof.
  intros (Hl & H1). unfold page_ok, inner_core. cbn. split_and!; try done.
  unfold ORDER, DEGREE in *. lia.
Qed.

Lemma core_page_ok (V : pages) p pg cpg : core <$> V !! p = Some cpg -> V !! p = Some pg -> page_ok cpg -> page_ok pg.
Proof.
  intros Hc Hp. rewrite Hp in Hc. cbn in Hc. injection Hc as <-. apply page_ok_core. done.
Qed.

Lemma chain_page_ok R (V : pages) lo ks cs hi fp lv m :
  (forall c lo hi fp lv m, R c lo hi fp lv m -> forall x pg, x ∈ fp -> V !! x = Some pg -> page_ok pg) ->
  chain R lo ks cs hi fp lv m -> forall x pg, x ∈ fp -> V !! x = Some pg -> page_ok pg.
Proof.
  intros HR. induction 1 as [|lo k ks c cs hi fp lv m fp' lv' m' HRc Hc IH]; intros x pg Hx Hpg; [eauto|].
  apply elem_of_app in Hx as [?|?]; eauto.
Qed.

Lemma rep_page_ok V mn h p lo hi fp lv m :
  rep ok V mn h p lo hi fp lv m -> forall x pg, x ∈ fp -> V !! x = Some pg -> page_ok pg.
Proof.
  revert mn p lo hi fp lv m. induction h as [|h IH]; cbn; intros mn p lo hi fp lv m.
  - intros (-> & _ & Hm & r & Hr) x pg ->%list_elem_of_singleton Hpg.
    eapply core_page_ok; [exact Hr|done|]. by eapply leaf_core_ok.
  - intros (ks & cs & r & fpc & -> & Hk & Hp & Hc) x pg [->|Hx]%elem_of_cons Hpg.
    + eapply core_page_ok; [exact Hp|done|]. by apply inner_core_ok.
    + eapply chain_page_ok; [|exact Hc|exact Hx|exact Hpg]. eauto.
Qed.

Lemma hole_page_ok V root mn h c lo hi st fpC lvL lvR mL mR fp lv m x pg :
  hole V root mn h c lo hi st fpC lvL lvR mL mR fp lv m -> x ∈ fp ++ fpC -> V !! x = Some pg -> page_ok pg.
Proof.
  intros (Hc & Hr & _) Hx Hpg.
  destruct (ctx_plug _ _ _ _ _ _ _ _ _ _ _ _ _ _ _ _ _ Hc Hr) as (fp' & Hp & Hr').
  eapply rep_page_ok; [exact Hr'| |exact Hpg]. by rewrite Hp.
Qed.

Lemma ctx_page_ok V root mn h c lo hi st fp lvL lvR mL mR x pg :
  ctx ok V root mn h c lo hi st fp lvL lvR mL mR -> x ∈ fp -> V !! x = Some pg -> page_ok pg.
Proof.
  induction 1 as [h|mn h p lo hi st fp lvL lvR mL mR n ksL ksR csL csR c lo' hi' r fpl lvl ml fpr lvr mr
    Hc IH Hp Hn Hk Hl Hr]; intros Hx Hpg; [set_solver|].
  apply elem_of_cons in Hx as [->|Hx].
  { eapply core_page_ok; [exact Hp|done|]. by apply inner_core_ok. }
  rewrite !elem_of_app in Hx. destruct Hx as [Hx|[Hx|Hx]]; [| |auto].
  - clear -Hl Hx Hpg. induction Hl; [set_solver|]. apply elem_of_app in Hx as [?|?]; [by eapply rep_page_ok|auto].
  - clear -Hr Hx Hpg. induction Hr; [set_solver|]. apply elem_of_app in Hx as [?|?]; [by eapply rep_page_ok|auto].
Qed.

(** The page a pending split goes to is fit to be stored. *)
Lemma pend_page_ok V root H nfp m rp n i st p pg :
  pend V root H nfp m rp (mkPath n i :: st) -> NewNodeId rp <> 0 -> path_node V p n -> PageId n = p ->
  V !! p = Some pg -> page_ok pg.
Proof.
  intros Hp Hq Hpn HP Hpg. inversion Hp as [|? ? h mn c q k lo hi fpC lvL lvR mL mR fp1 lv1 m1 fp2 lv2 m2
    Hc]; subst; [done|].
  inversion Hc as [|mn' h' p' lo0 hi0 st' fp lvL' lvR' mL' mR' n' ksL ksR csL csR c' lo' hi' r fpl lvl ml fpr lvr mr
    Hc' Hpg' Hpn' Hks Hlc Hrc]; subst.
  destruct Hpn' as (pg2 & l2 & Hpg2 & ->). eapply core_page_ok; [exact Hpg'|exact Hpg|]. by apply inner_core_ok.
Qed.

Lemma hole_pages V root mn h c lo hi st fpC lvL lvR mL mR fp lv m x :
  hole V root mn h c lo hi st fpC lvL lvR mL mR fp lv m -> x ∈ fp ++ fpC -> is_Some (V !! x).
Proof.
  intros (Hc & Hr & _) [Hx|Hx]%elem_of_app; [by eapply rep_pages|by eapply ctx_pages].
Qed.

End Tree.

(** ** The updates of an insertion *)

Definition leaf_links (pg : Page) : bool * Z * Z := (pg_internal pg, pg_left pg, pg_right pg).

Lemma linked_same V V' prev lv next :
  linked V prev lv next -> (forall x, x ∈ lv -> leaf_links <$> V' !! x = leaf_links <$> V !! x) ->
  linked V' prev lv next.
Proof.
  revert prev. induction lv as [|p lv IH]; intros prev; cbn [linked]; [done|].
  intros [(pg & Hp & Hi & Hl & Hr) Hlk] Hf. split.
  - specialize (Hf p ltac:(set_solver)). rewrite Hp in Hf. destruct (V' !! p) as [pg'|]; [|done].
    exists pg'. cbn in Hf. unfold leaf_links in Hf. injection Hf as ? ? ?. split_and!; congruence.
  - apply IH; [done|]. intros x Hx. apply Hf. by right.
Qed.

Lemma nodup_leaves l k (fp : list Z) : l ++ k ⊆+ fp -> forall p, NoDup (p :: fp) -> NoDup (l ++ [p] ++ k).
Proof.
  intros Hs p Hnd.
  assert (l ++ [p] ++ k ⊆+ p :: fp) as Hs'.
  { trans (p :: l ++ k); [apply Permutation_submseteq; solve_Permutation|]. by apply submseteq_skip. }
  apply submseteq_Permutation in Hs' as (k' & Hk'). rewrite Hk' in Hnd. by apply NoDup_app in Hnd as [? _].
Qed.

(** The leaves stay doubly linked when the new page is put after [p]. *)
Lemma relinked_leaves V V' lvL p lvR q fpC pg P Q :
  linked V 0 (lvL ++ [p] ++ lvR) 0 -> lvL ++ lvR ⊆+ fpC -> NoDup (p :: fpC) -> q ∉ p :: fpC ->
  V !! p = Some pg -> V !! 0 = None -> V' !! p = Some P -> V' !! q = Some Q ->
  pg_internal P = false -> pg_internal Q = false -> pg_left P = pg_left pg -> pg_right P = q ->
  pg_left Q = p -> pg_right Q = pg_right pg -> relinked V V' p q (pg_right pg) ->
  linked V' 0 (lvL ++ [p] ++ [q] ++ lvR) 0.
Proof.
  intros Hl Hsub Hnd Hqfp Hp H0 HP HQ HPi HQi HlP HPr HlQ HQr Hrl.
  assert (Hpf : p ∉ fpC) by (by apply NoDup_cons in Hnd as [? _]).
  assert (Hin : forall x, x ∈ lvL ++ lvR -> x ∈ fpC) by (intros x Hx; eapply elem_of_submseteq; done).
  assert (Hcp : forall x, x ∈ lvL ++ lvR -> x <> q) by (intros x Hx ->; apply Hqfp; right; auto).
  pose proof (nodup_leaves _ _ _ Hsub p Hnd) as Hndl.
  pose proof Hl as Hlp. apply linked_app in Hlp as [_ Hlp]. cbn [linked app hd] in Hlp.
  destruct Hlp as [(pg0 & Hpg0 & _ & _ & Hrr) HlR]. assert (pg0 = pg) as -> by congruence.
  assert (Hne : forall x, x ∈ lvL ++ lvR -> x <> pg_right pg -> V' !! x = V !! x).
  { intros x Hx Hxr. rewrite Hrl; [by rewrite decide_False|intros ->; auto|auto]. }
  eapply linked_split with (pgp := pg);
    [exact Hl|done|exact Hp|exists P; by rewrite HPi, HlP, HPr|exists Q; by rewrite HQi, HlQ, HQr|..].
  all: rewrite !NoDup_app in Hndl; destruct Hndl as (_ & HdL & _ & HdR & HndR).
  - intros r' lvR' pgr -> Hpgr. exists (left_to q pgr). cbn in Hrr. rewrite Hrl.
    + rewrite decide_True by done. by rewrite Hpgr.
    + intros ->. apply Hpf, Hin. set_solver.
    + apply Hcp. set_solver.
  - intros x Hx. apply Hne; [set_solver|]. intros ->. destruct lvR as [|y lvR]; cbn in Hrr.
    + rewrite Hrr in Hx. eapply linked_leaf in Hl as (? & ? & _); [|apply elem_of_app; left; exact Hx]. congruence.
    + rewrite Hrr in Hx. eapply HdL; [exact Hx|set_solver].
  - intros x Hx. destruct lvR as [|y lvR]; cbn in *; [set_solver|].
    apply Hne; [set_solver|]. rewrite Hrr. intros ->. by apply NoDup_cons in HndR as [? _].
Qed.

(** A leaf is not its own right sibling. *)
Lemma hole_right_ne ok (V : pages) root mn p lo hi st fpC lvL lvR mL mR m pg :
  hole ok V root mn 0 p lo hi st fpC lvL lvR mL mR [p] [p] m -> V !! p = Some pg -> V !! 0 = None ->
  pg_right pg <> p.
Proof.
  intros (Hc & _ & Hnd & _ & Hl) Hp H0.
  apply linked_app in Hl as [_ [(pg' & Hpg' & _ & _ & Hr) _]]. assert (pg' = pg) as -> by congruence.
  cbn [app hd] in Hr. rewrite Hr. destruct lvR as [|x lvR]; cbn; [congruence|]. intros ->.
  apply NoDup_cons in Hnd as [Hnd _]. apply Hnd. eapply elem_of_submseteq; [|by eapply ctx_leaves]. set_solver.
Qed.

Section Updates.
Context (ok : bytes -> Prop).

(** A leaf is stored with one more (or one changed) binding. *)
Lemma leaf_store V root mn p lo hi st fpC lvL lvR mL mR fp lv m k v pg P :
  hole ok V root mn 0 p lo hi st fpC lvL lvR mL mR fp lv m ->
  lo_ok lo k -> hi_ok k hi -> ok k -> ok v -> (length (kv_insert k v m) <= ORDER)%nat ->
  V !! p = Some pg -> core P = leaf_core (kv_insert k v m) (pg_right pg) -> pg_left P = pg_left pg ->
  tree ok (<[p := P]> V) root (0 + length st) (length (fp ++ fpC)) (kv_insert k v (mL ++ m ++ mR)).
Proof.
  intros Hh Hlo Hhi Hk Hv Hlen Hp HP HlP. erewrite hole_kv by done.
  destruct Hh as (Hc & (-> & -> & Hm & r & Hr) & Hnd & Hs & Hl).
  assert (Hi : pg_internal pg = false) by (rewrite Hp in Hr; cbn in Hr; by injection Hr).
  assert (HiP : links P = links pg) by (unfold links, core in *; injection HP as ? ? ? -> ? ->; by rewrite Hi).
  eapply tree_plug.
  - eapply ctx_frame; [exact Hc|]. apply agree_insert_ne. by apply NoDup_cons in Hnd as [? _].
  - cbn. split_and!; [done|done| |].
    + apply leaf_ok_content; [by eapply leaf_content_insert| |done].
      destruct Hm as (_ & _ & Hm & _). pose proof (kv_insert_length k v m). lia.
    + exists (pg_right pg). rewrite lookup_insert_eq. cbn. by rewrite HP.
  - done.
  - eapply sib_ok_same; [|exact Hs]. intros x Hx. destruct (decide (x = p)) as [->|]; [|by rewrite lookup_insert_ne].
    rewrite lookup_insert_eq, Hp. cbn. by rewrite HiP.
  - eapply linked_same; [exact Hl|]. intros x Hx. destruct (decide (x = p)) as [->|]; [|by rewrite lookup_insert_ne].
    rewrite lookup_insert_eq, Hp. cbn. unfold leaf_links, links in *. injection HiP as -> ->. by rewrite HlP.
Qed.

(** An overfull leaf is split at its middle. *)
Lemma leaf_split V V' root mn p lo hi st fpC lvL lvR mL mR fp lv m k v pg q P Q sep lsn :
  hole ok V root mn 0 p lo hi st fpC lvL lvR mL mR fp lv m ->
  lo_ok lo k -> hi_ok k hi -> ok k -> ok v -> (ORDER < length (kv_insert k v m))%nat ->
  let m' := kv_insert k v m in let mid := (length m' / 2)%nat in m'.*1 !! mid = Some sep ->
  V !! p = Some pg -> V !! q = None -> V !! 0 = None -> 0 < q < 2 ^ 31 -> V' !! p = Some P -> V' !! q = Some Q ->
  core P = leaf_core (take mid m') q -> pg_left P = pg_left pg ->
  core Q = leaf_core (drop mid m') (pg_right pg) -> pg_left Q = p ->
  relinked V V' p q (pg_right pg) ->
  pend ok V' root (0 + length st) (S (length (fp ++ fpC))) (kv_insert k v (mL ++ m ++ mR)) (mkSplit sep q lsn) st.
Proof.
  intros Hh Hlo Hhi Hk Hv Hlen m' mid Hsep Hp Hq H0 Hqr HP HQ HcP HlP HcQ HlQ Hrl.
  assert (Hqfp : q ∉ fp ++ fpC) by (intros Hin; eapply hole_pages in Hin as [? ?]; [|done]; congruence).
  erewrite hole_kv by done. fold m'.
  destruct Hh as (Hc & (-> & -> & Hm & r & Hr) & Hnd & Hs & Hl).
  assert (Hi : pg_internal pg = false) by (rewrite Hp in Hr; cbn in Hr; by injection Hr).
  pose proof (leaf_content_insert ok mn lo hi m k v Hm Hlo Hhi Hk Hv) as Hm'. fold m' in Hm'.
  assert (Hl5 : length m' = 5%nat).
  { destruct Hm as (_ & _ & _ & Hm & _). pose proof (kv_insert_length k v m). fold m' in H, Hlen.
    unfold ORDER, DEGREE in *. lia. }
  assert (Hmid : mid = 2%nat) by (unfold mid; by rewrite Hl5). clearbody mid m'. subst mid.
  assert (Hl2 : length (take 2 m') = 2%nat /\ length (drop 2 m') = 3%nat) by (rewrite length_take, length_drop; lia).
  destruct (leaf_content_halves ok lo hi m' 2 sep Hm' Hsep) as [HL HR].
  pose proof (proj1 (NoDup_cons _ _) Hnd) as [Hpf _].
  assert (Hcp : forall x, x ∈ [p] ++ fpC -> x <> q) by (intros x Hx ->; done).
  assert (Hok : ok sep).
  { destruct Hm' as (_ & _ & Hm' & _). rewrite Forall_forall in Hm'. apply Hm', list_elem_of_lookup. eauto. }
  injection HcP as HPk HPv HPc HPi HPd HPr. injection HcQ as HQk HQv HQc HQi HQd HQr.
  eapply (pend_split ok V' root _ _ _ st lsn 0 mn p q sep lo hi fpC lvL lvR mL mR [p] [p] (take 2 m') [q] [q] (drop 2 m')).
  - eapply ctx_frame; [exact Hc|]. eapply relinked_agree; [exact Hrl|done|set_solver].
  - cbn. split_and!; [done|done| |].
    + apply leaf_ok_content; [done|..]; unfold ORDER, DEGREE; lia.
    + exists q. rewrite HP. cbn. unfold core, leaf_core. congruence.
  - cbn. split_and!; [done|done| |].
    + apply leaf_ok_content; [done|..]; unfold ORDER, DEGREE; lia.
    + exists (pg_right pg). rewrite HQ. cbn. unfold core, leaf_core. congruence.
  - done.
  - done.
  - cbn. apply NoDup_cons. apply NoDup_cons in Hnd as [? ?]. split; [set_solver|]. apply NoDup_cons. set_solver.
  - eapply sib_ok_perm; [|eapply (sib_ok_split V V' p q); [exact Hs|set_solver|done|done|done|done| | |done]].
    + solve_Permutation.
    + unfold links. by rewrite HPr, HPi, Hi.
    + unfold links. by rewrite HQr, HQi, Hi.
  - eapply (relinked_leaves V V' lvL p lvR q fpC pg P Q); try done. by eapply ctx_leaves.
  - cbn. lia.
  - by rewrite (app_assoc (take _ _)), take_drop.
  - done.
Qed.

(** [p] has the children [cs] with the separators [ks], but is not stored yet. *)
Definition grown (V : pages) (root : Z) (H nfp : nat) (m : kvs) (p : Z) (ks : list bytes) (cs : list Z)
    (st : list (TraversePath Node)) : Prop :=
  exists mn h lo hi fpC lvL lvR mL mR fpc lv m',
    ctx ok V root mn (S h) p lo hi st fpC lvL lvR mL mR /\ chain (rep ok V DEGREE h) lo ks cs hi fpc lv m' /\
    NoDup (p :: fpc ++ fpC) /\ sib_ok V (p :: fpc ++ fpC) /\ linked V 0 (lvL ++ lv ++ lvR) 0 /\
    H = (S h + length st)%nat /\ nfp = length (p :: fpc ++ fpC) /\ m = mL ++ m' ++ mR.

(** The parent of a split page gets the separator and the new child. *)
Lemma pend_grown V root H nfp m k q lsn n i st :
  pend ok V root H nfp m (mkSplit k q lsn) (mkPath n i :: st) -> q <> 0 ->
  exists p ksL ksR csL csR, i = Z.of_nat (length csL) /\ length ksL = length csL /\
    Keys n = ksL ++ ksR /\ Children n = csL ++ csR /\ (0 < length csR)%nat /\
    inner_ok ok (ksL ++ ksR) /\ ok k /\ path_node V p n /\ Leaf n = false /\
    (exists pg, V !! p = Some pg /\ pg_internal pg = true /\ pg_dead pg = false) /\
    grown V root H nfp m p (ksL ++ k :: ksR) (csL ++ take 1 csR ++ q :: drop 1 csR) st.
Proof.
  intros Hp Hq. inversion Hp as [? ? H0|? ? h mn c ? ? lo hi fpC lvL lvR mL mR fp1 lv1 m1 fp2 lv2 m2
    Hc H1 H2 Hk Hqr Hnd Hs Hl Hn Hm HH]; subst; [done|].
  inversion Hc as [|mn' h' p lo0 hi0 st' fp lvL' lvR' mL' mR' n' ksL ksR csL csR c' lo' hi' r fpl lvl ml fpr lvr mr
    Hc' Hpg Hpn Hks Hlc Hrc]; subst.
  exists p, ksL, ksR, csL, (c :: csR).
  assert (Hnode : Keys n = ksL ++ ksR /\ Children n = csL ++ c :: csR /\ Leaf n = false).
  { destruct Hpn as (pg & l & Hpg' & ->). rewrite Hpg' in Hpg. injection Hpg as HK HV HC HI HD HR.
    unfold set_Left, node_of. cbn. rewrite HI. done. }
  destruct Hnode as (HK & HC & HL).
  split_and!; try done; [by eapply lchain_len|cbn; lia| |].
  { destruct (V !! p) as [pg|]; [|done]. exists pg. by injection Hpg. }
  exists mn', h, lo0, hi0, fp, lvL', lvR', mL', mR'.
  exists (fpl ++ fp1 ++ fp2 ++ fpr), (lvl ++ lv1 ++ lv2 ++ lvr), (ml ++ m1 ++ m2 ++ mr).
  assert (Hperm : fp1 ++ fp2 ++ p :: fpl ++ fpr ++ fp ≡ₚ p :: (fpl ++ fp1 ++ fp2 ++ fpr) ++ fp)
    by solve_Permutation.
  split_and!; [done| |by rewrite <- Hperm|by eapply sib_ok_perm| |cbn; lia|by rewrite Hperm|by rewrite <- !app_assoc].
  - cbn. eapply chain_unfocus; [exact Hlc|exact H1|]. by econstructor.
  - by rewrite <- !app_assoc in *.
Qed.

Lemma grown_store V root H nfp m p ks cs st pg P :
  grown V root H nfp m p ks cs st -> inner_ok ok ks ->
  V !! p = Some pg -> pg_internal pg = true -> core P = inner_core ks cs (pg_right pg) ->
  tree ok (<[p := P]> V) root H nfp m.
Proof.
  intros (mn & h & lo & hi & fpC & lvL & lvR & mL & mR & fpc & lv & m' & Hc & Hch & Hnd & Hs & Hl & -> & -> & ->)
    Hk Hp Hi HP.
  pose proof Hnd as [Hpf _]%NoDup_cons. apply not_elem_of_app in Hpf as [Hpf1 Hpf2].
  eapply (tree_plug ok _ root mn (S h) p lo hi st fpC lvL lvR mL mR (p :: fpc) lv m').
  - eapply ctx_frame; [exact Hc|]. by apply agree_insert_ne.
  - exists ks, cs, (pg_right pg), fpc. split_and!; [done|done|rewrite lookup_insert_eq; cbn; by rewrite HP|].
    eapply chain_mono; [exact Hch|]. intros c ? ? fp1 ? ? Hsub Hr. eapply rep_frame; [done|].
    apply agree_insert_ne. set_solver.
  - done.
  - eapply sib_ok_same; [|exact Hs]. intros x Hx.
    destruct (decide (x = p)) as [->|]; [|by rewrite lookup_insert_ne].
    rewrite lookup_insert_eq, Hp. cbn. unfold links. injection HP as ? ? ? -> ? ->. by rewrite Hi.
  - eapply linked_frame; [exact Hl|]. intros x pgx Hx Hpx Hix.
    rewrite lookup_insert_ne; [done|]. intros ->. congruence.
Qed.

Lemma inner_ok_halves ks k : Forall ok ks -> length ks = 4%nat -> ks !! 2%nat = Some k ->
  inner_ok ok (take 2 ks) /\ inner_ok ok (drop 3 ks) /\ ok k.
Proof.
  intros Hk Hl Hkk. unfold inner_ok. rewrite length_take, length_drop, Hl.
  unfold ORDER, DEGREE. split_and!; try lia; [by apply Forall_take|by apply Forall_drop|].
  rewrite Forall_forall in Hk. eapply Hk, list_elem_of_lookup. eauto.
Qed.

(** An overfull inner node is split around its middle separator. *)
Lemma grown_split V V' root H nfp m p ks cs st pg q k lsn P Q :
  grown V root H nfp m p ks cs st -> Forall ok ks -> length ks = 4%nat -> ks !! 2%nat = Some k ->
  V !! p = Some pg -> pg_internal pg = true -> V !! q = None -> V !! 0 = None -> 0 < q < 2 ^ 31 ->
  V' !! p = Some P -> V' !! q = Some Q ->
  core P = inner_core (take 2 ks) (take 3 cs) q -> core Q = inner_core (drop 3 ks) (drop 3 cs) (pg_right pg) ->
  relinked V V' p q (pg_right pg) ->
  pend ok V' root H (S nfp) m (mkSplit k q lsn) st.
Proof.
  intros (mn & h & lo & hi & fpC & lvL & lvR & mL & mR & fpc & lv & m' & Hc & Hch & Hnd & Hs & Hl & -> & -> & ->)
    Hok Hlen Hk Hp Hi Hq H0 Hqr HP HQ HcP HcQ Hrl.
  pose proof Hnd as [Hpf _]%NoDup_cons. apply not_elem_of_app in Hpf as [Hpf1 Hpf2].
  destruct (inner_ok_halves ks k Hok Hlen Hk) as (HkL & HkR & Hkk).
  assert (Hqf1 : q ∉ fpc).
  { intros Hin. destruct (chain_pages (rep ok V DEGREE h) V _ _ _ _ _ _ _ (fun _ _ _ _ _ _ => rep_pages ok V _ _ _ _ _ _ _ _) Hch q Hin) as [? ?].
    congruence. }
  assert (Hqf2 : q ∉ fpC) by (intros Hin; eapply ctx_pages in Hin as [? ?]; [|exact Hc]; congruence).
  assert (Hqp : q <> p) by congruence.
  destruct (chain_cut _ 2 k _ _ _ _ _ _ _ Hch Hk) as (fp1 & lv1 & m1 & fp2 & lv2 & m2 & Hc1 & Hc2 & -> & -> & ->).
  assert (Hag : agree V V' (fp1 ++ fp2)) by (by eapply relinked_agree).
  assert (Hmono : forall lo ks cs hi fp lv m, fp ⊆ fp1 ++ fp2 -> chain (rep ok V DEGREE h) lo ks cs hi fp lv m ->
            chain (rep ok V' DEGREE h) lo ks cs hi fp lv m).
  { intros ? ? ? ? ? ? ? Hsub Hx. eapply chain_mono; [exact Hx|]. intros. eapply rep_frame; [done|].
    eapply agree_sub; [|exact Hag]. set_solver. }
  assert (Hperm : q :: p :: (fp1 ++ fp2) ++ fpC ≡ₚ (p :: fp1) ++ (q :: fp2) ++ fpC) by solve_Permutation.
  injection HcP as HPk HPv HPc HPi HPd HPr. injection HcQ as HQk HQv HQc HQi HQd HQr.
  eapply (pend_split ok V' root _ _ _ st lsn (S h) mn p q k lo hi fpC lvL lvR mL mR
    (p :: fp1) lv1 m1 (q :: fp2) lv2 m2).
  - eapply ctx_frame; [exact Hc|]. by eapply relinked_agree.
  - exists (take 2 ks), (take 3 cs), q, fp1. split_and!; [done|done| |apply Hmono; [set_solver|done]].
    rewrite HP. cbn. unfold core, inner_core. congruence.
  - exists (drop 3 ks), (drop 3 cs), (pg_right pg), fp2. split_and!; [done|done| |apply Hmono; [set_solver|done]].
    rewrite HQ. cbn. unfold core, inner_core. congruence.
  - done.
  - done.
  - rewrite <- Hperm. apply NoDup_cons. split; [|done]. set_solver.
  - eapply sib_ok_perm; [exact Hperm|]. eapply (sib_ok_split V V' p q); try done; [by left|set_solver|..].
    + unfold links. by rewrite HPr, HPi, Hi.
    + unfold links. by rewrite HQr, HQi, Hi.
  - rewrite <- (app_assoc lv1) in Hl.
    eapply linked_frame; [exact Hl|]. intros x pgx Hx Hpx Hix. rewrite Hrl by congruence.
    rewrite decide_False; [done|]. intros ->.
    destruct (Hs p pg ltac:(by left) Hp) as [Hz|(_ & pgr & Hpr & Hir)]; congruence.
  - rewrite <- Hperm. done.
  - by rewrite <- (app_assoc m1).
  - done.
Qed.

(** The root was split: a new root over the two halves. *)
Lemma root_add V root H nfp m k q lsn R P :
  pend ok V root H nfp m (mkSplit k q lsn) [] -> q <> 0 -> V !! R = None ->
  core P = inner_core [k] [root; q] 0 ->
  tree ok (<[R := P]> V) R (S H) (S nfp) m.
Proof.
  intros Hp Hq HR HP. inversion Hp as [? ? H0|? ? h mn c ? ? lo hi fpC lvL lvR mL mR fp1 lv1 m1 fp2 lv2 m2
    Hc H1 H2 Hk Hqr Hnd Hs Hl Hn Hm HH]; subst; [done|].
  inversion Hc; subst. rewrite !app_nil_r in *. cbn [app length] in *.
  assert (HRf : R ∉ fp1 ++ fp2).
  { intros [Hin|Hin]%elem_of_app; (eapply rep_pages in Hin as [? ?]; [|done]); congruence. }
  assert (Hag : agree V (<[R := P]> V) (fp1 ++ fp2)) by (by apply agree_insert_ne).
  exists (R :: fp1 ++ fp2), (lv1 ++ lv2). rewrite Nat.add_0_r. split_and!.
  - eexists [k], [_; q], 0, (fp1 ++ fp2). split_and!; [done| |rewrite lookup_insert_eq; cbn; by rewrite HP|].
    + unfold inner_ok, ORDER, DEGREE. cbn. split; [lia|by repeat constructor].
    + constructor; [|constructor].
      * eapply rep_frame; [exact H1|]. eapply agree_sub; [|exact Hag]. set_solver.
      * eapply rep_frame; [exact H2|]. eapply agree_sub; [|exact Hag]. set_solver.
  - by apply NoDup_cons.
  - apply (sib_ok_agree _ _ _ Hag) in Hs. intros x pg Hx Hpg. apply elem_of_cons in Hx as [->|Hx].
    + rewrite lookup_insert_eq in Hpg. injection Hpg as <-. left. by injection HP.
    + destruct (Hs x pg Hx Hpg) as [?|[? ?]]; [by left|right; set_solver].
  - eapply linked_frame; [exact Hl|]. intros x pgx Hx Hpx _. rewrite lookup_insert_ne; [done|]. intros ->. congruence.
  - done.
Qed.

End Updates.
