(* ===== verification/BTreeInsert.v ===== *)
(** * Insertion: the code implements the shape updates

    [insert], [leaf_overflow], [parent_overflow], [propagate] and [InsertValue]
    against the cache contract: a put of one binding takes a tree that holds the
    bindings [m] to one that holds [kv_insert key val m], whatever splits it
    takes, and appends its record to the log. *)

From S2P Require Import Prelude Keys Helpers BTStack Wal BTree CacheSpec BTreeInv BTreeNode BTreeShape.
Local Open Scope Z_scope.
Local Open Scope key_scope.

(** Compute the fields of a node that was built by the setters. *)
Ltac node_simpl := cbn [set_PageId set_Left set_Right set_Keys set_Values set_Children set_lsn node_of
  PageId RightSibling LeftSibling Keys Values Children Leaf n_lsn].
Tactic Notation "node_simpl" "in" hyp(H) := cbn [set_PageId set_Left set_Right set_Keys set_Values set_Children set_lsn node_of
  PageId RightSibling LeftSibling Keys Values Children Leaf n_lsn] in H.

(** ** The log record of a put *)

(** A call that was given no LSN appends a PUT record and uses its LSN. *)
Definition put_logged (lsn key val : bytes) (w : WAL) (lsn' : bytes) (w' : WAL) : Prop :=
  match lsn with
  | [] => exists pid, 0 < pid < 2 ^ 31 /\ AddPutLog pid key val w = (Val lsn', w')
  | _ :: _ => lsn' = lsn /\ w' = w
  end.

(** The binding can be logged, or it comes with an LSN and is not. *)
Definition loggable (lsn key val : bytes) : Prop := lsn = [] -> key <> [] /\ val <> [].

Lemma AddPutLog_returns pid key val w : key <> [] -> val <> [] ->
  returns (AddPutLog pid key val) w (fun l w' => length l = 12%nat).
Proof.
  intros Hk Hv. unfold AddPutLog.
  rewrite (proj2 (Z.leb_gt _ _)) by (destruct key; cbn; [done|lia]).
  rewrite (proj2 (Z.leb_gt _ _)) by (destruct val; cbn; [done|lia]).
  go_step. go_call assignLSN_returns. intros l w' (-> & _). cbn zeta. unfold walBuf_Add. go_step. go_step. by go_step.
Qed.

Lemma last_elem {A} (x : A) l d : List.last (x :: l) d ∈ x :: l.
Proof. revert x. induction l as [|y l IH]; intros x; [by left|]. right. apply IH. Qed.

Section Insert.
Context {C F : Type} `{!CacheOps C F} `{!PageCache C F}.
Implicit Types (c : C) (t : BTree C) (f : F).

Lemma put_lsn_spec lsn pid key val r mu w c :
  loggable lsn key val -> 0 < pid < 2 ^ 31 ->
  returns (put_lsn lsn pid key val) (mkBTree r mu w c) (fun lsn' t' => exists w',
    t' = mkBTree r mu w' c /\ put_logged lsn key val w lsn' w' /\ (lsn = [] -> length lsn' = 12%nat)).
Proof.
  intros Hl Hpid. unfold put_lsn. rewrite pid_u32 by lia. destruct lsn as [|b lsn]; cbn [length Nat.eqb].
  - destruct (Hl eq_refl) as [Hk Hv]. go_step. apply onW_returns.
    destruct (AddPutLog_returns pid key val w Hk Hv) as (l & w' & Hw & H12).
    exists l, w'. split; [done|]. exists w'. split_and!; [done|by exists pid|done].
  - go_step. by exists w.
Qed.

(** ** Facts about the pages of a hole *)

Lemma view_zero c : cinv c -> view c !! 0 = None.
Proof. intros Hc. destruct (view c !! 0) eqn:E; [|done]. apply view_range in E; [lia|done]. Qed.

Lemma right_range c fp p pg :
  cinv c -> sib_ok (view c) fp -> p ∈ fp -> view c !! p = Some pg -> 0 <= pg_right pg < 2 ^ 31.
Proof.
  intros Hc Hs Hp Hpg. destruct (Hs p pg Hp Hpg) as [->|(_ & pg' & Hpg' & _)]; [lia|].
  apply view_range in Hpg'; [lia|done].
Qed.

Lemma left_range c lvL p lvR pg :
  cinv c -> linked (view c) 0 (lvL ++ [p] ++ lvR) 0 -> view c !! p = Some pg -> 0 <= pg_left pg < 2 ^ 31.
Proof.
  intros Hc Hl Hpg. pose proof Hl as Hl2. apply linked_app in Hl2 as [_ [(pg' & Hpg' & _ & Hleft & _) _]].
  assert (pg' = pg) as -> by congruence. rewrite Hleft.
  destruct lvL as [|x lvL]; [cbn; lia|].
  pose proof (last_elem x lvL 0) as Hin.
  destruct (linked_leaf _ _ _ _ (List.last (x :: lvL) 0) Hl) as (pgl & Hpgl & _); [set_solver|].
  apply view_range in Hpgl; [lia|done].
Qed.

(** ** Relinking the old right sibling *)

(** [r] is null or a page that a node can be loaded from and stored to. *)
Definition link_ok c (r : Z) : Prop :=
  0 <= r < 2 ^ 31 /\ (r <> 0 -> exists pg, view c !! r = Some pg /\ page_ok cell_ok pg /\ 0 <= pg_right pg < 2 ^ 31).

Lemma sib_link_ok c fp p pg :
  cinv c -> sib_ok (view c) fp -> (forall x pg, x ∈ fp -> view c !! x = Some pg -> page_ok cell_ok pg) ->
  p ∈ fp -> view c !! p = Some pg -> link_ok c (pg_right pg).
Proof.
  intros Hc Hs Hok Hp Hpg. split; [by eapply right_range|]. intros Hr.
  destruct (Hs p pg Hp Hpg) as [?|(Hin & pg' & Hpg' & _)]; [done|].
  exists pg'. split_and!; [done|by eapply Hok|eapply right_range; done|eapply right_range; done].
Qed.

Lemma link_ok_keep c c' (V' : pages) n r : cstep c c' V' n ->
  (r <> 0 -> V' !! r = view c !! r) -> link_ok c r -> link_ok c' r.
Proof.
  intros (_ & Hv & _ & _) Hr (Hrange & Hl). split; [done|]. intros H0. rewrite Hv, Hr by done. auto.
Qed.

(** What the lookup of the old right sibling leaves to store. *)
Definition old_right (r q : Z) c (o : option (F * Node)) : Prop :=
  match o with
  | Some (f, n) => r <> 0 /\ fr_Key f = r /\ exists pg, view c !! r = Some pg /\ n = set_Left q (node_of r pg)
  | None => r = 0
  end.

Lemma load_right_spec root mu w c r q :
  cinv c -> link_ok c r ->
  returns (if r >? 0 then '(fr, n) ← buildPage (u32 r); mret (Some (fr, set_Left q n)) else mret None)
    (mkBTree root mu w c) (fun o t' => exists c', t' = mkBTree root mu w c' /\ cstep c c' (view c) 0 /\ old_right r q c' o).
Proof.
  intros Hc [Hr Hpg]. destruct (Z.gtb_spec r 0) as [H0|H0].
  - destruct (Hpg ltac:(lia)) as (pg & Hpg' & (Hd & _) & _). rewrite pid_u32 by lia.
    go_step. go_call buildPage_spec; [|done|done|done].
    intros [f n] t' (c' & -> & Hf & -> & Hst & _). go_step. exists c'. split_and!; [done|done|].
    split_and!; [lia|done|]. exists pg. destruct Hst as (_ & -> & _). done.
  - go_step. exists c. split; [done|]. split; [split_and!; [done|done|lia|done]|cbn; lia].
Qed.

Lemma sync_right_spec root mu w c lsn r q o :
  cinv c -> link_ok c r -> old_right r q c o -> 0 < q < 2 ^ 31 ->
  returns (match o with Some (fr, n) => or_panic (sync_node fr lsn n) | None => mret tt end)
    (mkBTree root mu w c) (fun _ t' => exists c', t' = mkBTree root mu w c' /\
      cstep c c' (alter (left_to q) r (view c)) 0).
Proof.
  intros Hc [Hr Hpg] Ho Hq. destruct o as [[f n]|]; cbn in Ho.
  - destruct Ho as (H0 & Hf & pg & Hp & ->).
    destruct (Hpg H0) as (pg' & Hp' & (Hd & Hv & Hch & Hl & Hk & Hvv) & Hrr).
    assert (pg' = pg) as -> by congruence.
    go_step. go_call sync_node_spec; [|done|by rewrite Hf|done|done|cbn; by case_match].
    intros _ t' (c' & -> & Hst). exists c'. split; [done|]. rewrite Hf in Hst.
    rewrite node_page_left, (pid_i32 q) in Hst; [|lia|done|done|apply pid_i32; lia].
    erewrite alter_alt_Some by done. exact Hst.
  - subst r. go_step. exists c. split; [done|]. split_and!; [done| |lia|done].
    rewrite alter_id; [done|]. intros pg Hp. by rewrite view_zero in Hp.
Qed.

(** The two together, as an internal split does it. *)
Lemma relink_spec root mu w c lsn r q :
  cinv c -> link_ok c r -> 0 < q < 2 ^ 31 ->
  returns (if r >? 0 then '(fr, n) ← buildPage (u32 r); or_panic (sync_node fr lsn (set_Left q n)) else mret tt)
    (mkBTree root mu w c) (fun _ t' => exists c', t' = mkBTree root mu w c' /\
      cstep c c' (alter (left_to q) r (view c)) 0).
Proof.
  intros Hc Hl Hq. destruct (load_right_spec root mu w c r q Hc Hl) as (o & t' & Ho & c1 & -> & Hst1 & Hold).
  pose proof Hst1 as (Hc1 & Hv1 & _ & _).
  destruct (sync_right_spec root mu w c1 lsn r q o Hc1) as (u & t' & Hu & c2 & -> & Hst2); [|done|done|].
  { by eapply link_ok_keep. }
  exists tt, (mkBTree root mu w c2). rewrite Hv1 in Hst2. split; [|exists c2; split; [done|by apply (cstep_trans _ _ _ _ _ 0 0 Hst1)]].
  destruct u. revert Ho. destruct (r >? 0); cbn; [|intros [= <- <-]; exact Hu].
  unfold mbind, M_bind at 1 2. destruct (buildPage (u32 r) _) as [[[fr n]|?|?| |] t1]; cbn; try done.
  intros [= <- ->]. exact Hu.
Qed.

Lemma old_right_keep c c' r q o : view c' !! r = view c !! r -> old_right r q c o -> old_right r q c' o.
Proof. intros Hr. destruct o as [[f n]|]; cbn; [|done]. by rewrite Hr. Qed.

(** ** Leaves *)

(** The leaf node in memory once the binding is in it. *)
Definition put_node (lsn : bytes) (p : Z) (pg : Page) (m' : kvs) : Node :=
  set_Values m'.*2 (set_Keys m'.*1 (set_lsn lsn (node_of p pg))).

Lemma leaf_overflow_spec root r mu w c mn p lo hi st fpC lvL lvR mL mR fp lv m key val pg f lsn rp :
  cinv c -> hole cell_ok (view c) root mn 0 p lo hi st fpC lvL lvR mL mR fp lv m ->
  lo_ok lo key -> hi_ok key hi -> cell_ok key -> cell_ok val -> 0 < room c ->
  view c !! p = Some pg -> fr_Key f = p -> (ORDER < length (kv_insert key val m))%nat ->
  returns (leaf_overflow lsn (put_node lsn p pg (kv_insert key val m)) f rp) (mkBTree r mu w c) (fun rp' t' =>
    exists c' V', t' = mkBTree r mu w c' /\ cstep c c' V' 1 /\
      pend cell_ok V' root (0 + length st) (S (length (fp ++ fpC))) (kv_insert key val (mL ++ m ++ mR)) rp' st).
Proof.
  intros Hc Hh Hlo Hhi Hk Hv Hroom Hp Hf Hlen.
  pose proof Hh as (_ & (-> & -> & Hm & r0 & Hr0) & _ & Hs & Hl).
  pose proof (leaf_content_insert cell_ok mn lo hi m key val Hm Hlo Hhi Hk Hv) as (_ & _ & Hck & Hcv).
  pose proof (view_range _ _ _ Hc Hp) as Hpr.
  assert (Hi : pg_internal pg = false /\ pg_dead pg = false) by (rewrite Hp in Hr0; cbn in Hr0; by injection Hr0).
  destruct Hi as [Hi Hd].
  assert (Hlr : 0 <= pg_left pg < 2 ^ 31) by (by eapply left_range).
  assert (Hlink : link_ok c (pg_right pg)).
  { eapply (sib_link_ok c _ p); [done|exact Hs| |by left|done]. intros. by eapply hole_page_ok. }
  set (m' := kv_insert key val m) in *.
  assert (Hlt : (length m' / 2 < length m')%nat) by (apply Nat.div_lt; unfold ORDER, DEGREE in *; lia).
  assert (Hsmall : (length m' - length m' / 2 <= ORDER /\ length m' / 2 <= ORDER)%nat).
  { destruct Hm as (_ & _ & _ & Hm & _). pose proof (kv_insert_length key val m) as Hll. fold m' in Hll.
    unfold ORDER, DEGREE in *. assert (length m' = 5)%nat as -> by lia. cbn. lia. }
  unfold leaf_overflow, put_node.
  go_step. eapply returns_mono; [|apply (split_leaf_spec _ m'); [cbn; by rewrite Hi|done|done]].
  intros [[n nq] pk] t' (-> & -> & ->). set (mid := (length m' / 2)%nat) in *.
  assert (Hsep : exists sep, m'.*1 !! mid = Some sep /\ (drop mid m').*1 !! 0%nat = Some sep).
  { destruct (lookup_lt_is_Some_2 m'.*1 mid) as [sep Hsep]; [by rewrite length_fmap|].
    exists sep. split; [done|]. by rewrite fmap_drop, lookup_drop, Nat.add_0_r. }
  destruct Hsep as (sep & Hsep & Hsep0).
  go_step. go_step. eapply returns_mono; [|apply assignFrame_spec; [done|done|node_simpl..]].
  2: { rewrite length_fmap, length_drop. lia. }
  2: { rewrite fmap_drop. by apply Forall_drop. }
  2: { rewrite fmap_drop. by apply Forall_drop. }
  intros [fq nq] t' (c1 & -> & Hq & Hqr & -> & Hst1). cbn [Leaf Keys Values Children] in Hst1. set (q := fr_Key fq) in *.
  node_simpl.
  pose proof Hst1 as (Hc1 & Hv1 & _ & _).
  assert (Hqne : forall x, is_Some (view c !! x) -> x <> q) by (intros x [? ?] ->; congruence).
  assert (Hrq : pg_right pg <> q) by (destruct Hlink as [_ Hlk]; intros E; destruct (Hlk ltac:(lia)) as (? & ? & _); congruence).
  go_step. eapply returns_mono; [|apply load_right_spec; [done|]].
  2: { eapply link_ok_keep; [exact Hst1| |done]. intros _. by rewrite lookup_insert_ne. }
  intros o t' (c2 & -> & Hst2 & Ho). rewrite Hv1 in Hst2. pose proof Hst2 as (Hc2 & Hv2 & _ & _).
  go_step. eapply (returns_index _ 0); [exact Hsep0|].
  go_step. go_step. go_call sync_node_spec; [|done|by rewrite Hv2, lookup_insert_eq|node_simpl..].
  2: { rewrite length_fmap, length_drop. lia. }
  2: { rewrite fmap_drop. by apply Forall_drop. }
  2: { rewrite fmap_drop. by apply Forall_drop. }
  intros _ t' (c3 & -> & Hst3). fold q in Hst3. rewrite Hv2, insert_insert_eq in Hst3. pose proof Hst3 as (Hc3 & Hv3 & _ & _).
  assert (Hpq : p <> q) by (apply Hqne; eauto).
  go_step. go_step. go_call sync_node_spec; [|done|rewrite Hf, Hv3, lookup_insert_ne; done|node_simpl..].
  2: { rewrite length_fmap, length_take. lia. }
  2: { rewrite fmap_take. by apply Forall_take. }
  2: { rewrite fmap_take. by apply Forall_take. }
  intros _ t' (c4 & -> & Hst4). rewrite Hf, Hv3 in Hst4. pose proof Hst4 as (Hc4 & Hv4 & _ & _).
  match type of Hv4 with view c4 = <[p := ?P']> (<[q := ?Q']> _) => set (P := P') in *; set (Q := Q') in * end.
  pose proof (cstep_trans _ _ _ _ _ _ _ (cstep_trans _ _ _ _ _ _ _ (cstep_trans _ _ _ _ _ _ _ Hst1 Hst2) Hst3) Hst4) as Hst.
  assert (Hrp : pg_right pg <> p) by (eapply hole_right_ne; [exact Hh|done|by apply view_zero]).
  assert (Hr4 : view c4 !! pg_right pg = view c !! pg_right pg) by (by rewrite Hv4, !lookup_insert_ne).
  go_step. eapply returns_mono; [|apply (sync_right_spec r mu w c4 lsn (pg_right pg) q o); [done|..|done]].
  2: { eapply link_ok_keep; [exact Hst| |exact Hlink]. intros _. by rewrite <- Hv4. }
  2: { eapply old_right_keep; [|exact Ho]. by rewrite Hr4, Hv2, lookup_insert_ne. }
  intros _ t' (c5 & -> & Hst5). rewrite Hv4 in Hst5. go_step. rewrite pid_u32 by lia.
  pose proof (cstep_trans _ _ _ _ _ _ _ Hst Hst5) as Hall.
  eexists c5, _. split; [done|]. split; [exact Hall|].
  eapply (leaf_split cell_ok (view c) _ root mn p lo hi st fpC lvL lvR mL mR [p] [p] m key val pg q P Q sep lsn);
    try done; [by apply view_zero|by rewrite lookup_alter_ne, lookup_insert_eq
      |by rewrite lookup_alter_ne, lookup_insert_ne, lookup_insert_eq|..].
  - subst P. unfold core, node_page, leaf_core. cbn. rewrite Hi, Hd, pid_i32 by lia. done.
  - subst P. cbn. by rewrite pid_i32.
  - subst Q. unfold core, node_page, leaf_core. cbn. rewrite pid_i32 by apply Hlink. done.
  - subst Q. cbn. by rewrite pid_i32 by lia.
  - by apply relinked_alter.
Qed.

(** [insert] in a leaf stores the binding, and splits the leaf if it is full. *)
Lemma insert_leaf_spec root r mu w c mn p lo hi stL fpC lvL lvR mL mR fp lv m key val pg f lsn rp (st : BTStack Node) :
  cinv c -> hole cell_ok (view c) root mn 0 p lo hi stL fpC lvL lvR mL mR fp lv m ->
  lo_ok lo key -> hi_ok key hi -> cell_ok key -> cell_ok val -> loggable lsn key val -> 0 < room c ->
  view c !! p = Some pg -> fr_Key f = p -> NewNodeId rp = 0 ->
  returns (insert lsn (node_of p pg) f key val rp st) (mkBTree r mu w c) (fun '(next, rp', st') t' =>
    exists c' V' n lsn' w' nfp', t' = mkBTree r mu w' c' /\ next = 0 /\ st' = st /\ cstep c c' V' n /\
      put_logged lsn key val w lsn' w' /\ Z.of_nat nfp' - n = Z.of_nat (length (fp ++ fpC)) /\ 0 <= n <= 1 /\
      pend cell_ok V' root (0 + length stL) nfp' (kv_insert key val (mL ++ m ++ mR)) rp' stL).
Proof.
  intros Hc Hh Hlo Hhi Hk Hv Hlog Hroom Hp Hf Hrp.
  pose proof Hh as (_ & (Efp & Elv & Hm & r0 & Hr0) & _ & Hs & Hl).
  rewrite Hp in Hr0. injection Hr0 as Hpk Hpv Hpc Hpi Hpd Hpr.
  pose proof Hm as (Hsort & _ & Hlen & Hmax & _ & _).
  pose proof (leaf_content_insert cell_ok mn lo hi m key val Hm Hlo Hhi Hk Hv) as (_ & _ & Hck & Hcv).
  unfold insert. node_simpl. rewrite Hpk, length_fmap. rewrite (proj2 (Nat.eqb_neq _ _)) by lia. cbn [andb].
  destruct (InsertBinarySearch_spec m.*1 key 0 Hsort) as (i & x & Hi & Hsp); [destruct m; cbn in *; [lia|done]|].
  go_step. go_step. eapply returns_lift; [exact Hi|]. rewrite Z.add_0_r.
  go_step. eapply returns_index; [apply Hsp|]. rewrite Hpi. cbn [negb].
  go_step. go_call put_lsn_spec; [|done|by eapply view_range]. intros lsn' t' (w' & -> & Hput & _).
  go_step. go_call (leaf_put_spec _ m); [|node_simpl; done|node_simpl; by rewrite Hpi, Hpv|exact Hsp].
  intros n' t' (-> & ->). fold (put_node lsn' p pg (kv_insert key val m)).
  assert (Hleft : 0 <= pg_left pg < 2 ^ 31) by (subst lv; by eapply left_range).
  assert (Hright : 0 <= pg_right pg < 2 ^ 31) by (eapply right_range; [done|exact Hs|subst fp; by left|done]).
  node_simpl. unfold put_node at 1. node_simpl. rewrite length_fmap.
  destruct (Nat.ltb_spec ORDER (length (kv_insert key val m))) as [Hov|Hov].
  - go_step. go_call leaf_overflow_spec; [|done..]. intros rp' t' (c' & V' & -> & Hst & Hpend).
    go_step. exists c', V', 1, lsn', w'. eexists. split_and!; try done; lia.
  - go_step. go_step. go_call sync_node_spec; [|done|by rewrite Hf|unfold put_node; node_simpl..].
    2: { by rewrite length_fmap. }
    2: { done. }
    2: { done. }
    intros _ t' (c' & -> & Hst). rewrite Hf in Hst.
    go_step. eexists c', _, 0, lsn', w', _. split_and!; [done|done|done|exact Hst|done|by rewrite Z.sub_0_r|lia|lia|].
    apply pend_done; [done|]. eapply leaf_store; try done.
    + unfold core, node_page, leaf_core, put_node. node_simpl. cbn. rewrite Hpi, Hpd, pid_i32 by done. done.
    + unfold put_node. cbn. by apply pid_i32.
Qed.

(** [insert] in an inner node pushes it and names the child whose range holds the key. *)
Lemma lchain_lo (R : Z -> bound -> bound -> list Z -> list Z -> kvs -> Prop) lo ks cs lo' fp lv m k :
  lchain R lo ks cs lo' fp lv m -> lo_ok lo k -> Forall (fun s => s ≤k k) ks -> lo_ok lo' k.
Proof. induction 1; intros Hlo Hks; [done|]. apply Forall_cons in Hks as [? ?]. auto. Qed.

Lemma rchain_hi (R : Z -> bound -> bound -> list Z -> list Z -> kvs -> Prop) hi' ks cs hi fp lv m k :
  rchain R hi' ks cs hi fp lv m -> hi_ok k hi -> Forall (fun s => k <k s) ks -> hi_ok k hi'.
Proof. destruct 1; intros Hhi Hks; [done|]. by apply Forall_cons in Hks as [? _]. Qed.

(** The position of the child to follow. *)
Definition child_pos (key x : bytes) (i : nat) : nat := if bytes_compare key x =? -1 then i else S i.

Lemma child_pos_spec ks key i x : splits_at ks key i x ->
  let j := child_pos key x i in (j <= length ks)%nat /\
  Forall (fun s => s ≤k key) (take j ks) /\ Forall (fun s => key <k s) (drop j ks).
Proof.
  intros (Hi & Hl & Hr). unfold child_pos. pose proof (lookup_lt_Some _ _ _ Hi) as Hlt.
  destruct (Z.eqb_spec (bytes_compare key x) (-1)) as [E|E]; cbn zeta.
  - split; [lia|]. split; [eapply Forall_impl; [exact Hl|]; auto with baobab|].
    rewrite (drop_S _ _ _ Hi). by constructor.
  - split; [lia|]. split; [|done]. rewrite (take_S_r _ _ _ Hi). apply Forall_app. split.
    + eapply Forall_impl; [exact Hl|]. auto with baobab.
    + apply Forall_singleton, key_nlt. exact E.
Qed.

(** Moving a hole down to a child. *)
Lemma hole_down c root mn h p lo hi stL fpC lvL lvR mL mR fp lv m key pg i x :
  hole cell_ok (view c) root mn (S h) p lo hi stL fpC lvL lvR mL mR fp lv m ->
  lo_ok lo key -> hi_ok key hi -> view c !! p = Some pg -> splits_at (pg_keys pg) key i x ->
  let j := child_pos key x i in
  exists ch lo' hi' fpC' lvL' lvR' mL' mR' fp' lv' m',
    pg_children pg !! j = Some ch /\ lo_ok lo' key /\ hi_ok key hi' /\
    mL' ++ m' ++ mR' = mL ++ m ++ mR /\ length (fp' ++ fpC') = length (fp ++ fpC) /\
    hole cell_ok (view c) root DEGREE h ch lo' hi' (mkPath (node_of p pg) (Z.of_nat j) :: stL)
      fpC' lvL' lvR' mL' mR' fp' lv' m'.
Proof.
  intros (Hc & (ks & cs & r0 & fpc & -> & Hk & Hpg & Hch) & Hnd & Hs & Hl) Hlo Hhi Hp Hsp j.
  pose proof Hpg as Hpg0. rewrite Hp in Hpg0. injection Hpg0 as Hpk Hpv Hpc Hpi Hpd Hpr.
  rewrite Hpk in Hsp. apply child_pos_spec in Hsp as (Hj & Htk & Hdr). fold j in Hj, Htk, Hdr.
  destruct (chain_focus _ j _ _ _ _ _ _ _ Hch Hj) as
    (ch & lo' & hi' & fpl & lvl & ml & fpc' & lvc & mc & fpr & lvr & mr & Hcs & Hlc & Hr & Hrc & -> & -> & ->).
  assert (Hperm : (p :: fpl ++ fpc' ++ fpr) ++ fpC ≡ₚ fpc' ++ (p :: fpl ++ fpr ++ fpC)) by solve_Permutation.
  exists ch, lo', hi', (p :: fpl ++ fpr ++ fpC), (lvL ++ lvl), (lvr ++ lvR), (mL ++ ml), (mr ++ mR).
  assert (Hlen : length (take j cs) = j) by (rewrite length_take; apply lookup_lt_Some in Hcs; lia).
  eexists fpc', lvc, mc. split_and!; [by rewrite Hpc|by eapply lchain_lo|by eapply rchain_hi|by rewrite <- !app_assoc|by rewrite Hperm|].
  split_and!; [|done|by rewrite <- Hperm|by eapply sib_ok_perm|by rewrite <- !app_assoc in *].
  rewrite <- Hlen. eapply ctx_in; [exact Hc| | | |exact Hlc|exact Hrc].
  - rewrite !take_drop_middle, take_drop by done. exact Hpg.
  - exists pg, (pg_left pg). by rewrite Hp.
  - by rewrite take_drop.
Qed.

(** The inner page of a hole. *)
Lemma hole_inner c root mn h p lo hi stL fpC lvL lvR mL mR fp lv m pg :
  hole cell_ok (view c) root mn (S h) p lo hi stL fpC lvL lvR mL mR fp lv m -> view c !! p = Some pg ->
  sorted (pg_keys pg) /\ (1 <= length (pg_keys pg) <= 3)%nat /\ pg_internal pg = true.
Proof.
  intros (Hc & (ks & cs & r0 & fpc & -> & [Hk _] & Hpg & Hch) & _) Hp.
  rewrite Hp in Hpg. injection Hpg as Hpk _ _ Hpi _ _. rewrite Hpk, Hpi.
  apply chain_keys_sorted in Hch as [Hsort _]. unfold ORDER, DEGREE in Hk. split_and!; [done|lia|lia|done].
Qed.

Lemma insert_inner_spec root r mu w c mn h p lo hi stL fpC lvL lvR mL mR fp lv m key val pg f lsn rp (st : BTStack Node) :
  cinv c -> hole cell_ok (view c) root mn (S h) p lo hi stL fpC lvL lvR mL mR fp lv m ->
  lo_ok lo key -> hi_ok key hi -> view c !! p = Some pg -> stack_repr st stL ->
  returns (insert lsn (node_of p pg) f key val rp st) (mkBTree r mu w c) (fun '(next, rp', st') t' =>
    t' = mkBTree r mu w c /\ rp' = rp /\
    exists n i lo' hi' fpC' lvL' lvR' mL' mR' fp' lv' m',
      stack_repr st' (mkPath n i :: stL) /\ lo_ok lo' key /\ hi_ok key hi' /\
      mL' ++ m' ++ mR' = mL ++ m ++ mR /\ length (fp' ++ fpC') = length (fp ++ fpC) /\ 0 < next /\
      hole cell_ok (view c) root DEGREE h next lo' hi' (mkPath n i :: stL) fpC' lvL' lvR' mL' mR' fp' lv' m').
Proof.
  intros Hc Hh Hlo Hhi Hp Hst. pose proof (hole_inner _ _ _ _ _ _ _ _ _ _ _ _ _ _ _ _ _ Hh Hp) as (Hsort & Hlen & Hpi).
  unfold insert. node_simpl. rewrite Hpi. rewrite (proj2 (Nat.eqb_neq (length (pg_keys pg)) 0)) by lia. cbn [andb negb].
  destruct (InsertBinarySearch_spec (pg_keys pg) key 0 Hsort) as (i & x & Hi & Hsp).
  { destruct (pg_keys pg); [cbn in *; lia|done]. }
  go_step. go_step. eapply returns_lift; [exact Hi|]. rewrite Z.add_0_r.
  go_step. eapply returns_index; [apply Hsp|].
  pose proof (hole_down _ _ _ _ _ _ _ _ _ _ _ _ _ _ _ _ key pg i x Hh Hlo Hhi Hp Hsp) as
    (ch & lo' & hi' & fpC' & lvL' & lvR' & mL' & mR' & fp' & lv' & m' & Hch & Hlo' & Hhi' & Hm' & Hfp' & Hh').
  assert (Hpos : (i < 3)%nat) by (destruct Hsp as [Hx _]; apply lookup_lt_Some in Hx; lia).
  assert (Hchr : 0 < ch < 2 ^ 31).
  { pose proof Hh' as (_ & Hr' & _). apply rep_page in Hr' as (pgc & Hpgc & _). by eapply view_range. }
  assert (Hgo : forall st' : BTStack Node, stack_repr st' (mkPath (node_of p pg) (Z.of_nat (child_pos key x i)) :: stL) ->
    returns (child ← index_at (pg_children pg) (Z.of_nat (child_pos key x i)); mret (u32 child, rp, st')) (mkBTree r mu w c)
     (fun '(next, rp', st') t' => t' = mkBTree r mu w c /\ rp' = rp /\
       exists n i lo' hi' fpC' lvL' lvR' mL' mR' fp' lv' m',
         stack_repr st' (mkPath n i :: stL) /\ lo_ok lo' key /\ hi_ok key hi' /\
         mL' ++ m' ++ mR' = mL ++ m ++ mR /\ length (fp' ++ fpC') = length (fp ++ fpC) /\ 0 < next /\
         hole cell_ok (view c) root DEGREE h next lo' hi' (mkPath n i :: stL) fpC' lvL' lvR' mL' mR' fp' lv' m')).
  { intros st' Hst'. go_step. eapply returns_index; [exact Hch|]. go_step. rewrite pid_u32 by lia.
    split_and!; [done|done|]. eexists _, _, lo', hi', fpC', lvL', lvR', mL', mR', fp', lv', m'.
    split_and!; try done. lia. }
  unfold child_pos in Hgo. destruct (bytes_compare key x =? -1); go_step; apply onL_returns;
    (go_call Add_repr; [|exact Hst]); intros b st' (_ & Hst' & _).
  - apply Hgo. by rewrite u32_small in Hst' by lia.
  - rewrite u32_small in Hst' by lia.
    replace (Z.of_nat i + 1) with (Z.of_nat (S i)) in * by lia. by apply Hgo.
Qed.

(** ** The descent *)

Lemma insert_descend_spec root rp lsn key val h : NewNodeId rp = 0 ->
  cell_ok key -> cell_ok val -> loggable lsn key val ->
  forall fuel mn p lo hi stL fpC lvL lvR mL mR fp lv m (st : BTStack Node) old w c,
  cinv c -> hole cell_ok (view c) root mn h p lo hi stL fpC lvL lvR mL mR fp lv m ->
  lo_ok lo key -> hi_ok key hi -> 0 < room c -> old_pinned c old -> stack_repr st stL -> (h < fuel)%nat ->
  returns (insert_descend fuel lsn key val p old rp st) (mkBTree root free_mutex w c) (fun '(old', rp', st') t' =>
    exists c' w' lsn' stL' nfp', t' = mkBTree root free_mutex w' c' /\ cinv c' /\ put_logged lsn key val w lsn' w' /\
      old_pinned c' old' /\ stack_repr st' stL' /\ length stL' = (length stL + h)%nat /\
      room c' + Z.of_nat nfp' = room c + Z.of_nat (length (fp ++ fpC)) /\
      room c - 1 <= room c' /\
      pend cell_ok (view c') root (h + length stL) nfp' (kv_insert key val (mL ++ m ++ mR)) rp' stL').
Proof.
  intros Hrp Hk Hv Hlog. induction h as [|h IH]; intros fuel mn p lo hi stL fpC lvL lvR mL mR fp lv m st old w c
    Hc Hh Hlo Hhi Hroom Hold Hst Hfuel; (destruct fuel as [|fuel]; [lia|]).
  all: pose proof Hh as (_ & Hrep & _); apply rep_page in Hrep as (pg & Hp & Hd & _).
  all: pose proof (view_range _ _ _ Hc Hp) as Hpr.
  all: cbn [insert_descend]; rewrite (proj2 (Z.eqb_neq p 0)) by lia.
  all: go_step; go_call buildPage_spec; [|done|done|done].
  all: intros [f n] t' (c1 & -> & Hf & -> & (Hc1 & Hv1 & Hr1 & Hm1) & Hpin1).
  all: go_step; eapply returns_mono; [|apply (release_opt_spec _ _ _ c1 old); [done|]].
  2, 4: destruct old as [fo|]; [|done]; cbn in *; specialize (Hm1 (fr_Key fo)); lia.
  all: intros _ t' (c2 & -> & Hc2 & Hv2 & Hr2 & Hpin2); rewrite Hv1 in Hv2.
  all: assert (Hpin : (0 < pinned c2 (fr_Key f))%nat).
  1, 3: rewrite Hpin2, Hf, Hpin1, decide_True by done; destruct old as [fo|]; [|lia];
    cbn in Hold; case_decide as E; [subst p; rewrite <- E in Hold; lia|lia].
  all: go_step; apply lock_returns; go_step; apply returns_gets.
  all: go_step; eapply (returns_mono _ _ (fun _ t => t = mkBTree root (mkMutex true 0) w c2));
    [|destruct (Z.eqb_spec p (Root (mkBTree root (mkMutex true 0) w c2))) as [E|E];
      [go_step; cbn in E; by subst|by go_step]].
  all: intros _ t' ->; go_step; apply unlock_returns; go_step; go_step.
  all: rewrite <- Hv2 in Hh, Hp.
  - go_call insert_leaf_spec; [|done|done|done|done|done|done|done|lia|done|done|done].
    intros [[next rp'] st'] t' (c3 & V' & n & lsn' & w' & nfp' & -> & -> & -> & (Hc3 & <- & Hr3 & Hm3) & Hput & Hn & Hn1 & Hpend).
    cbn [insert_descend]. destruct fuel; cbn [insert_descend Z.eqb]; go_step.
    all: exists c3, w', lsn', stL, nfp'; split_and!; try done; try lia.
    all: cbn; specialize (Hm3 (fr_Key f)); lia.
  - go_call insert_inner_spec; [|done|done|done|done|done|done].
    intros [[next rp'] st'] t' (-> & -> & n & i & lo' & hi' & fpC' & lvL' & lvR' & mL' & mR' & fp' & lv' & m' &
      Hst' & Hlo' & Hhi' & Hm' & Hfp' & Hnext & Hh').
    eapply returns_mono; [|eapply (IH fuel); [done|exact Hh'|done|done|lia|done|done|lia]].
    intros [[old' rp'] st2] t' (c3 & w' & lsn' & stL' & nfp' & -> & ? & ? & ? & ? & Hl & Hrm & Hrm' & Hpend).
    exists c3, w', lsn', stL', nfp'. rewrite <- Hm', <- Hfp'. cbn [length] in *.
    rewrite Nat.add_succ_r in Hpend. split_and!; try done; try lia.
Qed.

(** ** Propagation of splits *)

Lemma ignore_release root mu w c f b :
  cinv c -> returns (ignore (onC (c_ReleaseFrame f b))) (mkBTree root mu w c) (fun _ t' => exists c',
    t' = mkBTree root mu w c' /\ cinv c' /\ view c' = view c /\ room c' = room c).
Proof.
  intros Hc. destruct (release_any c f b Hc) as (a & c' & Hr & Hi & Hv & Hm).
  exists tt, (mkBTree root mu w c'). split; [|eauto].
  revert Hr. unfold ignore, catch, mbind, M_bind, onC, zoom. cbn.
  destruct (c_ReleaseFrame f b c) as [[?|?|?| |] c2]; cbn; intros [=]; by subst.
Qed.

(** An inner node with content not yet stored. *)
Definition grown_node (c : C) (p : Z) (pg : Page) (ks : list bytes) (cs : list Z) (n : Node) : Prop :=
  view c !! p = Some pg /\ pg_internal pg = true /\ pg_dead pg = false /\
  Keys n = ks /\ Children n = cs /\ Leaf n = false /\ Values n = [] /\ PageId n = p /\ RightSibling n = pg_right pg.

Lemma relinked_inner (V : pages) p q r P Q Q0 :
  relinked V (<[p := P]> (<[q := Q]> (alter (left_to q) r (<[q := Q0]> V)))) p q r.
Proof.
  intros x Hp Hq. rewrite !lookup_insert_ne by done. case_decide as Hr.
  - subst r. by rewrite lookup_alter_eq, !lookup_insert_ne.
  - by rewrite lookup_alter_ne, !lookup_insert_ne.
Qed.

Lemma grown_pages V root H nfp m p ks cs st :
  grown cell_ok V root H nfp m p ks cs st -> exists fp, p ∈ fp /\ sib_ok V fp /\
    (forall pg, V !! p = Some pg -> page_ok cell_ok pg -> forall x pg, x ∈ fp -> V !! x = Some pg -> page_ok cell_ok pg) /\
    length cs = S (length ks).
Proof.
  intros (mn & h & lo & hi & fpC & lvL & lvR & mL & mR & fpc & lv & m' & Hc & Hch & Hnd & Hs & Hl & -> & -> & ->).
  exists (p :: fpc ++ fpC). split_and!; [by left|done| |by eapply chain_len].
  intros pg Hp Hpok x pgx [->|[Hx|Hx]%elem_of_app]%elem_of_cons Hpgx.
  - congruence.
  - eapply chain_page_ok; [|exact Hch|exact Hx|exact Hpgx]. intros. by eapply rep_page_ok.
  - by eapply ctx_page_ok.
Qed.

Lemma parent_overflow_spec root H nfp m r mu w c p pg ks cs st n rp :
  cinv c -> grown cell_ok (view c) root H nfp m p ks cs st -> grown_node c p pg ks cs n -> page_ok cell_ok pg ->
  Forall cell_ok ks -> length ks = 4%nat -> 0 < room c ->
  returns (parent_overflow n rp) (mkBTree r mu w c) (fun '(n', rp') t' => exists c' V' q pg',
    t' = mkBTree r mu w c' /\ cstep c c' V' 1 /\ OpLSN rp' = OpLSN rp /\ NewNodeId rp' <> 0 /\ 0 < q < 2 ^ 31 /\
    n' = set_Right q (set_Children (take 3 cs) (set_Keys (take 2 ks) n)) /\
    V' !! p = Some pg' /\ pg_internal pg' = true /\ pg_dead pg' = false /\
    forall P, core P = inner_core (take 2 ks) (take 3 cs) q ->
      pend cell_ok (<[p := P]> V') root H (S nfp) m rp' st).
Proof.
  intros Hc Hg (Hp & Hi & Hd & HK & HC & HL & HV & HP & HR) Hpok Hok Hlen Hroom.
  pose proof (grown_pages _ _ _ _ _ _ _ _ _ Hg) as (fp & Hpf & Hs & Hpgs & Hlcs).
  assert (Hlink : link_ok c (pg_right pg)) by (eapply (sib_link_ok c fp p); eauto).
  pose proof (view_range _ _ _ Hc Hp) as Hpr.
  destruct (lookup_lt_is_Some_2 ks 2) as [k Hk]; [lia|].
  unfold parent_overflow. go_step.
  eapply returns_mono; [|apply (split_inner_spec _ _ _ k); [done|by rewrite HK, HC|by rewrite HK, Hlen]].
  intros [[n1 nq] pk] t' (-> & -> & -> & ->). rewrite HK, HC, Hlen. cbn [Nat.div Nat.divmod fst].
  go_step. eapply returns_mono; [|apply assignFrame_spec; [done|done|node_simpl..]].
  2: { rewrite length_drop. unfold ORDER, DEGREE. lia. }
  2: { by apply Forall_drop. }
  2: { done. }
  intros [fq nq] t' (c1 & -> & Hq & Hqr & -> & Hst1). node_simpl in Hst1. set (q := fr_Key fq) in *.
  node_simpl. rewrite HP, HR. pose proof Hst1 as (Hc1 & Hv1 & _ & _).
  assert (Hrq : pg_right pg <> q) by (destruct Hlink as [_ Hlk]; intros E; destruct (Hlk ltac:(lia)) as (? & ? & _); congruence).
  assert (Hpq : p <> q) by congruence.
  assert (Hlink1 : link_ok c1 (pg_right pg)).
  { eapply link_ok_keep; [exact Hst1| |done]. intros _. by rewrite lookup_insert_ne. }
  go_step. eapply returns_mono; [|apply (relink_spec r mu w c1 (OpLSN rp) (pg_right pg) q); done].
  intros _ t' (c2 & -> & Hst2). rewrite Hv1 in Hst2. pose proof Hst2 as (Hc2 & Hv2 & _ & _).
  go_step. go_step. go_call sync_node_spec; [|done|by rewrite Hv2, lookup_alter_ne, lookup_insert_eq|node_simpl..].
  2: { rewrite length_drop. unfold ORDER, DEGREE. lia. }
  2: { by apply Forall_drop. }
  2: { done. }
  intros _ t' (c3 & -> & Hst3). fold q in Hst3. rewrite Hv2 in Hst3.
  match type of Hst3 with cstep _ _ (<[q := ?Q']> _) _ => set (Q := Q') in * end.
  go_step. pose proof (cstep_trans _ _ _ _ _ _ _ (cstep_trans _ _ _ _ _ _ _ Hst1 Hst2) Hst3) as Hst.
  eexists c3, _, q, (if decide (p = pg_right pg) then left_to q pg else pg).
  split_and!; [done|exact Hst|done|cbn; rewrite pid_u32; lia|lia|lia|done| | | |].
  - rewrite lookup_insert_ne by done. case_decide as E.
    + rewrite <- E, lookup_alter_eq, lookup_insert_ne, Hp; done.
    + by rewrite lookup_alter_ne, lookup_insert_ne.
  - by case_decide.
  - by case_decide.
  - intros P HPc. rewrite pid_u32 by lia.
    eapply (grown_split cell_ok (view c) _ root H nfp m p ks cs st pg q k _ P Q); try done;
      [by apply view_zero|by rewrite lookup_insert_eq|by rewrite lookup_insert_ne, lookup_insert_eq| |apply relinked_inner].
    subst Q. unfold core, node_page, inner_core. cbn. rewrite pid_i32 by apply Hlink. done.
Qed.

Lemma add_root_spec root H nfp m w c k q lsn :
  cinv c -> pend cell_ok (view c) root H nfp m (mkSplit k q lsn) [] -> q <> 0 -> 0 < root < 2 ^ 31 -> 0 < room c ->
  returns (add_root (mkSplit k q lsn)) (mkBTree root free_mutex w c) (fun _ t' => exists c' root',
    t' = mkBTree root' free_mutex w c' /\ cinv c' /\ 0 < root' < 2 ^ 31 /\ room c' = room c - 1 /\
    tree cell_ok (view c') root' (S H) (S nfp) m).
Proof.
  intros Hc Hpend Hq Hroot Hroom.
  assert (Hkq : cell_ok k /\ 0 < q < 2 ^ 31) by (by inversion Hpend).
  destruct Hkq as [Hk Hqr]. unfold add_root. cbn [PromotedSeparatorKey NewNodeId OpLSN].
  go_step. eapply returns_lift; [apply createNode_inner|].
  go_step. apply returns_gets. cbn [Root]. node_simpl. rewrite !pid_i32 by lia. cbn [app].
  go_step. go_step. eapply returns_mono; [|apply assignFrame_spec; [done|done|node_simpl..]].
  2: { unfold ORDER, DEGREE. cbn. lia. }
  2: { by apply Forall_singleton. }
  2: { done. }
  intros [fR nR] t' (c1 & -> & HR & HRr & -> & Hst1). node_simpl in Hst1. set (R := fr_Key fR) in *.
  pose proof Hst1 as (Hc1 & Hv1 & Hr1 & _).
  go_step. go_step. go_call sync_node_spec; [|done|by rewrite Hv1, lookup_insert_eq|node_simpl..].
  2: { unfold ORDER, DEGREE. cbn. lia. }
  2: { by apply Forall_singleton. }
  2: { done. }
  intros _ t' (c2 & -> & (Hc2 & Hv2 & Hr2 & _)). fold R in Hv2. rewrite Hv1, insert_insert_eq in Hv2.
  go_step. apply lock_returns. go_step. go_step. cbn [set_Root bt_mu bt_wal bt_cache]. node_simpl.
  rewrite pid_u32 by lia. apply unlock_returns.
  exists c2, R. split_and!; try done; try lia. rewrite Hv2. by eapply root_add.
Qed.

Lemma insert_sep {T} (l r : list T) i x : i = Z.of_nat (length l) -> InsertToList (l ++ r) i x = Val (l ++ x :: r).
Proof. intros ->. apply InsertToList_app. Qed.

Lemma path_node_fields (V : pages) p n pg : path_node V p n -> V !! p = Some pg ->
  PageId n = p /\ RightSibling n = pg_right pg /\ (pg_internal pg = true -> Values n = []).
Proof.
  intros (pg' & l & Hc & ->) Hp. rewrite Hp in Hc. injection Hc as ? ? ? Hi ? Hr. node_simpl.
  split_and!; [done|done|]. rewrite <- Hi. by intros ->.
Qed.

Lemma inner_ok_insert ksL ksR k : inner_ok cell_ok (ksL ++ ksR) -> cell_ok k ->
  Forall cell_ok (ksL ++ k :: ksR) /\ (2 <= length (ksL ++ k :: ksR) <= 4)%nat.
Proof.
  intros [Hl Hk] Hc. apply Forall_app in Hk as [? ?]. split; [apply Forall_app; by split; [|constructor]|].
  rewrite length_app in *. cbn [length]. unfold ORDER, DEGREE in Hl. lia.
Qed.

Lemma propagate_spec root H m stL : 0 < root < 2 ^ 31 ->
  forall fuel rp (st : BTStack Node) nfp w c,
  cinv c -> pend cell_ok (view c) root H nfp m rp stL -> stack_repr st stL -> (length stL < fuel)%nat ->
  Z.of_nat (length stL) < room c ->
  returns (propagate fuel rp st) (mkBTree root free_mutex w c) (fun _ t' => exists c' root' H' nfp',
    t' = mkBTree root' free_mutex w c' /\ cinv c' /\ 0 < root' < 2 ^ 31 /\
    room c' + Z.of_nat nfp' = room c + Z.of_nat nfp /\ tree cell_ok (view c') root' H' nfp' m).
Proof.
  intros Hroot. induction stL as [|[n i] stL IH]; intros fuel rp st nfp w c Hc Hpend Hst Hfuel Hroom;
    (destruct fuel as [|fuel]; [cbn in Hfuel; lia|]); cbn [propagate length] in *.
  all: destruct (Z.eqb_spec (NewNodeId rp) 0) as [E|E];
    [go_step; inversion Hpend as [? ? _ Ht|]; subst; [by exists c, root, H, nfp|cbn in E; lia]|].
  all: destruct rp as [k q lsn]; cbn [NewNodeId] in E.
  all: pose proof Hst as (HCount & _ & _); rewrite HCount; cbn [length].
  - change (Z.of_nat 0 >? 0) with false. cbv iota. go_step. go_call add_root_spec; [|done|done|done|done|lia].
    intros _ t' (c' & root' & -> & Hc' & Hr' & Hroom' & Ht). go_step.
    exists c', root', (S H), (S nfp). split_and!; try done; lia.
  - rewrite Z.gtb_ltb, (proj2 (Z.ltb_lt _ _)) by lia.
    destruct (pend_grown cell_ok _ _ _ _ _ _ _ _ _ _ _ Hpend E) as
      (p & ksL & ksR & csL & csR & Hi & Hlen & HK & HC & Hne & Hin & Hk & Hpn & HL & (pg & Hp & Hpi & Hpd) & Hg).
    pose proof (view_range _ _ _ Hc Hp) as Hpr.
    destruct (path_node_fields _ _ _ _ Hpn Hp) as (HP & HR & HV). specialize (HV Hpi).
    assert (Hpok : page_ok cell_ok pg) by (by eapply pend_page_ok).
    destruct (inner_ok_insert ksL ksR k Hin Hk) as [Hok Hl4].
    go_step. apply onL_returns. go_call Pop_repr; [|exact Hst]. intros v st' (-> & Hst' & _). cbn [tp_n tp_idx].
    rewrite HP, (pid_u32 p) by lia.
    go_step. apply onC_returns. go_call get_spec; [|done|done|done].
    intros fp c1 (Hf & Hc1 & Hv1 & Hr1 & _). cbn [PromotedSeparatorKey NewNodeId].
    go_step. eapply returns_lift; [rewrite HK; apply insert_sep; lia|].
    assert (Hq : 0 < q < 2 ^ 31) by (by inversion Hpend).
    go_step. eapply (returns_lift _ (csL ++ take 1 csR ++ q :: drop 1 csR)).
    { rewrite HC, pid_i32 by lia. rewrite <- (take_drop 1 csR) at 1. rewrite !app_assoc. apply insert_sep.
      assert (Hs4 : (length csL <= 4)%nat) by (destruct Hin as [Hin _]; rewrite length_app in Hin; unfold ORDER, DEGREE in Hin; lia).
      rewrite u32_small by lia. rewrite length_app, length_take. lia. }
    set (ks := ksL ++ k :: ksR) in *. set (cs := csL ++ take 1 csR ++ q :: drop 1 csR) in *.
    node_simpl. rewrite <- Hv1 in Hg, Hp.
    change (ORDER - 1)%nat with 3%nat. destruct (Nat.ltb_spec 3 (length ks)) as [Hov|Hov].
    + go_step. eapply returns_mono;
        [|apply (parent_overflow_spec root H nfp m root free_mutex w c1 p pg ks cs stL);
          [done|exact Hg| |done|done|lia|lia]].
      2: { unfold grown_node. by node_simpl. }
      intros [n' rp'] t' (c2 & V' & q' & pg' & -> & (Hc2 & Hv2 & Hr2 & _) & Hlsn & Hne' & Hq' & -> & Hp' & Hpi' & Hpd' & Hnext).
      go_step. go_step. go_call sync_node_spec; [|done|rewrite Hf, Hv2; exact Hp'|node_simpl..].
      2: { rewrite length_take. unfold ORDER, DEGREE. lia. }
      2: { by apply Forall_take. }
      2: { by rewrite HV. }
      intros _ t' (c3 & -> & (Hc3 & Hv3 & Hr3 & _)). rewrite Hf, Hv2 in Hv3.
      go_step. go_call ignore_release; [|done]. intros _ t' (c4 & -> & Hc4 & Hv4 & Hr4).
      eapply returns_mono; [|eapply (IH fuel rp' st' (S nfp) w c4);
        [done| |done|lia|lia]].
      * intros _ t' (c' & root' & H' & nfp' & -> & ? & ? & Hrm & ?). exists c', root', H', nfp'. split_and!; try done; lia.
      * rewrite Hv4, Hv3. apply Hnext. unfold core, node_page, inner_core. cbn.
        rewrite HV, Hpi', Hpd', pid_i32 by lia. done.
    + go_step. go_step. go_step. go_step.
      go_call sync_node_spec; [|done|rewrite Hf; exact Hp|node_simpl..].
      2: { unfold ORDER, DEGREE. lia. }
      2: { done. }
      2: { by rewrite HV. }
      intros _ t' (c3 & -> & (Hc3 & Hv3 & Hr3 & _)). rewrite Hf in Hv3.
      go_step. go_call ignore_release; [|done]. intros _ t' (c4 & -> & Hc4 & Hv4 & Hr4).
      destruct fuel; cbn [propagate NewNodeId Z.eqb]; go_step.
      all: exists c4, root, H, nfp; split_and!; try done; try lia.
      all: rewrite Hv4, Hv3; eapply (grown_store cell_ok (view c1) _ _ _ _ p ks cs stL pg); try done;
        [split; [unfold ORDER, DEGREE; lia|done]|].
      all: unfold core, node_page, inner_core; cbn; rewrite HV, Hpi, Hpd, HR, pid_i32; [done|].
      all: destruct (grown_pages _ _ _ _ _ _ _ _ _ Hg) as (fp' & Hpf & Hs & _); by eapply (right_range c1 fp' p).
Qed.

(** ** The tree as a finite map *)

(** The lock is free and the pages hold the bindings [m]; [K] is the number of
    pages of the tree plus the number that can still be created. *)
Definition bt_inv (K : Z) t (m : kvs) : Prop :=
  cinv (bt_cache t) /\ bt_mu t = free_mutex /\
  ((Root t = 0 /\ m = [] /\ room (bt_cache t) = K) \/
   (0 < Root t < 2 ^ 31 /\ exists h nfp, tree cell_ok (view (bt_cache t)) (Root t) h nfp m /\
      room (bt_cache t) + Z.of_nat nfp = K)).

(** The abstract state: the finite map a tree stands for. *)
Definition holds (K : Z) t (M : gmap bytes bytes) : Prop := exists m, bt_inv K t m /\ to_map m = M.

Lemma bt_inv_sorted K t m : bt_inv K t m -> sorted m.*1.
Proof.
  intros (_ & _ & [(_ & -> & _)|(_ & h & nfp & (fp & lv & Hr & _) & _)]); [constructor|].
  by apply rep_bounded in Hr as (_ & Hs & _).
Qed.

Lemma to_map_size m : sorted m.*1 -> size (to_map m) = length m.
Proof.
  intros Hs. unfold to_map. rewrite <- (length_fmap fst m), <- (size_list_to_set (C := gset bytes) m.*1) by (by apply sorted_nodup).
  rewrite <- dom_list_to_map_L. by rewrite size_dom.
Qed.

Lemma holds_size K t M m : bt_inv K t m -> to_map m = M -> length m = size M.
Proof. intros Hi <-. symmetry. by eapply to_map_size, bt_inv_sorted. Qed.

(** One leaf makes a tree. *)
Lemma root_leaf_tree c root P m : view c !! root = Some P -> core P = leaf_core m 0 -> pg_left P = 0 ->
  leaf_ok cell_ok 1 None None m -> tree cell_ok (view c) root 0 1 m.
Proof.
  intros Hp Hc Hl Hm. exists [root], [root]. injection Hc as ? ? ? Hi ? Hr. split_and!.
  - cbn. split_and!; [done|done|done|]. exists 0. rewrite Hp. cbn. unfold core, leaf_core. cbn. congruence.
  - apply NoDup_singleton.
  - intros x pg' ->%list_elem_of_singleton Hpg'. left. congruence.
  - cbn. split; [|done]. eauto.
  - done.
Qed.

Lemma insert_root_spec K w c lsn key val :
  cinv c -> room c = K -> 0 < K -> cell_ok key -> cell_ok val -> loggable lsn key val -> (lsn = [] \/ length lsn = 12%nat) ->
  returns (insert_root lsn key val) (mkBTree 0 free_mutex w c) (fun lsn' t' =>
    bt_inv K t' [(key, val)] /\ length lsn' = 12%nat /\ put_logged lsn key val w lsn' (bt_wal t')).
Proof.
  intros Hc HK Hroom Hk Hv Hlog Hlsn. unfold insert_root.
  go_step. eapply returns_mono; [|apply assignFrame_spec; [done|lia|node_simpl..]].
  2: { unfold ORDER, DEGREE. cbn. lia. }
  2: { by apply Forall_singleton. }
  2: { by apply Forall_singleton. }
  intros [fR nR] t' (c1 & -> & HR & HRr & -> & (Hc1 & Hv1 & Hr1 & _)). node_simpl in Hv1. set (R := fr_Key fR) in *.
  go_step. apply lock_returns. go_step. go_step. go_step. apply returns_gets. cbn [set_Root Root bt_mu bt_wal bt_cache].
  go_step. go_call (put_lsn_spec lsn R key val); [|done|done].
  intros lsn' t' (w' & -> & Hput & H12). cbn [bt_cache bt_wal bt_mu] in *.
  assert (Hl12 : length lsn' = 12%nat).
  { destruct Hlsn as [->|Hl]; [auto|]. destruct lsn; [done|]. destruct Hput as [-> _]. done. }
  go_step. go_step. apply onC_returns. go_call updatelsn_spec; [|done|by rewrite Hv1, lookup_insert_eq|done].
  intros _ c2 (Hc2 & Hv2 & Hr2 & _). rewrite Hv1 in Hv2.
  go_step. go_step. apply onC_returns. node_simpl.
  go_call sync_spec; [|done|by rewrite Hv2, lookup_insert_eq|unfold ORDER, DEGREE; cbn; lia|by apply Forall_singleton|by apply Forall_singleton].
  intros _ c3 (Hc3 & Hv3 & Hr3 & _). fold R in Hv3. rewrite Hv2, insert_insert_eq in Hv3.
  go_step. apply unlock_returns. go_step. split_and!; [|done|done].
  split_and!; [done|done|]. right. cbn [Root bt_cache]. split; [done|].
  exists 0%nat, 1%nat. split; [|lia].
  eapply root_leaf_tree; [by rewrite Hv3, lookup_insert_eq|done|done|].
  unfold leaf_ok, ORDER, DEGREE, sorted. cbn. split_and!; try lia; by repeat constructor.
Qed.

Lemma Clear_any (st : BTStack Node) : returns Clear st (fun _ _ => True).
Proof. unfold returns, Clear. destruct (Count st <=? 0); eauto. Qed.

Lemma insert_one_spec K fuel lsn key val t m :
  bt_inv K t m -> cell_ok key -> cell_ok val -> loggable lsn key val -> (lsn = [] \/ length lsn = 12%nat) ->
  (length m < fuel)%nat -> 2 * Z.of_nat (length m) + 1 <= K ->
  returns (insert_one fuel lsn key val) t (fun lsn' t' =>
    bt_inv K t' (kv_insert key val m) /\ (lsn' = [] \/ length lsn' = 12%nat) /\ (lsn <> [] -> lsn' = lsn) /\
    exists l, put_logged lsn key val (bt_wal t) l (bt_wal t')).
Proof.
  intros (Hc & Hmu & Ht) Hk Hv Hlog Hlsn Hfuel HK. destruct t as [root mu w c]. cbn [bt_cache bt_mu Root bt_wal] in *. subst mu.
  unfold insert_one. go_step. apply returns_gets. cbn [Root].
  destruct Ht as [(-> & -> & HKr)|(Hroot & h & nfp & Htree & HKr)].
  - cbn [Z.eqb]. go_call insert_root_spec; [|done|done|cbn in HK; lia|done|done|done|done].
    intros lsn' t' (Hi & H12 & Hput). split_and!; [done|by right| |by exists lsn'].
    intros Hne. destruct lsn; [done|]. by destruct Hput as [-> _].
  - rewrite (proj2 (Z.eqb_neq _ _)) by lia.
    go_step. apply rlock_returns. go_step. apply returns_gets. go_step. cbn [Root]. apply runlock_returns.
    destruct (tree_hole _ _ _ _ _ _ Htree) as (fp & lv & Hh & Hfp).
    destruct Htree as (fp0 & lv0 & Hrep0 & _ & _ & _ & Hfp0). apply rep_sizes in Hrep0 as [Hsz Hszf].
    go_step. go_call insert_descend_spec; [|done|done|done|done|done|exact Hh|done|done|lia|done|apply NewBTStack_repr|lia].
    intros [[old rp] st] t' (c1 & w1 & lsn1 & stL & nfp1 & -> & Hc1 & Hput & Hold & Hst & Hlen & Hrm & Hrm1 & Hpend).
    rewrite app_nil_r, Hfp in Hrm. cbn [app] in Hpend. rewrite app_nil_r, Nat.add_0_r in Hpend.
    go_step. go_call release_opt_spec; [|done|done]. intros _ t' (c2 & -> & Hc2 & Hv2 & Hr2 & _).
    rewrite <- Hv2 in Hpend. cbn [length] in Hlen.
    go_step. go_call propagate_spec; [|done|done|exact Hpend|done|lia|lia].
    intros st' t' (c3 & root' & H' & nfp' & -> & Hc3 & Hroot' & Hrm' & Htree').
    go_step. eapply (returns_mono _ _ (fun _ t => t = mkBTree root' free_mutex w1 c3)).
    2: { destruct (Count st' >? 0); [|by go_step]. go_step. apply onL_returns.
         go_call Clear_any. intros b s' _. by go_step. }
    intros _ t' ->. go_step. split_and!; [|done|done|by exists lsn1].
    split_and!; [done|done|]. right. split; [done|]. exists H', nfp'. cbn [bt_cache Root]. split; [done|lia].
Qed.

(** ** [InsertValue] *)

(** The specification of a put of several bindings, in order. *)
Fixpoint put_all (keys vals : list bytes) (M : gmap bytes bytes) : gmap bytes bytes :=
  match keys, vals with
  | k :: keys', v :: vals' => put_all keys' vals' (<[k := v]> M)
  | _, _ => M
  end.

(** Keys and values of a page's size; without an LSN they go to the log, which
    refuses empty ones. *)
Definition puttable (lsn : bytes) (b : bytes) : Prop := cell_ok b /\ (lsn = [] -> b <> []).

Lemma puttable_loggable lsn k v : puttable lsn k -> puttable lsn v -> loggable lsn k v.
Proof. intros [_ Hk] [_ Hv] E. auto. Qed.

Lemma InsertValue_holds K fuel keys : forall vals lsn t M,
  holds K t M -> length keys = length vals -> Forall (puttable lsn) keys -> Forall (puttable lsn) vals ->
  (lsn = [] \/ length lsn = 12%nat) -> (size M + length keys <= fuel)%nat ->
  2 * Z.of_nat (size M + length keys) <= K + 1 ->
  returns (InsertValue fuel keys vals lsn) t (fun b t' => b = true /\ holds K t' (put_all keys vals M)).
Proof.
  induction keys as [|k keys IH]; intros [|v vals] lsn t M (m & Hi & Hm) Hlen Hk Hv Hlsn Hfuel HK;
    cbn [InsertValue put_all length] in *; try lia.
  - go_step. split; [done|]. by exists m.
  - apply Forall_cons in Hk as [Hk Hks]. apply Forall_cons in Hv as [Hv Hvs].
    pose proof (holds_size K t M m Hi Hm) as Hsz.
    go_step. eapply returns_mono; [|apply (insert_one_spec K fuel lsn k v t m); [done|apply Hk|apply Hv|by apply puttable_loggable|done|lia|lia]].
    intros lsn' t' (Hi' & Hl' & Hkeep & _).
    assert (Hput : forall b, puttable lsn b -> puttable lsn' b).
    { intros b [Hb1 Hb2]. split; [done|]. intros ->. destruct lsn; [by apply Hb2|by specialize (Hkeep ltac:(done))]. }
    assert (Hsize : (size (<[k := v]> M) <= S (size M))%nat) by (rewrite map_size_insert; case_match; unfold id; lia).
    apply IH; [|lia|by eapply Forall_impl|by eapply Forall_impl|done|lia|lia].
    exists (kv_insert k v m). split; [done|]. subst M. apply to_map_kv_insert. by eapply bt_inv_sorted.
Qed.

End Insert.
