(* ===== verification/BTreeRead.v ===== *)
(** * Reading the tree: [Get] and [RangeSearch]

    Both follow the separators to a leaf and leave the pages as they are; [Get]
    gives back every pin it takes, and a range query walks the chain of leaves. *)

From S2P Require Import Prelude Keys Helpers BTStack Wal BTree CacheSpec BTreeInv BTreeNode BTreeShape BTreeInsert.
Local Open Scope Z_scope.
Local Open Scope key_scope.

Definition not_found : error := mkError BTreeError "Key not found".
Definition not_initialized : error := mkError BTreeError "Key Value store not initialized".

(** ** Bindings seen through a hole *)

Lemma side_lookup (mL m mR : kvs) k v :
  Forall (fun p => p.1 <k k) mL -> Forall (fun p => k <k p.1) mR -> (k, v) ∈ mL ++ m ++ mR <-> (k, v) ∈ m.
Proof.
  intros HL HR. rewrite Forall_forall in HL, HR. rewrite !elem_of_app. split; [|auto].
  intros [H|[H|H]]; [apply HL in H|done|apply HR in H]; by apply key_lt_irrefl in H.
Qed.

Lemma sorted_found (m : kvs) k i x : splits_at m.*1 k i x -> forall v, (k, v) ∈ m <-> m !! i = Some (k, v).
Proof.
  intros Hs v. apply splits_pairs in Hs as (v' & l & r & -> & <- & Hl & Hr).
  rewrite lookup_app_r, Nat.sub_diag by done. cbn. rewrite elem_of_app, elem_of_cons, !Forall_forall in *.
  split; [|intros [= -> ->]; auto].
  intros [H|[[= -> ->]|H]]; [apply Hl in H|done|apply Hr in H]; by apply key_lt_irrefl in H.
Qed.

Section Read.
Context {C F : Type} `{!CacheOps C F} `{!PageCache C F}.
Implicit Types (c : C) (t : BTree C) (f : F).

Lemma hole_lookup c root mn h p lo hi st fpC lvL lvR mL mR fp lv m k v :
  hole cell_ok (view c) root mn h p lo hi st fpC lvL lvR mL mR fp lv m -> lo_ok lo k -> hi_ok k hi ->
  (k, v) ∈ mL ++ m ++ mR <-> (k, v) ∈ m.
Proof.
  intros (Hc & _) Hlo Hhi. destruct (ctx_sides _ _ _ _ _ _ _ _ _ _ _ _ _ _ k Hc Hlo Hhi). by apply side_lookup.
Qed.

(** The leaf page of a hole. *)
Lemma hole_leaf c root mn p lo hi st fpC lvL lvR mL mR fp lv m pg :
  hole cell_ok (view c) root mn 0 p lo hi st fpC lvL lvR mL mR fp lv m -> view c !! p = Some pg ->
  sorted m.*1 /\ m <> [] /\ pg_internal pg = false /\ pg_keys pg = m.*1 /\ pg_vals pg = m.*2.
Proof.
  intros (_ & (_ & _ & (Hs & _ & Hl & _) & r & Hr) & _) Hp. rewrite Hp in Hr. injection Hr as ? ? ? ? ? ?.
  split_and!; try done. by destruct m; cbn in Hl; [lia|].
Qed.

(** ** [search] *)

Lemma search_leaf p pg m key t :
  sorted m.*1 -> m <> [] -> pg_internal pg = false -> pg_keys pg = m.*1 -> pg_vals pg = m.*2 ->
  (exists v, (key, v) ∈ m /\ search (node_of p pg) key t = (Val (v, 0), t)) \/
  ((forall v, (key, v) ∉ m) /\ search (node_of p pg) key t = (Err not_found, t)).
Proof.
  intros Hs Hne Hi Hk Hv.
  destruct (InsertBinarySearch_spec m.*1 key 0 Hs) as (i & x & Hib & Hsp); [by destruct m|].
  rewrite Z.add_0_r in Hib.
  pose proof (sorted_found m key i x Hsp) as Hfound. destruct Hsp as [Hx _].
  pose proof Hx as Hx2. rewrite list_lookup_fmap in Hx2. destruct (m !! i) as [[x' v0]|] eqn:Hv0; [|done].
  injection Hx2 as ->.
  unfold search. node_simpl. rewrite Hi, Hk, Hv. cbn [negb].
  rewrite !length_fmap, (proj2 (Nat.eqb_neq (length m) 0)) by (destruct m; [done|cbn; lia]). cbn [orb andb].
  unfold mbind, M_bind, lift_outcome, index_at. rewrite Hib, (proj2 (Z.ltb_ge (Z.of_nat i) 0)), Nat2Z.id, Hx by lia. cbn.
  destruct (Z.eqb_spec (bytes_compare key x) 0) as [E|E].
  - apply bytes_compare_eq in E as ->. left. exists v0. split; [by apply Hfound|].
    by rewrite list_lookup_fmap, Hv0.
  - right. split; [|done]. intros v Hin. apply Hfound in Hin. injection Hin as -> ->.
    by rewrite (proj2 (bytes_compare_eq key key) eq_refl) in E.
Qed.

Lemma search_inner p pg key i x ch t :
  sorted (pg_keys pg) -> pg_internal pg = true -> splits_at (pg_keys pg) key i x ->
  InsertBinarySearch (pg_keys pg) key 0 = Val (Z.of_nat i) -> pg_children pg !! child_pos key x i = Some ch ->
  returns (search (node_of p pg) key) t (fun '(_, next) t' => next = ch /\ t' = t).
Proof.
  intros Hs Hi Hsp Hib Hch. unfold search. node_simpl. rewrite Hi. cbn [negb].
  assert (Hk : length (pg_keys pg) <> 0%nat) by (destruct Hsp as [Hx _]; apply lookup_lt_Some in Hx; lia).
  assert (Hc : length (pg_children pg) <> 0%nat) by (apply lookup_lt_Some in Hch; lia).
  rewrite (proj2 (Nat.eqb_neq _ _) Hk), (proj2 (Nat.eqb_neq _ _) Hc). cbn [orb andb length Nat.eqb].
  go_step. eapply returns_lift; [exact Hib|]. go_step. eapply returns_index; [apply Hsp|].
  unfold child_pos in Hch. destruct (bytes_compare key x =? -1); go_step.
  - eapply returns_index; [exact Hch|]. by go_step.
  - replace (Z.of_nat i + 1) with (Z.of_nat (S i)) by lia. eapply returns_index; [exact Hch|]. by go_step.
Qed.

(** ** The descent of [Get] *)

(** The pin a variable [oldFrame] stands for. *)
Definition held (old : option F) (q : Z) : nat :=
  match old with Some f => if decide (q = fr_Key f) then 1 else 0 | None => 0 end.

Lemma release_held r mu w c old :
  cinv c -> old_pinned c old ->
  returns (or_panic (release_opt old)) (mkBTree r mu w c) (fun _ t' => exists c',
    t' = mkBTree r mu w c' /\ cinv c' /\ view c' = view c /\ room c' = room c /\
    forall q, (pinned c' q + held old q = pinned c q)%nat).
Proof.
  intros Hc Ho. go_call release_opt_spec; [|done|done]. intros _ t' (c' & -> & ? & ? & ? & Hp).
  exists c'. split_and!; try done. intros q. rewrite Hp. unfold held. destruct old as [f|]; [|lia].
  cbn in Ho. case_decide as E; [rewrite E|]; lia.
Qed.

Lemma ignore_release_opt root mu w c old :
  cinv c -> returns (ignore (release_opt old)) (mkBTree root mu w c) (fun _ t' => exists c',
    t' = mkBTree root mu w c' /\ cinv c' /\ view c' = view c /\ room c' = room c).
Proof.
  intros Hc. destruct old as [f|]; cbn [release_opt]; [by apply ignore_release|].
  go_step. go_step. by exists c.
Qed.

(** Loading the page of a hole and giving back the one held before. *)
Lemma get_page_spec {A} r mu w c p pg old (k : F -> Node -> M (BTree C) A) (Q : outcome A * BTree C -> Prop) :
  cinv c -> view c !! p = Some pg -> pg_dead pg = false -> old_pinned c old ->
  (forall f c', fr_Key f = p -> cinv c' -> view c' = view c -> room c' = room c -> old_pinned c' (Some f) ->
     (forall q, pinned c' q + held old q = pinned c q + held (Some f) q)%nat -> Q (k f (node_of p pg) (mkBTree r mu w c'))) ->
  Q ((fr ← onC (c_Get p); pge ← loadNode fr; or_panic (release_opt old);; k fr pge) (mkBTree r mu w c)).
Proof.
  intros Hc Hp Hd Ho HQ.
  destruct (get_spec c p pg Hc Hp Hd) as (f & c1 & Hg & Hf & Hc1 & Hv1 & Hr1 & Hpin1).
  destruct (loadNode_spec r mu w c1 f pg Hc1) as (n & t1 & Hl & -> & ->); [by rewrite Hv1, Hf|].
  destruct (release_held r mu w c1 old Hc1) as (u & t2 & Hrel & c2 & -> & Hc2 & Hv2 & Hr2 & Hpin2).
  { destruct old as [fo|]; [|done]. cbn in *. rewrite Hpin1. lia. }
  assert (Hall : forall q, (pinned c2 q + held old q = pinned c q + held (Some f) q)%nat).
  { intros q. rewrite Hpin2, Hpin1. unfold held. rewrite Hf. done. }
  erewrite bind_Val by (unfold onC, zoom; cbn [bt_cache]; by rewrite Hg).
  cbn [set_cache Root bt_mu bt_wal]. erewrite bind_Val by exact Hl. erewrite bind_Val by exact Hrel.
  rewrite Hf. apply HQ; [done|done|congruence|congruence| |done].
  cbn. rewrite Hf. specialize (Hall p). unfold held in Hall at 2. rewrite Hf, decide_True in Hall by done.
  destruct old as [fo|]; cbn in *; [case_decide as E; [rewrite <- E in Ho; lia|lia]|lia].
Qed.

(** What [get_loop] gives in a subtree with the bindings [m]: the value with all
    pins but the held one given back, or the not-found error. *)
Definition get_result (root : Z) (w : WAL) c (old : option F) (key : bytes) (m : kvs)
    (r : outcome (option F * bytes) * BTree C) : Prop :=
  exists c', r.2 = mkBTree root free_mutex w c' /\ cinv c' /\ view c' = view c /\ room c' = room c /\
  match r.1 with
  | Val (old', v) => (key, v) ∈ m /\ old_pinned c' old' /\
      forall q, (pinned c' q + held old q = pinned c q + held old' q)%nat
  | Err e => e = not_found /\ forall v, (key, v) ∉ m
  | _ => False
  end.

Lemma get_result_step root w c c1 old f key m m' r :
  (forall v, (key, v) ∈ m <-> (key, v) ∈ m') -> view c1 = view c -> room c1 = room c ->
  (forall q, pinned c1 q + held old q = pinned c q + held (Some f) q)%nat ->
  get_result root w c1 (Some f) key m' r -> get_result root w c old key m r.
Proof.
  intros Hin Hv Hr Hp (c2 & Ht & Hc2 & Hv2 & Hr2 & Hres). exists c2. split_and!; try done; try congruence.
  destruct r as [[[old' v]|e|?| |] ?]; cbn in *; try done.
  - destruct Hres as (Hm & Ho & Hq). split_and!; [by apply Hin|done|].
    intros q. specialize (Hp q). specialize (Hq q). lia.
  - destruct Hres as (-> & Hno). split; [done|]. intros v Hv'. by apply (Hno v), Hin.
Qed.

Lemma get_loop_spec root key h :
  forall fuel mn p lo hi stL fpC lvL lvR mL mR fp lv m old w c val0,
  cinv c -> hole cell_ok (view c) root mn h p lo hi stL fpC lvL lvR mL mR fp lv m ->
  lo_ok lo key -> hi_ok key hi -> old_pinned c old -> (h < fuel)%nat ->
  get_result root w c old key m (get_loop fuel key p old val0 (mkBTree root free_mutex w c)).
Proof.
  induction h as [|h IH]; intros fuel mn p lo hi stL fpC lvL lvR mL mR fp lv m old w c val0 Hc Hh Hlo Hhi Hold Hfuel;
    (destruct fuel as [|fuel]; [lia|]).
  all: pose proof Hh as (_ & Hrep & _); apply rep_page in Hrep as (pg & Hp & Hd & _).
  all: pose proof (view_range _ _ _ Hc Hp) as Hpr.
  all: cbn [get_loop]; rewrite Z.gtb_ltb, (proj2 (Z.ltb_lt 0 p)) by lia; cbn [negb]; rewrite pid_u32 by lia.
  all: apply (get_page_spec root free_mutex w c p pg old); [done|done|done|done|].
  all: intros f c' Hf Hc' Hv' Hr' Ho' Hpin.
  - destruct (hole_leaf _ _ _ _ _ _ _ _ _ _ _ _ _ _ _ _ Hh Hp) as (Hs & Hne & Hi & Hk & Hv).
    destruct (search_leaf p pg m key (mkBTree root free_mutex w c') Hs Hne Hi Hk Hv) as [(v & Hin & Hsr)|(Hno & Hsr)].
    + unfold mbind, M_bind, catch. rewrite Hsr. exists c'.
      destruct fuel; cbn; split_and!; try done; congruence.
    + destruct (ignore_release root free_mutex w c' f false Hc') as (u1 & t1 & H1 & c1 & -> & Hc1 & Hv1 & Hr1).
      destruct (ignore_release_opt root free_mutex w c1 old Hc1) as (u2 & t2 & H2 & c2 & -> & Hc2 & Hv2 & Hr2).
      unfold mbind, M_bind, catch. rewrite Hsr, H1, H2. exists c2. split_and!; try done; congruence.
  - destruct (hole_inner _ _ _ _ _ _ _ _ _ _ _ _ _ _ _ _ _ Hh Hp) as (Hsort & Hlen & Hi).
    destruct (InsertBinarySearch_spec (pg_keys pg) key 0 Hsort) as (i & x & Hib & Hsp).
    { destruct (pg_keys pg); [cbn in *; lia|done]. }
    rewrite Z.add_0_r in Hib.
    destruct (hole_down _ _ _ _ _ _ _ _ _ _ _ _ _ _ _ _ key pg i x Hh Hlo Hhi Hp Hsp) as
      (ch & lo' & hi' & fpC' & lvL' & lvR' & mL' & mR' & fp' & lv' & m' & Hch & Hlo' & Hhi' & Hm' & Hfp' & Hh').
    destruct (search_inner p pg key i x ch (mkBTree root free_mutex w c') Hsort Hi Hsp Hib Hch) as ([v' next] & t' & H1 & -> & ->).
    unfold mbind, M_bind, catch. rewrite H1.
    eapply (get_result_step root w c c' old f key m m'); [|done|done|done|rewrite <- Hv' in Hh'; eapply IH; (done || lia)].
    intros v. rewrite <- (hole_lookup _ _ _ _ _ _ _ _ _ _ _ _ _ _ _ _ key v Hh), <- Hm' by done. by eapply hole_lookup.
Qed.

(** ** [Get] *)

Lemma bt_inv_pages K t m c' : bt_inv K t m -> cinv c' -> view c' = view (bt_cache t) -> room c' = room (bt_cache t) ->
  bt_inv K (mkBTree (Root t) free_mutex (bt_wal t) c') m.
Proof. intros (_ & _ & H) Hc Hv Hr. split_and!; [done|done|]. cbn. by rewrite Hv, Hr. Qed.

Lemma Get_spec K t m fuel key : bt_inv K t m -> (length m <= fuel)%nat ->
  match to_map m !! key with
  | Some v => returns (Get fuel key) t (fun v' t' => v' = v /\ bt_inv K t' m /\ bt_wal t' = bt_wal t /\
      view (bt_cache t') = view (bt_cache t) /\ forall q, pinned (bt_cache t') q = pinned (bt_cache t) q)
  | None => fails (Get fuel key) t (if decide (m = []) then not_initialized else not_found)
      (fun t' => bt_inv K t' m /\ bt_wal t' = bt_wal t)
  end.
Proof.
  intros Hinv Hfuel. pose proof (bt_inv_sorted _ _ _ Hinv) as Hs.
  pose proof Hinv as (Hc & Hmu & Ht). destruct t as [root mu w c]. cbn [bt_cache bt_mu Root bt_wal] in *. subst mu.
  destruct Ht as [(-> & -> & _)|(Hroot & h & nfp & Htree & _)].
  { cbn. rewrite lookup_empty. eexists. split; [reflexivity|]. split; [|done]. by apply (bt_inv_pages K _ [] c Hinv). }
  destruct (tree_hole _ _ _ _ _ _ Htree) as (fp & lv & Hh & _).
  destruct Htree as (fp0 & lv0 & Hrep0 & _). pose proof (rep_bounded _ _ _ _ _ _ _ _ _ _ Hrep0) as (Hne & _).
  apply rep_sizes in Hrep0 as [Hsz _]. rewrite decide_False by done.
  pose proof (get_loop_spec root key h fuel _ _ _ _ _ _ _ _ _ _ _ _ _ None w c [] Hc Hh I I I ltac:(lia)) as (c1 & Ht1 & Hc1 & Hv1 & Hr1 & Hres).
  assert (Hget : Get fuel key (mkBTree root free_mutex w c) =
    ('(oldFrame, val) ← get_loop fuel key root None []; or_panic (release_opt oldFrame);; mret val) (mkBTree root free_mutex w c)).
  { unfold Get, mu_RLock, mu_RUnlock, gets, mbind, M_bind. cbn. rewrite (proj2 (Z.eqb_neq _ _)), pid_i32 by lia. done. }
  destruct (get_loop fuel key root None [] (mkBTree root free_mutex w c)) as [[[old v]|e|?| |] t1] eqn:E; cbn in Ht1, Hres; try done.
  - destruct Hres as (Hin & Ho & Hp). rewrite (proj2 (to_map_lookup_Some key v m Hs) Hin).
    subst t1. destruct (release_held root free_mutex w c1 old Hc1 Ho) as (u & t2 & H2 & c2 & -> & Hc2 & Hv2 & Hr2 & Hp2).
    exists v, (mkBTree root free_mutex w c2).
    split; [rewrite Hget; erewrite bind_Val by exact E; cbv beta iota; by erewrite bind_Val by exact H2|].
    split_and!; [done| |done|cbn; congruence|].
    + apply (bt_inv_pages K _ m c2 Hinv); [done|cbn; congruence|cbn; congruence].
    + intros q. cbn. specialize (Hp q). specialize (Hp2 q). cbn [held] in Hp. lia.
  - destruct Hres as (-> & Hno). rewrite (proj2 (to_map_lookup_None key m)).
    + subst t1. exists (mkBTree root free_mutex w c1). split; [rewrite Hget; unfold mbind, M_bind; by rewrite E|].
      split; [|done]. apply (bt_inv_pages K _ m c1 Hinv); [done|cbn; congruence|cbn; congruence].
    + intros ((k & v) & -> & Hin)%list_elem_of_fmap. by apply (Hno v).
Qed.

End Read.
