(* ===== verification/BTreeRange.v ===== *)
(** * Range queries walk the bindings in order

    [RangeSearch] finds the leaf of the first key and follows the right links.
    [scan_len] is the flat loop it amounts to on the sorted bindings; the leaf
    structure of the tree does not show in the result except in the first leaf,
    whose bindings are all returned. *)

From S2P Require Import Prelude Keys Helpers BTStack Wal BTree CacheSpec BTreeInv BTreeNode BTreeShape BTreeInsert BTreeRead.
Local Open Scope Z_scope.
Local Open Scope key_scope.

Definition to_items (m : kvs) : list RangeItem := (fun p => mkItem p.1 p.2) <$> m.

(** The loop stops in front of a key below [maxKey]. *)
Definition stop_at (maxKey k : bytes) : bool := negb (length maxKey =? 0)%nat && (bytes_compare maxKey k =? 1).

(** How many of the bindings [m] the loop takes when it has [len] items. *)
Fixpoint scan_len (maxKey : bytes) (count len : Z) (m : kvs) : nat :=
  match m with
  | [] => 0
  | (k, _) :: m' =>
      if stop_at maxKey k then 0
      else if len + 1 >=? count then 1
      else S (scan_len maxKey count (len + 1) m')
  end.

(** ** The leaves of a tree and their bindings *)

Inductive leaf_data (V : pages) : list Z -> kvs -> Prop :=
| ld_nil : leaf_data V [] []
| ld_cons x lv m r m' : core <$> V !! x = Some (leaf_core m r) -> leaf_data V lv m' -> leaf_data V (x :: lv) (m ++ m').

Lemma leaf_data_app V l1 m1 l2 m2 : leaf_data V l1 m1 -> leaf_data V l2 m2 -> leaf_data V (l1 ++ l2) (m1 ++ m2).
Proof. induction 1; intros; cbn; [done|]. rewrite <- app_assoc. by econstructor; [|auto]. Qed.

Lemma chain_leaf_data R V lo ks cs hi fp lv m :
  (forall c lo hi fp lv m, R c lo hi fp lv m -> leaf_data V lv m) -> chain R lo ks cs hi fp lv m -> leaf_data V lv m.
Proof. intros HR. induction 1; [eauto|]. apply leaf_data_app; eauto. Qed.

Section LeafData.
Context (ok : bytes -> Prop).

Lemma rep_leaf_data V mn h p lo hi fp lv m : rep ok V mn h p lo hi fp lv m -> leaf_data V lv m.
Proof.
  revert mn p lo hi fp lv m. induction h as [|h IH]; cbn; intros mn p lo hi fp lv m.
  - intros (-> & -> & _ & r & Hr). rewrite <- (app_nil_r m). econstructor; [done|constructor].
  - intros (ks & cs & r & fpc & _ & _ & _ & Hc). eapply chain_leaf_data; [|exact Hc]. eauto.
Qed.

Lemma ctx_leaf_data V root mn h c lo hi st fp lvL lvR mL mR :
  ctx ok V root mn h c lo hi st fp lvL lvR mL mR -> leaf_data V lvR mR.
Proof.
  induction 1 as [h|mn h p lo hi st fp lvL lvR mL mR n ksL ksR csL csR c lo' hi' r fpl lvl ml fpr lvr mr
    Hc IH Hp Hn Hk Hl Hr]; [constructor|].
  apply leaf_data_app; [|done]. clear -Hr. induction Hr; [constructor|].
  apply leaf_data_app; [by eapply rep_leaf_data|done].
Qed.

End LeafData.

(** ** The scan *)

Lemma scan_len_bound maxKey count len m : (scan_len maxKey count len m <= length m)%nat.
Proof.
  revert len. induction m as [|[k v] m IH]; intros len; cbn; [lia|].
  destruct (stop_at maxKey k); [lia|]. destruct (len + 1 >=? count); [lia|]. specialize (IH (len + 1)). lia.
Qed.

(** Without a maximum the scan fills up to [count], and takes at least one. *)
Lemma scan_len_nomax count len m :
  scan_len [] count len m = Nat.min (length m) (Nat.max 1 (Z.to_nat (count - len))).
Proof.
  revert len. induction m as [|[k v] m IH]; intros len; cbn [scan_len length]; [done|].
  unfold stop_at. cbn [length Nat.eqb negb andb]. destruct (Z.geb_spec (len + 1) count); [lia|].
  rewrite IH. lia.
Qed.

(** Below the maximum the scan takes nothing. *)
Lemma scan_len_below maxKey count len m : Forall (fun p => p.1 <k maxKey) m -> scan_len maxKey count len m = 0%nat.
Proof.
  destruct m as [|[k v] m]; [done|]. intros [Hk _]%Forall_cons. cbn in *. unfold stop_at.
  rewrite (proj2 (compare_gt maxKey k) Hk). destruct maxKey as [|b maxKey]; [|done].
  destruct k; unfold key_lt in Hk; cbn in Hk; lia.
Qed.

Lemma key_lt_nil k : ~ k <k [].
Proof. destruct k; unfold key_lt; cbn; lia. Qed.

(** The scan stops at a key below the maximum; nothing is below an empty one. *)
Lemma stop_at_true maxKey k : stop_at maxKey k = true <-> k <k maxKey.
Proof.
  unfold stop_at. rewrite andb_true_iff, negb_true_iff, Nat.eqb_neq, Z.eqb_eq, compare_gt. split; [by intros []|].
  intros H. split; [|done]. destruct maxKey; [by apply key_lt_nil in H|done].
Qed.

Lemma stop_at_false maxKey k : stop_at maxKey k = false <-> ~ k <k maxKey.
Proof. rewrite <- stop_at_true. by destruct (stop_at maxKey k). Qed.

(** The scan takes one binding more than what fills up [count], at most; it takes
    no key below the maximum; and it stops before one, or when [count] is reached. *)
Lemma scan_len_most maxKey count len m : Z.of_nat (scan_len maxKey count len m) <= Z.max 1 (count - len).
Proof.
  revert len. induction m as [|[k v] m IH]; intros len; cbn [scan_len]; [lia|].
  destruct (stop_at maxKey k); [lia|]. destruct (Z.geb_spec (len + 1) count); [lia|]. specialize (IH (len + 1)). lia.
Qed.

Lemma scan_len_taken maxKey count len m : Forall (fun p => ~ p.1 <k maxKey) (take (scan_len maxKey count len m) m).
Proof.
  revert len. induction m as [|[k v] m IH]; intros len; cbn [scan_len]; [done|].
  destruct (stop_at maxKey k) eqn:E; [done|]. apply stop_at_false in E. destruct (_ >=? _); cbn [take]; by constructor.
Qed.

Lemma scan_len_stop maxKey count len m p : m !! scan_len maxKey count len m = Some p ->
  p.1 <k maxKey \/ count <= len + Z.of_nat (scan_len maxKey count len m).
Proof.
  revert len. induction m as [|[k v] m IH]; intros len; cbn [scan_len]; [done|].
  destruct (stop_at maxKey k) eqn:E; [intros [= <-]; left; by apply stop_at_true|].
  destruct (Z.geb_spec (len + 1) count); [intros _; right; lia|]. intros [?|?]%IH; [by left|right; lia].
Qed.

Section Range.
Context {C F : Type} `{!CacheOps C F} `{!PageCache C F}.
Implicit Types (c : C) (t : BTree C) (f : F).

(** One leaf: the scan goes on in the following bindings [m2] unless it stopped. *)
Lemma range_scan_spec maxKey count m1 items t :
  returns (range_scan maxKey count m1.*1 m1.*2 items) t (fun '(items', stop) t' => t' = t /\ forall m2,
    let len := Z.of_nat (length items) in
    if stop : bool then items' = items ++ to_items (take (scan_len maxKey count len (m1 ++ m2)) (m1 ++ m2))
    else items' = items ++ to_items m1 /\
      scan_len maxKey count len (m1 ++ m2) = (length m1 + scan_len maxKey count (Z.of_nat (length items')) m2)%nat).
Proof.
  revert items. induction m1 as [|[k v] m1 IH]; intros items; cbn [range_scan fmap list_fmap fst snd].
  { go_step. split; [done|]. intros m2. cbn. by rewrite app_nil_r. }
  change (negb (length maxKey =? 0)%nat && (bytes_compare maxKey k =? 1)) with (stop_at maxKey k).
  destruct (stop_at maxKey k) eqn:E.
  { go_step. split; [done|]. intros m2. cbn. rewrite E. cbn. by rewrite app_nil_r. }
  rewrite length_app. cbn [length].
  destruct (Z.of_nat (length items + 1) >=? count) eqn:E2.
  { go_step. split; [done|]. intros m2. cbn. rewrite E.
    replace (Z.of_nat (length items) + 1) with (Z.of_nat (length items + 1)) by lia. by rewrite E2. }
  go_call IH. intros [items' stop] t' (-> & H). split; [done|]. intros m2. specialize (H m2).
  cbn [scan_len app take length]. rewrite E.
  replace (Z.of_nat (length items) + 1) with (Z.of_nat (length items + 1)) by lia. rewrite E2.
  rewrite length_app in H. cbn [length] in H.
  destruct stop; [by rewrite H, <- app_assoc|]. destruct H as [-> H]. rewrite <- app_assoc. split; [done|].
  rewrite H, <- app_assoc. cbn. lia.
Qed.

(** The walk along the leaves. *)
Lemma range_loop_spec maxKey count root w lv : forall fuel prev m items c,
  cinv c -> linked (view c) prev lv 0 -> leaf_data (view c) lv m -> (length lv <= fuel)%nat ->
  returns (range_loop fuel maxKey count (hd 0 lv) items) (mkBTree root free_mutex w c) (fun items' t' =>
    items' = items ++ to_items (take (scan_len maxKey count (Z.of_nat (length items)) m) m) /\
    exists c', t' = mkBTree root free_mutex w c' /\ cinv c' /\ view c' = view c /\ room c' = room c).
Proof.
  induction lv as [|x lv IH]; intros fuel prev m items c Hc Hl Hd Hfuel.
  - inversion Hd; subst. destruct fuel; cbn; go_step; rewrite app_nil_r; (split; [done|]); by exists c.
  - inversion Hd as [|? ? m1 r m2 Hx Hd']; subst. destruct Hl as [(pg & Hp & Hi & _ & Hr) Hl].
    pose proof (view_range _ _ _ Hc Hp) as Hpr. rewrite Hp in Hx. injection Hx as Hk Hv Hch _ Hdead _.
    cbn [length] in Hfuel. destruct fuel as [|fuel]; [lia|].
    cbn [range_loop hd]. rewrite Z.gtb_ltb, (proj2 (Z.ltb_lt 0 x)) by lia. cbn [negb]. rewrite pid_u32 by lia.
    go_step. go_call buildPage_spec; [|done|done|done]. intros [f n] t' (c1 & -> & _ & -> & (Hc1 & Hv1 & Hr1 & _) & _).
    node_simpl. rewrite Hi. cbn [negb]. rewrite Hk, Hv, Hr.
    go_step. go_call range_scan_spec. intros [items' stop] t' (-> & H). specialize (H m2). destruct stop.
    + go_step. split; [done|]. exists c1. split_and!; try done. lia.
    + destruct H as [-> H]. eapply returns_mono; [|eapply (IH fuel); [done|rewrite Hv1; exact Hl|rewrite Hv1; exact Hd'|lia]].
      intros items2 t' (-> & c2 & -> & Hc2 & Hv2 & Hr2).
      split; [|exists c2; split_and!; try done; [congruence|lia]].
      rewrite H, take_app_add, <- app_assoc. unfold to_items. by rewrite fmap_app.
Qed.

Lemma range_items_spec m t :
  returns (range_items m.*1 m.*2) t (fun items t' => items = to_items m /\ t' = t).
Proof.
  induction m as [|[k v] m IH]; cbn [range_items fmap list_fmap fst snd]; [by go_step|].
  go_step. go_call IH. intros items t' (-> & ->). by go_step.
Qed.

(** *** Finding the first leaf *)

Lemma rangeSearch_leaf p pg m key t :
  sorted m.*1 -> m <> [] -> pg_internal pg = false -> pg_keys pg = m.*1 -> pg_vals pg = m.*2 ->
  (exists pre v rest, m = pre ++ (key, v) :: rest /\
     rangeSearch (node_of p pg) key t = (Val (to_items ((key, v) :: rest), pg_right pg, Some 0), t)) \/
  ((forall v, (key, v) ∉ m) /\ rangeSearch (node_of p pg) key t = (Err not_found, t)).
Proof.
  intros Hs Hne Hi Hk Hv.
  destruct (InsertBinarySearch_spec m.*1 key 0 Hs) as (i & x & Hib & Hsp); [by destruct m|].
  rewrite Z.add_0_r in Hib.
  pose proof (sorted_found m key i x Hsp) as Hfound. destruct Hsp as [Hx _].
  pose proof Hx as Hx2. rewrite list_lookup_fmap in Hx2. destruct (m !! i) as [[x' v0]|] eqn:Hv0; [|done].
  injection Hx2 as ->.
  unfold rangeSearch. node_simpl. rewrite Hi, Hk, Hv. cbn [negb].
  rewrite !length_fmap, (proj2 (Nat.eqb_neq (length m) 0)) by (destruct m; [done|cbn; lia]). cbn [orb andb].
  erewrite bind_Val by (unfold lift_outcome; by rewrite Hib).
  erewrite bind_Val by (unfold index_at; by rewrite (proj2 (Z.ltb_ge (Z.of_nat i) 0)), Nat2Z.id, Hx by lia).
  destruct (Z.eqb_spec (bytes_compare key x) 0) as [E|E].
  - apply bytes_compare_eq in E as ->. left. exists (take i m), v0, (drop (S i) m). split; [by rewrite take_drop_middle|].
    rewrite Nat2Z.id, (proj2 (Nat.ltb_ge _ _)) by (apply lookup_lt_Some in Hv0; lia).
    rewrite <- !fmap_drop, (drop_S _ _ _ Hv0).
    destruct (range_items_spec ((x, v0) :: drop (S i) m) t) as (its & t' & Hr & -> & ->).
    by erewrite bind_Val by exact Hr.
  - right. split; [|done]. intros v Hin. apply Hfound in Hin. injection Hin as -> ->.
    by rewrite (proj2 (bytes_compare_eq key key) eq_refl) in E.
Qed.

Lemma rangeSearch_inner p pg key i x ch t :
  pg_internal pg = true -> splits_at (pg_keys pg) key i x ->
  InsertBinarySearch (pg_keys pg) key 0 = Val (Z.of_nat i) -> pg_children pg !! child_pos key x i = Some ch ->
  rangeSearch (node_of p pg) key t = (Val ([], 0, Some ch), t).
Proof.
  intros Hi Hsp Hib Hch. unfold rangeSearch. node_simpl. rewrite Hi. cbn [negb].
  assert (Hk : length (pg_keys pg) <> 0%nat) by (destruct Hsp as [Hx _]; apply lookup_lt_Some in Hx; lia).
  assert (Hc : length (pg_children pg) <> 0%nat) by (apply lookup_lt_Some in Hch; lia).
  rewrite (proj2 (Nat.eqb_neq _ _) Hk), (proj2 (Nat.eqb_neq _ _) Hc). cbn [orb andb length Nat.eqb].
  destruct Hsp as [Hx _].
  erewrite bind_Val by (unfold lift_outcome; by rewrite Hib).
  erewrite bind_Val by (unfold index_at; by rewrite (proj2 (Z.ltb_ge (Z.of_nat i) 0)), Nat2Z.id, Hx by lia).
  unfold child_pos in Hch. destruct (bytes_compare key x =? -1).
  - by erewrite bind_Val by (unfold index_at; by rewrite (proj2 (Z.ltb_ge (Z.of_nat i) 0)), Nat2Z.id, Hch by lia).
  - replace (Z.of_nat i + 1) with (Z.of_nat (S i)) by lia.
    by erewrite bind_Val by (unfold index_at; by rewrite (proj2 (Z.ltb_ge (Z.of_nat (S i)) 0)), Nat2Z.id, Hch by lia).
Qed.

(** What the descent finds in a tree with the bindings [whole]. *)
Definition descend_result (root : Z) (w : WAL) c (key : bytes) (whole : kvs)
    (r : outcome (list RangeItem * Z) * BTree C) : Prop :=
  exists c', r.2 = mkBTree root free_mutex w c' /\ cinv c' /\ view c' = view c /\ room c' = room c /\
  match r.1 with
  | Val (items, rsib) => exists pre v rest m' lv prev, whole = pre ++ (key, v) :: rest ++ m' /\
      items = to_items ((key, v) :: rest) /\ (S (length rest) <= ORDER)%nat /\ rsib = hd 0 lv /\
      linked (view c) prev lv 0 /\ leaf_data (view c) lv m' /\ (length lv <= length whole)%nat
  | Err e => e = not_found /\ forall v, (key, v) ∉ whole
  | _ => False
  end.

Lemma hole_right_leaves c root mn p lo hi st fpC lvL lvR mL mR m pg :
  hole cell_ok (view c) root mn 0 p lo hi st fpC lvL lvR mL mR [p] [p] m -> view c !! p = Some pg ->
  pg_right pg = hd 0 lvR /\ linked (view c) p lvR 0 /\ leaf_data (view c) lvR mR /\
  (length lvR <= length (mL ++ m ++ mR))%nat.
Proof.
  intros (Hc & Hr & Hnd & Hs & Hl) Hp.
  destruct (ctx_plug _ _ _ _ _ _ _ _ _ _ _ _ _ _ _ _ _ Hc Hr) as (fp' & _ & Hr').
  pose proof (rep_leaves _ _ _ _ _ _ _ _ _ _ Hr') as Hsub%submseteq_length.
  apply rep_sizes in Hr' as [_ Hsz]. rewrite (length_app lvL) in Hsub. cbn [length app] in Hsub.
  apply linked_app in Hl as [_ [(pg' & Hpg' & _ & _ & Hright) Hl]]. assert (pg' = pg) as -> by congruence.
  split_and!; [done|done|by eapply ctx_leaf_data|lia].
Qed.

Lemma range_descend_spec root key h :
  forall fuel mn p lo hi stL fpC lvL lvR mL mR fp lv m w c items0 r0,
  cinv c -> hole cell_ok (view c) root mn h p lo hi stL fpC lvL lvR mL mR fp lv m ->
  lo_ok lo key -> hi_ok key hi -> (h < fuel)%nat ->
  descend_result root w c key (mL ++ m ++ mR) (range_descend fuel key p items0 r0 (mkBTree root free_mutex w c)).
Proof.
  induction h as [|h IH]; intros fuel mn p lo hi stL fpC lvL lvR mL mR fp lv m w c items0 r0 Hc Hh Hlo Hhi Hfuel;
    (destruct fuel as [|fuel]; [lia|]).
  all: pose proof Hh as (_ & Hrep & _); apply rep_page in Hrep as (pg & Hp & Hd & _).
  all: pose proof (view_range _ _ _ Hc Hp) as Hpr.
  all: cbn [range_descend]; rewrite Z.gtb_ltb, (proj2 (Z.ltb_lt 0 p)) by lia; cbn [negb]; rewrite pid_u32 by lia.
  all: destruct (buildPage_spec root free_mutex w c p pg Hc Hp Hd) as
    ([f n] & t1 & Hb & c1 & -> & Hf & -> & (Hc1 & Hv1 & Hr1 & _) & _).
  all: erewrite bind_Val by exact Hb; cbv beta iota.
  - destruct (hole_leaf _ _ _ _ _ _ _ _ _ _ _ _ _ _ _ _ Hh Hp) as (Hs & Hne & Hi & Hk & Hv).
    assert (Hlen : (length m <= ORDER)%nat) by (destruct Hh as (_ & (_ & _ & (_ & _ & _ & ? & _) & _) & _); done).
    pose proof (fun v => hole_lookup _ _ _ _ _ _ _ _ _ _ _ _ _ _ _ _ key v Hh Hlo Hhi) as Hlk.
    assert (Hh' : hole cell_ok (view c) root mn 0 p lo hi stL fpC lvL lvR mL mR [p] [p] m)
      by (pose proof Hh as (_ & (-> & -> & _) & _); exact Hh).
    destruct (hole_right_leaves _ _ _ _ _ _ _ _ _ _ _ _ _ _ Hh' Hp) as (Hright & Hlnk & Hld & Hll).
    destruct (rangeSearch_leaf p pg m key (mkBTree root free_mutex w c1) Hs Hne Hi Hk Hv)
      as [(pre & v & rest & -> & Hr)|(Hno & Hr)].
    + erewrite bind_Val by exact Hr. exists c1. rewrite length_app in Hlen. cbn [length] in Hlen.
      destruct fuel; cbn; split_and!; try done; try lia; exists (mL ++ pre), v, rest, mR, lvR, p.
      all: unfold ORDER, DEGREE in Hlen; split_and!; try done; try lia; by rewrite <- !app_assoc.
    + unfold mbind, M_bind. rewrite Hr. exists c1. cbn. split_and!; try done; [lia|].
      intros v Hv'. by apply (Hno v), Hlk.
  - destruct (hole_inner _ _ _ _ _ _ _ _ _ _ _ _ _ _ _ _ _ Hh Hp) as (Hsort & Hlen & Hi).
    destruct (InsertBinarySearch_spec (pg_keys pg) key 0 Hsort) as (i & x & Hib & Hsp).
    { destruct (pg_keys pg); [cbn in *; lia|done]. }
    rewrite Z.add_0_r in Hib.
    destruct (hole_down _ _ _ _ _ _ _ _ _ _ _ _ _ _ _ _ key pg i x Hh Hlo Hhi Hp Hsp) as
      (ch & lo' & hi' & fpC' & lvL' & lvR' & mL' & mR' & fp' & lv' & m' & Hch & Hlo' & Hhi' & Hm' & Hfp' & Hh').
    erewrite bind_Val by (by eapply rangeSearch_inner). cbn [default]. rewrite <- Hm'.
    rewrite <- Hv1 in Hh'.
    destruct (IH fuel _ _ _ _ _ _ _ _ _ _ _ _ _ w c1 [] 0 Hc1 Hh' Hlo' Hhi' ltac:(lia)) as (c2 & Ht & Hc2 & Hv2 & Hr2 & Hres).
    exists c2. rewrite Hv1 in Hres. split_and!; try done; [congruence|lia].
Qed.

(** The bindings from [k] on. *)
Definition from_key (k : bytes) (m : kvs) : kvs := filter (fun p => ~ p.1 <k k) m.

Lemma from_key_all k m : Forall (fun p => ~ p.1 <k k) m -> from_key k m = m.
Proof. unfold from_key. induction 1; [done|]. rewrite filter_cons_True by done. by f_equal. Qed.

Lemma from_key_none k m : Forall (fun p => p.1 <k k) m -> from_key k m = [].
Proof. unfold from_key. induction 1; [done|]. rewrite filter_cons_False by auto. done. Qed.

Lemma from_key_split k v pre rest : sorted (pre ++ (k, v) :: rest).*1 ->
  from_key k (pre ++ (k, v) :: rest) = (k, v) :: rest.
Proof.
  rewrite fmap_app. intros (_ & Hs & Hlt)%sorted_app_inv. cbn in Hs, Hlt. apply StronglySorted_inv in Hs as [_ Hf].
  unfold from_key. rewrite filter_app, filter_cons_True by apply key_lt_irrefl.
  fold (from_key k pre). fold (from_key k rest). rewrite from_key_none, from_key_all; [done| |].
  - eapply Forall_impl; [exact (proj1 (Forall_fmap fst (fun y => k <k y) rest) Hf)|]. cbn. intros p Hp Hn.
    by eapply (key_lt_irrefl k), key_lt_trans.
  - apply Forall_forall. intros p Hp. apply Hlt; [|by left]. by apply list_elem_of_fmap_2.
Qed.

Lemma RangeSearch_spec K t m fuel minKey maxKey count : bt_inv K t m -> (length m <= fuel)%nat ->
  match to_map m !! minKey with
  | Some v => exists L, (1 <= L <= ORDER)%nat /\ (L <= length (from_key minKey m))%nat /\
      let suffix := from_key minKey m in
      returns (RangeSearch fuel minKey maxKey count) t (fun items t' =>
        items = to_items (take (L + scan_len maxKey count (Z.of_nat L) (drop L suffix)) suffix) /\ bt_inv K t' m)
  | None => fails (RangeSearch fuel minKey maxKey count) t (if decide (m = []) then not_initialized else not_found)
      (fun t' => bt_inv K t' m)
  end.
Proof.
  intros Hinv Hfuel. pose proof (bt_inv_sorted _ _ _ Hinv) as Hs.
  pose proof Hinv as (Hc & Hmu & Ht). destruct t as [root mu w c]. cbn [bt_cache bt_mu Root bt_wal] in *. subst mu.
  destruct Ht as [(-> & -> & _)|(Hroot & h & nfp & Htree & _)].
  { cbn. rewrite lookup_empty. eexists. split; [reflexivity|]. by apply (bt_inv_pages K _ [] c Hinv). }
  destruct (tree_hole _ _ _ _ _ _ Htree) as (fp & lv & Hh & _).
  destruct Htree as (fp0 & lv0 & Hrep0 & _). pose proof (rep_bounded _ _ _ _ _ _ _ _ _ _ Hrep0) as (Hne & _).
  apply rep_sizes in Hrep0 as [Hsz _]. rewrite decide_False by done.
  pose proof (range_descend_spec root minKey h fuel _ _ _ _ _ _ _ _ _ _ _ _ _ w c [] 0 Hc Hh I I ltac:(lia)) as (c1 & Ht1 & Hc1 & Hv1 & Hr1 & Hres).
  cbn [app] in Hres. rewrite app_nil_r in Hres.
  assert (Hrun : RangeSearch fuel minKey maxKey count (mkBTree root free_mutex w c) =
    ('(items, rightSibId) ← range_descend fuel minKey root [] 0; range_loop fuel maxKey count rightSibId items) (mkBTree root free_mutex w c)).
  { unfold RangeSearch. erewrite bind_Val by reflexivity. cbn [Root].
    rewrite (proj2 (Z.eqb_neq _ _)), pid_i32, Z.gtb_ltb, (proj2 (Z.ltb_lt 0 root)) by lia. done. }
  destruct (range_descend fuel minKey root [] 0 (mkBTree root free_mutex w c)) as [[[items rsib]|e|?| |] t1] eqn:E; cbn in Ht1, Hres; try done.
  - destruct Hres as (pre & v & rest & m' & lv' & prev & -> & -> & Hrest & -> & Hl & Hd & Hll).
    rewrite (proj2 (to_map_lookup_Some minKey v _ Hs)) by set_solver.
    rewrite from_key_split by done. exists (S (length rest)). cbn [length]. rewrite length_app. split_and!; [lia|done|lia|].
    subst t1. rewrite <- Hv1 in Hl, Hd.
    destruct (range_loop_spec maxKey count root w lv' fuel prev m' (to_items ((minKey, v) :: rest)) c1 Hc1 Hl Hd ltac:(lia))
      as (its & t2 & Hloop & -> & c2 & -> & Hc2 & Hv2 & Hr2).
    eexists _, _. split; [rewrite Hrun; erewrite bind_Val by exact E; exact Hloop|].
    split; [|apply (bt_inv_pages K _ _ c2 Hinv); [done|cbn; congruence|cbn; congruence]].
    unfold to_items at 2 3. rewrite length_fmap. cbn [length].
    rewrite app_comm_cons. change (S (length rest)) with (length ((minKey, v) :: rest)).
    rewrite drop_app_length, take_app_add. unfold to_items. by rewrite fmap_app.
  - destruct Hres as (-> & Hno). rewrite (proj2 (to_map_lookup_None minKey m)).
    + subst t1. exists (mkBTree root free_mutex w c1). split; [rewrite Hrun; unfold mbind, M_bind; by rewrite E|].
      apply (bt_inv_pages K _ m c1 Hinv); [done|cbn; congruence|cbn; congruence].
    + intros ((k & v) & -> & Hin)%list_elem_of_fmap. by apply (Hno v).
Qed.

End Range.
