(* ===== verification/BTreeTheorems.v ===== *)
(** * What the B+ tree guarantees

    The tree implements a finite map: puts and lookups refine [gmap] insertion
    and lookup through any number of splits, every put is logged once, lookups
    give their pins back, range queries return the bindings in order, and the
    tree stays balanced.  The examples run on the in-memory cache. *)

From S2P Require Import Prelude Keys Helpers BTStack Wal BTree CacheSpec BTreeInv BTreeNode BTreeShape BTreeInsert BTreeRead BTreeRange.
Local Open Scope Z_scope.
Local Open Scope key_scope.

(** ** Runs of the tree and of a finite map *)

Inductive tree_op := OpPut (k v : bytes) | OpGet (k : bytes).
Inductive tree_result := RDone (b : bool) | RVal (v : bytes) | RErr (e : error).

Section Runs.
Context {C F : Type} `{!CacheOps C F}.

Definition run_tree_op (fuel : nat) (o : tree_op) : M (BTree C) tree_result :=
  match o with
  | OpPut k v => b ← InsertValue fuel [k] [v] []; mret (RDone b)
  | OpGet k => r ← catch (Get fuel k); mret (match r with inl v => RVal v | inr e => RErr e end)
  end.

Fixpoint run_tree (fuel : nat) (os : list tree_op) : M (BTree C) (list tree_result) :=
  match os with
  | [] => mret []
  | o :: os' => r ← run_tree_op fuel o; rs ← run_tree fuel os'; mret (r :: rs)
  end.

End Runs.

(** The map machine. *)
Definition map_op (o : tree_op) (M : gmap bytes bytes) : tree_result * gmap bytes bytes :=
  match o with
  | OpPut k v => (RDone true, <[k := v]> M)
  | OpGet k => (match M !! k with
                | Some v => RVal v
                | None => RErr (if decide (M = ∅) then not_initialized else not_found)
                end, M)
  end.

Fixpoint run_map (os : list tree_op) (M : gmap bytes bytes) : list tree_result * gmap bytes bytes :=
  match os with
  | [] => ([], M)
  | o :: os' => let '(r, M1) := map_op o M in let '(rs, M2) := run_map os' M1 in (r :: rs, M2)
  end.

Definition op_ok (ok : bytes -> Prop) (o : tree_op) : Prop :=
  match o with
  | OpPut k v => ok k /\ ok v /\ k <> [] /\ v <> []
  | OpGet _ => True
  end.

Section Theorems.
Context {C F : Type} `{!CacheOps C F} `{!PageCache C F}.
Implicit Types (c : C) (t : BTree C) (f : F).

Lemma holds_new w c : cinv c -> c_GetRootPageId c = 0 -> holds (room c) (NewIndex w c) ∅.
Proof. intros Hc Hr. exists []. split; [|done]. split_and!; [done|done|]. left. by rewrite <- Hr. Qed.

Lemma to_map_empty (m : kvs) : to_map m = ∅ <-> m = [].
Proof.
  split; [|by intros ->]. destruct m as [|[k v] m]; [done|]. cbn. intros H.
  apply (f_equal (fun M : gmap bytes bytes => M !! k)) in H. by rewrite lookup_insert_eq in H.
Qed.

(** C6: inserting a batch of bindings into a tree that stands for the map [M]
    returns true and leaves a well-formed tree that stands for [M] with the
    bindings put in order, whatever leaf, inner and root splits that takes.  Keys and
    values fit in a page, and none is empty unless an LSN is passed; two page ids per
    binding are available, and the cache never runs out of frames.  The fuel bounds the depth of the descent and of the propagation. *)
Theorem InsertValue_refines K fuel keys vals lsn t M :
  holds K t M -> length keys = length vals -> Forall (puttable lsn) keys -> Forall (puttable lsn) vals ->
  (lsn = [] \/ length lsn = 12%nat) -> (size M + length keys <= fuel)%nat ->
  2 * Z.of_nat (size M + length keys) <= K + 1 ->
  returns (InsertValue fuel keys vals lsn) t (fun b t' => b = true /\ holds K t' (put_all keys vals M)).
Proof. apply InsertValue_holds. Qed.

(** A lookup in a tree that stands for [M] returns [M]'s value, changes no
    page and no log record, and gives back every pin it took. *)
Lemma Get_found K fuel t M key v :
  holds K t M -> (size M <= fuel)%nat -> M !! key = Some v ->
  returns (Get fuel key) t (fun v' t' => v' = v /\ holds K t' M /\ bt_wal t' = bt_wal t /\
    view (bt_cache t') = view (bt_cache t) /\ forall q, pinned (bt_cache t') q = pinned (bt_cache t) q).
Proof.
  intros (m & Hi & Hm) Hf Hl. pose proof (holds_size _ _ _ _ Hi Hm) as Hsz.
  pose proof (Get_spec K t m fuel key Hi ltac:(lia)) as H. rewrite Hm, Hl in H.
  eapply returns_mono; [|exact H]. intros v' t' (-> & Hi' & ? & ? & ?). split_and!; try done. by exists m.
Qed.

(** A lookup of a key that is not in the map returns "Key not found" (or
    "not initialized" on an empty tree) and the tree still stands for [M]. *)
Lemma Get_missing K fuel t M key :
  holds K t M -> (size M <= fuel)%nat -> M !! key = None ->
  fails (Get fuel key) t (if decide (M = ∅) then not_initialized else not_found)
    (fun t' => holds K t' M /\ bt_wal t' = bt_wal t).
Proof.
  intros (m & Hi & Hm) Hf Hl. pose proof (holds_size _ _ _ _ Hi Hm) as Hsz.
  pose proof (Get_spec K t m fuel key Hi ltac:(lia)) as H. rewrite Hm, Hl in H.
  rewrite (decide_ext (M = ∅) (m = [])) by (subst M; apply to_map_empty).
  eapply fails_mono; [|exact H]. intros t' (Hi' & ?). split; [by exists m|done].
Qed.

(** A lookup whose caller looks at the error. *)
Lemma Get_caught K fuel k t M : holds K t M -> (size M <= fuel)%nat ->
  returns (catch (Get fuel k)) t (fun r t' => holds K t' M /\
    r = match M !! k with Some v => inl v | None => inr (if decide (M = ∅) then not_initialized else not_found) end).
Proof.
  intros (m & Hi & Hm) Hf. pose proof (holds_size _ _ _ _ Hi Hm) as Hsz.
  pose proof (Get_spec K t m fuel k Hi ltac:(lia)) as H. rewrite Hm in H.
  rewrite (decide_ext (M = ∅) (m = [])) by (subst M; apply to_map_empty).
  destruct (M !! k) as [v|].
  - go_step. eapply returns_mono; [|exact H]. intros v' t' (-> & Hi' & _). split; [by exists m|done].
  - eapply returns_catch_err, fails_mono, H. intros t' (Hi' & _). split; [by exists m|done].
Qed.

Lemma run_tree_op_refines K fuel o t M :
  holds K t M -> op_ok cell_ok o -> (size M + 1 <= fuel)%nat -> 2 * Z.of_nat (size M + 1) <= K + 1 ->
  returns (run_tree_op fuel o) t (fun r t' => r = (map_op o M).1 /\ holds K t' (map_op o M).2).
Proof.
  intros Hh Hok Hf HK. destruct o as [k v|k]; cbn [run_tree_op map_op fst snd].
  - destruct Hok as (Hk & Hv & Hnk & Hnv). go_step.
    go_call InsertValue_holds; [|exact Hh|done|by repeat constructor|by repeat constructor|by left|cbn; lia|cbn; lia].
    intros b t' (-> & Ht). by go_step.
  - go_step. go_call Get_caught; [|exact Hh|lia]. intros r t' (Hh' & ->). go_step. split; [|done]. by destruct (M !! k).
Qed.

Lemma map_op_size o M : (size (map_op o M).2 <= S (size M))%nat.
Proof. destruct o; cbn; [|lia]. rewrite map_size_insert. case_match; unfold id; lia. Qed.

(** C1: from an empty index, any sequence of lookups and of puts of non-empty keys and
    values that fit in a page gives the answers of a finite map, as long as two page
    ids per operation are available; the index then stands for the map the puts
    built.  The cache behind the index is one that never runs out of frames. *)
Theorem tree_refines_map fuel os w c :
  cinv c -> c_GetRootPageId c = 0 -> Forall (op_ok cell_ok) os -> (length os <= fuel)%nat ->
  2 * Z.of_nat (length os) <= room c + 1 ->
  returns (run_tree fuel os) (NewIndex w c) (fun rs t' =>
    rs = (run_map os ∅).1 /\ holds (room c) t' (run_map os ∅).2).
Proof.
  intros Hc Hr Hok Hf HK.
  enough (forall M t, holds (room c) t M -> (size M + length os <= fuel)%nat ->
    2 * Z.of_nat (size M + length os) <= room c + 1 ->
    returns (run_tree fuel os) t (fun rs t' => rs = (run_map os M).1 /\ holds (room c) t' (run_map os M).2)) as H.
  { apply H; [by apply holds_new|rewrite map_size_empty; lia|rewrite map_size_empty; lia]. }
  clear Hf HK. induction Hok as [|o os Ho Hos IH]; intros M t Hh Hf HK; cbn [run_tree run_map length] in *.
  - by go_step.
  - go_step. go_call run_tree_op_refines; [|exact Hh|done|lia|lia]. intros r t' (-> & Hh').
    pose proof (map_op_size o M) as Hsz. destruct (map_op o M) as [r M1]. cbn [fst snd] in *.
    go_step. go_call IH; [|exact Hh'|lia|lia]. intros rs t2 (-> & Hh2). go_step. by destruct (run_map os M1).
Qed.

(** A put of one binding appends exactly one record to the log's buffer: a
    PUT of that key and value with the LSN that was current; it writes nothing to
    the log file. *)
Lemma put_logs_once K fuel key val t M :
  holds K t M -> puttable [] key -> puttable [] val -> (size M + 1 <= fuel)%nat -> 2 * Z.of_nat (size M + 1) <= K + 1 ->
  returns (insert_one fuel [] key val) t (fun _ t' => exists b,
    walBuff (bt_wal t') = walBuff (bt_wal t) ++ [NLog b] /\ w_file (bt_wal t') = w_file (bt_wal t) /\
    b_opType b = PUT /\ b_key b = key /\ b_val b = val /\
    h_lsn (b_header b) = mkLSN (maxPage (bt_wal t)) (maxOffset (bt_wal t))
      (u32 (BLOG_HEADER_SIZE + 9 + Z.of_nat (length key) + Z.of_nat (length val)))).
Proof.
  intros (m & Hi & Hm) Hk Hv Hf HK. pose proof (holds_size _ _ _ _ Hi Hm) as Hsz.
  eapply returns_mono; [|apply (insert_one_spec K fuel [] key val t m); [done|apply Hk|apply Hv|by apply puttable_loggable|by left|lia|lia]].
  intros lsn' t' (_ & _ & _ & l & pid & _ & Hlog). destruct Hk as [_ Hk], Hv as [_ Hv].
  specialize (Hk eq_refl). specialize (Hv eq_refl). revert Hlog. unfold AddPutLog.
  rewrite (proj2 (Z.leb_gt _ _)) by (destruct key; cbn; [done|lia]).
  rewrite (proj2 (Z.leb_gt _ _)) by (destruct val; cbn; [done|lia]).
  destruct (assignLSN_returns (u32 (BLOG_HEADER_SIZE + 9 + Z.of_nat (length key) + Z.of_nat (length val))) (bt_wal t))
    as (l0 & w1 & Ha & -> & Hb & Hfile & _).
  erewrite bind_Val by exact Ha. cbn. intros [= <- <-]. cbn.
  eexists. rewrite Hb, Hfile. split_and!; done.
Qed.

(** Without a maximum key, a range query from a key of the map returns the
    bindings from that key on, in ascending order: at least [count] of them when
    there are that many, and never more than the larger of [count] and five. *)
Lemma RangeSearch_prefix K t m fuel minKey count :
  bt_inv K t m -> (length m <= fuel)%nat -> is_Some (to_map m !! minKey) -> 0 <= count ->
  returns (RangeSearch fuel minKey [] count) t (fun items t' => bt_inv K t' m /\ exists n,
    items = to_items (take n (from_key minKey m)) /\
    Z.min count (Z.of_nat (length (from_key minKey m))) <= Z.of_nat n <= Z.max count 5).
Proof.
  intros Hi Hf [v Hv] Hcount. pose proof (RangeSearch_spec K t m fuel minKey [] count Hi Hf) as H. rewrite Hv in H.
  destruct H as (L & HL & Hlen & H). eapply returns_mono; [|exact H]. intros items t' (-> & Hi'). split; [done|].
  eexists. split; [done|]. rewrite scan_len_nomax, length_drop. unfold ORDER, DEGREE in HL. lia.
Qed.

(** A range query with any maximum key: the first leaf's bindings from [minKey] on, then
    bindings that are not below [maxKey], up to the first one that is, or to [count]. *)
Lemma RangeSearch_bounds K t m fuel minKey maxKey count :
  bt_inv K t m -> (length m <= fuel)%nat -> is_Some (to_map m !! minKey) ->
  let suffix := from_key minKey m in
  returns (RangeSearch fuel minKey maxKey count) t (fun items t' => bt_inv K t' m /\ exists first n,
    (1 <= first <= ORDER)%nat /\ (first <= n <= length suffix)%nat /\ items = to_items (take n suffix) /\ Z.of_nat n <= Z.max count 5 /\
    Forall (fun p => ~ p.1 <k maxKey) (drop first (take n suffix)) /\
    forall p, suffix !! n = Some p -> p.1 <k maxKey \/ count <= Z.of_nat n).
Proof.
  intros Hi Hf [v Hv] suffix. pose proof (RangeSearch_spec K t m fuel minKey maxKey count Hi Hf) as H. rewrite Hv in H.
  destruct H as (L & HL & Hlen & H). eapply returns_mono; [|exact H]. intros items t' (-> & Hi'). split; [done|].
  fold suffix in Hlen |- *. set (n := scan_len maxKey count (Z.of_nat L) (drop L suffix)).
  pose proof (scan_len_bound maxKey count (Z.of_nat L) (drop L suffix)) as Hb. rewrite length_drop in Hb. fold n in Hb.
  pose proof (scan_len_most maxKey count (Z.of_nat L) (drop L suffix)) as Hm. fold n in Hm.
  exists L, (L + n)%nat. unfold ORDER, DEGREE in *. split_and!; [lia..|done|lia| |].
  - replace (drop L (take (L + n) suffix)) with (take n (drop L suffix)); [apply scan_len_taken|].
    rewrite skipn_firstn_comm. f_equal. lia.
  - intros p Hp. rewrite <- lookup_drop in Hp. apply scan_len_stop in Hp. fold n in Hp. by rewrite Nat2Z.inj_add.
Qed.

(** With a maximum key above all keys of the tree, a range query ends with
    the leaf of the first key: at most four bindings, whatever [count] asks for. *)
Lemma RangeSearch_below_max K t m fuel minKey maxKey count :
  bt_inv K t m -> (length m <= fuel)%nat -> is_Some (to_map m !! minKey) -> Forall (fun p => p.1 <k maxKey) m ->
  returns (RangeSearch fuel minKey maxKey count) t (fun items _ => (length items <= ORDER)%nat).
Proof.
  intros Hi Hf [v Hv] Hmax. pose proof (RangeSearch_spec K t m fuel minKey maxKey count Hi Hf) as H. rewrite Hv in H.
  destruct H as (L & HL & Hlen & H). eapply returns_mono; [|exact H]. intros items t' (-> & Hi').
  rewrite scan_len_below; [|apply Forall_drop; unfold from_key; apply Forall_forall; intros p [_ Hp]%list_elem_of_filter;
    rewrite Forall_forall in Hmax; auto].
  unfold to_items. rewrite length_fmap, length_take. lia.
Qed.

(** A range query from a key that is not in the tree is an error. *)
Lemma RangeSearch_missing K t m fuel minKey maxKey count :
  bt_inv K t m -> (length m <= fuel)%nat -> to_map m !! minKey = None ->
  fails (RangeSearch fuel minKey maxKey count) t (if decide (m = []) then not_initialized else not_found)
    (fun t' => bt_inv K t' m).
Proof. intros Hi Hf Hv. pose proof (RangeSearch_spec K t m fuel minKey maxKey count Hi Hf) as H. by rewrite Hv in H. Qed.

Lemma rep_height_deg V h p lo hi fp lv m : rep cell_ok V DEGREE h p lo hi fp lv m ->
  (2 ^ h <= length lv /\ 2 * length lv <= length m /\ length fp + 1 <= 2 * length lv)%nat.
Proof.
  revert p lo hi fp lv m. induction h as [|h IH]; intros p lo hi fp lv m.
  - intros (-> & -> & (_ & _ & Hl & _) & _). cbn [length Nat.pow]. unfold DEGREE in *. lia.
  - intros (ks & cs & r & fpc & -> & [Hk _] & _ & Hc).
    pose proof (chain_len _ _ _ _ _ _ _ _ Hc) as Hlen.
    eapply (chain_sizes _ (2 ^ h)) in Hc as (H1 & H2 & H3); [|exact IH].
    cbn [length Nat.pow]. nia.
Qed.

(** Height and page count against the number of bindings. *)
Lemma tree_height V root h nfp m : tree cell_ok V root h nfp m -> (2 ^ h <= length m /\ nfp <= length m)%nat.
Proof.
  intros (fp & lv & Hr & _ & _ & _ & <-). pose proof (rep_sizes _ _ _ _ _ _ _ _ _ _ Hr) as [_ Hsz].
  split; [|done]. destruct h as [|h].
  - destruct Hr as (_ & _ & (_ & _ & Hl & _) & _). cbn. lia.
  - destruct Hr as (ks & cs & r & fpc & -> & [Hk _] & _ & Hc).
    pose proof (chain_len _ _ _ _ _ _ _ _ Hc) as Hlen.
    eapply (chain_sizes _ (2 ^ h)) in Hc as (H1 & H2 & H3); [|apply rep_height_deg].
    cbn [Nat.pow]. nia.
Qed.

Lemma put_all_nonempty (k v : bytes) (ks vs : list bytes) (M : gmap bytes bytes) : put_all (k :: ks) (v :: vs) M <> ∅.
Proof.
  cbn [put_all]. assert (<[k := v]> M <> ∅) as H by apply insert_non_empty. revert vs H. generalize (<[k := v]> M).
  induction ks as [|k' ks IH]; intros N [|v' vs] H; try done. cbn [put_all]. apply IH, insert_non_empty.
Qed.

(** C25: the tree a batch of puts leaves is balanced and does not waste pages: all
    its leaves are at the same depth [h], with [2^h] at most the number of
    bindings, and it has at most as many pages as bindings. *)
Theorem tree_balanced K fuel key keys val vals t M :
  holds K t M -> length keys = length vals -> Forall (puttable []) (key :: keys) -> Forall (puttable []) (val :: vals) ->
  (size M + S (length keys) <= fuel)%nat -> 2 * Z.of_nat (size M + S (length keys)) <= K + 1 ->
  returns (InsertValue fuel (key :: keys) (val :: vals) []) t (fun _ t' => exists h nfp m,
    tree cell_ok (view (bt_cache t')) (Root t') h nfp m /\ to_map m = put_all (key :: keys) (val :: vals) M /\
    (2 ^ h <= length m /\ nfp <= length m)%nat).
Proof.
  intros Hh Hl Hk Hv Hf HK. go_call InsertValue_holds; [|exact Hh|cbn; lia|done|done|by left|done|done].
  intros b t' (_ & m & (_ & _ & Hi) & Hm). destruct Hi as [(_ & -> & _)|(_ & h & nfp & Ht & _)].
  - exfalso. by eapply put_all_nonempty.
  - exists h, nfp, m. split; [done|]. split; [done|]. by eapply tree_height.
Qed.

End Theorems.

(** ** Runs on the in-memory cache *)

Module Sample.
Import MemCache.

(** A freshly initialised log, and an index over an empty cache. *)
Definition wal0 : WAL := match NewWalWriter [] [] with Val w => w | _ => mkWAL [] 0 0 [] [] [] end.
Definition index0 : BTree cache := NewIndex wal0 MemCache.empty.

(** Ten bindings, put in an order that splits leaves and the root. *)
Definition ks : list bytes := [[5]; [3]; [8]; [1]; [4]; [7]; [9]; [2]; [6]; [10]].
Definition vs : list bytes := [[50]; [30]; [80]; [11]; [40]; [70]; [90]; [20]; [60]; [100]].

Definition K0 : Z := 2 ^ 31 - 1.
Definition index10 : BTree cache := (InsertValue 10 ks vs [] index0).2.
Definition map10 : gmap bytes bytes := put_all ks vs ∅.
Definition list10 : kvs := [([1], [11]); ([2], [20]); ([3], [30]); ([4], [40]); ([5], [50]); ([6], [60]);
  ([7], [70]); ([8], [80]); ([9], [90]); ([10], [100])].

Lemma final_state {S A} (m : M S A) s Q : returns m s Q -> exists a, Q a (m s).2.
Proof. intros (a & s' & Hm & HQ). exists a. by rewrite Hm. Qed.

Lemma empty_inv : inv MemCache.empty.
Proof. split; [cbn; lia|]. intros p pg H. cbn in H. by rewrite lookup_empty in H. Qed.

Lemma ks_puttable : Forall (puttable []) ks.
Proof. repeat constructor; done. Qed.
Lemma vs_puttable : Forall (puttable []) vs.
Proof. repeat constructor; done. Qed.

Lemma index0_holds : holds K0 index0 ∅.
Proof. exact (holds_new wal0 MemCache.empty empty_inv eq_refl). Qed.

Lemma index10_holds : holds K0 index10 map10.
Proof.
  destruct (final_state _ _ _ (InsertValue_holds K0 10 ks vs [] index0 ∅ index0_holds eq_refl ks_puttable vs_puttable
    (or_introl eq_refl) ltac:(vm_compute; lia) ltac:(vm_compute; done))) as (b & _ & H). exact H.
Qed.

Lemma list10_sorted : sorted list10.*1.
Proof. repeat constructor. Qed.

Lemma index10_inv : bt_inv K0 index10 list10.
Proof.
  destruct index10_holds as (m & Hi & Hm). enough (m = list10) as <- by done.
  apply to_map_inj; [by eapply bt_inv_sorted|apply list10_sorted|]. rewrite Hm. vm_compute. reflexivity.
Qed.

Lemma InsertValue_refines_witness :
  holds K0 index0 ∅ /\
  returns (InsertValue 10 ks vs [] ) index0 (fun b t' => b = true /\ holds K0 t' (put_all ks vs ∅)).
Proof.
  split; [exact index0_holds|].
  apply (InsertValue_refines K0 10 ks vs [] index0 ∅); [exact index0_holds|reflexivity|exact ks_puttable|exact vs_puttable
    |by left|vm_compute; lia|vm_compute; done].
Defined.

Lemma Get_found_witness :
  map10 !! [7] = Some [70] /\
  returns (BTree.Get 10 [7]) index10 (fun v' t' => v' = [70] /\ holds K0 t' map10 /\ bt_wal t' = bt_wal index10 /\
    view (bt_cache t') = view (bt_cache index10) /\ forall q, pinned (bt_cache t') q = pinned (bt_cache index10) q).
Proof.
  split; [vm_compute; reflexivity|].
  apply (Get_found K0 10 index10 map10 [7] [70]); [exact index10_holds|vm_compute; lia|vm_compute; reflexivity].
Defined.

Lemma Get_missing_witness :
  map10 !! [77] = None /\
  fails (BTree.Get 10 [77]) index10 (if decide (map10 = ∅) then not_initialized else not_found)
    (fun t' => holds K0 t' map10 /\ bt_wal t' = bt_wal index10).
Proof.
  split; [vm_compute; reflexivity|].
  apply (Get_missing K0 10 index10 map10 [77]); [exact index10_holds|vm_compute; lia|vm_compute; reflexivity].
Defined.

Definition ops_sample : list tree_op := [OpGet [1]; OpPut [1] [11]; OpPut [2] [22]; OpGet [2]; OpGet [3]; OpPut [2] [33]; OpGet [2]].

Lemma tree_refines_map_witness :
  (run_map ops_sample ∅).1 = [RErr not_initialized; RDone true; RDone true; RVal [22]; RErr not_found; RDone true; RVal [33]] /\
  returns (run_tree 7 ops_sample) (NewIndex wal0 MemCache.empty) (fun rs t' =>
    rs = (run_map ops_sample ∅).1 /\ holds (room MemCache.empty) t' (run_map ops_sample ∅).2).
Proof.
  split; [vm_compute; reflexivity|].
  apply (tree_refines_map 7 ops_sample wal0 MemCache.empty); [exact empty_inv|reflexivity|repeat constructor; done|cbn; lia|cbn; lia].
Defined.

Lemma put_logs_once_witness :
  puttable [] [99] /\
  returns (insert_one 11 [] [99] [1]) index10 (fun _ t' => exists b,
    walBuff (bt_wal t') = walBuff (bt_wal index10) ++ [NLog b] /\ w_file (bt_wal t') = w_file (bt_wal index10) /\
    b_opType b = PUT /\ b_key b = [99] /\ b_val b = [1] /\
    h_lsn (b_header b) = mkLSN (maxPage (bt_wal index10)) (maxOffset (bt_wal index10))
      (u32 (BLOG_HEADER_SIZE + 9 + Z.of_nat (length [99]) + Z.of_nat (length [1])))).
Proof.
  split; [done|].
  apply (put_logs_once K0 11 [99] [1] index10 map10); [exact index10_holds|done|done|vm_compute; lia|vm_compute; done].
Defined.

Lemma RangeSearch_prefix_witness :
  is_Some (to_map list10 !! [4]) /\
  returns (RangeSearch 10 [4] [] 6) index10 (fun items t' => bt_inv K0 t' list10 /\ exists n,
    items = to_items (take n (from_key [4] list10)) /\
    Z.min 6 (Z.of_nat (length (from_key [4] list10))) <= Z.of_nat n <= Z.max 6 5).
Proof.
  split; [vm_compute; eauto|].
  apply (RangeSearch_prefix K0 index10 list10 10 [4] 6); [exact index10_inv|cbn; lia|vm_compute; eauto|lia].
Defined.

Lemma RangeSearch_below_max_witness :
  Forall (fun p => p.1 <k [200]) list10 /\
  returns (RangeSearch 10 [1] [200] 8) index10 (fun items _ => (length items <= ORDER)%nat).
Proof.
  split; [repeat constructor|].
  apply (RangeSearch_below_max K0 index10 list10 10 [1] [200] 8); [exact index10_inv|cbn; lia|vm_compute; eauto|repeat constructor].
Defined.

Lemma tree_balanced_witness :
  returns (InsertValue 10 ks vs []) index0 (fun _ t' => exists h nfp m,
    tree cell_ok (view (bt_cache t')) (Root t') h nfp m /\ to_map m = put_all ks vs ∅ /\ (2 ^ h <= length m /\ nfp <= length m)%nat).
Proof.
  apply (tree_balanced K0 10 [5] (tail ks) [50] (tail vs) index0 ∅);
    [exact index0_holds|reflexivity|exact ks_puttable|exact vs_puttable|vm_compute; lia|vm_compute; done].
Defined.

End Sample.

