(* ===== verification/BTreeRemove.v ===== *)
(** * Deletion: keys that are absent, leaves that stay full enough, the last leaf

    [DeleteValue] against the cache contract where no second node is involved: a key
    that is not in the tree leaves it as it is, and a key in a leaf with more than
    [DEGREE] bindings is removed with one DEL record.  After such a removal the code
    goes on at page 1, so that page has to be a leaf without the key.  A leaf that is
    the whole tree may underflow, down to an index without a root. *)

From S2P Require Import Prelude Keys Helpers BTStack Wal BTree BTreeDelete CacheSpec BTreeInv BTreeNode BTreeShape BTreeInsert BTreeRead.
Local Open Scope Z_scope.
Local Open Scope key_scope.

(** ** Removing a binding from a list *)

Definition kv_remove (k : bytes) (m : kvs) : kvs := filter (fun p => p.1 <> k) m.

Lemma kv_remove_id k m : (forall v, (k, v) ∉ m) -> kv_remove k m = m.
Proof.
  intros Hno. unfold kv_remove. apply filter_all. apply Forall_forall. intros [k' v] Hin E. cbn in E. subst k'. by apply (Hno v).
Qed.

Lemma kv_remove_mid k v l r : Forall (fun p => p.1 <k k) l -> Forall (fun p => k <k p.1) r ->
  kv_remove k (l ++ (k, v) :: r) = l ++ r.
Proof.
  intros Hl Hr. unfold kv_remove. rewrite filter_app, filter_cons_False by (cbn; by intros H).
  rewrite !filter_all; [done|..].
  - eapply Forall_impl; [exact Hr|]. intros [k' v'] H E. cbn in H, E. subst k'. by apply key_lt_irrefl in H.
  - eapply Forall_impl; [exact Hl|]. intros [k' v'] H E. cbn in H, E. subst k'. by apply key_lt_irrefl in H.
Qed.

Lemma kv_remove_app k mL m mR : Forall (fun p => p.1 <k k) mL -> Forall (fun p => k <k p.1) mR ->
  kv_remove k (mL ++ m ++ mR) = mL ++ kv_remove k m ++ mR.
Proof.
  intros Hl Hr. unfold kv_remove. rewrite !filter_app. f_equal; [|f_equal].
  - apply filter_all. eapply Forall_impl; [exact Hl|]. intros [k' v'] H E. cbn in H, E. subst k'. by apply key_lt_irrefl in H.
  - apply filter_all. eapply Forall_impl; [exact Hr|]. intros [k' v'] H E. cbn in H, E. subst k'. by apply key_lt_irrefl in H.
Qed.

Lemma to_map_kv_remove k m : to_map (kv_remove k m) = delete k (to_map m).
Proof.
  unfold to_map, kv_remove. induction m as [|[k' v'] m IH]; [done|]. rewrite filter_cons. cbn. case_decide as H.
  - cbn. rewrite IH. by rewrite delete_insert_ne.
  - rewrite IH. destruct (decide (k' = k)) as [->|]; [by rewrite delete_insert_eq|by destruct H].
Qed.

(** A leaf stored with other bindings within its bounds. *)
Lemma leaf_replace ok V root mn p lo hi st fpC lvL lvR mL mR fp lv m m' pg P :
  hole ok V root mn 0 p lo hi st fpC lvL lvR mL mR fp lv m -> leaf_ok ok mn lo hi m' ->
  V !! p = Some pg -> core P = leaf_core m' (pg_right pg) -> pg_left P = pg_left pg ->
  tree ok (<[p := P]> V) root (0 + length st) (length (fp ++ fpC)) (mL ++ m' ++ mR).
Proof.
  intros (Hc & (-> & -> & Hm & r & Hr) & Hnd & Hs & Hl) Hm' Hp HP HlP.
  assert (Hi : pg_internal pg = false) by (rewrite Hp in Hr; cbn in Hr; by injection Hr).
  assert (HiP : links P = links pg) by (unfold links, core in *; injection HP as ? ? ? -> ? ->; by rewrite Hi).
  eapply tree_plug.
  - eapply ctx_frame; [exact Hc|]. apply agree_insert_ne. by apply NoDup_cons in Hnd as [? _].
  - cbn. split_and!; [done|done|done|]. exists (pg_right pg). rewrite lookup_insert_eq. cbn. by rewrite HP.
  - done.
  - eapply sib_ok_same; [|exact Hs]. intros x Hx. destruct (decide (x = p)) as [->|]; [|by rewrite lookup_insert_ne].
    rewrite lookup_insert_eq, Hp. cbn. by rewrite HiP.
  - eapply linked_same; [exact Hl|]. intros x Hx. destruct (decide (x = p)) as [->|]; [|by rewrite lookup_insert_ne].
    rewrite lookup_insert_eq, Hp. cbn. unfold leaf_links, links in *. injection HiP as -> ->. by rewrite HlP.
Qed.

Lemma leaf_ok_remove ok mn lo hi l k v r : leaf_ok ok mn lo hi (l ++ (k, v) :: r) -> (mn <= length (l ++ r))%nat ->
  leaf_ok ok mn lo hi (l ++ r).
Proof.
  unfold leaf_ok. rewrite !fmap_app, !fmap_cons, !length_app. cbn [fst snd length].
  rewrite !Forall_app, !Forall_cons. intros (Hs & Hb & Hmn & Ho & Hk & Hv) Hl. split_and!; try lia; try naive_solver.
  apply sorted_app_inv in Hs as (H1 & H2 & H3). apply StronglySorted_inv in H2 as [H2 _].
  apply sorted_app_inv. split_and!; [done|done|]. intros x y Hx Hy. apply H3; [done|by right].
Qed.

(** ** The log record of a deletion *)

Definition del_logged (lsn key : bytes) (w : WAL) (lsn' : bytes) (w' : WAL) : Prop :=
  match lsn with
  | [] => exists pid, 0 < pid < 2 ^ 31 /\ AddDelLog pid key w = (Val lsn', w')
  | _ :: _ => lsn' = lsn /\ w' = w
  end.

Lemma AddDelLog_returns pid key w : key <> [] -> returns (AddDelLog pid key) w (fun l w' => length l = 12%nat).
Proof.
  intros Hk. unfold AddDelLog.
  rewrite (proj2 (Z.leb_gt _ _)) by (destruct key; cbn; [done|lia]).
  go_step. go_call assignLSN_returns. intros l w' (-> & _). cbn zeta. unfold walBuf_Add. go_step. go_step. by go_step.
Qed.

Section Remove.
Context {C F : Type} `{!CacheOps C F} `{!PageCache C F}.
Implicit Types (c : C) (t : BTree C) (f : F).
Local Abbreviation MT := (M (BTree C)).

Lemma del_lsn_spec lsn pid key r mu w c :
  (lsn = [] -> key <> []) -> 0 < pid < 2 ^ 31 ->
  returns (if (length lsn =? 0)%nat then or_panic (onW (AddDelLog (u32 pid) key)) else mret lsn) (mkBTree r mu w c) (fun lsn' t' => exists w',
    t' = mkBTree r mu w' c /\ del_logged lsn key w lsn' w').
Proof.
  intros Hl Hpid. rewrite pid_u32 by lia. destruct lsn as [|b lsn]; cbn [length Nat.eqb].
  - go_step. apply onW_returns. destruct (AddDelLog_returns pid key w (Hl eq_refl)) as (l & w' & Hw & _).
    exists l, w'. split; [done|]. exists w'. split; [done|]. by exists pid.
  - go_step. by exists w.
Qed.

Lemma slice_bounds {A} (l : list A) (i : nat) : (i <= length l)%nat ->
  (Z.of_nat i <? 0) || (Z.of_nat (length l) <? Z.of_nat i) = false.
Proof. intros. apply orb_false_iff. split; apply Z.ltb_ge; lia. Qed.

Lemma remove_at_mid {A} (l r : list A) x t :
  returns (remove_at (l ++ x :: r) (Z.of_nat (length l))) t (fun l' t' => l' = l ++ r /\ t' = t).
Proof.
  unfold remove_at, slice_to, slice_from. replace (Z.of_nat (length l) + 1) with (Z.of_nat (length l + 1)) by lia.
  rewrite !slice_bounds by (rewrite length_app; cbn; lia). go_step. go_step. go_step. go_step. go_step.
  split; [|done]. rewrite !Nat2Z.id, take_app_length. f_equal.
  rewrite drop_app_ge by lia. by replace (length l + 1 - length l)%nat with 1%nat by lia.
Qed.

(** ** [deleteValue] in a leaf *)

(** The key is not there: nothing happens. *)
Lemma deleteValue_absent lsn p pg f key st mr t :
  pg_internal pg = false -> sorted (pg_keys pg) -> key ∉ pg_keys pg ->
  deleteValue lsn (node_of p pg) f key st mr t = (Val (-1, st, mr), t).
Proof.
  intros Hi Hs Hno. unfold deleteValue. node_simpl. destruct (Nat.eqb_spec (length (pg_keys pg)) 0) as [|Hl]; [done|].
  destruct (InsertBinarySearch_spec (pg_keys pg) key 0 Hs) as (i & x & Hib & Hsp); [by intros E; rewrite E in Hl|].
  rewrite Z.add_0_r in Hib. destruct Hsp as [Hx _]. rewrite Hi. cbn [negb].
  unfold mbind, M_bind, lift_outcome, index_at. rewrite Hib, (proj2 (Z.ltb_ge (Z.of_nat i) 0)), Nat2Z.id, Hx by lia. cbn.
  destruct (Z.eqb_spec (bytes_compare key x) 0) as [E|E]; [|done].
  apply bytes_compare_eq in E as ->. exfalso. apply Hno. apply list_elem_of_lookup. eauto.
Qed.

(** What is left to do in a leaf once the key is out of the node. *)
Definition leaf_rest (lsn : bytes) (n : Node) (f : F) (st : BTStack Node) (mr : MergeMetadata) : MT (Z * BTStack Node * MergeMetadata) :=
  if (length (Keys n) <? DEGREE)%nat then '(mr, _) ← handleLeafUnderflow (set_opLSN lsn mr) n f; mret (-1, st, mr)
  else sync_node f lsn n;; mret (1, st, mr).

(** The node of a leaf with other bindings. *)
Definition leaf_node (lsn : bytes) (p : Z) (pg : Page) (m : kvs) : Node :=
  set_Values m.*2 (set_Keys m.*1 (set_lsn lsn (node_of p pg))).

(** In a leaf with the key, [deleteValue] logs the deletion and takes the key out. *)
Lemma deleteValue_found lsn p pg f key v m st mr root mu w c (Q : Z * BTStack Node * MergeMetadata -> BTree C -> Prop) :
  0 < p < 2 ^ 31 -> pg_internal pg = false -> pg_keys pg = m.*1 -> pg_vals pg = m.*2 -> sorted m.*1 ->
  (key, v) ∈ m -> (lsn = [] -> key <> []) ->
  (forall l r w' lsn', m = l ++ (key, v) :: r -> kv_remove key m = l ++ r -> del_logged lsn key w lsn' w' ->
     returns (leaf_rest lsn' (leaf_node lsn' p pg (l ++ r)) f st mr) (mkBTree root mu w' c) Q) ->
  returns (deleteValue lsn (node_of p pg) f key st mr) (mkBTree root mu w c) Q.
Proof.
  intros Hp Hpi Hpk Hpv Hsort Hin Hlog HQ. unfold deleteValue. node_simpl.
  assert (m <> []) as Hne by (intros ->; by apply not_elem_of_nil in Hin).
  rewrite Hpk, length_fmap, (proj2 (Nat.eqb_neq _ _)) by (by destruct m).
  destruct (InsertBinarySearch_spec m.*1 key 0 Hsort) as (i & x & Hi & Hsp); [by destruct m|].
  go_step. eapply returns_lift; [exact Hi|]. rewrite Z.add_0_r. go_step. eapply returns_index; [apply Hsp|].
  rewrite Hpi. cbn [negb]. apply (sorted_found m key i x Hsp) in Hin as Hmi.
  assert (x = key) as -> by (destruct Hsp as [Hx _]; rewrite list_lookup_fmap, Hmi in Hx; by injection Hx).
  rewrite (proj2 (bytes_compare_eq key key) eq_refl). cbn [Z.eqb negb].
  apply splits_pairs in Hsp as (v' & l & r & -> & <- & Hll & Hrr).
  rewrite list_lookup_middle in Hmi by done. injection Hmi as ->.
  go_step. go_call del_lsn_spec; [|done|done]. intros lsn' t' (w' & -> & Hdl).
  rewrite Hpv, !fmap_app, !fmap_cons. cbn [fst snd]. rewrite <- (length_fmap fst l) at 1.
  go_step. go_call (remove_at_mid (fst <$> l)). intros ks' t' (-> & ->). rewrite <- (length_fmap snd l) at 1.
  go_step. go_call (remove_at_mid (snd <$> l)). intros vs' t' (-> & ->). rewrite <- !fmap_app.
  apply (HQ l r w' lsn'); [done|by apply kv_remove_mid|done].
Qed.

(** The key is there and the leaf keeps [DEGREE] bindings. *)
Lemma deleteValue_present root mu w c mn p lo hi stL fpC lvL lvR mL mR fp lv m key v pg f lsn st mr :
  cinv c -> hole cell_ok (view c) root mn 0 p lo hi stL fpC lvL lvR mL mR fp lv m -> (mn <= DEGREE)%nat ->
  lo_ok lo key -> hi_ok key hi -> (lsn = [] -> key <> []) ->
  view c !! p = Some pg -> fr_Key f = p -> (key, v) ∈ m -> (DEGREE < length m)%nat ->
  returns (deleteValue lsn (node_of p pg) f key st mr) (mkBTree root mu w c) (fun '(next, st', mr') t' =>
    exists c' w' lsn' P, t' = mkBTree root mu w' c' /\ next = 1 /\ st' = st /\ mr' = mr /\ del_logged lsn key w lsn' w' /\
      cstep c c' (<[p := P]> (view c)) 0 /\ links P = links pg /\ pg_dead P = pg_dead pg /\ pg_keys P = (kv_remove key m).*1 /\
      tree cell_ok (<[p := P]> (view c)) root (0 + length stL) (length (fp ++ fpC)) (kv_remove key (mL ++ m ++ mR))).
Proof.
  intros Hc Hh Hmn Hlo Hhi Hlog Hp Hf Hin Hlen.
  pose proof Hh as (Hctx & (Efp & Elv & Hm & r0 & Hr0) & _ & Hs & Hl). rewrite Hp in Hr0. injection Hr0 as Hpk Hpv Hpc Hpi Hpd Hpr.
  destruct (ctx_sides _ _ _ _ _ _ _ _ _ _ _ _ _ _ key Hctx Hlo Hhi) as [HL HR].
  assert (Hleft : 0 <= pg_left pg < 2 ^ 31) by (subst lv; by eapply left_range).
  assert (Hright : 0 <= pg_right pg < 2 ^ 31) by (eapply right_range; [done|exact Hs|subst fp; by left|done]).
  eapply deleteValue_found; [by eapply view_range|done|done|done|by destruct Hm|done|done|].
  intros l r w' lsn' -> Hrem Hdl. unfold leaf_rest, leaf_node. node_simpl. rewrite length_fmap. rewrite length_app in Hlen. cbn [length] in Hlen.
  rewrite (proj2 (Nat.ltb_ge _ _)) by (rewrite length_app; lia).
  pose proof (leaf_ok_remove _ _ _ _ _ _ _ _ Hm ltac:(rewrite length_app; lia)) as Hm'. pose proof Hm' as (_ & _ & _ & Ho' & Hk' & Hv').
  go_step. go_call sync_node_spec; [|done|by rewrite Hf|node_simpl; by rewrite length_fmap|done|done].
  intros _ t' (c' & -> & Hst). rewrite Hf in Hst. go_step.
  eexists c', w', lsn', _. split_and!; [done|done|done|done|done|exact Hst|..].
  - unfold links, node_page. cbn. by rewrite pid_i32.
  - done.
  - cbn. by rewrite Hrem.
  - rewrite kv_remove_app, Hrem by done. eapply leaf_replace; [exact Hh|done|done|..].
    + unfold core, node_page, leaf_core. cbn. rewrite Hpi, Hpd, pid_i32 by done. done.
    + cbn. by apply pid_i32.
Qed.

(** ** A tree of one leaf *)

Lemma tree_leaf_height c root h nfp m pg : tree cell_ok (view c) root h nfp m ->
  view c !! root = Some pg -> pg_internal pg = false -> h = 0%nat.
Proof.
  intros Ht Hp Hi. destruct h as [|h]; [done|]. destruct (tree_hole _ _ _ _ _ _ Ht) as (fp & lv & Hh & _).
  destruct (hole_inner _ _ _ _ _ _ _ _ _ _ _ _ _ _ _ _ _ Hh Hp) as (_ & _ & Hi'). congruence.
Qed.

Lemma root_leaf_page c root nfp m : tree cell_ok (view c) root 0 nfp m -> exists pg,
  view c !! root = Some pg /\ core pg = leaf_core m 0 /\ pg_left pg = 0 /\ leaf_ok cell_ok 1 None None m /\ nfp = 1%nat.
Proof.
  intros (fp & lv & (-> & -> & Hm & r & Hr) & _ & _ & [(pg & Hp & _ & Hl & Hrt) _] & <-).
  exists pg. split_and!; try done. rewrite Hp in Hr. cbn in Hr. injection Hr as Hr. cbn in Hrt.
  unfold core, leaf_core in *. congruence.
Qed.

(** The last leaf may underflow; without bindings it dies and the index has no root. *)
Lemma leaf_no_sibling_spec root w c mr n f pg :
  cinv c -> 0 < root < 2 ^ 31 -> view c !! root = Some pg -> fr_Key f = root -> PageId n = root ->
  (length (Keys n) <= ORDER)%nat -> Forall cell_ok (Keys n) -> Forall cell_ok (Values n) ->
  returns (leaf_no_sibling mr n f) (mkBTree root free_mutex w c) (fun r t' => exists c' mr' P,
    r = (mr', None) /\ merged mr' = false /\ rebalanceKey mr' = [] /\
    t' = mkBTree (if (length (Keys n) =? 0)%nat then 0 else root) free_mutex w c' /\
    cstep c c' (<[root := P]> (view c)) 0 /\ (Keys n <> [] -> P = node_page pg n)).
Proof.
  intros Hc Hroot Hp Hf Hn Hk Hck Hcv. unfold leaf_no_sibling. go_step. apply lock_returns.
  go_step. apply returns_gets. cbn [set_mu Root]. rewrite Hn, pid_u32, Z.eqb_refl by lia.
  set (mr' := set_rebalance [] (set_merged false mr)). unfold guard. go_step. go_step.
  destruct (Nat.eqb_spec (length (Keys n)) 0) as [E|E].
  - go_step. apply onC_returns. go_call dead_spec; [|done|by rewrite Hf]. intros _ c1 (Hc1 & Hv1 & Hr1 & Hpin1).
    rewrite Hf in Hv1. go_step. go_step. go_step. unfold set_Root. cbn [Root bt_mu bt_wal bt_cache].
    go_call sync_node_spec; [|done|by rewrite Hf, Hv1, lookup_insert_eq|done|done|done].
    intros _ t' (c2 & -> & Hc2 & Hv2 & Hr2 & Hpin2). go_step. apply unlock_returns. go_step.
    exists c2, mr', (node_page (killed pg) n). split_and!; [done|done|done|done| |by destruct (Keys n)].
    rewrite Hf, Hv1, insert_insert_eq in Hv2. split_and!; [done|exact Hv2|lia|]. intros q. specialize (Hpin2 q). rewrite Hpin1 in Hpin2. lia.
  - go_step. go_step. go_step. go_call sync_node_spec; [|done|by rewrite Hf|done|done|done].
    intros _ t' (c2 & -> & Hst). rewrite Hf in Hst. go_step. apply unlock_returns. go_step.
    exists c2, mr', (node_page pg n). split_and!; try done.
Qed.

(** The key of a leaf that is the whole tree, with at most [DEGREE] bindings. *)
Lemma deleteValue_last root w c nfp m key v pg f lsn st mr :
  cinv c -> 0 < root < 2 ^ 31 -> tree cell_ok (view c) root 0 nfp m -> view c !! root = Some pg -> fr_Key f = root ->
  (key, v) ∈ m -> (length m <= DEGREE)%nat -> (lsn = [] -> key <> []) ->
  returns (deleteValue lsn (node_of root pg) f key st mr) (mkBTree root free_mutex w c) (fun '(next, st', mr') t' =>
    exists c' w' lsn' root', t' = mkBTree root' free_mutex w' c' /\ next = -1 /\ merged mr' = false /\ rebalanceKey mr' = [] /\
      del_logged lsn key w lsn' w' /\ cinv c' /\ is_Some (view c' !! root) /\ room c' = room c /\
      (root' = 0 /\ kv_remove key m = [] \/ root' = root /\ tree cell_ok (view c') root 0 nfp (kv_remove key m))).
Proof.
  intros Hc Hroot Ht Hp Hf Hin Hlen Hlog.
  destruct (root_leaf_page _ _ _ _ Ht) as (pg' & Hp' & Hcore & Hleft & Hm & ->).
  rewrite Hp in Hp'. injection Hp' as <-. injection Hcore as Hpk Hpv Hpc Hpi Hpd Hpr.
  eapply deleteValue_found; [done|done|done|done|by destruct Hm|done|done|].
  intros l r w' lsn' -> Hrem Hdl. rewrite Hrem. rewrite length_app in Hlen. cbn [length] in Hlen.
  unfold leaf_rest, leaf_node, handleLeafUnderflow. node_simpl. rewrite length_fmap, Hpr, Hleft, Hpi.
  rewrite (proj2 (Nat.ltb_lt _ _)) by (rewrite length_app; lia). cbn [negb]. change (0 >? 0) with false. cbn [orb].
  assert (Forall cell_ok (l ++ r).*1 /\ Forall cell_ok (l ++ r).*2) as [Hk Hv].
  { destruct Hm as (_ & _ & _ & _ & Hk & Hv). revert Hk Hv. rewrite !fmap_app, !fmap_cons, !Forall_app, !Forall_cons. naive_solver. }
  go_step. go_call leaf_no_sibling_spec; [|done|done|exact Hp|done|done|..]; node_simpl;
    [|rewrite length_fmap, length_app; unfold ORDER, DEGREE in *; lia|done|done].
  intros [mr' e] t' (c' & mr2 & P & [= -> ->] & Hmg & Hrb & -> & (Hc' & Hv' & Hr' & _) & HP). go_step.
  eexists c', w', lsn', _. split_and!; [reflexivity|done|done|done|done|done|by rewrite Hv', lookup_insert_eq|lia|].
  rewrite length_fmap. destruct (Nat.eqb_spec (length (l ++ r)) 0) as [E|E]; [left; split; [done|by apply length_zero_iff_nil]|right].
  split; [done|]. eapply root_leaf_tree; [by rewrite Hv', lookup_insert_eq|..].
  - rewrite HP by (intros E'; apply (f_equal length) in E'; rewrite length_fmap in E'; done).
    unfold core, node_page, leaf_core. cbn. by rewrite Hpi, Hpd, Hpr, pid_i32.
  - rewrite HP by (intros E'; apply (f_equal length) in E'; rewrite length_fmap in E'; done). cbn. by rewrite Hleft, pid_i32.
  - eapply leaf_ok_remove; [exact Hm|lia].
Qed.

(** ** The descent *)

Lemma markdirty_spec root mu w c f pg :
  cinv c -> view c !! fr_Key f = Some pg ->
  returns (or_panic (onC (c_MarkFrameDirty f))) (mkBTree root mu w c) (fun _ t' => exists c',
    t' = mkBTree root mu w c' /\ cinv c' /\ view c' = view c /\ room c' = room c).
Proof.
  intros Hc Hf. go_step. apply onC_returns. go_call dirty_spec; [|done|done]. intros _ c' (H1 & H2 & H3 & _). by exists c'.
Qed.

(** The pages and the room are as before. *)
Definition same_pages c c' : Prop := cinv c' /\ view c' = view c /\ room c' = room c.

Lemma same_pages_trans c1 c2 c3 : same_pages c1 c2 -> same_pages c2 c3 -> same_pages c1 c3.
Proof. intros (_ & H2 & H3) (H4 & H5 & H6). split_and!; [done|congruence|congruence]. Qed.

(** One round of the loop: load the page, give back the previous frame, and act. *)
Lemma delete_round fuel lsn key p old st mr root w c pg (Q : option F * BTStack Node * MergeMetadata -> BTree C -> Prop) :
  cinv c -> view c !! p = Some pg -> pg_dead pg = false ->
  (forall f c1, fr_Key f = p -> same_pages c c1 ->
     returns (deleteValue lsn (node_of p pg) f key st mr) (mkBTree root free_mutex w c1) (fun '(next, st', mr') t' =>
       returns (or_panic (onC (c_MarkFrameDirty f));; delete_descend fuel lsn key next (Some f) st' mr') t' Q)) ->
  returns (delete_descend (S fuel) lsn key p old st mr) (mkBTree root free_mutex w c) Q.
Proof.
  intros Hc Hp Hd HQ. pose proof (view_range _ _ _ Hc Hp) as Hpr.
  cbn [delete_descend]. rewrite Z.gtb_ltb, (proj2 (Z.ltb_lt 0 p)) by lia. cbn [negb]. rewrite pid_u32 by lia.
  go_step. go_step. go_call buildPage_spec; [|done|done|done]. intros [f n] t' (c1 & -> & Hf & -> & (Hc1 & Hv1 & Hr1 & _) & _).
  go_step. go_call ignore_release_opt; [|done]. intros _ t' (c2 & -> & Hc2 & Hv2 & Hr2).
  go_step. go_step. eapply returns_mono; [|apply (HQ f c2 Hf); split_and!; [done|congruence|lia]].
  intros [[next st'] mr'] t' H. exact H.
Qed.

(** A leaf without the key ends the descent. *)
Lemma delete_stop fuel lsn key p old st mr root w c pg :
  cinv c -> view c !! p = Some pg -> pg_dead pg = false -> pg_internal pg = false -> sorted (pg_keys pg) -> key ∉ pg_keys pg ->
  (0 < fuel)%nat ->
  returns (delete_descend fuel lsn key p old st mr) (mkBTree root free_mutex w c) (fun '(old', st', mr') t' =>
    exists c', t' = mkBTree root free_mutex w c' /\ mr' = mr /\ same_pages c c').
Proof.
  intros Hc Hp Hd Hi Hs Hno Hfuel. destruct fuel as [|fuel]; [lia|]. eapply delete_round; [done|done|done|].
  intros f c1 Hf Hsp. pose proof Hsp as (Hc1 & Hv1 & Hr1).
  eexists _, _. split; [by apply deleteValue_absent|]. cbn beta iota.
  go_step. go_call markdirty_spec; [|done|by rewrite Hf, Hv1]. intros _ t' (c2 & -> & Hc2 & Hv2 & Hr2).
  destruct fuel; cbn [delete_descend]; change (negb (-1 >? 0)) with true; cbv iota; go_step; exists c2; (split_and!; [done|done|by eapply same_pages_trans]).
Qed.

(** An inner node leads to the child whose range holds the key. *)
Lemma delete_down fuel lsn key p old st mr root w c mn h lo hi stL fpC lvL lvR mL mR fp lv m
    (Q : option F * BTStack Node * MergeMetadata -> BTree C -> Prop) :
  cinv c -> hole cell_ok (view c) root mn (S h) p lo hi stL fpC lvL lvR mL mR fp lv m -> lo_ok lo key -> hi_ok key hi ->
  (forall ch lo' hi' stL' fpC' lvL' lvR' mL' mR' fp' lv' m' f st' c', same_pages c c' ->
     hole cell_ok (view c') root DEGREE h ch lo' hi' stL' fpC' lvL' lvR' mL' mR' fp' lv' m' -> lo_ok lo' key -> hi_ok key hi' ->
     mL' ++ m' ++ mR' = mL ++ m ++ mR -> length (fp' ++ fpC') = length (fp ++ fpC) ->
     returns (delete_descend fuel lsn key ch (Some f) st' mr) (mkBTree root free_mutex w c') Q) ->
  returns (delete_descend (S fuel) lsn key p old st mr) (mkBTree root free_mutex w c) Q.
Proof.
  intros Hc Hh Hlo Hhi HQ. pose proof Hh as (_ & Hrep & _). apply rep_page in Hrep as (pg & Hp & Hd & _).
  eapply delete_round; [done|done|done|]. intros f c1 Hf Hsp. pose proof Hsp as (Hc1 & Hv1 & Hr1).
  pose proof (hole_inner _ _ _ _ _ _ _ _ _ _ _ _ _ _ _ _ _ Hh Hp) as (Hsort & Hlen & Hpi).
  destruct (InsertBinarySearch_spec (pg_keys pg) key 0 Hsort) as (i & x & Hi & Hs); [by destruct (pg_keys pg); cbn in *; [lia|]|].
  pose proof (hole_down _ _ _ _ _ _ _ _ _ _ _ _ _ _ _ _ key pg i x Hh Hlo Hhi Hp Hs) as
    (ch & lo' & hi' & fpC' & lvL' & lvR' & mL' & mR' & fp' & lv' & m' & Hch & Hlo' & Hhi' & Hm' & Hfp' & Hh').
  assert (forall st', returns (or_panic (onC (c_MarkFrameDirty f));; delete_descend fuel lsn key ch (Some f) st' mr) (mkBTree root free_mutex w c1) Q) as Hgo.
  { intros st'. go_step. go_call markdirty_spec; [|done|by rewrite Hf, Hv1]. intros _ t' (c2 & -> & Hc2 & Hv2 & Hr2).
    eapply HQ; [by eapply same_pages_trans|rewrite Hv2, Hv1; exact Hh'|done|done|done|done]. }
  unfold deleteValue. node_simpl. rewrite Hpi, (proj2 (Nat.eqb_neq (length (pg_keys pg)) 0)) by lia. cbn [negb].
  go_step. eapply returns_lift; [exact Hi|]. rewrite Z.add_0_r. go_step. eapply returns_index; [apply Hs|].
  unfold child_pos in Hch. destruct (bytes_compare key x =? -1).
  - go_step. apply onL_returns. eexists _, _. split; [reflexivity|]. go_step. eapply returns_index; [exact Hch|]. go_step. apply Hgo.
  - go_step. apply onL_returns. eexists _, _. split; [reflexivity|]. go_step.
    replace (Z.of_nat i + 1) with (Z.of_nat (S i)) by lia. eapply returns_index; [exact Hch|]. go_step. apply Hgo.
Qed.

(** The key is not in the subtree. *)
Lemma delete_descend_absent root key lsn mr h : forall fuel p old st w c mn lo hi stL fpC lvL lvR mL mR fp lv m,
  cinv c -> hole cell_ok (view c) root mn h p lo hi stL fpC lvL lvR mL mR fp lv m -> lo_ok lo key -> hi_ok key hi ->
  (forall v, (key, v) ∉ mL ++ m ++ mR) -> (h < fuel)%nat ->
  returns (delete_descend fuel lsn key p old st mr) (mkBTree root free_mutex w c) (fun '(old', st', mr') t' =>
    exists c', t' = mkBTree root free_mutex w c' /\ mr' = mr /\ same_pages c c').
Proof.
  induction h as [|h IH]; intros fuel p old st w c mn lo hi stL fpC lvL lvR mL mR fp lv m Hc Hh Hlo Hhi Hno Hfuel.
  - pose proof Hh as (_ & Hrep & _). apply rep_page in Hrep as (pg & Hp & Hd & _).
    destruct (hole_leaf _ _ _ _ _ _ _ _ _ _ _ _ _ _ _ _ Hh Hp) as (Hs & _ & Hi & Hk & _).
    eapply delete_stop; [done|done|done|done|by rewrite Hk| |lia]. rewrite Hk. intros ([k' v] & -> & Hin)%list_elem_of_fmap.
    apply (Hno v). rewrite !elem_of_app. auto.
  - destruct fuel as [|fuel]; [lia|]. eapply delete_down; [done|exact Hh|done|done|].
    intros ch lo' hi' stL' fpC' lvL' lvR' mL' mR' fp' lv' m' f st' c' Hsp Hh' Hlo' Hhi' Hm' _.
    pose proof Hsp as (Hc' & _). eapply returns_mono; [|eapply IH; [done|exact Hh'|done|done|by rewrite Hm'|lia]].
    intros [[old' st2] mr2] t' (c2 & -> & -> & H2). exists c2. split_and!; [done|done|by eapply same_pages_trans].
Qed.

(** The key is in one leaf page, which has more than [DEGREE] bindings. *)
Definition roomy c (key : bytes) : Prop := exists p pg,
  view c !! p = Some pg /\ (DEGREE < length (pg_keys pg))%nat /\
  forall p' pg', view c !! p' = Some pg' -> pg_internal pg' = false -> key ∈ pg_keys pg' -> p' = p.

(** Page 1 is a leaf. *)
Definition first_leaf c : Prop := exists pg,
  view c !! 1 = Some pg /\ pg_dead pg = false /\ pg_internal pg = false /\ sorted (pg_keys pg).

Lemma same_pages_roomy c c' key : same_pages c c' -> roomy c key -> roomy c' key.
Proof. intros (_ & Hv & _) H. unfold roomy. by rewrite Hv. Qed.

Lemma same_pages_first c c' : same_pages c c' -> first_leaf c -> first_leaf c'.
Proof. intros (_ & Hv & _) H. unfold first_leaf. by rewrite Hv. Qed.

Lemma kv_remove_keys key m : sorted m.*1 -> sorted (kv_remove key m).*1 /\ key ∉ (kv_remove key m).*1.
Proof.
  intros Hs. split.
  - unfold kv_remove. induction m as [|[k v] m IH]; [done|]. rewrite fmap_cons in Hs. apply StronglySorted_inv in Hs as [Hs Hf].
    rewrite filter_cons. case_decide; [|by apply IH]. constructor; [by apply IH|].
    rewrite Forall_forall in *. intros x ([k' v'] & -> & Hin)%list_elem_of_fmap. apply list_elem_of_filter in Hin as [_ Hin].
    apply Hf. apply list_elem_of_fmap. eauto.
  - intros ([k' v'] & E & Hin)%list_elem_of_fmap. apply list_elem_of_filter in Hin as [Hne _]. by apply Hne.
Qed.

(** Page 1 after the removal: a leaf without the key. *)
Lemma first_after c key p pg P m : roomy c key -> first_leaf c -> view c !! p = Some pg ->
  pg_internal pg = false -> pg_dead pg = false -> key ∈ pg_keys pg -> sorted m.*1 ->
  links P = links pg -> pg_dead P = pg_dead pg -> pg_keys P = (kv_remove key m).*1 ->
  exists pg1, <[p := P]> (view c) !! 1 = Some pg1 /\ pg_dead pg1 = false /\ pg_internal pg1 = false /\
    sorted (pg_keys pg1) /\ key ∉ pg_keys pg1.
Proof.
  intros (q & pgq & _ & _ & Huniq) (pg1 & H1 & Hd1 & Hi1 & Hs1) Hp Hi Hd Hin Hs HlP HdP HkP.
  destruct (decide (p = 1)) as [->|Hne].
  - exists P. rewrite lookup_insert_eq, HdP, HkP. destruct (kv_remove_keys key m Hs). unfold links in HlP. injection HlP as _ ->.
    split_and!; done.
  - exists pg1. rewrite lookup_insert_ne by done. split_and!; try done. intros Hk.
    pose proof (Huniq _ _ Hp Hi Hin). pose proof (Huniq _ _ H1 Hi1 Hk). congruence.
Qed.

(** The key is in the subtree, in a leaf that stays full enough. *)
Lemma delete_descend_present root key lsn mr h : forall fuel p old st w c mn lo hi stL fpC lvL lvR mL mR fp lv m v,
  cinv c -> hole cell_ok (view c) root mn h p lo hi stL fpC lvL lvR mL mR fp lv m -> (mn <= DEGREE)%nat ->
  lo_ok lo key -> hi_ok key hi -> (lsn = [] -> key <> []) ->
  (key, v) ∈ mL ++ m ++ mR -> roomy c key -> first_leaf c -> (S h < fuel)%nat ->
  returns (delete_descend fuel lsn key p old st mr) (mkBTree root free_mutex w c) (fun '(old', st', mr') t' =>
    exists c' w' lsn' H, t' = mkBTree root free_mutex w' c' /\ mr' = mr /\ cinv c' /\ room c' = room c /\
      del_logged lsn key w lsn' w' /\
      tree cell_ok (view c') root H (length (fp ++ fpC)) (kv_remove key (mL ++ m ++ mR))).
Proof.
  induction h as [|h IH]; intros fuel p old st w c mn lo hi stL fpC lvL lvR mL mR fp lv m v Hc Hh Hmn Hlo Hhi Hlog Hin Hroomy Hfirst Hfuel;
    (destruct fuel as [|fuel]; [lia|]).
  - pose proof Hh as (_ & Hrep & _). apply rep_page in Hrep as (pg & Hp & Hd & _).
    destruct (hole_leaf _ _ _ _ _ _ _ _ _ _ _ _ _ _ _ _ Hh Hp) as (Hs & _ & Hi & Hk & _).
    apply (hole_lookup _ _ _ _ _ _ _ _ _ _ _ _ _ _ _ _ key v Hh Hlo Hhi) in Hin.
    assert (key ∈ pg_keys pg) as Hkin by (rewrite Hk; apply list_elem_of_fmap; by exists (key, v)).
    assert (DEGREE < length m)%nat as Hlen.
    { destruct Hroomy as (q & pgq & Hq & Hl & Hu). rewrite <- (Hu _ _ Hp Hi Hkin) in Hq. rewrite Hp in Hq. injection Hq as <-.
      by rewrite Hk, length_fmap in Hl. }
    eapply delete_round; [done|done|done|]. intros f c1 Hf Hsp. pose proof Hsp as (Hc1 & Hv1 & Hr1).
    rewrite <- Hv1 in Hh, Hp. apply (same_pages_roomy _ _ _ Hsp) in Hroomy. apply (same_pages_first _ _ Hsp) in Hfirst.
    go_call deleteValue_present; [|done|exact Hh|done|done|done|done|exact Hp|done|exact Hin|done].
    intros [[next st'] mr'] t' (c2 & w2 & lsn2 & P & -> & -> & -> & -> & Hdl & (Hc2 & Hv2 & Hr2 & _) & HlP & HdP & HkP & Htree).
    go_step. go_call markdirty_spec; [|done|by rewrite Hf, Hv2, lookup_insert_eq]. intros _ t' (c3 & -> & Hc3 & Hv3 & Hr3).
    destruct (first_after _ _ _ _ _ _ Hroomy Hfirst Hp Hi Hd Hkin Hs HlP HdP HkP) as (pg1 & H1 & Hd1 & Hi1 & Hs1 & Hk1).
    eapply returns_mono; [|eapply (delete_stop fuel lsn key 1); [done|by rewrite Hv3, Hv2|done|done|done|done|lia]].
    intros [[old' st2] mr2] t' (c4 & -> & -> & Hc4 & Hv4 & Hr4). eexists c4, w2, lsn2, _.
    split_and!; [done|done|done|lia|done|]. rewrite Hv4, Hv3, Hv2. exact Htree.
  - eapply delete_down; [done|exact Hh|done|done|].
    intros ch lo' hi' stL' fpC' lvL' lvR' mL' mR' fp' lv' m' f st' c' Hsp Hh' Hlo' Hhi' Hm' Hfp'.
    pose proof Hsp as (Hc' & Hv' & Hr'). rewrite <- Hm', <- Hfp', <- Hr'. rewrite <- Hm' in Hin.
    eapply IH; [done|exact Hh'|done|done|done|done|exact Hin|by eapply same_pages_roomy|by eapply same_pages_first|lia].
Qed.

(** ** [DeleteValue] *)

Lemma returns_eq {A} (m m' : MT A) t Q : m t = m' t -> returns m' t Q -> returns m t Q.
Proof. intros E H. unfold returns. by rewrite E. Qed.

Lemma DeleteValue_start fuel key keys lsn root w c : 0 < root < 2 ^ 31 ->
  DeleteValue fuel (key :: keys) lsn (mkBTree root free_mutex w c) =
  ('(oldFrame, st, mr) ← delete_descend fuel lsn key root None (NewBTStack root) empty_merge;
   ignore (release_opt oldFrame);; st ← delete_propagate fuel key mr st; onL Clear st;; mret true) (mkBTree root free_mutex w c).
Proof.
  intros Hr. unfold DeleteValue, gets, mu_RLock, mu_RUnlock, mbind, M_bind. cbn.
  rewrite (proj2 (Z.eqb_neq _ _)), pid_i32 by lia. done.
Qed.

Lemma DeleteValue_end fuel key old st mr root w c : cinv c -> merged mr = false -> rebalanceKey mr = [] ->
  returns (ignore (release_opt old);; st ← delete_propagate fuel key mr st; onL Clear st;; mret true) (mkBTree root free_mutex w c)
    (fun b t' => b = true /\ exists c', t' = mkBTree root free_mutex w c' /\ same_pages c c').
Proof.
  intros Hc Hmg Hrb. go_step. go_call ignore_release_opt; [|done]. intros _ t' (c1 & -> & Hc1 & Hv1 & Hr1).
  go_step. destruct fuel; cbn [delete_propagate]; rewrite Hmg, Hrb; cbn [length Nat.eqb negb orb]; go_step;
    (go_step; apply onL_returns; go_call Clear_any; intros b s' _; go_step; split; [done|]; by exists c1).
Qed.

Lemma DeleteValue_absent K fuel key keys lsn t m : bt_inv K t m -> m <> [] -> key ∉ m.*1 -> (length m <= fuel)%nat ->
  returns (DeleteValue fuel (key :: keys) lsn) t (fun b t' => b = true /\ bt_inv K t' m /\ bt_wal t' = bt_wal t).
Proof.
  intros Hinv Hne Hno Hfuel. pose proof Hinv as (Hc & Hmu & Ht). destruct t as [root mu w c]. cbn [bt_cache bt_mu Root bt_wal] in *. subst mu.
  destruct Ht as [(_ & -> & _)|(Hroot & h & nfp & Htree & _)]; [done|].
  destruct (tree_hole _ _ _ _ _ _ Htree) as (fp & lv & Hh & _).
  destruct Htree as (fp0 & lv0 & Hrep0 & _). apply rep_sizes in Hrep0 as [Hsz _].
  eapply returns_eq; [by apply DeleteValue_start|]. go_step.
  go_call (delete_descend_absent root key lsn empty_merge h fuel); [|done|exact Hh|done|done| |lia].
  2: { cbn. intros v Hin. rewrite app_nil_r in Hin. apply Hno, list_elem_of_fmap. by exists (key, v). }
  intros [[old st] mr] t' (c1 & -> & -> & Hsp). pose proof Hsp as (Hc1 & Hv1 & Hr1).
  go_call DeleteValue_end; [|done|done|done]. intros b t' (-> & c2 & -> & Hc2 & Hv2 & Hr2). split_and!; [done| |done].
  apply (bt_inv_pages K _ m c2 Hinv); [done|cbn; congruence|cbn; congruence].
Qed.

Lemma DeleteValue_present K fuel key keys lsn t m v : bt_inv K t m -> (key, v) ∈ m -> (lsn = [] -> key <> []) ->
  roomy (bt_cache t) key -> first_leaf (bt_cache t) -> (length m < fuel)%nat ->
  returns (DeleteValue fuel (key :: keys) lsn) t (fun b t' => b = true /\ bt_inv K t' (kv_remove key m) /\
    exists lsn', del_logged lsn key (bt_wal t) lsn' (bt_wal t')).
Proof.
  intros Hinv Hin Hlog Hroomy Hfirst Hfuel. pose proof Hinv as (Hc & Hmu & Ht). destruct t as [root mu w c]. cbn [bt_cache bt_mu Root bt_wal] in *. subst mu.
  destruct Ht as [(_ & -> & _)|(Hroot & h & nfp & Htree & HK)]; [by apply not_elem_of_nil in Hin|].
  destruct (tree_hole _ _ _ _ _ _ Htree) as (fp & lv & Hh & Hfp).
  destruct Htree as (fp0 & lv0 & Hrep0 & _). apply rep_sizes in Hrep0 as [Hsz _].
  eapply returns_eq; [by apply DeleteValue_start|]. go_step.
  go_call (delete_descend_present root key lsn empty_merge h fuel);
    [|done|exact Hh|unfold DEGREE; lia|done|done|done|cbn; rewrite app_nil_r; exact Hin|done|done|lia].
  intros [[old st] mr] t' (c1 & w1 & lsn1 & H & -> & -> & Hc1 & Hr1 & Hdl & Htree).
  cbn [app] in Htree. rewrite !app_nil_r, Hfp in Htree.
  go_call DeleteValue_end; [|done|done|done]. intros b t' (-> & c2 & -> & Hc2 & Hv2 & Hr2). split_and!; [done| |by exists lsn1].
  split_and!; [done|done|]. right. split; [done|]. exists H, nfp. cbn. rewrite Hv2, Hr2, Hr1. done.
Qed.
(** The index is one leaf with at most [DEGREE] bindings. *)
Definition last_leaf t : Prop := exists pg,
  view (bt_cache t) !! Root t = Some pg /\ pg_internal pg = false /\ (length (pg_keys pg) <= DEGREE)%nat.

Lemma DeleteValue_last K fuel key keys lsn t m v : bt_inv K t m -> (key, v) ∈ m -> (lsn = [] -> key <> []) ->
  last_leaf t -> (0 < fuel)%nat ->
  returns (DeleteValue fuel (key :: keys) lsn) t (fun b t' => b = true /\
    bt_inv (if decide (kv_remove key m = []) then K - 1 else K) t' (kv_remove key m) /\
    exists lsn', del_logged lsn key (bt_wal t) lsn' (bt_wal t')).
Proof.
  intros Hinv Hin Hlog (pg & Hp & Hi & Hlen) Hfuel. pose proof Hinv as (Hc & Hmu & Ht).
  destruct t as [root mu w c]. cbn [bt_cache bt_mu Root bt_wal] in *. subst mu.
  destruct Ht as [(_ & -> & _)|(Hroot & h & nfp & Htree & HK)]; [by apply not_elem_of_nil in Hin|].
  assert (h = 0%nat) as -> by (eapply tree_leaf_height; done).
  destruct (root_leaf_page _ _ _ _ Htree) as (pg' & Hp' & Hcore & _ & _ & ->).
  rewrite Hp in Hp'. injection Hp' as <-. injection Hcore as Hpk _ _ _ Hpd _. rewrite Hpk, length_fmap in Hlen.
  eapply returns_eq; [by apply DeleteValue_start|]. go_step. destruct fuel as [|fuel]; [lia|].
  eapply delete_round; [done|done|done|]. intros f c1 Hf Hsp. pose proof Hsp as (Hc1 & Hv1 & Hr1).
  go_call deleteValue_last; [|done|done|by rewrite Hv1|by rewrite Hv1|done|done|done|done].
  intros [[next st'] mr'] t' (c2 & w2 & lsn2 & root' & -> & -> & Hmg & Hrb & Hdl & Hc2 & [P HP] & Hr2 & Hend).
  go_step. go_call markdirty_spec; [|done|by rewrite Hf]. intros _ t' (c3 & -> & Hc3 & Hv3 & Hr3).
  destruct fuel; cbn [delete_descend]; change (negb (-1 >? 0)) with true; cbv iota; go_step;
    (go_call DeleteValue_end; [|done|done|done]; intros b t' (-> & c4 & -> & Hc4 & Hv4 & Hr4);
     split_and!; [done| |by exists lsn2]; split_and!; [done|done|]; cbn [Root bt_cache];
     destruct Hend as [[-> Hrem]|[-> Htree']];
     [left; rewrite decide_True by done; split_and!; [done|done|lia]
     |right; split; [done|]; exists 0%nat, 1%nat; rewrite Hv4, Hv3, decide_False; [split; [done|lia]|]]).
  all: destruct (root_leaf_page _ _ _ _ Htree') as (_ & _ & _ & _ & (_ & _ & Hl1 & _) & _); intros E; rewrite E in Hl1; cbn in Hl1; lia.
Qed.
End Remove.
