(* ===== verification/BTreeShare.v ===== *)
(** * Deletion: sharing out two leaves

    The redistribution branch of [DeleteValue] on the smallest tree that has it: a
    root with one separator over two leaves.  A leaf that falls below [DEGREE]
    bindings takes some of its sibling's, and the root's separator is replaced.  (With
    more separators the code inserts a second one; see [delete_breaks_lookup].) *)

From S2P Require Import Prelude Keys Helpers BTStack Wal BTree BTreeDelete CacheSpec BTreeInv BTreeNode BTreeShape BTreeInsert BTreeRead BTreeRemove.
Local Open Scope Z_scope.
Local Open Scope key_scope.

Section Pair.
Context (ok : bytes -> Prop).

(** The root [root] with the separator [s] over the leaves [a] and [b]. *)
Record pair (V : pages) (root : Z) (s : bytes) (a b : Z) (pr pa pb : Page) (ma mb : kvs) : Prop := {
  pair_root : V !! root = Some pr;
  pair_a : V !! a = Some pa;
  pair_b : V !! b = Some pb;
  pair_root_core : core pr = inner_core [s] [a; b] (pg_right pr);
  pair_root_right : pg_right pr = 0 \/ pg_right pr = root;
  pair_sep : ok s;
  pair_a_core : core pa = leaf_core ma b;
  pair_a_left : pg_left pa = 0;
  pair_b_core : core pb = leaf_core mb 0;
  pair_b_left : pg_left pb = a;
  pair_a_ok : leaf_ok ok DEGREE None (Some s) ma;
  pair_b_ok : leaf_ok ok DEGREE (Some s) None mb;
  pair_nodup : NoDup [root; a; b]
}.

(** The leaves after the bindings [m] were shared out between them, with the root
    as it was. *)
Record shared (V V' : pages) (root a b : Z) (m : kvs) : Prop := {
  shared_root : V' !! root = V !! root;
  shared_a : exists P, V' !! a = Some P /\ core P = leaf_core (take (length m / 2) m) b /\ pg_left P = 0;
  shared_b : exists P, V' !! b = Some P /\ core P = leaf_core (drop (length m / 2) m) 0 /\ pg_left P = a
}.

Lemma chain_two R lo s cs hi fp lv m : chain R lo [s] cs hi fp lv m -> exists a b fa fb la lb ma mb,
  cs = [a; b] /\ R a lo (Some s) fa la ma /\ R b (Some s) hi fb lb mb /\ fp = fa ++ fb /\ lv = la ++ lb /\ m = ma ++ mb.
Proof.
  intros H. inversion H as [|? ? ? a ? ? fa la ma ? ? ? Ha Hc]; subst. inversion Hc as [? ? b|]; subst.
  do 8 eexists. split_and!; done.
Qed.

(** A tree whose root has one separator and a leaf as its first child. *)
Lemma tree_pair V root h nfp m pr s a b pa : tree ok V root h nfp m ->
  V !! root = Some pr -> pg_internal pr = true -> pg_keys pr = [s] -> pg_children pr = [a; b] ->
  V !! a = Some pa -> pg_internal pa = false ->
  exists pb ma mb, pair V root s a b pr pa pb ma mb /\ m = ma ++ mb /\ nfp = 3%nat /\ h = 1%nat.
Proof.
  intros (fp & lv & Hrep & Hnd & Hs & Hl & <-) Hr Hri Hk Hch Ha Hai. destruct h as [|h].
  { destruct Hrep as (_ & _ & _ & r & Hr'). rewrite Hr in Hr'. cbn in Hr'. injection Hr' as _ _ _ Hi _ _. congruence. }
  destruct Hrep as (ks & cs & r & fpc & -> & [_ Hok] & Hcr & Hc). rewrite Hr in Hcr. apply (inj Some) in Hcr.
  pose proof Hcr as Hcr'. injection Hcr' as Ek _ Ec _ _ Er. rewrite Hk in Ek. rewrite Hch in Ec. subst ks cs r.
  apply chain_two in Hc as (a' & b' & fa & fb & la & lb & ma & mb & [= <- <-] & Hra & Hrb & -> & -> & ->).
  destruct h as [|h].
  2: { destruct Hra as (? & ? & ? & ? & _ & _ & Ha' & _). rewrite Ha in Ha'. cbn in Ha'. injection Ha' as _ _ _ Hi _ _. congruence. }
  destruct Hra as (-> & -> & Hma & r1 & Ha'). destruct Hrb as (-> & -> & Hmb & r2 & Hb').
  cbn in Hl. destruct Hl as [(pa' & Ea & _ & Hal & Har) [(pb & Hb & _ & Hbl & Hbr) _]]. assert (pa' = pa) as -> by congruence.
  rewrite Ha in Ha'. rewrite Hb in Hb'. apply (inj Some) in Ha', Hb'.
  exists pb, ma, mb. split_and!; [|done|done|done]. rewrite Forall_singleton in Hok.
  assert (core pa = leaf_core ma b) by (rewrite Ha'; injection Ha' as _ _ _ _ _ <-; by rewrite Har).
  assert (core pb = leaf_core mb 0) by (rewrite Hb'; injection Hb' as _ _ _ _ _ <-; by rewrite Hbr).
  split; try done.
  destruct (Hs root pr ltac:(by left) Hr) as [?|[Hin (pg' & Hpg' & Hi')]]; [by left|right]. cbn in Hin.
  apply elem_of_cons in Hin as [->|[E|[E|[]%elem_of_nil]%elem_of_cons]%elem_of_cons]; [done|..]; rewrite E in Hpg'.
  - congruence.
  - injection Hb' as _ _ _ Hbi _ _. congruence.
Qed.

Lemma pair_tree V root s a b pr pa pb ma mb : pair V root s a b pr pa pb ma mb -> tree ok V root 1 3 (ma ++ mb).
Proof.
  intros [Hr Ha Hb Hrc Hrr Hs Hac Hal Hbc Hbl Hma Hmb Hnd]. pose proof Hac as [=]. pose proof Hbc as [=].
  exists [root; a; b], [a; b]. split_and!; [|done| | |done].
  - cbn. exists [s], [a; b], (pg_right pr), [a; b]. split_and!; [done| |by rewrite Hr; cbn; rewrite Hrc|].
    { split; [cbn; unfold ORDER, DEGREE; lia|by apply Forall_singleton]. }
    apply (chain_cons _ _ _ _ _ _ _ [a] [a] ma [b] [b] mb); [|apply chain_one]; cbn; split_and!; try done;
      [exists b; by rewrite Ha; cbn; rewrite Hac|exists 0; by rewrite Hb; cbn; rewrite Hbc].
  - intros x pg Hx Hpg. apply elem_of_cons in Hx as [->|[->|[->|[]%elem_of_nil]%elem_of_cons]%elem_of_cons].
    + rewrite Hr in Hpg. injection Hpg as <-. destruct Hrr as [?|E]; [by left|right]. rewrite E. split; [by left|eauto].
    + rewrite Ha in Hpg. injection Hpg as <-. right. replace (pg_right pa) with b by congruence. split; [set_solver|].
      exists pb. split; [done|congruence].
    + rewrite Hb in Hpg. injection Hpg as <-. left. congruence.
  - cbn. split_and!; [|by exists pb|done]. exists pa. split_and!; try done; congruence.
Qed.

(** The bindings of both leaves, cut at the middle, make two leaves. *)
Lemma share_halves lo hi m : leaf_content ok lo hi m -> (ORDER <= length m <= ORDER + 1)%nat ->
  exists k v, m !! (length m / 2)%nat = Some (k, v) /\ ok k /\
    leaf_ok ok DEGREE lo (Some k) (take (length m / 2) m) /\ leaf_ok ok DEGREE (Some k) hi (drop (length m / 2) m).
Proof.
  intros Hm Hlen. set (mid := (length m / 2)%nat).
  assert (mid = 2)%nat as Hmid.
  { unfold ORDER, DEGREE in Hlen. assert (length m = 4 \/ length m = 5)%nat as [E|E] by lia; unfold mid; by rewrite E. }
  destruct (lookup_lt_is_Some_2 m mid) as [[k v] Hkv]; [unfold ORDER, DEGREE in Hlen; lia|].
  assert (m.*1 !! mid = Some k) as Hk by (by rewrite list_lookup_fmap, Hkv).
  destruct (leaf_content_halves ok _ _ _ _ _ Hm Hk) as [H1 H2]. exists k, v. split_and!; [done| |..].
  - destruct Hm as (_ & _ & Hok & _). by eapply Forall_lookup_1.
  - apply leaf_ok_content; [done|rewrite length_take..]; unfold ORDER, DEGREE in *; lia.
  - apply leaf_ok_content; [done|rewrite length_drop..]; unfold ORDER, DEGREE in *; lia.
Qed.

Lemma pair_content V root s a b pr pa pb ma mb : pair V root s a b pr pa pb ma mb -> leaf_content ok None None (ma ++ mb).
Proof.
  intros Hp. pose proof (pair_tree _ _ _ _ _ _ _ _ _ _ Hp) as (fp & lv & Hr & _). apply rep_bounded in Hr as (_ & Hs & Hb).
  destruct (pair_a_ok _ _ _ _ _ _ _ _ _ _ Hp) as (_ & _ & _ & _ & ? & ?).
  destruct (pair_b_ok _ _ _ _ _ _ _ _ _ _ Hp) as (_ & _ & _ & _ & ? & ?).
  split_and!; [done|done|rewrite fmap_app; by apply Forall_app..].
Qed.

Lemma leaf_content_remove lo hi key m : leaf_content ok lo hi m -> leaf_content ok lo hi (kv_remove key m).
Proof.
  intros (Hs & Hb & H1 & H2). split; [by apply kv_remove_keys|]. unfold kv_remove.
  rewrite !Forall_fmap, !Forall_forall in *. split_and!; intros x [_ Hx]%list_elem_of_filter; auto.
Qed.

(** The new separator in the root makes a tree again. *)
Lemma shared_tree V V' root s a b pr pa pb ma mb m Pr k v :
  pair V root s a b pr pa pb ma mb -> shared V V' root a b m ->
  leaf_content ok None None m -> (ORDER <= length m <= ORDER + 1)%nat -> m !! (length m / 2)%nat = Some (k, v) ->
  core Pr = inner_core [k] [a; b] (pg_right pr) -> tree ok (<[root := Pr]> V') root 1 3 m.
Proof.
  intros Hp [_ (Pa & Ha & Hac & Hal) (Pb & Hb & Hbc & Hbl)] Hm Hlen Hk HPr.
  destruct (share_halves _ _ _ Hm Hlen) as (k' & v' & Hk' & Hok & H1 & H2). rewrite Hk in Hk'. injection Hk' as <- <-.
  pose proof (pair_nodup _ _ _ _ _ _ _ _ _ _ Hp) as Hnd. pose proof (pair_root_right _ _ _ _ _ _ _ _ _ _ Hp) as Hrr.
  pose proof Hnd as [Hni _]%NoDup_cons. assert (root <> a /\ root <> b) as [Hna Hnb] by set_solver.
  assert (pg_right Pr = pg_right pr) as Hr by (by injection HPr).
  rewrite <- (take_drop (length m / 2) m). eapply (pair_tree _ root k a b Pr Pa Pb). split; try done.
  - by rewrite lookup_insert_eq.
  - by rewrite lookup_insert_ne.
  - by rewrite lookup_insert_ne.
  - by rewrite HPr, Hr.
  - by rewrite Hr.
Qed.

End Pair.

(** A node with other bindings. *)
Definition stored (m : kvs) (n : Node) : Node := set_Values m.*2 (set_Keys m.*1 n).

Section Share.
Context {C F : Type} `{!CacheOps C F} `{!PageCache C F}.
Implicit Types (c : C) (t : BTree C) (f : F).

Lemma leaf_redistribute_spec mr n f sib sf (right : bool) tot k v px py root mu w c :
  cinv c -> view c !! fr_Key f = Some px -> view c !! fr_Key sf = Some py -> fr_Key f <> fr_Key sf ->
  (if right then Keys n ++ Keys sib else Keys sib ++ Keys n) = tot.*1 ->
  (if right then Values n ++ Values sib else Values sib ++ Values n) = tot.*2 ->
  tot !! (length tot / 2)%nat = Some (k, v) ->
  (length (take (length tot / 2) tot) <= ORDER)%nat -> (length (drop (length tot / 2) tot) <= ORDER)%nat ->
  Forall cell_ok tot.*1 -> Forall cell_ok tot.*2 ->
  returns (leaf_redistribute mr n f sib sf right) (mkBTree root mu w c) (fun r t' => exists mr' c',
    r = (mr', None) /\ rebalanceKey mr' = k /\ merged mr' = merged mr /\ t' = mkBTree root mu w c' /\
    cinv c' /\ room c' = room c /\
    view c' = <[fr_Key sf := node_page py (stored (if right then drop (length tot / 2) tot else take (length tot / 2) tot) sib)]>
             (<[fr_Key f := node_page px (stored (if right then take (length tot / 2) tot else drop (length tot / 2) tot) n)]> (view c))).
Proof.
  intros Hc Hx Hy Hne HK HV Hk Hl1 Hl2 Ok Ov. unfold leaf_redistribute. rewrite HK, HV, !length_fmap.
  set (mid := (length tot / 2)%nat) in *. rewrite (proj2 (Nat.ltb_ge _ _)) by (apply lookup_lt_Some in Hk; lia).
  rewrite <- !fmap_take, <- !fmap_drop. fold (stored (take mid tot) n) (stored (drop mid tot) n) (stored (take mid tot) sib) (stored (drop mid tot) sib).
  assert (forall m : kvs, m = take mid tot \/ m = drop mid tot ->
    (length m.*1 <= ORDER)%nat /\ Forall cell_ok m.*1 /\ Forall cell_ok m.*2) as Hhalf.
  { intros m [->| ->]; rewrite length_fmap, ?fmap_take, ?fmap_drop; split_and!; try done;
      first [by apply Forall_take|by apply Forall_drop]. }
  assert (Keys (if right then stored (drop mid tot) sib else stored (drop mid tot) n) !! 0%nat = Some k) as H0.
  { assert ((drop mid tot).*1 !! 0%nat = Some k) by (by rewrite list_lookup_fmap, lookup_drop, Nat.add_0_r, Hk). by destruct right. }
  go_step. replace (Keys (if right then _ else _)) with (Keys (if right then stored (drop mid tot) sib else stored (drop mid tot) n)) by (by destruct right).
  change 0 with (Z.of_nat 0) at 1. eapply returns_index; [exact H0|].
  set (n' := if right then stored (take mid tot) n else stored (drop mid tot) n).
  set (sib' := if right then stored (drop mid tot) sib else stored (take mid tot) sib).
  assert ((length (Keys n') <= ORDER)%nat /\ Forall cell_ok (Keys n') /\ Forall cell_ok (Values n')) as (A1 & A2 & A3)
    by (unfold n'; destruct right; apply Hhalf; auto).
  assert ((length (Keys sib') <= ORDER)%nat /\ Forall cell_ok (Keys sib') /\ Forall cell_ok (Values sib')) as (B1 & B2 & B3)
    by (unfold sib'; destruct right; apply Hhalf; auto).
  go_step. go_step. go_call sync_node_spec; [|done|exact Hx|done|done|done]. intros _ t' (c1 & -> & Hs1). pose proof Hs1 as (Hc1 & Hv1 & Hr1 & _).
  go_step. go_step. go_call sync_node_spec; [|done|by rewrite Hv1, lookup_insert_ne|done|done|done]. intros _ t' (c2 & -> & Hs2).
  pose proof Hs2 as (Hc2 & Hv2 & Hr2 & _).
  go_step. go_call markdirty_spec; [|done|by rewrite Hv2, lookup_insert_eq]. intros _ t' (c3 & -> & Hc3 & Hv3 & Hr3).
  go_step. eexists _, c3. split_and!; [reflexivity|done|done|done|done|lia|].
  rewrite Hv3, Hv2, Hv1. unfold n', sib'. by destruct right.
Qed.
(** A leaf with [DEGREE] bindings loses one and shares out with its sibling. *)
Lemma deleteValue_borrow (right : bool) x y px py mo my key v f lsn st mr root mu w c (tot := if right then kv_remove key mo ++ my else my ++ kv_remove key mo) :
  cinv c -> view c !! x = Some px -> view c !! y = Some py -> x <> y -> core px = leaf_core mo (pg_right px) -> core py = leaf_core my (pg_right py) ->
  (pg_right px >? 0) = right -> (if right then pg_right px else pg_left px) = y -> sorted mo.*1 ->
  (key, v) ∈ mo -> length mo = DEGREE -> (DEGREE < length my <= ORDER)%nat -> leaf_content cell_ok None None tot ->
  (lsn = [] -> key <> []) -> fr_Key f = x ->
  returns (deleteValue lsn (node_of x px) f key st mr) (mkBTree root mu w c) (fun '(next, st', mr') t' => exists c' w' lsn' v',
    t' = mkBTree root mu w' c' /\ next = -1 /\ st' = st /\ merged mr' = merged mr /\ tot !! (length tot / 2)%nat = Some (rebalanceKey mr', v') /\
    del_logged lsn key w lsn' w' /\ cinv c' /\ room c' = room c /\ length tot = (length my + 1)%nat /\
    view c' = <[y := node_page py (stored (if right then drop (length tot / 2) tot else take (length tot / 2) tot) (node_of y py))]>
             (<[x := node_page px (stored (if right then take (length tot / 2) tot else drop (length tot / 2) tot) (set_lsn lsn' (node_of x px)))]> (view c))).
Proof.
  intros Hc Hx Hy Hne Hcx Hcy Hright Hsib Hsort Hin Hmo Hmy Htot Hlog Hf. injection Hcx as Hxk Hxv _ Hxi _. injection Hcy as Hyk Hyv _ Hyi Hyd.
  pose proof (view_range _ _ _ Hc Hy) as Hyr.
  eapply deleteValue_found; [by eapply view_range|done|done|done|done|done|done|].
  intros l r w' lsn' Hm Hrem Hdl. unfold leaf_rest, leaf_node, handleLeafUnderflow. node_simpl.
  assert (length (l ++ r) = 1)%nat as Hl1 by (rewrite Hm, length_app in Hmo; cbn in Hmo; rewrite length_app; unfold DEGREE in Hmo; lia).
  assert (length tot = length my + 1)%nat as Hlt by (unfold tot; rewrite Hrem; destruct right; rewrite length_app; lia).
  rewrite length_fmap, Hl1, Hxi. change (1 <? DEGREE)%nat with true. cbn [negb]. rewrite Hright, Hsib.
  assert (right || (pg_left px >? 0) = true) as ->.
  { destruct right; [done|]. rewrite Hsib, Z.gtb_ltb. cbn. apply Z.ltb_lt. lia. }
  destruct (share_halves cell_ok _ _ tot Htot) as (k & v' & Hk & _ & (_ & _ & _ & H1 & _) & (_ & _ & _ & H2 & _)); [unfold ORDER, DEGREE in *; lia|].
  destruct Htot as (_ & _ & Ok & Ov).
  go_step. unfold guard. go_step. go_step. rewrite pid_u32 by lia.
  go_call buildPage_spec; [|done|exact Hy|done]. intros [sf sib] t' (c1 & -> & Hsf & -> & (Hc1 & Hv1 & Hr1 & _) & _). node_simpl.
  rewrite Hyk, length_fmap, (proj2 (Nat.leb_le _ _)) by (unfold ORDER, DEGREE in *; lia).
  go_call (leaf_redistribute_spec _ _ f _ sf right tot k v' px py); [|done|by rewrite Hf, Hv1|by rewrite Hsf, Hv1|congruence|..|exact Hk|done|done|done|done].
  - intros [mr' e] t' (mr2 & c2 & [= -> ->] & Hrb & Hmg & -> & Hc2 & Hr2 & Hv2). go_step.
    exists c2, w', lsn', v'. rewrite Hrb. split_and!; [done|done|done|by rewrite Hmg|done|done|done|lia|done|].
    rewrite Hv2, Hsf, Hf, Hv1. done.
  - node_simpl. rewrite Hyk. unfold tot. rewrite Hrem. destruct right; by rewrite !fmap_app.
  - node_simpl. rewrite Hyi, Hyv. unfold tot. rewrite Hrem. destruct right; by rewrite !fmap_app.
Qed.
(** Both leaves of a pair, in either direction. *)
Lemma deleteValue_share root mu w c s a b pr pa pb ma mb p pg key v f lsn st mr :
  cinv c -> pair cell_ok (view c) root s a b pr pa pb ma mb -> (lsn = [] -> key <> []) -> fr_Key f = p ->
  (p = a /\ pg = pa /\ (key, v) ∈ ma /\ length ma = DEGREE /\ (DEGREE < length mb)%nat \/
   p = b /\ pg = pb /\ (key, v) ∈ mb /\ length mb = DEGREE /\ (DEGREE < length ma)%nat) ->
  returns (deleteValue lsn (node_of p pg) f key st mr) (mkBTree root mu w c) (fun '(next, st', mr') t' => exists c' w' lsn' v' m,
    m = kv_remove key (ma ++ mb) /\ t' = mkBTree root mu w' c' /\ next = -1 /\ st' = st /\ merged mr' = merged mr /\
    m !! (length m / 2)%nat = Some (rebalanceKey mr', v') /\ del_logged lsn key w lsn' w' /\ cinv c' /\ room c' = room c /\
    (ORDER <= length m <= ORDER + 1)%nat /\ shared (view c) (view c') root a b m).
Proof.
  intros Hc Hp Hlog Hf Hcase. pose proof (leaf_content_remove cell_ok _ _ key _ (pair_content _ _ _ _ _ _ _ _ _ _ _ Hp)) as Htot.
  destruct Hp as [Hr Ha Hb _ _ _ Hac Hal Hbc Hbl Hma Hmb Hnd].
  assert (pg_right pa = b) as Har by (by injection Hac). assert (pg_right pb = 0) as Hbr by (by injection Hbc).
  pose proof (view_range _ _ _ Hc Ha) as Har'. pose proof (view_range _ _ _ Hc Hb) as Hbr'.
  assert (root <> a /\ root <> b /\ a <> b) as (Hra & Hrb & Hab) by (apply NoDup_cons in Hnd as [? [? _]%NoDup_cons]; set_solver).
  destruct Hma as (Hsa & Hba & _ & Hla & _). destruct Hmb as (Hsb & Hbb & _ & Hlb & _). rewrite Forall_forall in Hba, Hbb.
  assert (forall k v v', (k, v) ∈ ma -> (k, v') ∉ mb) as Hdis.
  { intros k v1 v2 H1 H2. destruct (Hba k) as [_ Hlt]; [apply list_elem_of_fmap; by exists (k, v1)|].
    destruct (Hbb k) as [Hge _]; [apply list_elem_of_fmap; by exists (k, v2)|]. cbn in *.
    apply (key_lt_irrefl k). by eapply key_lt_le_trans. }
  unfold kv_remove in Htot. rewrite filter_app in Htot.
  destruct Hcase as [(-> & -> & Hin & Hl & Hl')|(-> & -> & Hin & Hl & Hl')].
  - assert (kv_remove key (ma ++ mb) = kv_remove key ma ++ mb) as Hm.
    { unfold kv_remove. rewrite filter_app. f_equal. apply (kv_remove_id key mb). eauto. }
    go_call (deleteValue_borrow true a b pa pb ma mb key v f); [|done|done|done|done|by rewrite Har|by rewrite Hbr| |done|done|done|done|done| |done|done].
    2: { rewrite Har, Z.gtb_ltb. apply Z.ltb_lt. lia. }
    2: { cbv zeta iota. rewrite <- Hm. unfold kv_remove. by rewrite filter_app. }
    cbv zeta iota. rewrite <- Hm. intros [[next st'] mr'] t' (c' & w' & lsn' & v' & -> & -> & -> & Hmg & Hk & Hdl & Hc' & Hr' & Hlen & Hv').
    exists c', w', lsn', v', (kv_remove key (ma ++ mb)). split_and!; try done; [unfold ORDER, DEGREE in *; lia..|]. rewrite Hv'. injection Hac as _ _ _ Hai Had _. injection Hbc as _ _ _ Hbi Hbd _.
    split; [by rewrite !lookup_insert_ne|rewrite lookup_insert_ne, lookup_insert_eq by done|rewrite lookup_insert_eq]; (eexists; split_and!; [done|..]).
    all: unfold core, node_page, leaf_core, stored; cbn; rewrite ?Hai, ?Had, ?Hbi, ?Hbd, ?Har, ?Hal, ?Hbr, ?Hbl, pid_i32 by lia; done.
  - assert (kv_remove key (ma ++ mb) = ma ++ kv_remove key mb) as Hm.
    { unfold kv_remove. rewrite filter_app. f_equal. apply (kv_remove_id key ma). intros v' Hv'. by eapply Hdis. }
    go_call (deleteValue_borrow false b a pb pa mb ma key v f); [|done|done|done|done|by rewrite Hbr|by rewrite Har| |done|done|done|done|done| |done|done].
    2: { by rewrite Hbr. }
    2: { cbv zeta iota. rewrite <- Hm. unfold kv_remove. by rewrite filter_app. }
    cbv zeta iota. rewrite <- Hm. intros [[next st'] mr'] t' (c' & w' & lsn' & v' & -> & -> & -> & Hmg & Hk & Hdl & Hc' & Hr' & Hlen & Hv').
    exists c', w', lsn', v', (kv_remove key (ma ++ mb)). split_and!; try done; [unfold ORDER, DEGREE in *; lia..|]. rewrite Hv'. injection Hac as _ _ _ Hai Had _. injection Hbc as _ _ _ Hbi Hbd _.
    split; [by rewrite !lookup_insert_ne|rewrite lookup_insert_eq|rewrite lookup_insert_ne, lookup_insert_eq by done]; (eexists; split_and!; [done|..]).
    all: unfold core, node_page, leaf_core, stored; cbn; rewrite ?Hai, ?Had, ?Hbi, ?Hbd, ?Har, ?Hal, ?Hbr, ?Hbl, pid_i32 by lia; done.
Qed.
(** ** At the root *)

Lemma search_one (s key : bytes) : InsertBinarySearch [s] key 0 = Val 0.
Proof.
  destruct (InsertBinarySearch_spec [s] key 0) as (i & x & Hi & Hx & _); [by repeat constructor|done|].
  rewrite Hi. by destruct i.
Qed.

(** The root of a pair leads to one of the leaves and is pushed on the stack. *)
Lemma deleteValue_fork p pg s a b f key lsn (st : BTStack Node) mr t :
  pg_internal pg = true -> pg_keys pg = [s] -> pg_children pg = [a; b] -> stack_repr st [] ->
  returns (deleteValue lsn (node_of p pg) f key st mr) t (fun '(next, st', mr') t' => t' = t /\ mr' = mr /\
    exists i, stack_repr st' [mkPath (node_of p pg) i] /\ (next = a /\ i = 0 /\ key <k s \/ next = b /\ i = 1 /\ s ≤k key)).
Proof.
  intros Hi Hk Hch Hst. unfold deleteValue. node_simpl. rewrite Hi, Hk, Hch. cbn [length Nat.eqb negb].
  go_step. eapply returns_lift; [apply search_one|]. go_step. change 0 with (Z.of_nat 0). eapply returns_index; [done|].
  destruct (Z.eqb_spec (bytes_compare key s) (-1)) as [E|E].
  - go_step. apply onL_returns. go_call Add_repr; [|exact Hst]. intros x st' (-> & Hst' & _).
    go_step. eapply returns_index; [done|]. go_step. split_and!; [done|done|]. exists 0. by auto.
  - go_step. apply onL_returns. go_call Add_repr; [|exact Hst]. intros x st' (-> & Hst' & _).
    go_step. change (Z.of_nat 0 + 1) with (Z.of_nat 1). eapply returns_index; [done|]. go_step.
    split_and!; [done|done|]. exists 1. split; [done|right]. split_and!; [done|done|]. by apply key_nlt.
Qed.

(** A new separator for a root with one. *)
Lemma propagate_one fuel key mr (st : BTStack Node) root pr s a b i w c :
  cinv c -> 0 < root < 2 ^ 31 -> view c !! root = Some pr -> core pr = inner_core [s] [a; b] (pg_right pr) -> 0 <= pg_right pr < 2 ^ 31 ->
  stack_repr st [mkPath (node_of root pr) i] -> merged mr = false -> rebalanceKey mr <> [] -> cell_ok (rebalanceKey mr) -> (0 < fuel)%nat ->
  returns (delete_propagate fuel key mr st) (mkBTree root free_mutex w c) (fun _ t' => exists c' P,
    t' = mkBTree root free_mutex w c' /\ cinv c' /\ room c' = room c /\ view c' = <[root := P]> (view c) /\
    core P = inner_core [rebalanceKey mr] [a; b] (pg_right pr)).
Proof.
  intros Hc Hroot Hp Hcore Hpr Hst Hmg Hrb Hok Hfuel. destruct fuel as [|fuel]; [lia|]. injection Hcore as Hk Hv Hch Hi Hd.
  cbn [delete_propagate]. rewrite Hmg. destruct (rebalanceKey mr) as [|k0 k] eqn:Erb; [done|]. cbn [length Nat.eqb negb orb].
  go_step. apply onL_returns. go_call Pop_repr; [|exact Hst]. intros v st' (-> & _ & _). cbn [tp_n]. node_simpl. rewrite pid_u32 by lia.
  go_step. apply onC_returns. go_call get_spec; [|done|exact Hp|done]. intros f c1 (Hf & Hc1 & Hv1 & Hr1 & _).
  go_step. rewrite Hk. eapply returns_lift; [apply search_one|].
  go_step. unfold update_parent. cbn [tp_n]. node_simpl. rewrite Erb, Hk. cbn [length Nat.eqb negb].
  change ((Z.of_nat 1 <=? 0) || (0 <? 0)) with false. cbv iota. go_step.
  go_step. apply returns_gets. cbn [Root]. node_simpl. change (<[Z.to_nat 0 := k0 :: k]> [s]) with [k0 :: k].
  change (length [k0 :: k] <? DEGREE - 1)%nat with false. cbn [andb]. rewrite pid_u32 by lia.
  go_step. go_step. go_step. go_call buildPage_spec; [|done|by rewrite Hv1|done]. intros [f2 n2] t' (c2 & -> & Hf2 & -> & (Hc2 & Hv2 & Hr2 & _) & _).
  go_step. go_call sync_node_spec; [|done|by rewrite Hf2, Hv2, Hv1|node_simpl..].
  2: { cbn. unfold ORDER, DEGREE. lia. }
  2: { by apply Forall_singleton. }
  2: { by rewrite Hi. }
  intros _ t' (c3 & -> & Hc3 & Hv3 & Hr3 & _). rewrite Hf2 in Hv3. go_step.
  go_step. go_call markdirty_spec; [|done|by rewrite Hf, Hv3, lookup_insert_eq]. intros _ t' (c4 & -> & Hc4 & Hv4 & Hr4).
  go_step. go_call ignore_release; [|done]. intros _ t' (c5 & -> & Hc5 & Hv5 & Hr5).
  destruct fuel; cbn [delete_propagate merged rebalanceKey set_rebalance set_merged length Nat.eqb negb orb]; go_step.
  all: exists c5; eexists; split_and!; [done|done|lia|by rewrite Hv5, Hv4, Hv3, Hv2, Hv1|].
  all: unfold core, node_page, inner_core; cbn; by rewrite Hi, Hd, Hch, pid_i32.
Qed.
(** ** [DeleteValue] *)

(** The root has one separator over two leaves; the key's leaf has [DEGREE]
    bindings and the other one more. *)
Definition shareable t (key : bytes) : Prop := exists pr s a b pa pb,
  view (bt_cache t) !! Root t = Some pr /\ pg_internal pr = true /\ pg_keys pr = [s] /\ pg_children pr = [a; b] /\
  view (bt_cache t) !! a = Some pa /\ pg_internal pa = false /\ view (bt_cache t) !! b = Some pb /\
  (key ∈ pg_keys pa /\ length (pg_keys pa) = DEGREE /\ (DEGREE < length (pg_keys pb))%nat \/
   key ∈ pg_keys pb /\ length (pg_keys pb) = DEGREE /\ (DEGREE < length (pg_keys pa))%nat).

Lemma middle_not_empty (m : kvs) k v : sorted m.*1 -> (ORDER <= length m)%nat -> m !! (length m / 2)%nat = Some (k, v) -> k <> [].
Proof.
  intros Hs Hl Hk ->. assert (0 < length m / 2)%nat by (apply Nat.div_str_pos; unfold ORDER, DEGREE in Hl; lia).
  destruct m as [|[k0 v0] m]; [cbn in Hl; unfold ORDER, DEGREE in Hl; lia|]. cbn [fmap list_fmap fst] in Hs.
  assert (k0 <k []) as Hlt; [|destruct k0; cbn in Hlt; unfold key_lt in Hlt; cbn in Hlt; lia].
  eapply (sorted_lookup ((k0, v0) :: m).*1 0 (length ((k0, v0) :: m) / 2)); [done|done| |done]. by rewrite list_lookup_fmap, Hk.
Qed.

(** The leaf the root leads to is the one with the key. *)
Lemma fork_leaf V root s a b pr pa pb ma mb key v next (i : Z) : pair cell_ok V root s a b pr pa pb ma mb ->
  (next = a /\ i = 0 /\ key <k s \/ next = b /\ i = 1 /\ s ≤k key) ->
  ((key, v) ∈ ma /\ length ma = DEGREE /\ (DEGREE < length mb)%nat \/ (key, v) ∈ mb /\ length mb = DEGREE /\ (DEGREE < length ma)%nat) ->
  exists pg, V !! next = Some pg /\ pg_dead pg = false /\
    (next = a /\ pg = pa /\ (key, v) ∈ ma /\ length ma = DEGREE /\ (DEGREE < length mb)%nat \/
     next = b /\ pg = pb /\ (key, v) ∈ mb /\ length mb = DEGREE /\ (DEGREE < length ma)%nat).
Proof.
  intros [Hr Ha Hb _ _ _ Hac _ Hbc _ (_ & Hba & _) (_ & Hbb & _) _] Hn Hin. rewrite Forall_fmap, Forall_forall in Hba, Hbb.
  injection Hac as _ _ _ _ Had _. injection Hbc as _ _ _ _ Hbd _. destruct Hn as [(-> & _ & Hlt)|(-> & _ & Hge)].
  - exists pa. split_and!; [done|done|left]. destruct Hin as [(?&?&?)|(Hin & _)]; [done|]. exfalso.
    destruct (Hbb _ Hin) as [Hge _]. cbn in Hge. apply (key_lt_irrefl key). by eapply key_lt_le_trans.
  - exists pb. split_and!; [done|done|right]. destruct Hin as [(Hin & _)|(?&?&?)]; [|done]. exfalso.
    destruct (Hba _ Hin) as [_ Hlt]. cbn in Hlt. apply (key_lt_irrefl key). by eapply key_lt_le_trans.
Qed.

Lemma shareable_leaf V root s a b pr pa pb ma mb key : pair cell_ok V root s a b pr pa pb ma mb ->
  (key ∈ pg_keys pa /\ length (pg_keys pa) = DEGREE /\ (DEGREE < length (pg_keys pb))%nat \/
   key ∈ pg_keys pb /\ length (pg_keys pb) = DEGREE /\ (DEGREE < length (pg_keys pa))%nat) ->
  exists v, (key, v) ∈ ma /\ length ma = DEGREE /\ (DEGREE < length mb)%nat \/ (key, v) ∈ mb /\ length mb = DEGREE /\ (DEGREE < length ma)%nat.
Proof.
  intros [_ _ _ _ _ _ Hac _ Hbc _ _ _ _]. injection Hac as -> _. injection Hbc as -> _. rewrite !length_fmap.
  intros [(([k v] & -> & Hin)%list_elem_of_fmap & ?)|(([k v] & -> & Hin)%list_elem_of_fmap & ?)]; exists v; [by left|by right].
Qed.

(** What is left of [DeleteValue] behind the descent. *)
Lemma share_end fuel key mr (st : BTStack Node) old root s a b pr pa pb ma mb i w c0 c m v :
  cinv c -> 0 < root < 2 ^ 31 -> pair cell_ok (view c0) root s a b pr pa pb ma mb -> shared (view c0) (view c) root a b m ->
  leaf_content cell_ok None None m -> (ORDER <= length m <= ORDER + 1)%nat -> m !! (length m / 2)%nat = Some (rebalanceKey mr, v) ->
  stack_repr st [mkPath (node_of root pr) i] -> merged mr = false -> (0 < fuel)%nat ->
  returns (ignore (release_opt old);; st ← delete_propagate fuel key mr st; onL Clear st;; mret true) (mkBTree root free_mutex w c)
    (fun r t' => r = true /\ exists c', t' = mkBTree root free_mutex w c' /\ cinv c' /\ room c' = room c /\ tree cell_ok (view c') root 1 3 m).
Proof.
  intros Hc Hroot Hpair Hsh Hm Hlen Hk Hst Hmg Hfuel. go_step. go_call ignore_release_opt; [|done]. intros _ t' (c1 & -> & Hc1 & Hv1 & Hr1).
  rewrite <- Hv1 in Hsh. pose proof (shared_root _ _ _ _ _ _ Hsh) as Hr. rewrite (pair_root _ _ _ _ _ _ _ _ _ _ _ Hpair) in Hr.
  assert (0 <= pg_right pr < 2 ^ 31) by (destruct (pair_root_right _ _ _ _ _ _ _ _ _ _ _ Hpair) as [-> | ->]; lia).
  go_step. go_call (propagate_one fuel key mr st root pr s a b i); [|done|done|exact Hr|by eapply pair_root_core|done|exact Hst|done|..|done].
  - intros st' t' (c2 & P & -> & Hc2 & Hr2 & Hv2 & HP). go_step. apply onL_returns. go_call Clear_any. intros x st2 _. go_step.
    split; [done|]. exists c2. split_and!; [done|done|lia|]. rewrite Hv2. by eapply shared_tree.
  - eapply middle_not_empty; [by destruct Hm|lia|done].
  - destruct Hm as (_ & _ & Hok & _). eapply (Forall_lookup_1 _ _ (length m / 2)); [exact Hok|]. by rewrite list_lookup_fmap, Hk.
Qed.

Lemma DeleteValue_share K fuel key keys lsn t m v : bt_inv K t m -> (key, v) ∈ m -> (lsn = [] -> key <> []) ->
  shareable t key -> (length m < fuel)%nat ->
  returns (DeleteValue fuel (key :: keys) lsn) t (fun b t' => b = true /\ bt_inv K t' (kv_remove key m) /\
    exists lsn', del_logged lsn key (bt_wal t) lsn' (bt_wal t')).
Proof.
  intros Hinv Hin Hlog (pr & s & a & b & pa & pb & Hr & Hri & Hrk & Hrc & Ha & Hai & Hb & Hcase) Hfuel. pose proof Hinv as (Hc & Hmu & Ht).
  destruct t as [root mu w c]. cbn [bt_cache bt_mu Root bt_wal] in *. subst mu.
  destruct Ht as [(_ & -> & _)|(Hroot & h & nfp & Htree & HK)]; [by apply not_elem_of_nil in Hin|].
  destruct (tree_pair _ _ _ _ _ _ _ _ _ _ _ Htree Hr Hri Hrk Hrc Ha Hai) as (pb' & ma & mb & Hpair & -> & -> & ->).
  destruct Htree as (fp0 & lv0 & Hrep0 & _). apply rep_sizes in Hrep0 as [Hsz _].
  pose proof Hpair as [_ _ Hb' Hrcore Hrr _ Hac _ Hbc _ _ _ _]. rewrite Hb in Hb'. injection Hb' as <-.
  assert (pg_dead pr = false) as Hrd by (by injection Hrcore).
  eapply returns_eq; [by apply DeleteValue_start|]. go_step. destruct fuel as [|[|[|fuel]]]; [lia..|].
  eapply delete_round; [done|done|done|]. intros f c1 Hf Hsp. pose proof Hsp as (Hc1 & Hv1 & Hr1).
  go_call (deleteValue_fork root pr s a b); [|done|done|done|apply NewBTStack_repr].
  intros [[next st'] mr'] t' (-> & -> & i & Hst & Hnext).
  go_step. go_call markdirty_spec; [|done|by rewrite Hf, Hv1]. intros _ t' (c2 & -> & Hc2 & Hv2 & Hr2).
  destruct (shareable_leaf _ _ _ _ _ _ _ _ _ _ key Hpair Hcase) as [v' Hin'].
  destruct (fork_leaf _ _ _ _ _ _ _ _ _ _ key v' next i Hpair Hnext Hin') as (pg & Hpg & Hpd & Hside).
  rewrite <- Hv1, <- Hv2 in Hpair, Hpg. eapply delete_round; [done|exact Hpg|done|]. intros f2 c3 Hf2 (Hc3 & Hv3 & Hr3). rewrite <- Hv3 in Hpair.
  go_call deleteValue_share; [|done|exact Hpair|done|exact Hf2|exact Hside].
  intros [[next' st''] mr''] t' (c4 & w4 & lsn4 & v4 & m' & -> & -> & -> & -> & Hmg & Hk & Hdl & Hc4 & Hr4 & Hlen & Hsh).
  set (m' := kv_remove key (ma ++ mb)) in *.
  assert (is_Some (view c4 !! fr_Key f2)) as [P HP].
  { destruct Hsh as [_ (Pa & HPa & _) (Pb & HPb & _)]. rewrite Hf2. by destruct Hside as [(-> & _)|(-> & _)]; eexists. }
  go_step. go_call markdirty_spec; [|done|exact HP]. intros _ t' (c5 & -> & Hc5 & Hv5 & Hr5).
  cbn [delete_descend]. change (negb (-1 >? 0)) with true. cbv iota. go_step. rewrite <- Hv5 in Hsh.
  go_call (share_end _ key mr'' st' (Some f2)); [|done|done|exact Hpair|exact Hsh|by eapply leaf_content_remove, pair_content|done|exact Hk|exact Hst|exact Hmg|lia].
  intros r t' (-> & c6 & -> & Hc6 & Hr6 & Htree'). split_and!; [done| |by exists lsn4].
  split_and!; [done|done|]. right. split; [done|]. exists 1%nat, 3%nat. split; [done|]. cbn [bt_cache] in *. lia.
Qed.
End Share.
