(* ===== verification/BTreeMerge.v ===== *)
(** * Deletion: merging the last two leaves

    The merge branch of [DeleteValue] and the collapse of the root behind it, on a
    root with one separator over two leaves of [DEGREE] bindings each.  The leaf that
    becomes the root is marked dead and overwritten with the old root's contents, so
    that the index has a root that no page can be read from. *)

From S2P Require Import Prelude Keys Helpers BTStack Wal BTree BTreeDelete CacheSpec BTreeInv BTreeNode BTreeShape BTreeInsert BTreeRead BTreeRemove BTreeShare.
Local Open Scope Z_scope.
Local Open Scope key_scope.

Section Merge.
Context {C F : Type} `{!CacheOps C F} `{!PageCache C F}.
Implicit Types (c : C) (t : BTree C) (f : F).

(** ** An index whose root is dead *)

(** The root is a page that is marked dead, and nobody holds the lock. *)
Definition dead_root t : Prop := cinv (bt_cache t) /\ bt_mu t = free_mutex /\ 0 < Root t < 2 ^ 31 /\
  exists pg, view (bt_cache t) !! Root t = Some pg /\ pg_dead pg = true.

(** Every lookup and every put returns an error and leaves the index as it is. *)
Lemma dead_root_Get t fuel k : dead_root t -> (0 < fuel)%nat -> exists e t', BTree.Get fuel k t = (Err e, t') /\ dead_root t'.
Proof.
  intros (Hc & Hmu & Hr & pg & Hp & Hd) Hf. destruct t as [root mu w c]. cbn [bt_cache bt_mu Root] in *. subst mu.
  destruct fuel as [|fuel]; [lia|]. destruct (get_dead c root pg Hc Hp Hd) as (e & c' & Hg & Hc' & Hv').
  exists e, (mkBTree root free_mutex w c'). split.
  - unfold BTree.Get, mbind, M_bind, mu_RLock, gets, mu_RUnlock. cbn. rewrite (proj2 (Z.eqb_neq root 0)) by lia. cbn.
    rewrite pid_i32, pid_u32, Z.gtb_ltb, (proj2 (Z.ltb_lt 0 root)) by lia. cbn. unfold onC, zoom, mbind, M_bind. cbn. by rewrite Hg.
  - split_and!; [done|done|cbn; lia|cbn; lia|]. exists pg. cbn. by rewrite Hv'.
Qed.

Lemma dead_root_insert t fuel k v ks vs lsn : dead_root t -> (0 < fuel)%nat ->
  exists e t', InsertValue fuel (k :: ks) (v :: vs) lsn t = (Err e, t') /\ dead_root t'.
Proof.
  intros (Hc & Hmu & Hr & pg & Hp & Hd) Hf. destruct t as [root mu w c]. cbn [bt_cache bt_mu Root] in *. subst mu.
  destruct fuel as [|fuel]; [lia|]. destruct (get_dead c root pg Hc Hp Hd) as (e & c' & Hg & Hc' & Hv').
  exists e, (mkBTree root free_mutex w c'). split.
  - cbn [InsertValue]. unfold insert_one, mbind, M_bind, mu_RLock, gets, mu_RUnlock. cbn. rewrite !(proj2 (Z.eqb_neq root 0)) by lia. cbn.
    rewrite !(proj2 (Z.eqb_neq root 0)) by lia. unfold buildPage, onC, zoom, mbind, M_bind. cbn. by rewrite Hg.
  - split_and!; [done|done|cbn; lia|cbn; lia|]. exists pg. cbn. by rewrite Hv'.
Qed.

(** A cache call whose error is dropped. *)
Lemma ignore_onC {A} (m : M C A) r mu w c (Q : C -> Prop) : returns (ignore m) c (fun _ c' => Q c') ->
  returns (ignore (onC m)) (mkBTree r mu w c) (fun _ t' => exists c', t' = mkBTree r mu w c' /\ Q c').
Proof.
  intros ([] & c' & Hm & HQ). unfold returns, ignore, catch, onC, zoom, mbind, M_bind, mret, M_ret in *. cbn.
  destruct (m c) as [[a|e| | |] c1]; simplify_eq; eexists _, _; (split; [done|]); by exists c'.
Qed.

(** ** The merge *)

(** The leaf [n] of page [a], which has no left sibling, goes into its right one. *)
Lemma leaf_merge_spec mr n f sib sf px py root mu w c :
  cinv c -> view c !! fr_Key f = Some px -> view c !! fr_Key sf = Some py -> fr_Key f <> fr_Key sf -> LeftSibling n = 0 ->
  (length (Keys n) <= ORDER)%nat -> (length (Keys n ++ Keys sib) <= ORDER)%nat ->
  Forall cell_ok (Keys n) -> Forall cell_ok (Values n) -> Forall cell_ok (Keys sib) -> Forall cell_ok (Values sib) ->
  returns (leaf_merge mr n f sib sf true) (mkBTree root mu w c) (fun r t' => exists mr' c' P Q,
    r = (mr', None) /\ merged mr' = true /\ rightMerge mr' = true /\ rebalanceKey mr' = rebalanceKey mr /\
    t' = mkBTree root mu w c' /\ cinv c' /\ room c' = room c /\ pg_dead Q = pg_dead py /\
    view c' = <[fr_Key sf := Q]> (<[fr_Key f := P]> (view c))).
Proof.
  intros Hc Hx Hy Hne Hl Hk1 Hk2 Ok1 Ov1 Ok2 Ov2. unfold leaf_merge. rewrite Hl. change (0 >? 0) with false. cbv iota.
  unfold guard at 1. go_step. go_step. go_step. unfold guard. go_step. go_step. apply onC_returns.
  go_call dead_spec; [|done|exact Hx]. intros _ c1 (Hc1 & Hv1 & Hr1 & _).
  go_step. go_step. go_call sync_node_spec; [|done|by rewrite Hv1, lookup_insert_eq|done|done|done]. intros _ t' (c2 & -> & Hc2 & Hv2 & Hr2 & _).
  rewrite Hv1, insert_insert_eq in Hv2.
  go_step. go_step. go_call sync_node_spec; [|done|by rewrite Hv2, lookup_insert_ne|done|by apply Forall_app|by apply Forall_app].
  intros _ t' (c3 & -> & Hc3 & Hv3 & Hr3 & _). rewrite Hv2 in Hv3.
  go_step. go_call markdirty_spec; [|done|by rewrite Hv3, lookup_insert_eq]. intros _ t' (c4 & -> & Hc4 & Hv4 & Hr4).
  go_step. eexists _, c4, _, _. split_and!; [reflexivity|done|done|done|done|done|lia| |by rewrite Hv4, Hv3]. done.
Qed.

(** ** The key in the left leaf *)

(** Two leaves of [DEGREE] bindings each under a root with one separator; the key is
    in the first ([left]) or the second one. *)
Definition minimal t (key : bytes) (left : bool) : Prop := exists pr s a b pa pb,
  view (bt_cache t) !! Root t = Some pr /\ pg_internal pr = true /\ pg_keys pr = [s] /\ pg_children pr = [a; b] /\
  view (bt_cache t) !! a = Some pa /\ pg_internal pa = false /\ view (bt_cache t) !! b = Some pb /\
  length (pg_keys pa) = DEGREE /\ length (pg_keys pb) = DEGREE /\ key ∈ pg_keys (if left then pa else pb).

(** What a pair of leaves is after the left one was merged into the right one. *)
Lemma deleteValue_merge root mu w c s a b pr pa pb ma mb key v f lsn st mr :
  cinv c -> pair cell_ok (view c) root s a b pr pa pb ma mb -> (lsn = [] -> key <> []) -> fr_Key f = a ->
  (key, v) ∈ ma -> length ma = DEGREE -> length mb = DEGREE ->
  returns (deleteValue lsn (node_of a pa) f key st mr) (mkBTree root mu w c) (fun '(next, st', mr') t' => exists c' w' P Q,
    t' = mkBTree root mu w' c' /\ next = -1 /\ st' = st /\ merged mr' = true /\ rightMerge mr' = true /\ rebalanceKey mr' = rebalanceKey mr /\
    cinv c' /\ pg_dead Q = false /\ view c' = <[b := Q]> (<[a := P]> (view c))).
Proof.
  intros Hc [_ Ha Hb _ _ _ Hac Hal Hbc _ Hma Hmb Hnd] Hlog Hf Hin Hla Hlb.
  assert (a <> b) as Hab by (apply NoDup_cons in Hnd as [_ [? _]%NoDup_cons]; set_solver).
  injection Hac as Hak Hav _ Hai _ Har. injection Hbc as Hbk Hbv _ Hbi Hbd _. pose proof (view_range _ _ _ Hc Hb) as Hbr.
  destruct Hmb as (_ & _ & _ & _ & Okb & Ovb).
  eapply deleteValue_found; [by eapply view_range|done|done|done|by destruct Hma|done|done|].
  intros l r w' lsn' -> Hrem Hdl. destruct Hma as (_ & _ & _ & _ & Oka & Ova). revert Oka Ova.
  rewrite !fmap_app, !fmap_cons, !Forall_app, !Forall_cons. intros (? & _ & ?) (? & _ & ?).
  assert (length (l ++ r) = 1)%nat as Hl1 by (rewrite length_app in *; cbn in Hla; unfold DEGREE in Hla; lia).
  unfold leaf_rest, leaf_node, handleLeafUnderflow. node_simpl. rewrite length_fmap, Hl1, Hai, Har. change (1 <? DEGREE)%nat with true. cbn [negb].
  rewrite Z.gtb_ltb, (proj2 (Z.ltb_lt 0 b)) by lia. cbn [orb]. rewrite pid_u32 by lia.
  go_step. unfold guard. go_step. go_step. go_call buildPage_spec; [|done|exact Hb|done].
  intros [sf sib] t' (c1 & -> & Hsf & -> & (Hc1 & Hv1 & _) & _). node_simpl. rewrite Hbk, length_fmap, Hlb. change (ORDER <=? 1 + DEGREE)%nat with false. cbv iota.
  go_call (leaf_merge_spec _ _ f _ sf pa pb); [|done|by rewrite Hf, Hv1|by rewrite Hsf, Hv1|congruence|done|..]; node_simpl.
  - intros [mr' e] t' (mr2 & c2 & P & Q & [= -> ->] & Hmg & Hrm & Hrb & -> & Hc2 & _ & HQ & Hv2). go_step.
    exists c2, w', P, Q. split_and!; [done|done|done|done|done|exact Hrb|done|congruence|]. by rewrite Hv2, Hsf, Hf, Hv1.
  - rewrite length_fmap, Hl1. unfold ORDER, DEGREE. lia.
  - rewrite Hbk, length_app, !length_fmap, Hl1, Hlb. unfold ORDER, DEGREE. lia.
  - rewrite fmap_app. by apply Forall_app.
  - rewrite fmap_app. by apply Forall_app.
  - by rewrite Hbk.
  - by rewrite Hbi, Hbv.
Qed.

(** The root without separators: its only child takes its place, dead. *)
Lemma collapse_root_spec root w c b pb n mr :
  cinv c -> view c !! b = Some pb -> pg_dead pb = false -> Children n = [b] -> Keys n = [] -> Values n = [] ->
  returns (collapse_root n mr) (mkBTree root free_mutex w c) (fun _ t' => exists c' P,
    t' = mkBTree b free_mutex w c' /\ cinv c' /\ pg_dead P = true /\ view c' = <[b := P]> (view c)).
Proof.
  intros Hc Hb Hd Hch Hk Hv. pose proof (view_range _ _ _ Hc Hb) as Hbr. unfold collapse_root. rewrite Hch.
  go_step. change 0 with (Z.of_nat 0). eapply returns_index; [done|]. rewrite pid_u32 by lia.
  go_step. go_step. go_call buildPage_spec; [|done|exact Hb|done]. intros [f n'] t' (c1 & -> & Hf & -> & (Hc1 & Hv1 & _) & _).
  go_step. apply lock_returns. go_step. go_step. unfold set_Root. cbn [bt_mu bt_wal bt_cache].
  go_step. eapply returns_mono; [|apply (ignore_onC (c_SetNewRoot f)), setroot_spec, Hc1].
  intros _ t' (c2 & -> & Hc2 & Hv2 & _).
  go_step. go_step. apply onC_returns. go_call dead_spec; [|done|by rewrite Hf, Hv2, Hv1]. intros _ c3 (Hc3 & Hv3 & _).
  go_step. go_call sync_node_spec; [|done|by rewrite Hf, Hv3, Hf, lookup_insert_eq|rewrite Hk; cbn; lia|by rewrite Hk|by rewrite Hv].
  intros _ t' (c4 & -> & Hc4 & Hv4 & _). rewrite Hv3, Hf, insert_insert_eq, Hv2, Hv1 in Hv4.
  apply unlock_returns. eexists c4, _. split_and!; [done|done| |exact Hv4]. done.
Qed.

(** The parent of the merged leaves is the root. *)
Lemma propagate_merge fuel key mr (st : BTStack Node) root pr s a b pb w c :
  cinv c -> view c !! root = Some pr -> core pr = inner_core [s] [a; b] (pg_right pr) -> root <> b ->
  view c !! b = Some pb -> pg_dead pb = false -> stack_repr st [mkPath (node_of root pr) 0] ->
  merged mr = true -> rightMerge mr = true -> rebalanceKey mr = [] -> (0 < fuel)%nat ->
  returns (delete_propagate fuel key mr st) (mkBTree root free_mutex w c) (fun _ t' => dead_root t').
Proof.
  intros Hc Hp Hcore Hne Hb Hbd Hst Hmg Hrm Hrb Hfuel. destruct fuel as [|fuel]; [lia|]. injection Hcore as Hk Hv Hch Hi Hd.
  pose proof (view_range _ _ _ Hc Hp) as Hroot. pose proof (view_range _ _ _ Hc Hb) as Hbr.
  cbn [delete_propagate]. rewrite Hmg. cbn [orb negb].
  go_step. apply onL_returns. go_call Pop_repr; [|exact Hst]. intros x st' (-> & _ & _). cbn [tp_n]. node_simpl. rewrite pid_u32 by lia.
  go_step. apply onC_returns. go_call get_spec; [|done|exact Hp|done]. intros f c1 (Hf & Hc1 & Hv1 & _).
  go_step. rewrite Hk. eapply returns_lift; [apply search_one|].
  go_step. eexists _, _. split. { unfold update_parent. cbn [tp_n tp_idx]. node_simpl. rewrite Hrb, Hmg, Hrm, Hk, Hi, Hch. reflexivity. }
  cbn beta. go_step. apply returns_gets. cbn [Root]. node_simpl. rewrite pid_u32, Z.eqb_refl by lia.
  change (take (Z.to_nat 0) [s] ++ drop (Z.to_nat (0 + 1)) [s]) with (@nil bytes). change (take (Z.to_nat 0) [a; b] ++ drop (Z.to_nat (0 + 1)) [a; b]) with [b].
  change (length (@nil bytes) <? DEGREE - 1)%nat with true. cbn [length negb andb Nat.eqb].
  go_step. go_step. go_call (collapse_root_spec root w c1 b pb); [|done|by rewrite Hv1|done|done|done|by node_simpl; rewrite Hi].
  intros _ t' (c2 & P & -> & Hc2 & HP & Hv2). go_step.
  go_step. go_call markdirty_spec; [|done|by rewrite Hf, Hv2, lookup_insert_ne, Hv1]. intros _ t' (c3 & -> & Hc3 & Hv3 & _).
  go_step. go_call ignore_release; [|done]. intros _ t' (c4 & -> & Hc4 & Hv4 & _).
  destruct fuel; cbn [delete_propagate merged rebalanceKey set_rebalance set_merged length Nat.eqb negb orb]; go_step.
  all: split_and!; [done|done|cbn; lia|cbn; lia|]; exists P; cbn; by rewrite Hv4, Hv3, Hv2, lookup_insert_eq.
Qed.

(** Deleting a key of the left leaf answers true and leaves an index with a dead root. *)
Lemma DeleteValue_merge K fuel key keys lsn t m v : bt_inv K t m -> (key, v) ∈ m -> (lsn = [] -> key <> []) ->
  minimal t key true -> (length m < fuel)%nat ->
  returns (DeleteValue fuel (key :: keys) lsn) t (fun b t' => b = true /\ dead_root t').
Proof.
  intros Hinv Hin Hlog (pr & s & a & b & pa & pb & Hr & Hri & Hrk & Hrc & Ha & Hai & Hb & Hla & Hlb & Hkey) Hfuel. pose proof Hinv as (Hc & Hmu & Ht).
  destruct t as [root mu w c]. cbn [bt_cache bt_mu Root bt_wal] in *. subst mu.
  destruct Ht as [(_ & -> & _)|(Hroot & h & nfp & Htree & HK)]; [by apply not_elem_of_nil in Hin|].
  destruct (tree_pair _ _ _ _ _ _ _ _ _ _ _ Htree Hr Hri Hrk Hrc Ha Hai) as (pb' & ma & mb & Hpair & -> & -> & ->).
  destruct Htree as (fp0 & lv0 & Hrep0 & _). apply rep_sizes in Hrep0 as [Hsz _].
  pose proof Hpair as [_ _ Hb' Hrcore Hrr _ Hac _ Hbc _ Hma _ Hnd]. rewrite Hb in Hb'. injection Hb' as <-.
  assert (pg_dead pr = false) as Hrd by (by injection Hrcore).
  assert (root <> a /\ root <> b /\ b <> a) as (Hra & Hrb & Hba) by (apply NoDup_cons in Hnd as [? [? _]%NoDup_cons]; set_solver).
  pose proof Hac as [= Hak _ _ _ Had _]. pose proof Hbc as [= Hbk _]. rewrite Hak, length_fmap in Hla. rewrite Hbk, length_fmap in Hlb.
  rewrite Hak in Hkey. apply list_elem_of_fmap in Hkey as ([k v'] & -> & Hkin).
  assert (k <k s) as Hlt. { destruct Hma as (_ & Hbd & _). rewrite Forall_fmap, Forall_forall in Hbd. by destruct (Hbd _ Hkin). }
  eapply returns_eq; [by apply DeleteValue_start|]. go_step. destruct fuel as [|[|[|fuel]]]; [lia..|].
  eapply delete_round; [done|done|done|]. intros f c1 Hf Hsp. pose proof Hsp as (Hc1 & Hv1 & Hr1).
  go_call (deleteValue_fork root pr s a b); [|done|done|done|apply NewBTStack_repr].
  intros [[next st'] mr'] t' (-> & -> & i & Hst & [(-> & -> & _)|(_ & _ & Hge)]); [|by destruct (proj2 (key_nlt k s) Hge)].
  go_step. go_call markdirty_spec; [|done|by rewrite Hf, Hv1]. intros _ t' (c2 & -> & Hc2 & Hv2 & _).
  rewrite <- Hv1, <- Hv2 in Hpair, Ha, Hr. eapply delete_round; [done|exact Ha|done|]. intros f2 c3 Hf2 (Hc3 & Hv3 & _). rewrite <- Hv3 in Hpair.
  go_call deleteValue_merge; [|done|exact Hpair|done|exact Hf2|exact Hkin|done|done].
  intros [[next' st''] mr''] t' (c4 & w4 & P & Q & -> & -> & -> & Hmg & Hrm & Hrb' & Hc4 & HQ & Hv4).
  go_step. go_call markdirty_spec; [|done|by rewrite Hf2, Hv4, lookup_insert_ne, lookup_insert_eq].
  intros _ t' (c5 & -> & Hc5 & Hv5 & _).
  cbn [delete_descend]. change (negb (-1 >? 0)) with true. cbv iota. go_step.
  go_step. go_call ignore_release_opt; [|done]. intros _ t' (c6 & -> & Hc6 & Hv6 & _).
  go_step. go_call (propagate_merge _ k mr'' st' root pr s a b Q); [|done|..|exact Hst|done|done|exact Hrb'|lia].
  - intros st2 t' Hdead. go_step. apply onL_returns. go_call Clear_any. intros x st3 _. by go_step.
  - by rewrite Hv6, Hv5, Hv4, !lookup_insert_ne, Hv3.
  - done.
  - done.
  - by rewrite Hv6, Hv5, Hv4, lookup_insert_eq.
  - done.
Qed.

End Merge.
