(* ===== verification/BTreeRemoveTheorems.v ===== *)
(** * Properties of deletion

    Deletion refines deletion in a finite map where it needs no second node and
    where two leaves under a root with one separator are shared out.  On an empty
    tree it leaves the lock taken; sharing out under a parent with more separators
    leaves it with one too many, and a merge under the root loses the tree. *)

From S2P Require Import Prelude Keys Helpers BTStack Wal BTree BTreeDelete CacheSpec BTreeInv BTreeNode BTreeShape BTreeInsert BTreeRead BTreeRemove BTreeShare BTreeMerge BTreeTheorems.
Local Open Scope Z_scope.
Local Open Scope key_scope.

Section DeleteTheorems.
Context {C F : Type} `{!CacheOps C F} `{!PageCache C F}.
Implicit Types (t : BTree C).

(** Deleting a key that is in one leaf, which has more than [DEGREE] bindings,
    from a tree whose page 1 is a leaf, returns true, removes exactly that binding
    from the map the tree holds, keeps the tree invariant, and appends one DEL
    record to the log (none when the call brings its LSN, as recovery does). *)
Lemma DeleteValue_removes K fuel key keys lsn t M v :
  holds K t M -> M !! key = Some v -> (lsn = [] -> key <> []) ->
  roomy (bt_cache t) key -> first_leaf (bt_cache t) -> (size M < fuel)%nat ->
  returns (DeleteValue fuel (key :: keys) lsn) t (fun b t' => b = true /\ holds K t' (delete key M) /\
    exists lsn', del_logged lsn key (bt_wal t) lsn' (bt_wal t')).
Proof.
  intros (m & Hi & Hm) Hv Hlog Hroomy Hfirst Hfuel. pose proof (holds_size K t M m Hi Hm) as Hsz. subst M.
  apply to_map_lookup_Some in Hv; [|by eapply bt_inv_sorted].
  go_call DeleteValue_present; [|done|exact Hv|done|done|done|lia]. intros b t' (-> & Hi' & Hdl).
  split_and!; [done| |done]. exists (kv_remove key m). split; [done|apply to_map_kv_remove].
Qed.

(** Deleting from an index of one leaf with at most [DEGREE] bindings removes
    exactly that binding too.  The last binding takes the root with it, and its page
    is not used again. *)
Lemma DeleteValue_removes_last K fuel key keys lsn t M v :
  holds K t M -> M !! key = Some v -> (lsn = [] -> key <> []) -> last_leaf t -> (0 < fuel)%nat ->
  returns (DeleteValue fuel (key :: keys) lsn) t (fun b t' => b = true /\
    holds (if decide (delete key M = ∅) then K - 1 else K) t' (delete key M) /\
    exists lsn', del_logged lsn key (bt_wal t) lsn' (bt_wal t')).
Proof.
  intros (m & Hi & <-) Hv Hlog Hlast Hfuel. apply to_map_lookup_Some in Hv; [|by eapply bt_inv_sorted].
  go_call DeleteValue_last; [|done|exact Hv|done|done|done]. intros b t' (-> & Hi' & Hdl).
  split_and!; [done| |done]. exists (kv_remove key m). rewrite to_map_kv_remove. split; [|done].
  replace (if decide (delete key (to_map m) = ∅) then K - 1 else K) with (if decide (kv_remove key m = []) then K - 1 else K); [done|].
  apply decide_ext. rewrite <- to_map_kv_remove. split; [by intros ->|]. destruct (kv_remove key m) as [|[k' v'] m']; [done|].
  intros E. by apply (insert_non_empty (to_map m') k' v') in E.
Qed.

(** Deleting from one of two leaves under the root, so that the two are shared out
    again, removes exactly that binding as well. *)
Lemma DeleteValue_removes_share K fuel key keys lsn t M v :
  holds K t M -> M !! key = Some v -> (lsn = [] -> key <> []) -> shareable t key -> (size M < fuel)%nat ->
  returns (DeleteValue fuel (key :: keys) lsn) t (fun b t' => b = true /\ holds K t' (delete key M) /\
    exists lsn', del_logged lsn key (bt_wal t) lsn' (bt_wal t')).
Proof.
  intros (m & Hi & Hm) Hv Hlog Hsh Hfuel. pose proof (holds_size K t M m Hi Hm) as Hsz. subst M.
  apply to_map_lookup_Some in Hv; [|by eapply bt_inv_sorted].
  go_call DeleteValue_share; [|done|exact Hv|done|done|lia]. intros b t' (-> & Hi' & Hdl).
  split_and!; [done| |done]. exists (kv_remove key m). split; [done|apply to_map_kv_remove].
Qed.

(** The deletions with a specification: from one leaf that is the whole index, from
    one of two leaves that can be shared out, or from a leaf that stays full enough. *)
Definition deletable t (key : bytes) : Prop :=
  last_leaf t \/ shareable t key \/ (roomy (bt_cache t) key /\ first_leaf (bt_cache t)).

Lemma DeleteValue_deletes K fuel key keys lsn t M v :
  holds K t M -> M !! key = Some v -> (lsn = [] -> key <> []) -> deletable t key -> (size M < fuel)%nat ->
  returns (DeleteValue fuel (key :: keys) lsn) t (fun b t' => b = true /\
    (exists K', K - 1 <= K' <= K /\ (delete key M <> ∅ -> K' = K) /\ holds K' t' (delete key M)) /\
    exists lsn', del_logged lsn key (bt_wal t) lsn' (bt_wal t')).
Proof.
  intros Hh Hv Hlog [Hlast|[Hsh|[Hroomy Hfirst]]] Hfuel.
  - go_call DeleteValue_removes_last; [|done|exact Hv|done|done|lia]. intros b t' (-> & Hh' & Hdl). split_and!; [done| |done].
    eexists. split_and!; [..|exact Hh']; case_decide; try lia; done.
  - go_call DeleteValue_removes_share; [|done|exact Hv|done|done|done]. intros b t' (-> & Hh' & Hdl). split_and!; [done| |done].
    exists K. split_and!; [lia..|done|done].
  - go_call DeleteValue_removes; [|done|exact Hv|done|done|done|done]. intros b t' (-> & Hh' & Hdl). split_and!; [done| |done].
    exists K. split_and!; [lia..|done|done].
Qed.

(** Deleting a key that a non-empty tree does not hold returns true and changes
    neither the map nor the log. *)
Lemma DeleteValue_absent_key K fuel key keys lsn t M :
  holds K t M -> M <> ∅ -> M !! key = None -> (size M <= fuel)%nat ->
  returns (DeleteValue fuel (key :: keys) lsn) t (fun b t' => b = true /\ holds K t' M /\ bt_wal t' = bt_wal t).
Proof.
  intros (m & Hi & Hm) Hne Hv Hfuel. pose proof (holds_size K t M m Hi Hm) as Hsz. subst M.
  apply to_map_lookup_None in Hv.
  go_call DeleteValue_absent; [|done|by intros ->|done|lia]. intros b t' (-> & Hi' & Hw). split_and!; [done|by exists m|done].
Qed.

(** C30: [DeleteValue] on an index without a root returns an error with the read
    lock still held, and the next [InsertValue] blocks for ever (of a binding that fits
    in a page, when the cache has room for a page). *)
Theorem delete_empty_blocks fuel fuel' key keys lsn k ks v vs lsn' t :
  Root t = 0 -> bt_mu t = free_mutex -> cinv (bt_cache t) -> 0 < room (bt_cache t) -> cell_ok k -> cell_ok v ->
  exists t', DeleteValue fuel (key :: keys) lsn t = (Err (mkError BTreeError "BTree not initialized."), t') /\
    (InsertValue fuel' (k :: ks) (v :: vs) lsn' t').1 = Blocked.
Proof.
  destruct t as [root mu w c]. cbn [Root bt_mu bt_cache]. intros -> -> Hc Hr Hk Hv.
  exists (mkBTree 0 (mkMutex false 1) w c). split; [done|]. cbn [InsertValue].
  destruct (assignFrame_spec 0 (mkMutex false 1) w c (mkNode [k] [] true [v] 0 0 0 []) [] true) as ([f n] & t2 & Ha & c2 & -> & _);
    [done|done|unfold ORDER, DEGREE; cbn; lia|by apply Forall_singleton|by apply Forall_singleton|].
  unfold insert_one, insert_root, gets. unfold mbind at 1 2, M_bind at 1 2. cbn [Root Z.eqb].
  unfold mbind, M_bind. rewrite Ha. done.
Qed.

(** A later call on the index, a lookup or a put. *)
Inductive index_call : BTree C -> BTree C -> Prop :=
| ic_get fuel k t : (0 < fuel)%nat -> index_call t (BTree.Get fuel k t).2
| ic_put fuel k ks v vs lsn t : (0 < fuel)%nat -> index_call t (InsertValue fuel (k :: ks) (v :: vs) lsn t).2.

Lemma dead_root_calls t t' : dead_root t -> rtc index_call t t' -> dead_root t'.
Proof.
  intros Hd Hr. induction Hr as [t|t t1 t2 Hc _ IH]; [done|]. apply IH. destruct Hc as [fuel k t Hf|fuel k ks v vs lsn t Hf].
  - by destruct (dead_root_Get t fuel k Hd Hf) as (e & t' & -> & ?).
  - by destruct (dead_root_insert t fuel k v ks vs lsn Hd Hf) as (e & t' & -> & ?).
Qed.

(** C28: a merge under the root loses the whole index.  Two leaves of [DEGREE]
    bindings each hang under a root with one separator; a deletion from the first
    one returns true, and from then on every lookup of any key and every put returns
    an error, although the other three bindings were never deleted: the leaf that
    becomes the root is marked dead. *)
Theorem merge_loses_index K fuel key keys lsn t M v :
  holds K t M -> M !! key = Some v -> (lsn = [] -> key <> []) -> minimal t key true -> (size M < fuel)%nat ->
  returns (DeleteValue fuel (key :: keys) lsn) t (fun b t' => b = true /\ forall t'', rtc index_call t' t'' ->
    (forall fuel' k, (0 < fuel')%nat -> exists e, (BTree.Get fuel' k t'').1 = Err e) /\
    (forall fuel' k ks v vs lsn', (0 < fuel')%nat -> exists e, (InsertValue fuel' (k :: ks) (v :: vs) lsn' t'').1 = Err e)).
Proof.
  intros (m & Hi & Hm) Hv Hlog Hmin Hfuel. pose proof (holds_size K t M m Hi Hm) as Hsz. subst M.
  apply to_map_lookup_Some in Hv; [|by eapply bt_inv_sorted].
  go_call DeleteValue_merge; [|done|exact Hv|done|done|lia]. intros b t' (-> & Hd). split; [done|]. intros t'' Hr. pose proof (dead_root_calls t' t'' Hd Hr) as Hdead. split.
  - intros fuel' k Hf. destruct (dead_root_Get t'' fuel' k Hdead Hf) as (e & t2 & -> & _). by exists e.
  - intros fuel' k ks v' vs lsn' Hf. destruct (dead_root_insert t'' fuel' k v' ks vs lsn' Hdead Hf) as (e & t2 & -> & _). by exists e.
Qed.

End DeleteTheorems.

Module DeleteSample.
Import MemCache Sample.

(** From the tree of the ten puts [5 3 8 1 4 7 9 2 6 10] (an index over the
    in-memory cache), deleting key 1 and then key 2 both return true, and then
    looking up key 10, which was never deleted, panics with an index out of
    range: sharing out the keys of two leaves inserts a new separator in the
    parent instead of replacing the old one. *)
Example delete_breaks_lookup :
  let r1 := DeleteValue 10 [[1]] [] index10 in
  let r2 := DeleteValue 10 [[2]] [] r1.2 in
  r1.1 = Val true /\ r2.1 = Val true /\ map10 !! [10] = Some [100] /\
  (BTree.Get 10 [10] r2.2).1 = Panic "index out of range".
Proof. vm_compute. done. Qed.

(** Puts of single bytes, each stored under itself. *)
Definition singles (ks : bytes) : list bytes := (fun k => [k]) <$> ks.
Definition puts (ks : bytes) (t : BTree cache) : BTree cache := (InsertValue 10 (singles ks) (singles ks) [] t).2.

(** In the tree of the puts 1 to 5 the first leaf has two bindings and the second
    three. *)
Lemma index5_shareable : shareable (puts [1; 2; 3; 4; 5] index0) [1].
Proof. do 6 eexists. repeat (split; [vm_compute; reflexivity|]). left. vm_compute. split; [set_solver|]. split; [done|lia]. Qed.

(** The tree of the puts 1 to 5 without key 1: two leaves of two bindings. *)
Definition index4 : BTree cache := (DeleteValue 10 [[1]] [] (puts [1; 2; 3; 4; 5] index0)).2.
Definition map5 : gmap bytes bytes := put_all (singles [1; 2; 3; 4; 5]) (singles [1; 2; 3; 4; 5]) ∅.
Definition map4 : gmap bytes bytes := delete [1] map5.

(** Deleting from the second of the two leaves panics: the index of the separator to
    remove is -1.  The leaf is dead by then, and its keys are not found any more. *)
Example merge_right_panics :
  let r := DeleteValue 10 [[5]] [] index4 in
  (BTree.Get 10 [4] index4).1 = Val [4] /\ r.1 = Panic "slice bounds out of range" /\
  (BTree.Get 10 [4] r.2).1 = Err (mkError CacheErr "No entry found.").
Proof. vm_compute. done. Qed.

(** An index that was emptied and filled again has its root at page 2, and page 1
    is dead: deleting from a leaf with more than [DEGREE] keys removes the key, goes
    on at page 1 and returns an error. *)
Example refill_delete_fails :
  let t := puts [3; 2; 1] (DeleteValue 10 [[1]] [] (puts [1] index0)).2 in
  let r := DeleteValue 10 [[1]] [] t in
  (BTree.Get 10 [1] t).1 = Val [1] /\
  r.1 = Err (mkError GoError "Unable to delete val: No entry found.") /\ (BTree.Get 10 [1] r.2).1 = Err not_found.
Proof. vm_compute. done. Qed.

Lemma list_to_map_forall {A} (P : Z -> A -> Prop) (m : gmap Z A) :
  Forall (fun x => P x.1 x.2) (map_to_list m) -> forall k a, m !! k = Some a -> P k a.
Proof. intros Hf k a Hk. rewrite Forall_forall in Hf. exact (Hf (k, a) (proj2 (elem_of_map_to_list m k a) Hk)). Qed.

Lemma key8_roomy : roomy (bt_cache index10) [8].
Proof.
  exists 4, (default (mkPage [] [] [] false false 0 0) (view (bt_cache index10) !! 4)).
  split; [vm_compute; reflexivity|]. split; [vm_compute; lia|].
  apply (list_to_map_forall (fun p' pg' => pg_internal pg' = false -> [8] ∈ pg_keys pg' -> p' = 4)).
  vm_compute. repeat constructor; cbn; try done; intros _ H; set_solver.
Qed.

Lemma index10_first : first_leaf (bt_cache index10).
Proof.
  exists (default (mkPage [] [] [] false false 0 0) (view (bt_cache index10) !! 1)).
  split; [vm_compute; reflexivity|]. split; [vm_compute; reflexivity|]. split; [vm_compute; reflexivity|]. vm_compute. repeat constructor.
Qed.

Lemma index4_minimal : minimal index4 [2] true.
Proof. do 6 eexists. repeat (split; [vm_compute; reflexivity|]). vm_compute. set_solver. Qed.

Lemma index5_holds : holds K0 (puts [1; 2; 3; 4; 5] index0) map5.
Proof.
  assert (Forall (puttable []) (singles [1; 2; 3; 4; 5])) as Hp by (repeat constructor; done).
  destruct (final_state _ _ _ (InsertValue_holds K0 10 _ _ [] index0 ∅ index0_holds eq_refl Hp Hp (or_introl eq_refl)
    ltac:(vm_compute; lia) ltac:(vm_compute; done))) as (b & _ & H). exact H.
Qed.

Lemma index4_holds : holds K0 index4 map4.
Proof.
  destruct (DeleteValue_removes_share K0 10 [1] [] [] (puts [1; 2; 3; 4; 5] index0) map5 [1] index5_holds) as (b & t' & Hd & _ & Hh & _);
    [vm_compute; reflexivity|done|exact index5_shareable|vm_compute; lia|]. unfold index4. by rewrite Hd.
Qed.

Lemma merge_loses_index_witness :
  map4 !! [2] = Some [2] /\
  returns (DeleteValue 10 [[2]] []) index4 (fun b t' => b = true /\ forall t'', rtc index_call t' t'' ->
    (forall fuel' k, (0 < fuel')%nat -> exists e, (BTree.Get fuel' k t'').1 = Err e) /\
    (forall fuel' k ks v vs lsn', (0 < fuel')%nat -> exists e, (InsertValue fuel' (k :: ks) (v :: vs) lsn' t'').1 = Err e)).
Proof.
  split; [vm_compute; reflexivity|].
  apply (merge_loses_index K0 10 [2] [] [] index4 map4 [2]);
    [exact index4_holds|vm_compute; reflexivity|done|exact index4_minimal|vm_compute; lia].
Defined.

Lemma DeleteValue_removes_witness :
  map10 !! [8] = Some [80] /\
  returns (DeleteValue 11 [[8]] []) index10 (fun b t' => b = true /\ holds K0 t' (delete [8] map10) /\
    exists lsn', del_logged [] [8] (bt_wal index10) lsn' (bt_wal t')).
Proof.
  split; [vm_compute; reflexivity|].
  apply (DeleteValue_removes K0 11 [8] [] [] index10 map10 [80]);
    [exact index10_holds|vm_compute; reflexivity|done|exact key8_roomy|exact index10_first|vm_compute; lia].
Defined.

Lemma DeleteValue_absent_key_witness :
  map10 !! [77] = None /\
  returns (DeleteValue 10 [[77]] []) index10 (fun b t' => b = true /\ holds K0 t' map10 /\ bt_wal t' = bt_wal index10).
Proof.
  split; [vm_compute; reflexivity|].
  apply (DeleteValue_absent_key K0 10 [77] [] [] index10 map10);
    [exact index10_holds|by intros H; apply (f_equal size) in H; vm_compute in H|vm_compute; reflexivity|vm_compute; lia].
Defined.

Lemma delete_empty_blocks_witness :
  exists t', DeleteValue 5 [[1]] [] index0 = (Err (mkError BTreeError "BTree not initialized."), t') /\
    (InsertValue 5 [[1]] [[2]] [] t').1 = Blocked.
Proof. apply (delete_empty_blocks 5 5 [1] [] [] [1] [] [2] [] [] index0); [done|done|exact empty_inv|done|done|done]. Defined.

End DeleteSample.
