(* ===== verification/Recovery.v ===== *)
(** * Crash recovery ([pkg/recovery/recovery.go]) and the log reader ([pkg/wal/wal_reader.go])

    Recovery opens the config file for the LSN of the last checkpoint, reads the
    REDO point from that checkpoint in the log, and applies every record from
    there to the end of the file to the tree.  The log file is a byte list;
    [ReadAt] returns fewer bytes and [io.EOF] at its end. *)

From S2P Require Import Prelude Keys Files Helpers BTStack Wal BTree BTreeDelete.
Local Open Scope Z_scope.

(** [b[lo:hi]]; out of range panics. *)
Definition slice (b : bytes) (lo hi : Z) : outcome bytes :=
  if (lo <? 0) || (hi <? lo) || (Z.of_nat (length b) <? hi) then Panic "slice bounds out of range"
  else Val (take (Z.to_nat (hi - lo)) (drop (Z.to_nat lo) b)).

Definition eof : error := mkError IOEOF "EOF".
Definition checkpoint_found : error := mkError InvalidLogError "Log is a checkpoint".

(** ** The log reader *)

(** [pageOff] is a remainder by the page size, so [multiPage] is always false. *)
Definition wal_readLogHeader (fd : bytes) (off : Z) : outcome Z :=
  let endOff := u32 (off + BLOG_HEADER_SIZE) in
  let pageOff := endOff mod WAL_PAGE_SIZE in
  let multiPage := pageOff >=? WAL_PAGE_SIZE in
  let n := if multiPage then BLOG_HEADER_SIZE + WAL_PAGE_HEADER_SIZE else BLOG_HEADER_SIZE in
  let '(hdr, short) := ReadAt fd n off in
  if short : bool then Err eof
  else match hdr with
  | [] => Panic "invalid header size in file."
  | b :: _ =>
      if BitIsSet b LOGTYPE_FLAG_POS then Err (mkError WalError "Log is a checkpoint")
      else
        let cut := u32 (BLOG_HEADER_SIZE - u32 (endOff - WAL_PAGE_SIZE)) in
        match (if multiPage then
                 match slice hdr 0 cut, slice hdr (cut + WAL_PAGE_HEADER_SIZE) (Z.of_nat (length hdr)) with
                 | Val a, Val b => Val (a ++ b)
                 | _, _ => Panic "slice bounds out of range"
                 end
               else Val hdr) with
        | Val hdr => match slice hdr 13 17 with Val s => of_le32 s | Err e => Err e | _ => Panic "slice bounds out of range" end
        | _ => Panic "slice bounds out of range"
        end
  end.

Definition getLogSize (fd : bytes) (lsn : bytes) : outcome Z :=
  if Z.of_nat (length lsn) <? LSN_SIZE then Err (mkError WalError "(wal reader)Invalid LSN provided")
  else match of_le32 (take 4 lsn), of_le32 (drop 4 lsn) with
  | Val page, Val inPageOffset =>
      let off := if page >? 0 then u32 (u32 (page * WAL_PAGE_SIZE) + inPageOffset) else inPageOffset in
      wal_readLogHeader fd off
  | _, _ => Panic "index out of range"
  end.

(** ** Reading records *)

Record LogHeaderMetadata := mkMeta { m_lsn : bytes; m_pageId : Z; m_logSize : Z; m_multiPage : bool }.
Record Operation := mkOp { o_opType : OperationType; o_key : bytes; o_val : bytes; o_lsn : bytes; o_multiPage : bool }.
Record RecoveryMngr := mkRecovery { r_fd : bytes; r_walSize : Z; r_checkpointLSN : bytes }.

(** [append(b[:idx], b[idx+8:]...)] works in place, so the last eight bytes of
    the array stay where they were, beyond the new length. *)
Definition cut_header (b : bytes) (idx : Z) : outcome bytes :=
  match slice b 0 idx, slice b (u32 (idx + WAL_PAGE_HEADER_SIZE)) (Z.of_nat (length b)) with
  | Val a, Val c => Val (a ++ c ++ drop (length b - 8) b)
  | _, _ => Panic "slice bounds out of range"
  end.

Definition readLogHeader (fd : bytes) (off : Z) : outcome LogHeaderMetadata :=
  let endOff := u32 (off + BLOG_HEADER_SIZE) in
  match IsMultipage off endOff WAL_PAGE_SIZE with
  | Val multiPage =>
      let n := if multiPage : bool then BLOG_HEADER_SIZE + WAL_PAGE_HEADER_SIZE else BLOG_HEADER_SIZE in
      let '(hdr, short) := ReadAt fd n off in
      if short : bool then Err eof
      else match hdr with
      | [] => Panic "invalid header size in file."
      | b :: _ =>
          if BitIsSet b LOGTYPE_FLAG_POS then Err checkpoint_found
          else
            let factor := u32 (off / WAL_PAGE_SIZE + 1) in
            let idx := u32 (u32 (WAL_PAGE_SIZE * factor) - off) in
            match (if multiPage then cut_header hdr idx else Val hdr) with
            | Val hdr =>
                match slice hdr 1 13, slice hdr 13 17, slice hdr 17 21 with
                | Val lsn, Val s, Val p =>
                    match of_le32 s, of_le32 p with
                    | Val logSize, Val pageId =>
                        if pageId <=? 0 then Panic "Invalid page ID."
                        else Val (mkMeta lsn pageId logSize multiPage)
                    | _, _ => Panic "index out of range"
                    end
                | _, _, _ => Panic "slice bounds out of range"
                end
            | _ => Panic "slice bounds out of range"
            end
      end
  | Err e => Panic (Message e)
  | _ => Panic "integer divide by zero"
  end.

(** The value part of a PUT record. *)
Definition read_val (bLog : bytes) (kOff kSize : Z) : outcome bytes :=
  match slice bLog (kOff + kSize) (kOff + kSize + 4) with
  | Val s =>
      match of_le32 s with
      | Val vSize => slice bLog (kOff + kSize + 4) (kOff + kSize + 4 + vSize)
      | _ => Panic "index out of range"
      end
  | _ => Panic "slice bounds out of range"
  end.

(** The operation in the bytes of a record, page header removed; an index is
    bounded by the length of the slice, a sub-slice by its capacity. *)
Definition parse_log (bLog lsn : bytes) (multiPage : bool) : outcome Operation :=
  let len := Z.of_nat (length bLog) - (if multiPage then WAL_PAGE_HEADER_SIZE else 0) in
  if len <=? BLOG_HEADER_SIZE then Panic "index out of range" else
  match bLog !! Z.to_nat BLOG_HEADER_SIZE, slice bLog (BLOG_HEADER_SIZE + 1) (BLOG_HEADER_SIZE + 5) with
  | Some opType, Val ks =>
      match of_le32 ks with
      | Val kSize =>
          let kOff := BLOG_HEADER_SIZE + 5 in
          match slice bLog kOff (kOff + kSize) with
          | Val key =>
              if opType =? op_byte PUT then
                match read_val bLog kOff kSize with
                | Val val => Val (mkOp PUT key val lsn multiPage)
                | _ => Panic "slice bounds out of range"
                end
              else Val (mkOp DEL key [] lsn multiPage)
          | _ => Panic "slice bounds out of range"
          end
      | _ => Panic "index out of range"
      end
  | _, _ => Panic "index out of range"
  end.

(** The cut is computed as if the record started in the first page. *)
Definition readFullLog (fd : bytes) (startOff lSize : Z) (lsn : bytes) : outcome Operation :=
  let endOff := u32 (startOff + lSize) in
  match IsMultipage startOff endOff WAL_PAGE_SIZE with
  | Val multiPage =>
      let n := if multiPage : bool then u32 (lSize + WAL_PAGE_HEADER_SIZE) else lSize in
      let '(bLog, short) := ReadAt fd n startOff in
      if short : bool then Panic "unable to read log"
      else if (length bLog =? 0)%nat then Panic "invalid log in file."
      else
        let idx := u32 (lSize - u32 (endOff - WAL_PAGE_SIZE)) in
        match (if multiPage then cut_header bLog idx else Val bLog) with
        | Val bLog => parse_log bLog lsn multiPage
        | _ => Panic "slice bounds out of range"
        end
  | Err e => Panic (Message e)
  | _ => Panic "integer divide by zero"
  end.

Section Recover.
Context {C F : Type} `{!CacheOps C F}.
Local Abbreviation MT := (M (BTree C)).

(** ** Replaying *)

Definition reapplyLog (fuel : nat) (op : Operation) : MT unit :=
  if (length (o_key op) =? 0)%nat then panic "(reapply) Invalid key."
  else match o_opType op with
  | PUT =>
      if (length (o_val op) =? 0)%nat then panic "(reapply) Invalid value."
      else
        inserted ← or_panic (InsertValue fuel [o_key op] [o_val op] (o_lsn op));
        if inserted : bool then mret tt else panic "Could not insert the value"
  | DEL =>
      deleted ← or_panic (DeleteValue fuel [o_key op] (o_lsn op));
      if deleted : bool then mret tt else panic "Could not insert the value"
  end.

(** The loop ends at the end of the file, or with [io.EOF] on a short header. *)
Fixpoint walkThroughRecovery (steps fuel : nat) (fd : bytes) (currOff endOff : Z) : MT unit :=
  if negb (currOff <? endOff) then mret tt else
  match steps with
  | O => out_of_fuel
  | S steps' =>
      r ← catch (lift_outcome (readLogHeader fd currOff));
      match r with
      | inr e =>
          if decide (ekind e = InvalidLogError)
          then walkThroughRecovery steps' fuel fd (u32 (currOff + CHECKPOINT_SIZE)) endOff
          else if decide (ekind e = IOEOF) then mret tt
          else fail (ekind e) (Message e)
      | inl hdr =>
          op ← or_panic (lift_outcome (readFullLog fd currOff (m_logSize hdr) (m_lsn hdr)));
          reapplyLog fuel op;;
          let next := if o_multiPage op then u32 (currOff + u32 (m_logSize hdr + WAL_PAGE_HEADER_SIZE))
                      else u32 (currOff + m_logSize hdr) in
          walkThroughRecovery steps' fuel fd next endOff
      end
  end.

Definition Recover (steps fuel : nat) (rm : RecoveryMngr) : MT unit :=
  page ← lift_outcome (of_le32 (take 4 (r_checkpointLSN rm)));
  off ← lift_outcome (of_le32 (take 4 (drop 4 (r_checkpointLSN rm))));
  let checkpointOff := if negb (page =? 0) then u32 (u32 (page * WAL_PAGE_SIZE) + off) else off in
  let '(data, _) := ReadAt (r_fd rm) CHECKPOINT_SIZE checkpointOff in
  if (length data =? 0)%nat then panic "Unable to read checkpoint"
  else if Z.of_nat (length data) <? CHECKPOINT_SIZE then panic "Only read part of the checkpoint"
  else
    redoOff ← lift_outcome (of_le32 (take 4 (drop 1 data)));
    walkThroughRecovery steps fuel (r_fd rm) redoOff (u32 (r_walSize rm)).

End Recover.

(** [None]: no checkpoint is stored and there is nothing to recover. *)
Definition NewRecoveryMngr (conf walFile : bytes) : option RecoveryMngr :=
  let latestLSN := copy_into 12 (take 12 conf) in
  if (length (take 12 conf) =? 0)%nat then None
  else Some (mkRecovery walFile (Z.of_nat (length walFile)) latestLSN).
