(* ===== verification/RecoveryTheorems.v ===== *)
(** * Recovery reads back what was logged

    A record is decoded to the operation that was logged, within a page and across
    the first page boundary.  A record that crosses a later page boundary makes the
    reader panic. *)

From S2P Require Import Prelude Keys Files Helpers BTStack Wal WalTheorems BTree BTreeDelete Recovery.
Local Open Scope Z_scope.

(** ** Slices *)

Lemma slice_mid a b c lo hi : lo = Z.of_nat (length a) -> hi = lo + Z.of_nat (length b) ->
  slice (a ++ b ++ c) lo hi = Val b.
Proof.
  intros -> ->. unfold slice. rewrite !length_app.
  rewrite (proj2 (Z.ltb_ge _ 0)), (proj2 (Z.ltb_ge (Z.of_nat (length a) + _) _)), (proj2 (Z.ltb_ge (Z.of_nat (_ + _)) _)) by lia.
  cbn [orb]. replace (Z.of_nat (length a) + Z.of_nat (length b) - Z.of_nat (length a)) with (Z.of_nat (length b)) by lia.
  by rewrite !Nat2Z.id, drop_app_length, take_app_length.
Qed.

Lemma ReadAt_app pre b post off n : off = Z.of_nat (length pre) -> n = Z.of_nat (length b) ->
  ReadAt (pre ++ b ++ post) n off = (b, false).
Proof.
  intros -> ->. unfold ReadAt. rewrite !Nat2Z.id, drop_app_length, take_app_length. f_equal. by apply Z.ltb_irrefl.
Qed.

(** ** Well-formed records, as the log writes them *)

Definition rec_ok (b : BLog) : Prop :=
  h_flag (b_header b) = 0 /\ length (h_lsn (b_header b)) = 12%nat /\ 0 < h_pageId (b_header b) < 2 ^ 32 /\
  h_crc (b_header b) = 0 /\ h_lSize (b_header b) = record_size b /\ record_size b < 2 ^ 31 /\
  b_keySize b = Z.of_nat (length (b_key b)) /\
  match b_opType b with
  | PUT => b_valSize b = Z.of_nat (length (b_val b)) /\ b_val b <> []
  | DEL => b_valSize b = 0 /\ b_val b = []
  end.

Definition rec_op (b : BLog) (multi : bool) : Operation :=
  mkOp (b_opType b) (b_key b) (b_val b) (h_lsn (b_header b)) multi.

Lemma parse_payload b junk (multi : bool) : rec_ok b -> length junk = (if multi then 8 else 0)%nat ->
  parse_log (BLog_payload b ++ junk) (h_lsn (b_header b)) multi = Val (rec_op b multi).
Proof.
  intros (_ & _ & _ & _ & _ & Hsz & Hks & Hop) Hjunk.
  pose proof (payload_length b) as Hpl. pose proof (hdr_length (b_header b)) as Hh.
  unfold parse_log. rewrite length_app, Hjunk.
  assert (Hrs : BLOG_HEADER_SIZE < record_size b) by (unfold record_size, BLOG_HEADER_SIZE; destruct (b_valSize b >? 0); lia).
  rewrite (proj2 (Z.leb_gt _ _)) by (destruct multi; cbv iota; unfold WAL_PAGE_HEADER_SIZE; lia).
  unfold record_size, BLOG_HEADER_SIZE in Hsz.
  unfold BLog_payload. rewrite <- !app_assoc.
  change (Z.to_nat BLOG_HEADER_SIZE) with 25%nat. rewrite lookup_app_r, Hh by (rewrite Hh; lia).
  rewrite Nat.sub_diag. cbn [lookup list_lookup app]. unfold BLOG_HEADER_SIZE.
  change (op_byte (b_opType b) :: ?x) with ([op_byte (b_opType b)] ++ x).
  rewrite (app_assoc (BLogHeader_toBytes (b_header b)) [op_byte (b_opType b)]).
  rewrite (slice_mid (BLogHeader_toBytes (b_header b) ++ [op_byte (b_opType b)]) (le32 (b_keySize b)))
    by (rewrite ?length_app, ?Hh, ?le32_length; cbn; lia).
  rewrite le32_decode_nil by (destruct (b_valSize b >? 0); lia). rewrite Hks.
  rewrite (app_assoc _ (le32 (Z.of_nat (length (b_key b))))).
  rewrite (slice_mid _ (b_key b)) by (rewrite ?length_app, ?Hh, ?le32_length; cbn; lia).
  unfold rec_op. destruct (b_opType b); cbn [op_byte Z.eqb].
  - destruct Hop as [Hvs Hv]. assert (Hvl : 0 < Z.of_nat (length (b_val b))) by (destruct (b_val b); [done|cbn; lia]).
    rewrite Hvs in *. rewrite Z.gtb_ltb, (proj2 (Z.ltb_lt _ _)) in * by done.
    unfold read_val. rewrite (app_assoc _ (b_key b)), <- (app_assoc (le32 (Z.of_nat (length (b_val b))))).
    rewrite (slice_mid _ (le32 (Z.of_nat (length (b_val b))))) by (rewrite ?length_app, ?Hh, ?le32_length; cbn; lia).
    rewrite le32_decode_nil by lia. rewrite (app_assoc _ (le32 (Z.of_nat (length (b_val b))))).
    by rewrite (slice_mid _ (b_val b)) by (rewrite ?length_app, ?Hh, ?le32_length; cbn; lia).
  - by destruct Hop as [_ ->].
Qed.

Lemma header_parts b : length (h_lsn (b_header b)) = 12%nat ->
  BLogHeader_toBytes (b_header b) = [h_flag (b_header b)] ++ h_lsn (b_header b) ++ le32 (h_lSize (b_header b)) ++
    le32 (h_pageId (b_header b)) ++ le32 (h_crc (b_header b)).
Proof.
  intros Hl. unfold BLogHeader_toBytes, copy_into. rewrite Hl. cbn [Nat.sub replicate].
  by rewrite app_nil_r, firstn_all2 by lia.
Qed.

Lemma IsMultipage_eq a b : a <= b -> IsMultipage a b WAL_PAGE_SIZE = Val (negb (a / WAL_PAGE_SIZE =? b / WAL_PAGE_SIZE)).
Proof.
  intros H. unfold IsMultipage. destruct (Z.gtb_spec a b); [lia|]. done.
Qed.

Lemma same_page a b c : 0 <= a -> a <= b <= c -> a / WAL_PAGE_SIZE = c / WAL_PAGE_SIZE -> a / WAL_PAGE_SIZE = b / WAL_PAGE_SIZE.
Proof.
  intros H0 H E. unfold WAL_PAGE_SIZE in *.
  pose proof (Z.div_le_mono a b 8192). pose proof (Z.div_le_mono b c 8192). lia.
Qed.

(** ** A record with a page header inside *)

Definition spliced (i : nat) (h d : bytes) : bytes := take i d ++ h ++ drop i d.

Lemma spliced_length i h d : length (spliced i h d) = (length d + length h)%nat.
Proof. unfold spliced. rewrite !length_app, length_take, length_drop. lia. Qed.

Lemma spliced_app i h d r : (i <= length d)%nat -> spliced i h (d ++ r) = spliced i h d ++ r.
Proof. intros Hi. unfold spliced. rewrite take_app_le, drop_app_le by done. by rewrite <- !app_assoc. Qed.

Lemma spliced_after i h d r : (length d <= i)%nat -> spliced i h (d ++ r) = d ++ spliced (i - length d) h r.
Proof. intros Hi. unfold spliced. rewrite take_app_ge, drop_app_ge by done. by rewrite <- !app_assoc. Qed.

(** Cutting the page header out gives the record back, and eight bytes of junk. *)
Lemma cut_spliced i h d : length h = 8%nat -> (i <= length d)%nat -> Z.of_nat (length d) + 8 < 2 ^ 32 ->
  exists junk, cut_header (spliced i h d) (Z.of_nat i) = Val (d ++ junk) /\ length junk = 8%nat.
Proof.
  intros Hh Hi Hlt. unfold cut_header. rewrite spliced_length, Hh. unfold WAL_PAGE_HEADER_SIZE. rewrite u32_small by lia.
  assert (Ht : length (take i d) = i) by (rewrite length_take; lia).
  unfold spliced. rewrite (slice_mid [] (take i d) (h ++ drop i d)) by (cbn; lia).
  assert (slice (take i d ++ h ++ drop i d) (Z.of_nat i + 8) (Z.of_nat (length d + 8)) = Val (drop i d)) as ->.
  { rewrite (app_assoc (take i d)), <- (app_nil_r (drop i d)) at 1. apply slice_mid; rewrite ?length_app, ?length_drop, ?Ht; lia. }
  eexists. split; [by rewrite (app_assoc (take i d)), take_drop|].
  rewrite length_drop, !length_app, Ht, length_drop. lia.
Qed.

(** The fields of a header. *)
Lemma header_slices b junk : rec_ok b -> let hdr := BLogHeader_toBytes (b_header b) ++ junk in
  head hdr = Some 0 /\ slice hdr 1 13 = Val (h_lsn (b_header b)) /\ slice hdr 13 17 = Val (le32 (record_size b)) /\
  slice hdr 17 21 = Val (le32 (h_pageId (b_header b))).
Proof.
  intros (Hflag & Hlsn & Hpid & Hcrc & Hls & Hsz & Hks & _) hdr. unfold hdr. rewrite header_parts, Hflag, Hls by done.
  rewrite <- !app_assoc. split; [done|]. split_and!.
  - by rewrite (slice_mid [0] (h_lsn (b_header b))) by (rewrite ?Hlsn; done).
  - rewrite (app_assoc [0]). by rewrite (slice_mid ([0] ++ _) (le32 (record_size b))) by (rewrite ?length_app, ?Hlsn; done).
  - rewrite (app_assoc [0]), (app_assoc _ (le32 (record_size b))).
    by rewrite (slice_mid _ (le32 (h_pageId (b_header b)))) by (rewrite ?length_app, ?Hlsn, ?le32_length; done).
Qed.

Lemma record_size_min b : BLOG_HEADER_SIZE + 5 <= record_size b.
Proof. unfold record_size. destruct (b_valSize b >? 0); lia. Qed.

Lemma read_header_within pre b post : rec_ok b -> let off := Z.of_nat (length pre) in
  off + BLOG_HEADER_SIZE < 2 ^ 32 -> off / WAL_PAGE_SIZE = (off + BLOG_HEADER_SIZE) / WAL_PAGE_SIZE ->
  readLogHeader (pre ++ BLogHeader_toBytes (b_header b) ++ post) off =
    Val (mkMeta (h_lsn (b_header b)) (h_pageId (b_header b)) (record_size b) false).
Proof.
  intros Hok off Hlt Hpage. pose proof (record_size_min b) as Hmin. pose proof Hok as (_ & _ & Hpid & _ & _ & Hsz & _).
  destruct (header_slices b [] Hok) as (Hf & H1 & H2 & H3). rewrite app_nil_r in *. unfold BLOG_HEADER_SIZE in *.
  unfold readLogHeader, BLOG_HEADER_SIZE. rewrite (u32_small (off + 25)) by lia.
  rewrite IsMultipage_eq, (proj2 (Z.eqb_eq _ _)) by (done || lia). cbn [negb].
  rewrite ReadAt_app by (rewrite ?hdr_length; done). cbv iota.
  destruct (BLogHeader_toBytes (b_header b)) as [|x r]; [done|]. injection Hf as ->.
  change (BitIsSet 0 LOGTYPE_FLAG_POS) with false. cbv iota. rewrite H1, H2, H3, !le32_decode_nil by lia.
  by rewrite (proj2 (Z.leb_gt _ _)) by lia.
Qed.

Lemma read_record pre b post : rec_ok b ->
  let off := Z.of_nat (length pre) in let s := record_size b in
  off + s < 2 ^ 32 -> off / WAL_PAGE_SIZE = (off + s) / WAL_PAGE_SIZE ->
  let fd := pre ++ BLog_payload b ++ post in
  readLogHeader fd off = Val (mkMeta (h_lsn (b_header b)) (h_pageId (b_header b)) s false) /\
  readFullLog fd off s (h_lsn (b_header b)) = Val (rec_op b false).
Proof.
  intros Hok off s Hlt Hpage fd. pose proof (payload_length b) as Hpl. pose proof (record_size_min b) as Hmin. fold s in Hpl, Hmin.
  unfold BLOG_HEADER_SIZE in Hmin. split.
  - unfold fd, BLog_payload. rewrite <- (app_assoc (BLogHeader_toBytes _)). apply read_header_within; [done|unfold BLOG_HEADER_SIZE; fold off; lia|].
    fold off. apply (same_page off (off + BLOG_HEADER_SIZE) (off + s)); unfold BLOG_HEADER_SIZE; (done || lia).
  - unfold readFullLog. rewrite (u32_small (off + s)) by lia. rewrite IsMultipage_eq by lia.
    rewrite (proj2 (Z.eqb_eq _ _)) by done. cbn [negb]. unfold fd.
    rewrite ReadAt_app by done.
    rewrite (proj2 (Nat.eqb_neq (length (BLog_payload b)) 0)) by lia.
    rewrite <- (app_nil_r (BLog_payload b)). by apply parse_payload.
Qed.

(** A header that crosses a page boundary, in any page. *)
Lemma read_header_across pre h b post p o (i : nat) : rec_ok b -> length h = 8%nat ->
  Z.of_nat (length pre) = log_pos p o -> 0 <= p < 2 ^ 18 -> Z.of_nat i = WAL_PAGE_SIZE - o -> (0 < i <= 25)%nat ->
  readLogHeader (pre ++ spliced i h (BLogHeader_toBytes (b_header b)) ++ post) (log_pos p o) =
    Val (mkMeta (h_lsn (b_header b)) (h_pageId (b_header b)) (record_size b) true).
Proof.
  intros Hok Hh Hpre Hp Hi Hi25. pose proof (record_size_min b) as Hmin. pose proof Hok as (_ & _ & Hpid & _ & _ & Hsz & _).
  unfold log_pos, BLOG_HEADER_SIZE, WAL_PAGE_SIZE in *.
  destruct (cut_spliced i h (BLogHeader_toBytes (b_header b)) Hh) as (junk & Hcut & Hjunk); [rewrite hdr_length; lia..|].
  destruct (header_slices b junk Hok) as (Hf & H1 & H2 & H3).
  unfold readLogHeader, BLOG_HEADER_SIZE, WAL_PAGE_SIZE. rewrite (u32_small (_ + 25)) by lia.
  assert (Hd0 : (p * 8192 + o) / 8192 = p) by (rewrite Z.div_add_l, Z.div_small by lia; lia).
  assert (Hd1 : (p * 8192 + o + 25) / 8192 = p + 1).
  { replace (p * 8192 + o + 25) with ((p + 1) * 8192 + (o + 25 - 8192)) by lia. rewrite Z.div_add_l, Z.div_small by lia. lia. }
  rewrite IsMultipage_eq by lia. unfold WAL_PAGE_SIZE. rewrite Hd0, Hd1, (proj2 (Z.eqb_neq _ _)) by lia. cbn [negb]. cbv iota.
  rewrite ReadAt_app by (rewrite ?spliced_length, ?hdr_length, ?Hh; unfold WAL_PAGE_HEADER_SIZE; lia). cbv iota.
  rewrite (u32_small (p + 1)), (u32_small (8192 * (p + 1))), (u32_small (_ - _)) by lia.
  replace (8192 * (p + 1) - (p * 8192 + o)) with (Z.of_nat i) by lia.
  assert (Hhd : head (spliced i h (BLogHeader_toBytes (b_header b))) = Some 0).
  { pose proof (hdr_length (b_header b)) as Hhl. unfold spliced. destruct (BLogHeader_toBytes (b_header b)) as [|x r]; [done|]. injection Hf as ->. by destruct i; [lia|]. }
  destruct (spliced i h (BLogHeader_toBytes (b_header b))) as [|x r]; [done|]. injection Hhd as ->.
  change (BitIsSet 0 LOGTYPE_FLAG_POS) with false. cbv iota. rewrite Hcut, H1, H2, H3, !le32_decode_nil by lia.
  by rewrite (proj2 (Z.leb_gt _ _)) by lia.
Qed.

(** A record that crosses the boundary behind the first page. *)
Lemma read_crossing pre h b post o (i : nat) : rec_ok b -> length h = 8%nat ->
  Z.of_nat (length pre) = o -> Z.of_nat i = WAL_PAGE_SIZE - o -> 0 <= o -> 0 < Z.of_nat i < record_size b -> record_size b < WAL_PAGE_SIZE ->
  let fd := pre ++ spliced i h (BLog_payload b) ++ post in
  (exists m, readLogHeader fd o = Val (mkMeta (h_lsn (b_header b)) (h_pageId (b_header b)) (record_size b) m)) /\
  readFullLog fd o (record_size b) (h_lsn (b_header b)) = Val (rec_op b true).
Proof.
  intros Hok Hh Hpre Hi Ho His Hs fd. pose proof (payload_length b) as Hpl. pose proof (hdr_length (b_header b)) as Hhl.
  pose proof (record_size_min b) as Hmin. unfold WAL_PAGE_SIZE, BLOG_HEADER_SIZE in *. split.
  - unfold fd, BLog_payload. destruct (decide (i <= 25)%nat).
    + exists true. rewrite spliced_app, <- app_assoc by lia.
      by apply (read_header_across pre h b _ 0 o i); unfold log_pos, WAL_PAGE_SIZE; (done || lia).
    + exists false. rewrite spliced_after, <- app_assoc by lia. rewrite <- Hpre.
      apply read_header_within; unfold BLOG_HEADER_SIZE, WAL_PAGE_SIZE; [done|lia|]. rewrite !Z.div_small by lia. done.
  - unfold readFullLog, WAL_PAGE_SIZE. rewrite (u32_small (o + _)) by lia. rewrite IsMultipage_eq by lia. unfold WAL_PAGE_SIZE.
    assert ((o + record_size b) / 8192 = 1) as ->.
    { replace (o + record_size b) with (1 * 8192 + (o + record_size b - 8192)) by lia. rewrite Z.div_add_l, Z.div_small by lia. lia. }
    rewrite (Z.div_small o) by lia. cbn [Z.eqb negb]. cbv iota. unfold fd, WAL_PAGE_HEADER_SIZE. rewrite (u32_small (_ + 8)) by lia.
    rewrite ReadAt_app by (rewrite ?spliced_length, ?Hh; lia).
    rewrite (proj2 (Nat.eqb_neq (length (spliced _ _ _)) 0)) by (rewrite spliced_length; lia).
    rewrite (u32_small (_ - 8192)), (u32_small (_ - _)) by lia. replace (record_size b - (o + record_size b - 8192)) with (Z.of_nat i) by lia.
    destruct (cut_spliced i h (BLog_payload b) Hh) as (junk & -> & Hj); [lia|lia|]. by apply parse_payload.
Qed.

(** A record written within a page is read back from its position as the
    header and the operation that were logged, for puts and deletes, in any page
    of the log and whatever surrounds it. *)
Lemma log_roundtrip pre post b p o out :
  rec_ok b -> h_lsn (b_header b) = mkLSN p o (record_size b) ->
  0 <= p < 2 ^ 18 -> WAL_PAGE_HEADER_SIZE < o -> o + record_size b < WAL_PAGE_SIZE ->
  Z.of_nat (length pre) = log_pos p o -> BLog_toBytes b = Val out ->
  let fd := pre ++ out ++ post in
  readLogHeader fd (log_pos p o) = Val (mkMeta (h_lsn (b_header b)) (h_pageId (b_header b)) (record_size b) false) /\
  readFullLog fd (log_pos p o) (record_size b) (h_lsn (b_header b)) = Val (rec_op b false).
Proof.
  intros Hok Hlsn Hp Ho Hend Hpre Hout fd.
  assert (Hrs : 0 < record_size b) by (unfold record_size, BLOG_HEADER_SIZE; destruct (b_valSize b >? 0); lia).
  unfold log_pos, WAL_PAGE_SIZE, WAL_PAGE_HEADER_SIZE in *.
  rewrite (BLog_toBytes_eq b p o (record_size b)) in Hout by (unfold u32_ok; done || lia).
  unfold checkLogOverflow in Hout. rewrite payload_length in Hout. unfold WAL_PAGE_SIZE, WAL_PAGE_HEADER_SIZE in Hout.
  rewrite (proj2 (Z.ltb_lt _ _)), (proj2 (Z.leb_gt _ _)) in Hout by lia. injection Hout as <-.
  unfold fd. rewrite <- Hpre. apply read_record; [done|lia|]. unfold WAL_PAGE_SIZE. rewrite Hpre.
  rewrite <- Z.add_assoc, !(Z.add_comm (p * 8192)), !Z.div_add by lia. rewrite !Z.div_small by lia. done.
Qed.

(** A record that crosses a page boundary behind the second page start cannot be
    replayed: the position of the page header inside it is computed from the start
    of the file, and reading the record panics. *)
Lemma crossing_record_panics fd startOff lSize lsn :
  WAL_PAGE_SIZE < startOff -> 0 < lSize < WAL_PAGE_SIZE -> startOff + lSize + WAL_PAGE_HEADER_SIZE < 2 ^ 31 ->
  startOff / WAL_PAGE_SIZE <> (startOff + lSize) / WAL_PAGE_SIZE ->
  exists msg, readFullLog fd startOff lSize lsn = Panic msg.
Proof.
  intros Hs Hl Hlt Hcross. unfold readFullLog, WAL_PAGE_SIZE, WAL_PAGE_HEADER_SIZE in *.
  rewrite (u32_small (startOff + lSize)) by lia. rewrite IsMultipage_eq by lia. unfold WAL_PAGE_SIZE.
  rewrite (proj2 (Z.eqb_neq _ _)) by done. cbn [negb]. rewrite (u32_small (lSize + 8)) by lia.
  destruct (ReadAt fd (lSize + 8) startOff) as [bLog short] eqn:E. destruct short; [eauto|].
  destruct (length bLog =? 0)%nat; [eauto|].
  assert (Hlen : Z.of_nat (length bLog) <= lSize + 8).
  { unfold ReadAt in E. injection E as <- _. rewrite length_take. lia. }
  rewrite (u32_small (startOff + lSize - 8192)) by lia.
  replace (lSize - (startOff + lSize - 8192)) with (8192 - startOff) by lia.
  assert (Hidx : lSize + 8 < u32 (8192 - startOff)).
  { unfold u32. rewrite <- (Z_mod_plus_full _ 1), Z.mod_small by lia. lia. }
  unfold cut_header, slice at 1. rewrite (proj2 (Z.ltb_lt (Z.of_nat (length bLog)) _)), orb_true_r by lia. eauto.
Qed.

Module RecoverySample.

Definition rec0 : BLog := mkBLog (mkBLogHeader 0 (mkLSN 2 100 37) 4 0 37) PUT 1 [65] 2 [66; 67].

Lemma rec0_ok : rec_ok rec0.
Proof. unfold rec_ok. cbn. split_and!; (done || lia). Qed.

Lemma log_roundtrip_witness :
  BLog_toBytes rec0 = Val (BLog_payload rec0) /\
  let fd := replicate 16484 0 ++ BLog_payload rec0 ++ [1; 2; 3] in
  readLogHeader fd (log_pos 2 100) = Val (mkMeta (h_lsn (b_header rec0)) (h_pageId (b_header rec0)) (record_size rec0) false) /\
  readFullLog fd (log_pos 2 100) (record_size rec0) (h_lsn (b_header rec0)) = Val (rec_op rec0 false).
Proof.
  split; [reflexivity|].
  apply (log_roundtrip (replicate 16484 0) [1; 2; 3] rec0 2 100 (BLog_payload rec0));
    [exact rec0_ok|reflexivity|lia|unfold WAL_PAGE_HEADER_SIZE; lia|vm_compute; reflexivity|vm_compute; reflexivity|reflexivity].
Defined.

Lemma crossing_record_panics_witness :
  (16300 / WAL_PAGE_SIZE <> (16300 + 200) / WAL_PAGE_SIZE) /\
  exists msg, readFullLog (replicate 17000 0) 16300 200 (mkLSN 1 8108 200) = Panic msg.
Proof.
  split; [vm_compute; done|].
  apply (crossing_record_panics (replicate 17000 0) 16300 200 (mkLSN 1 8108 200));
    [vm_compute; reflexivity|vm_compute; done|vm_compute; reflexivity|vm_compute; done].
Defined.

End RecoverySample.
