(* ===== verification/Replay.v ===== *)
(** * Replaying a log

    The log a run of puts leaves, as a sequence of records that start where the one
    before ended ([log_run]), and what recovery makes of it: a log that ends in its
    first two pages gives the map of the puts, a longer one makes recovery panic. *)

From S2P Require Import Prelude Keys Files Helpers BTStack Wal WalTheorems BTree BTreeDelete CacheSpec BTreeInv BTreeNode BTreeShape BTreeInsert BTreeRead BTreeRange BTreeTheorems Recovery RecoveryTheorems.
Local Open Scope Z_scope.

(** ** Positions *)

(** Where the log stands after the puts. *)
Fixpoint log_end (p o : Z) (m : kvs) : Z * Z :=
  match m with
  | [] => (p, o)
  | (k, v) :: m' => let n := next_pos p o (put_size k v) in log_end n.1 n.2 m'
  end.

(** Every record fits in two pages, and none ends on a page boundary. *)
Fixpoint log_fits (o : Z) (m : kvs) : bool :=
  match m with
  | [] => true
  | (k, v) :: m' =>
      let s := put_size k v in
      (s <=? WAL_PAGE_SIZE - 2 * WAL_PAGE_HEADER_SIZE) && negb (o + s =? WAL_PAGE_SIZE) && log_fits (next_pos 0 o s).2 m'
  end.

Lemma next_pos_page p q o s : next_pos p o s = ((next_pos q o s).1 - q + p, (next_pos q o s).2).
Proof. unfold next_pos. destruct (o + s >=? WAL_PAGE_SIZE); cbn; f_equal; lia. Qed.

(** A record that can be logged at offset [o]. *)
Definition at_off (o s : Z) : Prop := size_ok s /\ o + s <> WAL_PAGE_SIZE.

Definition off_ok (o : Z) : Prop := WAL_PAGE_HEADER_SIZE < o < WAL_PAGE_SIZE.

Lemma next_off_ok p o s : off_ok o -> at_off o s ->
  off_ok (next_pos p o s).2 /\ p <= (next_pos p o s).1 <= p + 1 /\ log_pos p o + s <= log_pos (next_pos p o s).1 (next_pos p o s).2.
Proof.
  unfold off_ok, at_off, size_ok, next_pos, log_pos, WAL_PAGE_SIZE, WAL_PAGE_HEADER_SIZE. intros Ho [Hs Hne].
  destruct (Z.geb_spec (o + s) 8192); cbn; lia.
Qed.

Lemma log_fits_cons o k v m : log_fits o ((k, v) :: m) = true -> forall p,
  at_off o (put_size k v) /\ log_fits (next_pos p o (put_size k v)).2 m = true.
Proof.
  cbn [log_fits]. intros [[Hs Hne]%andb_prop Hm]%andb_prop p. rewrite (next_pos_page p 0). cbn [snd]. split; [|done].
  apply Z.leb_le in Hs. apply negb_true_iff, Z.eqb_neq in Hne. split; [|done]. unfold size_ok, put_size, BLOG_HEADER_SIZE in *. lia.
Qed.

Lemma log_end_mono m : forall p o, off_ok o -> log_fits o m = true -> p <= (log_end p o m).1 /\ off_ok (log_end p o m).2.
Proof.
  induction m as [|[k v] m IH]; intros p o Ho Hf; cbn [log_end]; [split; [cbn; lia|done]|].
  destruct (log_fits_cons _ _ _ _ Hf p) as [Hs Hf']. destruct (next_off_ok p o _ Ho Hs) as (Ho' & Hp & _).
  destruct (IH (next_pos p o (put_size k v)).1 _ Ho' Hf'). split; [lia|done].
Qed.

(** The bytes of a record at a position. *)
Lemma overflow_cases data p o : 0 <= p < 2 ^ 18 -> off_ok o -> at_off o (Z.of_nat (length data)) ->
  exists out, checkLogOverflow data p o = Val out /\
  if o + Z.of_nat (length data) <? WAL_PAGE_SIZE then out = data /\ next_pos p o (Z.of_nat (length data)) = (p, o + Z.of_nat (length data))
  else exists h (i : nat), length h = 8%nat /\ Z.of_nat i = WAL_PAGE_SIZE - o /\ 0 < Z.of_nat i < Z.of_nat (length data) /\ out = spliced i h data /\
    next_pos p o (Z.of_nat (length data)) = (p + 1, o + Z.of_nat (length data) - WAL_PAGE_SIZE + WAL_PAGE_HEADER_SIZE).
Proof.
  unfold off_ok, at_off, size_ok, checkLogOverflow, next_pos, WAL_PAGE_SIZE, WAL_PAGE_HEADER_SIZE. intros Hp Ho [Hs Hne].
  destruct (Z.ltb_spec (o + Z.of_nat (length data)) 8192).
  - rewrite (proj2 (Z.leb_gt _ _)), Z.geb_leb, (proj2 (Z.leb_gt _ _)) by lia. by exists data.
  - rewrite Z.geb_leb, (proj2 (Z.leb_le _ _)) by lia. rewrite (Z.div_small o) by lia. change (u32 (0 + 1)) with 1.
    change (u32 (8192 * 1)) with 8192. rewrite (u32_small (8192 - o)), (proj2 (Z.ltb_ge _ _)) by lia.
    eexists. split; [done|]. exists (WALPageHeader_toBytes (mkPageHeader WAL_MAGIC_NO (u32 (p + 1)))), (Z.to_nat (8192 - o)).
    split_and!; [done|lia|lia|lia|done|done].
Qed.

Lemma checkLogOverflow_longer data p o out : checkLogOverflow data p o = Val out -> (length data <= length out)%nat.
Proof.
  unfold checkLogOverflow. repeat case_match; intros [= <-]; cbn [length app]; rewrite ?length_app, ?length_take; cbn [length]; rewrite ?length_drop; lia.
Qed.

(** ** The map of a sequence of puts *)

Lemma put_all_size (m : kvs) (M : gmap bytes bytes) : (size (put_all m.*1 m.*2 M) <= size M + length m)%nat.
Proof.
  revert M. induction m as [|[k v] m IH]; intros M; cbn; [lia|]. etrans; [apply IH|].
  rewrite map_size_insert. case_match; unfold id; lia.
Qed.

Lemma put_all_app (m m' : kvs) : forall M : gmap bytes bytes,
  put_all (m ++ m').*1 (m ++ m').*2 M = put_all m'.*1 m'.*2 (put_all m.*1 m.*2 M).
Proof. induction m as [|[k v] m IH]; intros M; [done|]. apply IH. Qed.

Section Replay.
Context {C F : Type} `{!CacheOps C F} `{!PageCache C F}.
Implicit Types (c : C) (t : BTree C).

(** A put record of a binding the tree can hold. *)
Definition put_rec (b : BLog) : Prop :=
  rec_ok b /\ b_opType b = PUT /\ b_key b <> [] /\ cell_ok (b_key b) /\ cell_ok (b_val b).

Definition bindings (rs : list BLog) : kvs := (fun b => (b_key b, b_val b)) <$> rs.

(** Records one after the other, their bytes, and the positions before and after. *)
Inductive log_run : Z -> Z -> list BLog -> bytes -> Z -> Z -> Prop :=
| run_nil p o : log_run p o [] [] p o
| run_cons p o b rs out rest p' o' :
    put_rec b -> at_off o (record_size b) -> checkLogOverflow (BLog_payload b) p o = Val out ->
    log_run (next_pos p o (record_size b)).1 (next_pos p o (record_size b)).2 rs rest p' o' ->
    log_run p o (b :: rs) (out ++ rest) p' o'.

Lemma log_run_mono p o rs bs p' o' : log_run p o rs bs p' o' -> off_ok o -> p <= p'.
Proof.
  induction 1 as [|p o b rs out rest p' o' Hb Hs Hout Hr IH]; intros Ho; [lia|].
  destruct (next_off_ok p o _ Ho Hs) as (Ho' & Hp & _). specialize (IH Ho'). lia.
Qed.

(** The writer after such records: file, pending bytes and LSN agree. *)
Lemma log_run_inv p o rs bs p' o' : log_run p o rs bs p' o' -> forall w, 0 <= p -> off_ok o -> p' < 2 ^ 18 ->
  w_queue w = [] -> walBuff w = [] -> Z.of_nat (length (w_file w)) = log_pos p o -> concat_bytes (NLog <$> rs) = Val bs ->
  log_inv (set_walBuff (NLog <$> rs) (set_max p' o' w)).
Proof.
  intros Hr w Hp Ho Hp' Hq Hb Hf Hc. assert (Hl : 0 <= p' /\ off_ok o' /\ log_pos p o + Z.of_nat (length bs) = log_pos p' o').
  { clear Hc Hf Hb Hq w. induction Hr as [|p o b rs out rest p' o' Hrec Hs Hout Hr IH]; [cbn; split_and!; [done|done|lia]|].
    destruct (next_off_ok p o _ Ho Hs) as (Ho' & Hpn & _). pose proof (log_run_mono _ _ _ _ _ _ Hr Ho') as Hmono.
    destruct (IH ltac:(lia) Ho' Hp') as (H1 & H2 & H3). split_and!; [done|done|]. rewrite length_app.
    pose proof (payload_length b) as Hpl. destruct Hs as [Hs _]. rewrite <- Hpl in *.
    destruct (checkLogOverflow_len (BLog_payload b) p o) as (out' & Hout' & Hlen); [lia|done|done|]. assert (out' = out) as -> by congruence. lia. }
  destruct Hl as (H1 & H2 & H3). unfold log_inv, log_ahead, wal_ok, off_ok, WAL_PAGE_SIZE, WAL_PAGE_HEADER_SIZE in *.
  cbn [maxPage maxOffset w_queue walBuff w_file set_walBuff set_max]. split_and!; [lia|lia|lia|lia|lia|done|]. exists bs. split; [done|]. lia.
Qed.

Lemma reapply_put K fuel b multi t M : holds K t M -> put_rec b -> (size M + 1 <= fuel)%nat -> 2 * Z.of_nat (size M + 1) <= K + 1 ->
  returns (reapplyLog fuel (rec_op b multi)) t (fun _ t' => holds K t' (<[b_key b := b_val b]> M)).
Proof.
  intros Hh (Hok & Hop & Hk & Hck & Hcv) Hf HK. destruct Hok as (_ & Hlsn & _ & _ & _ & _ & _ & Hrest).
  rewrite Hop in Hrest. destruct Hrest as [_ Hv]. unfold reapplyLog. cbn [rec_op o_key o_opType o_val o_lsn]. rewrite Hop.
  rewrite (proj2 (Nat.eqb_neq (length (b_key b)) 0)) by (destruct (b_key b); done).
  rewrite (proj2 (Nat.eqb_neq (length (b_val b)) 0)) by (destruct (b_val b); done).
  go_step. go_step.
  assert (Hne : h_lsn (b_header b) <> []) by (intros E; by rewrite E in Hlsn).
  go_call InsertValue_holds; [|exact Hh|done|by repeat constructor|by repeat constructor|by right|cbn; lia|cbn; lia].
  intros ok t' (-> & Ht). by go_step.
Qed.

(** What recovery reads of a record, unless it crosses a later boundary. *)
Lemma read_logged p o b out pre post : put_rec b -> 0 <= p < 2 ^ 18 -> off_ok o -> at_off o (record_size b) ->
  (p = 0 \/ o + record_size b < WAL_PAGE_SIZE) -> checkLogOverflow (BLog_payload b) p o = Val out -> Z.of_nat (length pre) = log_pos p o ->
  let n := next_pos p o (record_size b) in let fd := pre ++ out ++ post in
  exists m multi, readLogHeader fd (log_pos p o) = Val (mkMeta (h_lsn (b_header b)) (h_pageId (b_header b)) (record_size b) m) /\
    readFullLog fd (log_pos p o) (record_size b) (h_lsn (b_header b)) = Val (rec_op b multi) /\
    (if multi then u32 (log_pos p o + u32 (record_size b + WAL_PAGE_HEADER_SIZE)) else u32 (log_pos p o + record_size b)) = log_pos n.1 n.2 /\
    Z.of_nat (length (pre ++ out)) = log_pos n.1 n.2.
Proof.
  intros (Hok & _) Hp Ho Hs Hcross Hout Hpre n fd. pose proof (payload_length b) as Hpl. rewrite <- Hpl in Hs.
  destruct (overflow_cases (BLog_payload b) p o Hp Ho Hs) as (out' & Hout' & Hcase). assert (out' = out) as -> by congruence.
  rewrite Hpl in *. unfold n, off_ok, at_off, size_ok, log_pos, WAL_PAGE_SIZE, WAL_PAGE_HEADER_SIZE in *.
  destruct (Z.ltb_spec (o + record_size b) 8192).
  - destruct Hcase as [-> ->]. exists false, false. destruct (read_record pre b post Hok) as [H1 H2]; [lia| |].
    { unfold WAL_PAGE_SIZE. rewrite Hpre, <- Z.add_assoc, !Z.div_add_l, !Z.div_small by lia. lia. }
    rewrite Hpre in H1, H2. cbn [fst snd]. rewrite u32_small, length_app by lia. split_and!; [done|done|lia|lia].
  - destruct Hcase as (h & i & Hh & Hi & His & -> & ->). destruct Hcross as [->|]; [|lia].
    destruct (read_crossing pre h b post o i Hok Hh) as [[m H1] H2]; unfold WAL_PAGE_SIZE; [lia..|].
    exists m, true. replace (0 * 8192 + o) with o by lia. cbn [fst snd]. rewrite (u32_small (_ + 8)), u32_small by lia.
    rewrite length_app, spliced_length, Hh. split_and!; [done|done|lia|lia].
Qed.

(** One record is applied and the walk goes on behind it. *)
Lemma walk_one K fuel p o b out pre post steps endOff t M : put_rec b -> 0 <= p < 2 ^ 18 -> off_ok o -> at_off o (record_size b) ->
  (p = 0 \/ o + record_size b < WAL_PAGE_SIZE) -> checkLogOverflow (BLog_payload b) p o = Val out -> Z.of_nat (length pre) = log_pos p o ->
  log_pos p o < endOff -> holds K t M -> (size M + 1 <= fuel)%nat -> 2 * Z.of_nat (size M + 1) <= K + 1 ->
  let n := next_pos p o (record_size b) in let fd := pre ++ out ++ post in
  Z.of_nat (length (pre ++ out)) = log_pos n.1 n.2 /\
  exists t', holds K t' (<[b_key b := b_val b]> M) /\
    walkThroughRecovery (S steps) fuel fd (log_pos p o) endOff t = walkThroughRecovery steps fuel fd (log_pos n.1 n.2) endOff t'.
Proof.
  intros Hb Hp Ho Hs Hcross Hout Hpre Hend Hh Hf HK n fd.
  destruct (read_logged p o b out pre post Hb Hp Ho Hs Hcross Hout Hpre) as (m & multi & Hhdr & Hfull & Hnext & Hlen).
  fold n fd in Hhdr, Hfull, Hnext, Hlen. split; [done|].
  destruct (reapply_put K fuel b multi t M Hh Hb Hf HK) as (u & t' & Hre & Hh'). exists t'. split; [done|].
  cbn [walkThroughRecovery]. rewrite (proj2 (Z.ltb_lt _ _)) by done. cbn [negb].
  unfold lift_outcome, or_panic, catch, mbind, M_bind. rewrite Hhdr. cbn [m_logSize m_lsn]. rewrite Hfull. unfold mret, M_ret.
  rewrite Hre. cbn [rec_op o_multiPage]. by rewrite Hnext.
Qed.

(** A record that crosses the second boundary ends the walk. *)
Lemma walk_crossing p o b out pre post steps fuel endOff t : put_rec b -> p = 1 -> off_ok o -> at_off o (record_size b) ->
  WAL_PAGE_SIZE <= o + record_size b -> checkLogOverflow (BLog_payload b) p o = Val out -> Z.of_nat (length pre) = log_pos p o ->
  log_pos p o < endOff ->
  exists msg t', walkThroughRecovery (S steps) fuel (pre ++ out ++ post) (log_pos p o) endOff t = (Panic msg, t').
Proof.
  intros (Hok & _) -> Ho Hs Hge Hout Hpre Hend. pose proof (payload_length b) as Hpl. rewrite <- Hpl in Hs.
  destruct (overflow_cases (BLog_payload b) 1 o ltac:(lia) Ho Hs) as (out' & Hout' & Hcase). assert (out' = out) as -> by congruence.
  rewrite Hpl in *. rewrite (proj2 (Z.ltb_ge _ _)) in Hcase by done. destruct Hcase as (h & i & Hh & Hi & His & -> & _).
  unfold off_ok, at_off, size_ok, log_pos, WAL_PAGE_SIZE, WAL_PAGE_HEADER_SIZE in *.
  assert (exists m, readLogHeader (pre ++ spliced i h (BLog_payload b) ++ post) (1 * 8192 + o) =
    Val (mkMeta (h_lsn (b_header b)) (h_pageId (b_header b)) (record_size b) m)) as [m Hhdr].
  { unfold BLog_payload. destruct (decide (i <= 25)%nat).
    - exists true. rewrite spliced_app, <- app_assoc by (rewrite hdr_length; lia).
      apply (read_header_across pre h b _ 1 o i); unfold log_pos, WAL_PAGE_SIZE; (done || lia).
    - exists false. rewrite spliced_after, <- app_assoc by (rewrite hdr_length; lia). rewrite <- Hpre.
      apply read_header_within; unfold BLOG_HEADER_SIZE, WAL_PAGE_SIZE; [done|lia|].
      rewrite Hpre, <- Z.add_assoc, !Z.div_add_l, !Z.div_small by lia. done. }
  destruct (crossing_record_panics (pre ++ spliced i h (BLog_payload b) ++ post) (1 * 8192 + o) (record_size b) (h_lsn (b_header b)))
    as [msg Hp]; unfold WAL_PAGE_SIZE, WAL_PAGE_HEADER_SIZE; [lia..| |].
  { rewrite Z.div_add_l, Z.div_small by lia. replace (1 * 8192 + o + record_size b) with (2 * 8192 + (o + record_size b - 8192)) by lia.
    rewrite Z.div_add_l, Z.div_small by lia. done. }
  exists msg, t. cbn [walkThroughRecovery]. rewrite (proj2 (Z.ltb_lt _ _)) by done. cbn [negb].
  unfold lift_outcome, or_panic, catch, mbind, M_bind. rewrite Hhdr. cbn [m_logSize m_lsn]. by rewrite Hp.
Qed.

(** The outcome of a replay: the map of all records, or a panic when the log
    reaches its third page. *)
Definition replays (r : M (BTree C) unit) (K : Z) t (page : Z) (M : gmap bytes bytes) : Prop :=
  if page <=? 1 then returns r t (fun _ t' => holds K t' M) else exists msg t', r t = (Panic msg, t').

Lemma replays_eq (r r' : M (BTree C) unit) K t t' page M : r t = r' t' -> replays r' K t' page M -> replays r K t page M.
Proof. unfold replays, returns. intros ->. done. Qed.

Lemma walk_run K fuel p o rs bs p' o' : log_run p o rs bs p' o' -> forall steps pre t M,
  0 <= p <= 1 -> off_ok o -> Z.of_nat (length pre) = log_pos p o -> holds K t M ->
  (size M + length rs <= fuel)%nat -> 2 * Z.of_nat (size M + length rs) <= K + 1 -> (length rs < steps)%nat ->
  let fd := pre ++ bs in
  replays (walkThroughRecovery steps fuel fd (log_pos p o) (Z.of_nat (length fd))) K t p' (put_all (bindings rs).*1 (bindings rs).*2 M).
Proof.
  induction 1 as [p o|p o b rs out rest p' o' Hb Hs Hout Hr IH]; intros steps pre t M Hp Ho Hpre Hh Hf HK Hst fd;
    (destruct steps as [|steps]; [cbn in Hst; lia|]).
  - unfold replays. rewrite (proj2 (Z.leb_le _ _)) by lia. unfold fd. rewrite app_nil_r, Hpre. cbn [walkThroughRecovery].
    rewrite Z.ltb_irrefl. by apply returns_ret.
  - cbn [length] in *. destruct (next_off_ok p o _ Ho Hs) as (Ho' & Hp' & _). pose proof (log_run_mono _ _ _ _ _ _ Hr Ho') as Hmono.
    assert (Hend : log_pos p o < Z.of_nat (length fd)).
    { unfold fd. rewrite !length_app, !Nat2Z.inj_add, Hpre. pose proof (payload_length b) as Hpl. pose proof (record_size_min b) as Hmin.
      rewrite <- Hpl in Hs. destruct (overflow_cases (BLog_payload b) p o ltac:(lia) Ho Hs) as (out' & Hout' & Hcase).
      assert (out' = out) as -> by congruence. unfold BLOG_HEADER_SIZE in *.
      destruct (o + Z.of_nat (length (BLog_payload b)) <? WAL_PAGE_SIZE); [destruct Hcase as [-> _]; lia|].
      destruct Hcase as (h & i & Hh8 & _ & _ & -> & _). rewrite spliced_length. lia. }
    destruct (decide (p = 1 /\ WAL_PAGE_SIZE <= o + record_size b)) as [[-> Hge]|Hok].
    + unfold replays. assert (2 <= p').
      { unfold next_pos in Hmono. rewrite Z.geb_leb, (proj2 (Z.leb_le _ _)) in Hmono by done. cbn in Hmono. lia. }
      rewrite (proj2 (Z.leb_gt _ _)) by lia. by apply (walk_crossing 1 o b).
    + destruct (walk_one K fuel p o b out pre rest steps (Z.of_nat (length fd)) t M) as (Hlen & t' & Hh' & Heq); [done|lia|done|done| |done|done|done|done|lia|lia|].
      { unfold WAL_PAGE_SIZE in *. lia. }
      eapply replays_eq; [exact Heq|]. unfold fd, bindings. cbn [fmap list_fmap fst snd put_all]. rewrite !(app_assoc pre out rest).
      assert (Hsz : (size (<[b_key b := b_val b]> M) <= S (size M))%nat) by (rewrite map_size_insert; case_match; unfold id; lia).
      assert (Hnp : (next_pos p o (record_size b)).1 <= 1).
      { unfold next_pos. destruct (Z.geb_spec (o + record_size b) WAL_PAGE_SIZE); cbn; [|lia]. lia. }
      apply (IH steps (pre ++ out) t' (<[b_key b := b_val b]> M)); [lia|done|done|done|lia|lia|lia].
Qed.

(** *** From the first checkpoint of a log *)

Definition log_start : bytes := w_file new_log.

Lemma start_off : off_ok 25.
Proof. unfold off_ok, WAL_PAGE_HEADER_SIZE, WAL_PAGE_SIZE. lia. Qed.

(** What follows the checkpoint is nothing, or at least a record's header. *)
Lemma checkpoint_skipped rest : (25 <= length rest)%nat -> readLogHeader (log_start ++ rest) 8 = Err checkpoint_found.
Proof.
  intros Hl. unfold readLogHeader. match goal with |- context [IsMultipage 8 ?e _] => change (IsMultipage 8 e WAL_PAGE_SIZE) with (Val false) end.
  cbv iota. destruct rest as [|x0 [|x1 [|x2 [|x3 [|x4 [|x5 [|x6 [|x7 l]]]]]]]]; cbn in Hl; try lia. reflexivity.
Qed.

Lemma Recover_run K fuel rs bs p' o' t M steps : log_run 0 25 rs bs p' o' -> holds K t M ->
  (size M + length rs <= fuel)%nat -> 2 * Z.of_nat (size M + length rs) <= K + 1 -> (length rs + 1 < steps)%nat ->
  let fd := log_start ++ bs in Z.of_nat (length fd) < 2 ^ 32 ->
  replays (Recover steps fuel (mkRecovery fd (Z.of_nat (length fd)) (mkLSN 0 8 17))) K t p' (put_all (bindings rs).*1 (bindings rs).*2 M).
Proof.
  intros Hr Hh Hf HK Hst fd Hlen.
  assert (Hrec : forall s, Recover s fuel (mkRecovery fd (Z.of_nat (length fd)) (mkLSN 0 8 17)) t =
    walkThroughRecovery s fuel fd 8 (Z.of_nat (length fd)) t).
  { intros s. rewrite <- (u32_small (Z.of_nat (length fd))) at 2 by lia. reflexivity. }
  eapply replays_eq; [apply Hrec|]. destruct steps as [|steps]; [lia|].
  assert (Hfd : 25 <= Z.of_nat (length fd)) by (unfold fd; rewrite length_app; cbn; lia).
  inversion Hr as [? ? Hp0 Ho0 Hrs Hbs Hp' Ho'|? ? b rs0 out rest ? ? Hb Hs Hout Hr0 Hp0 Ho0 Hrs Hbs Hp' Ho']; subst.
  - unfold replays. rewrite (proj2 (Z.leb_le _ _)) by lia. cbn [walkThroughRecovery].
    unfold fd. cbn [app]. rewrite app_nil_r. change (8 <? Z.of_nat (length log_start)) with true. cbn [negb].
    go_step. eapply returns_catch_err. exists t. split; [reflexivity|]. rewrite decide_False, decide_True by done. by go_step.
  - assert (Hl : (25 <= length (out ++ rest))%nat).
    { rewrite length_app. pose proof (payload_length b) as Hpl. pose proof (record_size_min b). unfold BLOG_HEADER_SIZE in *.
      apply checkLogOverflow_longer in Hout. lia. }
    eapply (replays_eq _ (walkThroughRecovery steps fuel fd (log_pos 0 25) (Z.of_nat (length fd))) K t t).
    + cbn [walkThroughRecovery]. rewrite (proj2 (Z.ltb_lt 8 _)) by lia. cbn [negb]. unfold lift_outcome, catch, mbind, M_bind.
      unfold fd. rewrite checkpoint_skipped by done. cbn [ekind checkpoint_found]. by rewrite decide_True.
    + apply (walk_run K fuel 0 25 (b :: rs0) (out ++ rest) p' o'); [done|lia|exact start_off|done|done|done|done|lia].
Qed.

(** *** Puts, a flush, a crash, a replay *)

Definition puts (m : kvs) : list tree_op := (fun p => OpPut p.1 p.2) <$> m.

Lemma put_record_ok pid p o k v : 0 < pid < 2 ^ 31 -> put_size k v < 2 ^ 31 -> v <> [] ->
  let b := mkBLog (mkBLogHeader 0 (mkLSN p o (put_size k v)) pid 0 (put_size k v)) PUT (Z.of_nat (length k)) k (Z.of_nat (length v)) v in
  rec_ok b /\ record_size b = put_size k v.
Proof.
  intros Hp Hs Hv b. assert (Hl : (Z.of_nat (length v) >? 0) = true) by (destruct v; [done|]; rewrite Z.gtb_ltb; apply Z.ltb_lt; cbn; lia).
  assert (Hrs : record_size b = put_size k v) by (unfold record_size, put_size; cbn [b b_valSize b_key b_val]; rewrite Hl; lia).
  split; [|done]. unfold rec_ok. rewrite Hrs. cbn [b b_header h_flag h_lsn h_pageId h_crc h_lSize b_keySize b_opType b_valSize b_key b_val].
  split_and!; (done || lia).
Qed.

(** One put, with the record it adds. *)
Lemma put_step K fuel k v t M :
  holds K t M -> op_ok cell_ok (OpPut k v) -> (size M + 1 <= fuel)%nat -> 2 * Z.of_nat (size M + 1) <= K + 1 ->
  let w := bt_wal t in 0 <= maxPage w < 2 ^ 18 -> off_ok (maxOffset w) -> at_off (maxOffset w) (put_size k v) ->
  returns (run_tree_op fuel (OpPut k v)) t (fun _ t' => holds K t' (<[k := v]> M) /\ exists b,
    put_rec b /\ b_key b = k /\ b_val b = v /\ record_size b = put_size k v /\
    BLog_toBytes b = checkLogOverflow (BLog_payload b) (maxPage w) (maxOffset w) /\
    let n := next_pos (maxPage w) (maxOffset w) (put_size k v) in
    bt_wal t' = set_walBuff (walBuff w ++ [NLog b]) (set_max n.1 n.2 w)).
Proof.
  intros (m & Hi & Hm) (Hk & Hv & Hnk & Hnv) Hf HK w Hp Ho [Hs Hne].
  pose proof (holds_size _ _ _ _ Hi Hm) as Hsz. cbn [run_tree_op InsertValue].
  go_step. go_step. eapply returns_mono; [|apply (insert_one_spec K fuel [] k v t m); [done|done|done|done|by left|lia|lia]].
  intros lsn' t' (Hi' & _ & _ & l & pid & Hpid & Hlog). go_step. go_step.
  split; [exists (kv_insert k v m); split; [done|subst M; by apply to_map_kv_insert; eapply bt_inv_sorted]|].
  unfold off_ok, WAL_PAGE_SIZE, WAL_PAGE_HEADER_SIZE in Ho. pose proof Hs as Hs'. unfold size_ok, WAL_PAGE_SIZE, WAL_PAGE_HEADER_SIZE in Hs'.
  rewrite AddPutLog_eq in Hlog; [|split; fold w; unfold WAL_PAGE_SIZE, WAL_PAGE_HEADER_SIZE; lia|done|done|done].
  fold w in Hlog. injection Hlog as <- Hwal.
  destruct (put_record_ok pid (maxPage w) (maxOffset w) k v Hpid ltac:(lia) Hnv) as [Hrec Hrs].
  eexists. split_and!; [split; [exact Hrec|done]|done|done|exact Hrs| |by rewrite <- Hwal].
  by rewrite (BLog_toBytes_eq _ (maxPage w) (maxOffset w) (put_size k v)) by (unfold u32_ok; done || lia).
Qed.

Lemma run_puts K fuel m : Forall (op_ok cell_ok) (puts m) -> forall t M,
  holds K t M -> (size M + length m <= fuel)%nat -> 2 * Z.of_nat (size M + length m) <= K + 1 ->
  let w := bt_wal t in let e := log_end (maxPage w) (maxOffset w) m in
  0 <= maxPage w -> e.1 < 2 ^ 18 -> off_ok (maxOffset w) -> log_fits (maxOffset w) m = true ->
  returns (run_tree fuel (puts m)) t (fun _ t' => holds K t' (put_all m.*1 m.*2 M) /\ exists rs bs,
    log_run (maxPage w) (maxOffset w) rs bs e.1 e.2 /\ bindings rs = m /\ concat_bytes (NLog <$> rs) = Val bs /\
    bt_wal t' = set_walBuff (walBuff w ++ (NLog <$> rs)) (set_max e.1 e.2 w)).
Proof.
  induction m as [|[k v] m IH]; intros Hok t M Hh Hf HK w e Hp He Ho Hfit; cbn [puts fmap list_fmap run_tree].
  - go_step. split; [done|]. exists [], []. split_and!; [constructor|done|done|]. rewrite app_nil_r. fold w. by destruct w.
  - apply Forall_cons in Hok as [Hkv Hok]. cbn [fst snd length] in *. destruct (log_fits_cons _ _ _ _ Hfit (maxPage w)) as [Hs Hfit'].
    destruct (next_off_ok (maxPage w) _ _ Ho Hs) as (Ho' & Hp' & _).
    unfold e in He. cbn [log_end] in He. destruct (log_end_mono m (next_pos (maxPage w) (maxOffset w) (put_size k v)).1 _ Ho' Hfit') as [Hmono _].
    go_step. eapply returns_mono; [|apply (put_step K fuel k v t M); [done|done|lia|lia|fold w; lia|done|done]].
    intros r t1 (Hh1 & b & Hb & Hbk & Hbv & Hrs & Hby & Hw1). fold w in Hby, Hw1.
    assert (Hsz : (size (<[k := v]> M) <= S (size M))%nat) by (rewrite map_size_insert; case_match; unfold id; lia).
    assert (Hmp : maxPage (bt_wal t1) = (next_pos (maxPage w) (maxOffset w) (put_size k v)).1) by (by rewrite Hw1).
    assert (Hmo : maxOffset (bt_wal t1) = (next_pos (maxPage w) (maxOffset w) (put_size k v)).2) by (by rewrite Hw1).
    go_step. eapply returns_mono; [|apply (IH Hok t1 (<[k := v]> M)); rewrite ?Hmp, ?Hmo; [done|lia|lia|lia|done|done|done]].
    intros rs0 t2 (Hh2 & rs & bs & Hrun & Hbind & Hcat & Hw2). go_step. rewrite Hmp, Hmo in Hrun, Hw2.
    split; [exact Hh2|].
    destruct (overflow_cases (BLog_payload b) (maxPage w) (maxOffset w)) as (out & Hout & _); [lia|done|by rewrite payload_length, Hrs|].
    exists (b :: rs), (out ++ bs). split_and!.
    + unfold e. cbn [log_end]. rewrite <- Hrs in *. by econstructor.
    + unfold bindings in *. cbn [fmap list_fmap]. by rewrite Hbk, Hbv, Hbind.
    + cbn [fmap list_fmap concat_bytes toBytes]. by rewrite Hby, Hout, Hcat.
    + rewrite Hw2, Hw1. unfold e. cbn [log_end]. cbn. by rewrite <- app_assoc.
Qed.

(** Puts, a flush and a crash: the log writer resumes where it was, and recovery
    rebuilds the map or, once the log has reached its third page, panics. *)
Lemma flush_and_recover fuel steps m c1 c2 w2 :
  cinv c1 -> c_GetRootPageId c1 = 0 -> cinv c2 -> c_GetRootPageId c2 = 0 ->
  Forall (op_ok cell_ok) (puts m) -> log_fits 25 m = true -> (log_end 0 25 m).1 < 2 ^ 18 ->
  (length m <= fuel)%nat -> (length m + 1 < steps)%nat ->
  2 * Z.of_nat (length m) <= room c1 + 1 -> 2 * Z.of_nat (length m) <= room c2 + 1 ->
  exists rs t w rm, run_tree fuel (puts m) (NewIndex new_log c1) = (Val rs, t) /\
    holds (room c1) t (put_all m.*1 m.*2 ∅) /\ BLogWrite (bt_wal t) = (Val tt, w) /\
    NewWalWriter (w_file w) (w_conf w) = Val w /\ NewRecoveryMngr (w_conf w) (w_file w) = Some rm /\
    replays (Recover steps fuel rm) (room c2) (NewIndex w2 c2) (log_end 0 25 m).1 (put_all m.*1 m.*2 ∅).
Proof.
  intros Hc1 Hr1 Hc2 Hr2 Hok Hfit Hend Hf Hst HK1 HK2.
  assert (HK0 : size (∅ : gmap bytes bytes) = 0%nat) by apply map_size_empty.
  destruct (run_puts (room c1) fuel m Hok (NewIndex new_log c1) ∅ (holds_new new_log c1 Hc1 Hr1)) as
    (rs & t & Hrun & Hh & recs & bs & Hlog & Hbind & Hcat & Hwal); [lia|lia|done|done|exact start_off|done|].
  cbn [NewIndex bt_wal new_log maxPage maxOffset] in Hlog, Hwal.
  assert (Hinv : log_inv (bt_wal t)).
  { rewrite Hwal. apply (log_run_inv 0 25 recs bs); [exact Hlog|lia|exact start_off|exact Hend|done|done|reflexivity|exact Hcat]. }
  destruct (BLogWrite_eq (bt_wal t) bs) as (w & Hw & Hwb & Hwq & Hwf & Hwp & Hwo & Hwc); [by rewrite Hwal|by rewrite Hwal|].
  destruct (log_ahead_flush 0 _ _ Hinv Hw) as [Hinvw _].
  exists rs, t, w. eexists. split_and!; [done|done|done|by apply restart_same|by rewrite Hwc, Hwal|].
  rewrite Hwf, Hwal. cbn [w_file set_walBuff set_max].
  assert (Hl : length recs = length m) by (rewrite <- Hbind; unfold bindings; by rewrite length_fmap).
  replace (put_all m.*1 m.*2 ∅) with (put_all (bindings recs).*1 (bindings recs).*2 ∅) by (by rewrite Hbind). change (copy_into 12 (take 12 (mkLSN 0 8 17))) with (mkLSN 0 8 17).
  destruct Hinvw as ([Hp2 Ho2] & _ & _ & pend & Hb2 & Hlen2). rewrite Hwb in Hb2. injection Hb2 as <-.
  apply (Recover_run (room c2) fuel recs bs _ (log_end 0 25 m).2); [done|by apply holds_new|lia|lia|lia|].
  rewrite Hwf, Hwp, Hwo, Hwal in Hlen2. cbn in Hlen2. unfold log_pos, WAL_PAGE_SIZE in Hlen2.
  rewrite Hwo, Hwal in Ho2. cbn in Ho2. unfold WAL_PAGE_SIZE in Ho2. unfold log_start. cbn in *. lia.
Qed.

End Replay.
