(* ===== verification/LogOrder.v ===== *)
(** * The order of the log, replayed

    [WalRace] shows that of two concurrent callers the one with the greater LSN can
    have its record in front of the other's.  Here such a file is read back: recovery
    goes by the position in the file, so for two puts of one key the value with the
    smaller LSN is applied last and stays. *)

From S2P Require Import Prelude Keys Helpers BTStack Wal WalTheorems WalRace BTree CacheSpec BTreeInv BTreeInsert BTreeRead BTreeTheorems Recovery RecoveryTheorems Replay.
Local Open Scope Z_scope.

Section LogOrder.
Context {C F : Type} `{!CacheOps C F} `{!PageCache C F}.

Lemma log_run_app p o rs bs p1 o1 rs' bs' p2 o2 :
  log_run p o rs bs p1 o1 -> log_run p1 o1 rs' bs' p2 o2 -> log_run p o (rs ++ rs') (bs ++ bs') p2 o2.
Proof.
  induction 1 as [|p o b rs out rest p1 o1 Hb Hs Hout Hr IH]; intros H'; [done|].
  rewrite <- app_assoc. cbn [app]. econstructor; [done|done|done|]. by apply IH.
Qed.

(** A put whose record fits in the rest of the page. *)
Definition put_call (pid : Z) (k v : bytes) : logcall := mkCall PUT pid k v.

Lemma put_call_record pid p o k v : put_size k v < 2 ^ 31 ->
  record_of (put_call pid k v) (mkLSN p o (put_size k v)) = put_log pid (mkLSN p o (put_size k v)) k v.
Proof.
  intros Hs. unfold put_size, BLOG_HEADER_SIZE in Hs. unfold record_of, put_call, put_log. cbn [rq_op rq_key rq_val rq_page req_size].
  rewrite !u32_small by (unfold put_size, BLOG_HEADER_SIZE; lia). done.
Qed.

Lemma put_log_rec pid p o k v : 0 < pid < 2 ^ 31 -> put_size k v < 2 ^ 31 -> k <> [] -> v <> [] -> cell_ok k -> cell_ok v ->
  put_rec (put_log pid (mkLSN p o (put_size k v)) k v).
Proof. intros Hpid Hs Hk Hv Hck Hcv. split; [by apply put_record_ok|]. done. Qed.

(** One record inside the page. *)
Lemma log_run_one pid p o k v : 0 < pid < 2 ^ 31 -> k <> [] -> v <> [] -> cell_ok k -> cell_ok v -> WAL_PAGE_HEADER_SIZE < o ->
  size_ok (put_size k v) -> o + put_size k v < WAL_PAGE_SIZE -> forall lo lp, let b := put_log pid (mkLSN lp lo (put_size k v)) k v in
  log_run p o [b] (BLog_payload b) p (o + put_size k v).
Proof.
  intros Hpid Hk Hv Hck Hcv Ho Hs Hfit lo lp b. pose proof (put_log_length pid (mkLSN lp lo (put_size k v)) k v Hv) as Hlen. fold b in Hlen.
  pose proof (payload_length b) as Hrec. rewrite Hlen in Hrec. unfold size_ok, WAL_PAGE_SIZE, WAL_PAGE_HEADER_SIZE in *.
  rewrite <- (app_nil_r (BLog_payload b)). econstructor.
  - apply put_log_rec; (done || lia).
  - rewrite <- Hrec. unfold at_off, size_ok, WAL_PAGE_SIZE, WAL_PAGE_HEADER_SIZE. lia.
  - unfold checkLogOverflow, WAL_PAGE_SIZE, WAL_PAGE_HEADER_SIZE. by rewrite Hlen, (proj2 (Z.ltb_lt _ _)), (proj2 (Z.leb_gt _ _)) by lia.
  - rewrite <- Hrec. unfold next_pos, WAL_PAGE_SIZE. rewrite Z.geb_leb, (proj2 (Z.leb_gt _ _)) by lia. constructor.
Qed.

(** C33: the order of the log is not the order of its LSNs.  Take a log of puts that is
    on disk and ends in its first two pages, and two concurrent calls of [AddPutLog]
    for one key whose records fit in the current page.  In one interleaving both
    return, the second with the greater LSN, and everything is flushed; but its record
    is in front of the other one, and after a restart recovery, which succeeds, leaves
    the value with the smaller LSN in the index. *)
Theorem log_order_race w rs bs steps fuel k pid1 v1 pid2 v2 c w' :
  log_inv w -> walBuff w = [] -> w_conf w = mkLSN 0 8 17 ->
  w_file w = log_start ++ bs -> log_run 0 25 rs bs (maxPage w) (maxOffset w) -> maxPage w <= 1 ->
  0 < pid1 < 2 ^ 31 -> 0 < pid2 < 2 ^ 31 -> k <> [] -> v1 <> [] -> v2 <> [] -> cell_ok k -> cell_ok v1 -> cell_ok v2 ->
  maxOffset w + put_size k v1 + put_size k v2 < WAL_PAGE_SIZE - WAL_PAGE_HEADER_SIZE ->
  cinv c -> c_GetRootPageId c = 0 -> (length rs + 2 <= fuel)%nat -> (length rs + 3 < steps)%nat ->
  2 * Z.of_nat (length rs + 2) <= room c + 1 ->
  exists s lsn1 lsn2 rm, rtc conc_step (start w [Change (put_call pid1 k v1); Change (put_call pid2 k v2)]) s /\
    cc_callers s = [Returned lsn1; Returned lsn2] /\ GreaterLSN lsn2 lsn1 = Val true /\
    cc_writer s = FIdle /\ walBuff (cc_wal s) = [] /\
    w_file (cc_wal s) = w_file w ++ BLog_payload (put_log pid2 lsn2 k v2) ++ BLog_payload (put_log pid1 lsn1 k v1) /\
    NewRecoveryMngr (w_conf (cc_wal s)) (w_file (cc_wal s)) = Some rm /\
    returns (Recover steps fuel rm;; Get fuel k) (NewIndex w' c) (fun v t' => v = v1 /\
      holds (room c) t' (<[k := v1]> (put_all (bindings rs).*1 (bindings rs).*2 ∅))).
Proof.
  intros Hinv Hb Hconf Hfile Hrun Hpage Hpid1 Hpid2 Hk Hv1 Hv2 Hck Hcv1 Hcv2 Hfit Hc Hroot Hf Hst Hroom.
  pose proof Hinv as (Hw & Ho8 & _). pose proof (wal_ok_u32 w Hw) as [Hpu Hou].
  assert (Hp1 : 0 < put_size k v1) by (unfold put_size, BLOG_HEADER_SIZE; lia).
  assert (Hp2 : 0 < put_size k v2) by (unfold put_size, BLOG_HEADER_SIZE; lia).
  assert (Hs1 : size_ok (put_size k v1)) by (unfold size_ok, WAL_PAGE_SIZE, WAL_PAGE_HEADER_SIZE in *; lia).
  assert (Hs2 : size_ok (put_size k v2)) by (unfold size_ok, WAL_PAGE_SIZE, WAL_PAGE_HEADER_SIZE in *; lia).
  destruct (race_in_file w (put_call pid1 k v1) (put_call pid2 k v2)) as (Hlen & s & Hsteps & Hcs & Hwr & Hbuf & _ & Hcf & Hmp & Hmo & Hfs);
    [done|done|done|done|done|done|unfold WAL_PAGE_SIZE, WAL_PAGE_HEADER_SIZE in *; cbn [put_call req_size rq_op rq_key rq_val]; lia|].
  cbn [put_call req_size rq_op rq_key rq_val] in Hcs, Hfs, Hmo. fold (put_call pid1 k v1) (put_call pid2 k v2) in Hfs.
  unfold WAL_PAGE_SIZE, WAL_PAGE_HEADER_SIZE in *. destruct Hs1 as [_ Hs1], Hs2 as [_ Hs2]. unfold WAL_PAGE_SIZE, WAL_PAGE_HEADER_SIZE in Hs1, Hs2.
  rewrite !put_call_record in Hfs by lia.
  set (lsn1 := mkLSN _ _ _) in Hcs, Hfs. set (lsn2 := mkLSN _ _ _) in Hcs, Hfs. set (b1 := put_log pid1 lsn1 k v1) in *. set (b2 := put_log pid2 lsn2 k v2) in *.
  set (bs' := bs ++ BLog_payload b2 ++ BLog_payload b1).
  assert (Hrun' : log_run 0 25 (rs ++ [b2] ++ [b1]) bs' (maxPage w) (maxOffset w + put_size k v2 + put_size k v1)).
  { eapply log_run_app; [exact Hrun|]. eapply log_run_app; apply log_run_one; unfold size_ok, WAL_PAGE_SIZE, WAL_PAGE_HEADER_SIZE; (done || lia). }
  exists s, lsn1, lsn2. eexists. split_and!; [exact Hsteps|exact Hcs| |exact Hwr|exact Hbuf|exact Hfs|by rewrite Hcf, Hconf|].
  { unfold lsn1, lsn2. rewrite GreaterLSN_order by (done || unfold u32_ok; lia). by rewrite bool_decide_eq_true_2 by (right; cbn; lia). }
  assert (Hfd : w_file (cc_wal s) = log_start ++ bs') by (by rewrite Hfs, Hfile, <- app_assoc).
  rewrite Hfd. change (copy_into 12 _) with (mkLSN 0 8 17).
  assert (Hlen' : Z.of_nat (length (log_start ++ bs')) < 2 ^ 32).
  { pose proof (put_log_length pid1 lsn1 k v1 Hv1) as L1. pose proof (put_log_length pid2 lsn2 k v2 Hv2) as L2.
    rewrite <- Hfd, Hfs, !length_app. unfold log_pos, WAL_PAGE_SIZE in *. fold b1 b2 in L1, L2. lia. }
  assert (Hnum : length (rs ++ [b2] ++ [b1]) = (length rs + 2)%nat) by (rewrite length_app; done).
  pose proof (Recover_run (room c) fuel _ bs' _ _ (NewIndex w' c) ∅ steps Hrun' (holds_new w' c Hc Hroot)) as Hrec.
  rewrite Hnum, map_size_empty in Hrec. specialize (Hrec ltac:(lia) ltac:(lia) ltac:(lia) Hlen'). unfold replays in Hrec.
  rewrite (proj2 (Z.leb_le _ _)) in Hrec by lia.
  assert (Hmap : put_all (bindings (rs ++ [b2] ++ [b1])).*1 (bindings (rs ++ [b2] ++ [b1])).*2 ∅ =
    <[k := v1]> (put_all (bindings rs).*1 (bindings rs).*2 ∅)).
  { unfold bindings. rewrite fmap_app, put_all_app. cbn. apply insert_insert_eq. }
  rewrite Hmap in Hrec. go_step. eapply returns_mono; [|exact Hrec]. intros [] t1 Hh.
  eapply returns_mono; [|apply (Get_found (room c) fuel t1 _ k v1 Hh)].
  - intros v t2 (-> & Hh2 & _). done.
  - pose proof (put_all_size (bindings rs) ∅) as Hsz. rewrite map_size_empty in Hsz. unfold bindings at 3 in Hsz. rewrite length_fmap in Hsz.
    rewrite map_size_insert. case_match; unfold id; lia.
  - apply lookup_insert_eq.
Qed.

End LogOrder.

Module OrderSample.
Import MemCache.

Definition file_of (lsn1 lsn2 : bytes) : bytes :=
  w_file new_log ++ BLog_payload (put_log 1 lsn2 [65] [2]) ++ BLog_payload (put_log 1 lsn1 [65] [1]).

(** Two puts of one key on a fresh log. *)
Lemma log_order_race_witness :
  log_inv new_log /\ exists s lsn1 lsn2 rm, rtc conc_step (start new_log [Change (put_call 1 [65] [1]); Change (put_call 1 [65] [2])]) s /\
    cc_callers s = [Returned lsn1; Returned lsn2] /\ GreaterLSN lsn2 lsn1 = Val true /\
    cc_writer s = FIdle /\ walBuff (cc_wal s) = [] /\ w_file (cc_wal s) = file_of lsn1 lsn2 /\
    NewRecoveryMngr (w_conf (cc_wal s)) (w_file (cc_wal s)) = Some rm /\
    returns (Recover 4 2 rm;; BTree.Get 2 [65]) (NewIndex new_log MemCache.empty) (fun v t' => v = [1] /\
      holds (room MemCache.empty) t' (<[ [65] := [1] ]> ∅)).
Proof.
  split; [exact new_log_inv|].
  apply (log_order_race new_log [] [] 4 2 [65] 1 [1] 1 [2] MemCache.empty new_log);
    [exact new_log_inv|reflexivity|reflexivity|reflexivity|constructor|cbn; lia|lia|lia|discriminate|discriminate|discriminate
    |reflexivity|reflexivity|reflexivity|vm_compute; reflexivity|exact Sample.empty_inv|reflexivity|cbn; lia|cbn; lia|cbn; lia].
Defined.

End OrderSample.
