(* ===== verification/Disk.v ===== *)
(** * The disk manager ([pkg/diskmanager/diskmanager.go])

    Requests for a page go through a FIFO queue of that page and are executed by
    goroutines that [addJob] starts when it sees the queue not running.
    [loadPage], [flushPage] and [execute] are modelled as written; [queue_run] is one
    atomic step of one goroutine of a queue: one critical section, the disk access of
    a request, or the hand-over of its result.  [WriteReq] and [ReadReq] are the calls
    without interruption, as the pager's workers make them one at a time; [DiskRace]
    interleaves their parts. *)

From S2P Require Import Prelude Keys Files Helpers.
Local Open Scope Z_scope.

Definition DM_CACHE_LINE_SIZE : Z := 64.

(** [q_chan] identifies the channel the result is sent to. *)
Record ioReq := mkReq { q_buff : bytes; q_size : Z; q_chan : Z; q_off : Z; q_flag : Z; q_flush : bool }.

(** Where a goroutine of [run] stands: before its first critical section, at the
    head of its loop, with a job taken off the queue and not yet executed, or waiting
    at [errChan <- err] for the caller to receive; [b] is the request's buffer then. *)
Inductive goroutine := GStart | GLoop | GExec (job : ioReq) | GSend (job : ioReq) (b : bytes).

(** A queue with the goroutines that run it and what callers have received: the
    request and the content of its buffer when [execute] was done with it. *)
Record JobQueue := mkQueue {
  jq_pageId : Z; jq_jobs : list ioReq; jq_running : bool;
  jq_go : list goroutine; jq_sent : list (ioReq * bytes) }.

Record DiskManager := mkDisk { d_fd : bytes; d_Queues : gmap Z JobQueue }.

Definition set_fd (b : bytes) (d : DiskManager) : DiskManager := mkDisk b (d_Queues d).
Definition set_queue (off : Z) (q : JobQueue) (d : DiskManager) : DiskManager :=
  mkDisk (d_fd d) (<[off := q]> (d_Queues d)).

(** Reads into the buffer; at the end of the file the rest of the buffer keeps
    what it held, and no error is reported. *)
Definition loadPage (off : Z) (buff : bytes) : M DiskManager bytes :=
  d ← get_state;
  let '(b, _) := ReadAt (d_fd d) (Z.of_nat (length buff)) off in
  mret (b ++ drop (length b) buff).

(** The caller's buffer of a dead page is zeroed, whole cache lines of it. *)
Definition zero_lines (size : Z) (buff : bytes) : bytes :=
  let n := Z.to_nat (size / DM_CACHE_LINE_SIZE * DM_CACHE_LINE_SIZE) in
  replicate n 0 ++ drop n buff.

(** The buffer after the call.  [Sync] has no effect on the content of the file. *)
Definition flushPage (buff : bytes) (size offset : Z) (isDead flush : bool) : M DiskManager bytes :=
  if isDead then
    if Z.of_nat (length buff) <? size / DM_CACHE_LINE_SIZE * DM_CACHE_LINE_SIZE then panic "slice bounds out of range"
    else
      let buff := zero_lines size buff in
      modify (fun d => set_fd (WriteAt (d_fd d) buff offset) d);; mret buff
  else
    modify (fun d => set_fd (WriteAt (d_fd d) buff offset) d);; mret buff.

(** One request: the buffer after it. *)
Definition execute (r : ioReq) : M DiskManager bytes :=
  if BitIsSet (q_flag r) 7 then loadPage (u32 (q_off r)) (q_buff r)
  else flushPage (q_buff r) (u32 (q_size r)) (u32 (q_off r)) (BitIsSet (q_flag r) 6) (q_flush r).

Definition newJobQueue (pageId : Z) : JobQueue := mkQueue pageId [] false [] [].

(** Appends the job; a goroutine is started when the queue was not [running]. *)
Definition addJob (job : ioReq) (q : JobQueue) : JobQueue :=
  let shouldStart := negb (jq_running q) in
  mkQueue (jq_pageId q) (jq_jobs q ++ [job]) (jq_running q)
    (if shouldStart then jq_go q ++ [GStart] else jq_go q) (jq_sent q).

(** [Queues.Load(off)], with a new queue when there is none. *)
Definition queue_of (off : Z) (d : DiskManager) : JobQueue := default (newJobQueue off) (d_Queues d !! off).

Definition enqueue (off : Z) (job : ioReq) : M DiskManager unit :=
  modify (fun d => set_queue off (addJob job (queue_of off d)) d).

(** The requests of the two calls. *)
Definition write_ioReq (off : Z) (b : bytes) (size : Z) (isDead : bool) (c : Z) (flush : bool) : ioReq :=
  mkReq b size c (u64 off) (if isDead then SetFlag 0 [6] else 0) flush.
Definition read_ioReq (off : Z) (b : bytes) (c : Z) : ioReq := mkReq b 0 c (u64 off) 128 false.

Definition WriteReq (off : Z) (buff : option bytes) (size : Z) (isDead : bool) (errChan : option Z) (flush : bool)
    : M DiskManager unit :=
  match buff, errChan with
  | None, _ => fail DiskManagerError "invalid buffer pointer provided."
  | _, None => fail DiskManagerError "invalid error channel provided."
  | Some b, Some c => enqueue off (write_ioReq off b size isDead c flush)
  end.

Definition ReadReq (buff : option bytes) (off : Z) (readErr : option Z) : M DiskManager unit :=
  match buff, readErr with
  | None, _ => fail DiskManagerError "invalid buffer pointer provided."
  | _, None => fail DiskManagerError "invalid error channel provided."
  | Some b, Some c => enqueue off (read_ioReq off b c)
  end.

(** The next step of goroutine [i] of a queue: the parts of [run] and [execute].  The
    last one is the receipt of the result by the caller, on an unbuffered channel. *)
Definition queue_run (i : nat) (q : JobQueue) : M DiskManager JobQueue :=
  match jq_go q !! i with
  | None => mret q
  | Some GStart => mret (mkQueue (jq_pageId q) (jq_jobs q) true (<[i := GLoop]> (jq_go q)) (jq_sent q))
  | Some GLoop =>
      match jq_jobs q with
      | [] => mret (mkQueue (jq_pageId q) [] false (delete i (jq_go q)) (jq_sent q))
      | job :: jobs => mret (mkQueue (jq_pageId q) jobs (jq_running q) (<[i := GExec job]> (jq_go q)) (jq_sent q))
      end
  | Some (GExec job) =>
      b ← execute job;
      mret (mkQueue (jq_pageId q) (jq_jobs q) (jq_running q) (<[i := GSend job b]> (jq_go q)) (jq_sent q))
  | Some (GSend job b) =>
      mret (mkQueue (jq_pageId q) (jq_jobs q) (jq_running q) (<[i := GLoop]> (jq_go q)) (jq_sent q ++ [(job, b)]))
  end.

Definition run_step (off : Z) (i : nat) : M DiskManager unit :=
  d ← get_state;
  q ← queue_run i (queue_of off d);
  modify (set_queue off q).

(** Goroutine 0 of the queue alone, for [fuel] steps, with callers that receive. *)
Fixpoint run (fuel : nat) (off : Z) : M DiskManager unit :=
  match fuel with
  | O => mret tt
  | S fuel' => run_step off 0;; run fuel' off
  end.

(** ** Pages of the file *)

Definition DM_PAGE : nat := 8192.

(** The content of the page at [off]. *)
Definition page_at (fd : bytes) (off : Z) : bytes := region fd (Z.to_nat off) DM_PAGE.

Definition aligned (off : Z) : Prop := 0 <= off < 2 ^ 32 /\ off mod 8192 = 0.

Lemma aligned_disjoint a b : aligned a -> aligned b -> a <> b ->
  (Z.to_nat a + DM_PAGE <= Z.to_nat b)%nat \/ (Z.to_nat b + DM_PAGE <= Z.to_nat a)%nat.
Proof.
  intros [Ha Hma] [Hb Hmb] Hne.
  assert (a + 8192 <= b \/ b + 8192 <= a) as H by (Z.to_euclidean_division_equations; lia).
  rewrite <- (Nat2Z.id DM_PAGE). change (Z.of_nat DM_PAGE) with 8192.
  rewrite <- !Z2Nat.inj_add, <- !Z2Nat.inj_le by lia. done.
Qed.

(** The file holds the whole page. *)
Definition on_disk (fd : bytes) (off : Z) : Prop := (Z.to_nat off + DM_PAGE <= length fd)%nat.

Definition write_req (c off : Z) (data : bytes) (flush : bool) : ioReq := mkReq data 8192 c off 0 flush.
Definition dead_req (c off : Z) (data : bytes) (flush : bool) : ioReq := mkReq data 8192 c off 64 flush.
Definition read_req (c off : Z) (buff : bytes) : ioReq := mkReq buff 0 c off 128 false.

(** Requests of the pager: whole pages. *)
Inductive page_req : ioReq -> Prop :=
| pr_write c off data fl : aligned off -> length data = DM_PAGE -> page_req (write_req c off data fl)
| pr_dead c off data fl : aligned off -> length data = DM_PAGE -> page_req (dead_req c off data fl)
| pr_read c off buff : aligned off -> length buff = DM_PAGE -> page_req (read_req c off buff).

Lemma execute_write c off data fl d : aligned off -> length data = DM_PAGE ->
  execute (write_req c off data fl) d = (Val data, set_fd (WriteAt (d_fd d) data off) d).
Proof.
  intros [Ho _] Hl. unfold execute, write_req. cbn [q_flag q_off q_size q_buff q_flush].
  change (BitIsSet 0 7) with false. change (BitIsSet 0 6) with false. cbv iota. unfold flushPage. rewrite u32_small by done. done.
Qed.

Lemma zero_page data : length data = DM_PAGE -> zero_lines 8192 data = replicate DM_PAGE 0.
Proof.
  intros Hl. unfold zero_lines. change (Z.to_nat (8192 / DM_CACHE_LINE_SIZE * DM_CACHE_LINE_SIZE)) with DM_PAGE.
  by rewrite drop_ge, app_nil_r by lia.
Qed.

Lemma execute_dead c off data fl d : aligned off -> length data = DM_PAGE ->
  execute (dead_req c off data fl) d = (Val (replicate DM_PAGE 0), set_fd (WriteAt (d_fd d) (replicate DM_PAGE 0) off) d).
Proof.
  intros [Ho _] Hl. unfold execute, dead_req. cbn [q_flag q_off q_size q_buff q_flush].
  change (BitIsSet 64 7) with false. change (BitIsSet 64 6) with true. cbv iota. unfold flushPage.
  change (u32 8192) with 8192. rewrite (u32_small off) by done.
  rewrite (proj2 (Z.ltb_ge _ _)) by (rewrite Hl; vm_compute; done). rewrite zero_page by done. done.
Qed.

Lemma execute_read c off buff d : aligned off -> length buff = DM_PAGE -> on_disk (d_fd d) off ->
  execute (read_req c off buff) d = (Val (page_at (d_fd d) off), d).
Proof.
  intros [Ho _] Hl Hd. unfold execute, read_req. cbn [q_flag q_off q_size q_buff q_flush].
  change (BitIsSet 128 7) with true. cbv iota. rewrite (u32_small off) by done.
  unfold loadPage, mbind, M_bind, get_state. rewrite ReadAt_region, Nat2Z.id, Hl. fold (page_at (d_fd d) off).
  unfold page_at at 1 2. rewrite drop_ge, app_nil_r; [done|].
  unfold region. rewrite length_take, length_drop. unfold on_disk in Hd. lia.
Qed.

(** The effect of a write on the pages. *)
Lemma page_write_same fd data off : length data = DM_PAGE -> page_at (WriteAt fd data off) off = data.
Proof. intros H. unfold page_at. rewrite <- H. apply region_write_same. Qed.

Lemma page_write_other fd data off o : aligned off -> aligned o -> off <> o -> length data = DM_PAGE -> on_disk fd o ->
  page_at (WriteAt fd data off) o = page_at fd o.
Proof.
  intros Ha Hb Hne Hl Hd. unfold page_at, on_disk in *. destruct (aligned_disjoint off o Ha Hb Hne).
  - apply region_write_after. lia.
  - apply region_write_before; [lia|done].
Qed.

Lemma on_disk_write fd data off o : on_disk fd o -> on_disk (WriteAt fd data off) o.
Proof. unfold on_disk. rewrite WriteAt_length. lia. Qed.

Lemma on_disk_written fd data off : length data = DM_PAGE -> on_disk (WriteAt fd data off) off.
Proof. unfold on_disk. rewrite WriteAt_length. lia. Qed.

(** ** One goroutine serves its queue in order *)

(** A request for the page at [off]. *)
Definition req_for (off : Z) (r : ioReq) : Prop := page_req r /\ q_off r = off.

(** What a request leaves on the page, and what its buffer holds afterwards. *)
Definition req_page (p : bytes) (r : ioReq) : bytes :=
  if BitIsSet (q_flag r) 7 then p
  else if BitIsSet (q_flag r) 6 then replicate DM_PAGE 0 else q_buff r.

Fixpoint pages_after (p : bytes) (rs : list ioReq) : list bytes :=
  match rs with
  | [] => []
  | r :: rs => req_page p r :: pages_after (req_page p r) rs
  end.

Definition last_page (p : bytes) (rs : list ioReq) : bytes := foldl req_page p rs.

(** The file changes at one page only. *)
Definition same_elsewhere (off : Z) (fd fd' : bytes) : Prop :=
  forall o, aligned o -> o <> off -> on_disk fd o -> page_at fd' o = page_at fd o /\ on_disk fd' o.

Lemma same_elsewhere_trans off a b c : same_elsewhere off a b -> same_elsewhere off b c -> same_elsewhere off a c.
Proof. intros H1 H2 o Ho Hne Hd. destruct (H1 o Ho Hne Hd) as [<- Hd']. by apply H2. Qed.

Lemma execute_req off r d : aligned off -> req_for off r -> on_disk (d_fd d) off ->
  exists fd', execute r d = (Val (req_page (page_at (d_fd d) off) r), set_fd fd' d) /\
    page_at fd' off = req_page (page_at (d_fd d) off) r /\ on_disk fd' off /\ same_elsewhere off (d_fd d) fd'.
Proof.
  intros Ha [Hp Hoff] Hd.
  destruct Hp as [c o data fl Ho Hl|c o data fl Ho Hl|c o buff Ho Hl]; cbn in Hoff; subst o.
  - exists (WriteAt (d_fd d) data off). rewrite execute_write by done. repeat split.
    + by apply page_write_same.
    + by apply on_disk_written.
    + by apply page_write_other.
    + by apply on_disk_write.
  - exists (WriteAt (d_fd d) (replicate DM_PAGE 0) off). rewrite execute_dead by done. repeat split.
    + apply page_write_same, length_replicate.
    + apply on_disk_written, length_replicate.
    + apply page_write_other; try done.
    + by apply on_disk_write.
  - exists (d_fd d). rewrite execute_read by done. destruct d; repeat split; done.
Qed.

Lemma queue_of_set off q d : queue_of off (set_queue off q d) = q.
Proof. unfold queue_of, set_queue. cbn. by rewrite lookup_insert_eq. Qed.

Lemma queue_of_set_ne off o q d : off <> o -> queue_of o (set_queue off q d) = queue_of o d.
Proof. intros. unfold queue_of, set_queue. cbn. by rewrite lookup_insert_ne. Qed.

Lemma set_queue_twice off q q' d : set_queue off q (set_queue off q' d) = set_queue off q d.
Proof. unfold set_queue. cbn. by rewrite insert_insert_eq. Qed.

(** The steps of goroutine 0, alone in its queue. *)
Section Alone.
Context (off : Z) (id : Z).
Notation q_at d jobs r g s := (set_queue off (mkQueue id jobs r g s) d).

Lemma run_step_pure d q q' : (forall d, queue_run 0 q d = (Val q', d)) -> run_step off 0 (set_queue off q d) = (Val tt, set_queue off q' d).
Proof. intros H. unfold run_step, mbind, M_bind, get_state. rewrite queue_of_set, H. unfold modify. by rewrite set_queue_twice. Qed.

Lemma step_start d jobs r gs s : run_step off 0 (q_at d jobs r (GStart :: gs) s) = (Val tt, q_at d jobs true (GLoop :: gs) s).
Proof. by apply run_step_pure. Qed.
Lemma step_take d job jobs r gs s : run_step off 0 (q_at d (job :: jobs) r (GLoop :: gs) s) = (Val tt, q_at d jobs r (GExec job :: gs) s).
Proof. by apply run_step_pure. Qed.
Lemma step_stop d r gs s : run_step off 0 (q_at d [] r (GLoop :: gs) s) = (Val tt, q_at d [] false gs s).
Proof. by apply run_step_pure. Qed.
Lemma step_send d job b jobs r gs s : run_step off 0 (q_at d jobs r (GSend job b :: gs) s) = (Val tt, q_at d jobs r (GLoop :: gs) (s ++ [(job, b)])).
Proof. by apply run_step_pure. Qed.
Lemma step_exec d job b d' jobs r gs s : execute job (q_at d jobs r (GExec job :: gs) s) = (Val b, d') ->
  run_step off 0 (q_at d jobs r (GExec job :: gs) s) = (Val tt, q_at d' jobs r (GSend job b :: gs) s).
Proof.
  intros He. unfold run_step, mbind at 1, M_bind at 1, get_state. rewrite queue_of_set. unfold queue_run. cbn [jq_go lookup list_lookup].
  unfold mbind, M_bind. rewrite He. done.
Qed.
End Alone.

(** Three steps serve the oldest request. *)
Lemma run_serves_one off id r jobs run0 sent d : aligned off -> req_for off r -> on_disk (d_fd d) off ->
  queue_of off d = mkQueue id (r :: jobs) run0 [GLoop] sent ->
  exists fd', (run_step off 0;; run_step off 0;; run_step off 0) d =
      (Val tt, set_fd fd' (set_queue off (mkQueue id jobs run0 [GLoop] (sent ++ [(r, req_page (page_at (d_fd d) off) r)])) d)) /\
    page_at fd' off = req_page (page_at (d_fd d) off) r /\ on_disk fd' off /\ same_elsewhere off (d_fd d) fd'.
Proof.
  intros Ha Hr Hd Hq. destruct (execute_req off r (set_queue off (mkQueue id jobs run0 [GExec r] sent) d)) as (fd' & He & Hrest); try done.
  exists fd'. split; [|done]. cbn [d_fd set_queue] in He.
  rewrite (bind_Val _ _ _ tt (set_queue off (mkQueue id jobs run0 [GExec r] sent) d)) by (unfold run_step, mbind, M_bind, get_state; by rewrite Hq).
  rewrite (bind_Val _ _ _ tt _ (step_exec off id d r _ _ jobs run0 [] sent He)), step_send. f_equal. unfold set_fd, set_queue. cbn.
  by rewrite insert_insert_eq.
Qed.

(** The whole queue: the answers in order, and the page after the last request. *)
Lemma run_serves off id run0 : forall jobs sent d, aligned off -> Forall (req_for off) jobs -> on_disk (d_fd d) off ->
  queue_of off d = mkQueue id jobs run0 [GLoop] sent ->
  exists fd', run (3 * length jobs + 1) off d =
      (Val tt, set_fd fd' (set_queue off (mkQueue id [] false [] (sent ++ zip jobs (pages_after (page_at (d_fd d) off) jobs))) d)) /\
    page_at fd' off = last_page (page_at (d_fd d) off) jobs /\ same_elsewhere off (d_fd d) fd'.
Proof.
  induction jobs as [|r jobs IH]; intros sent d Ha Hf Hd Hq.
  - exists (d_fd d). cbn. repeat split; try done. unfold run_step, mbind, M_bind, get_state. rewrite Hq. cbn. rewrite app_nil_r. done.
  - apply Forall_cons in Hf as [Hr Hf]. destruct (run_serves_one off id r jobs run0 sent d) as (fd1 & H1 & Hp1 & Hd1 & Hs1); try done.
    edestruct (IH (sent ++ [(r, req_page (page_at (d_fd d) off) r)])
      (set_fd fd1 (set_queue off (mkQueue id jobs run0 [GLoop] (sent ++ [(r, req_page (page_at (d_fd d) off) r)])) d)))
      as (fd2 & H2 & Hp2 & Hs2); try done.
    { unfold queue_of. cbn. by rewrite lookup_insert_eq. }
    exists fd2. cbn [d_fd set_fd set_queue] in H2, Hp2, Hs2. rewrite Hp1 in H2, Hp2. split; [|split].
    + replace (3 * length (r :: jobs) + 1)%nat with (S (S (S (3 * length jobs + 1)))) by (cbn; lia).
      change (run (S (S (S (3 * length jobs + 1)))) off) with (run_step off 0;; run_step off 0;; run_step off 0;; run (3 * length jobs + 1) off).
      unfold mbind, M_bind in H1 |- *. destruct (run_step off 0 d) as [[] d1]; try done. destruct (run_step off 0 d1) as [[] d2]; try done. rewrite H1, H2.
      cbn [pages_after zip zip_with]. rewrite <- app_assoc. unfold set_fd, set_queue. cbn. by rewrite insert_insert_eq.
    + done.
    + by eapply same_elsewhere_trans.
Qed.
