(* ===== verification/DiskRace.v ===== *)
(** * The disk manager's callers and goroutines, interleaved

    [WriteReq] and [ReadReq] hold no lock: they look the queue of the offset up in
    [Queues] ([sync.Map]), make and store a new one when there is none, and add the job
    under the queue's own lock.  Here these are separate steps, so two first requests
    for a page can each make a queue, and the one stored first is no longer reachable
    through the map while its goroutine still serves it.  Queues live in a heap and
    are known by their address, the position in it.  A goroutine that has a result
    waits until the caller receives it, which may be at any later time or never. *)

From S2P Require Import Prelude Keys Files Helpers Disk.
Local Open Scope Z_scope.

(** Where a call stands: before [Queues.Load], with no queue found, or with the
    address of the queue the job will be added to. *)
Inductive caller := CCall (off : Z) (job : ioReq) | CMiss (off : Z) (job : ioReq) | CHave (qid : nat) (job : ioReq) | CReturned.

Record DiskSystem := mkSys { ds_fd : bytes; ds_heap : list JobQueue; ds_Queues : gmap Z nat; ds_callers : list caller }.

Definition set_caller (i : nat) (c : caller) (s : DiskSystem) : DiskSystem :=
  mkSys (ds_fd s) (ds_heap s) (ds_Queues s) (<[i := c]> (ds_callers s)).
Definition set_heap (h : list JobQueue) (s : DiskSystem) : DiskSystem := mkSys (ds_fd s) h (ds_Queues s) (ds_callers s).

(** The next step of caller [i]. *)
Definition caller_step (i : nat) : M DiskSystem unit :=
  s ← get_state;
  match ds_callers s !! i with
  | Some (CCall off job) =>
      match ds_Queues s !! off with
      | Some qid => modify (set_caller i (CHave qid job))
      | None => modify (set_caller i (CMiss off job))
      end
  | Some (CMiss off job) =>
      let jQ := length (ds_heap s) in
      put_state (mkSys (ds_fd s) (ds_heap s ++ [newJobQueue off]) (<[off := jQ]> (ds_Queues s)) (<[i := CHave jQ job]> (ds_callers s)))
  | Some (CHave qid job) =>
      modify (fun s => set_caller i CReturned (set_heap (alter (addJob job) qid (ds_heap s)) s))
  | _ => mret tt
  end.

(** The next step of goroutine [i] of the queue at [qid]. *)
Definition goroutine_step (qid i : nat) : M DiskSystem unit := fun s =>
  match ds_heap s !! qid with
  | None => (Val tt, s)
  | Some q =>
      let '(o, d) := queue_run i q (mkDisk (ds_fd s) ∅) in
      match o with
      | Val q' => (Val tt, mkSys (d_fd d) (<[qid := q']> (ds_heap s)) (ds_Queues s) (ds_callers s))
      | Err e => (Err e, s)
      | Panic m => (Panic m, s)
      | Blocked => (Blocked, s)
      | OutOfFuel => (OutOfFuel, s)
      end
  end.

(** A request enters (and is the label of the step), a caller or a goroutine moves. *)
Inductive dm_step : DiskSystem -> option (Z * ioReq) -> DiskSystem -> Prop :=
| ds_write off b size dead c fl s :
    dm_step s (Some (off, write_ioReq off b size dead c fl))
      (mkSys (ds_fd s) (ds_heap s) (ds_Queues s) (ds_callers s ++ [CCall off (write_ioReq off b size dead c fl)]))
| ds_read b off c s :
    dm_step s (Some (off, read_ioReq off b c))
      (mkSys (ds_fd s) (ds_heap s) (ds_Queues s) (ds_callers s ++ [CCall off (read_ioReq off b c)]))
| ds_call i s s' : caller_step i s = (Val tt, s') -> dm_step s None s'
| ds_run qid i s s' : goroutine_step qid i s = (Val tt, s') -> dm_step s None s'.

(** The states reached from a new disk manager over [fd], with the requests made. *)
Inductive dm_reach (fd : bytes) : list (Z * ioReq) -> DiskSystem -> Prop :=
| dr_init : dm_reach fd [] (mkSys fd [] ∅ [])
| dr_step tr s l s' : dm_reach fd tr s -> dm_step s l s' -> dm_reach fd (tr ++ option_list l) s'.

(** ** A call without interruption *)

(** The queue the map leads to. *)
Definition queue_at (s : DiskSystem) (off : Z) : JobQueue :=
  default (newJobQueue off) (qid ← ds_Queues s !! off; ds_heap s !! qid).

(** Addresses in the map are those of queues of their offset. *)
Definition map_ok (s : DiskSystem) : Prop := forall off qid, ds_Queues s !! off = Some qid ->
  exists q, ds_heap s !! qid = Some q /\ jq_pageId q = off.

(** The whole call in one go is [enqueue] of [Disk]: the job is added to the queue of
    its offset and no other queue changes. *)
Lemma call_uninterrupted s i off job : map_ok s -> ds_callers s !! i = Some (CCall off job) ->
  exists s', (ds_Queues s !! off = None /\ (caller_step i;; caller_step i;; caller_step i) s = (Val tt, s') \/
              is_Some (ds_Queues s !! off) /\ (caller_step i;; caller_step i) s = (Val tt, s')) /\
    queue_at s' off = addJob job (queue_at s off) /\ (forall o, o <> off -> queue_at s' o = queue_at s o) /\ ds_callers s' !! i = Some CReturned.
Proof.
  intros Hok Hi. pose proof (lookup_lt_Some _ _ _ Hi) as Hlt. unfold caller_step, mbind, M_bind, get_state, put_state, modify. rewrite Hi.
  destruct (ds_Queues s !! off) as [qid|] eqn:Hq.
  - destruct (Hok off qid Hq) as (q & Hqh & Hid). eexists. split; [right; split; [by eexists|]; cbn; rewrite list_lookup_insert_eq by done; reflexivity|].
    unfold queue_at. cbn. rewrite Hq. cbn. rewrite list_lookup_alter, decide_True, Hqh by done. split; [done|]. split.
    + intros o Ho. destruct (ds_Queues s !! o) as [qo|] eqn:Hqo; [|done]. cbn. rewrite list_lookup_alter, decide_False; [done|].
      intros <-. destruct (Hok o qid Hqo) as (q' & Hq' & Hid'). congruence.
    + by rewrite list_insert_insert_eq, list_lookup_insert_eq.
  - eexists. split; [left; split; [done|]; cbn; rewrite list_lookup_insert_eq by done; cbn; rewrite list_lookup_insert_eq by (by rewrite length_insert); reflexivity|].
    unfold queue_at. cbn. rewrite lookup_insert_eq, Hq. cbn. rewrite list_lookup_alter, decide_True by done.
    rewrite list_lookup_middle by done. split; [done|]. split.
    + intros o Ho. rewrite lookup_insert_ne by done. destruct (ds_Queues s !! o) as [qo|] eqn:Hqo; [|done]. cbn.
      destruct (Hok o qo Hqo) as (q' & Hq' & _). pose proof (lookup_lt_Some _ _ _ Hq').
      rewrite list_lookup_alter, decide_False, lookup_app_l by lia. done.
    + rewrite !list_insert_insert_eq. by apply list_lookup_insert_eq.
Qed.

(** ** The account of the requests *)

Definition exec_job (g : goroutine) : option ioReq :=
  match g with GExec job | GSend job _ => Some job | _ => None end.

(** The requests taken off the queue whose result was not received yet. *)
Definition in_flight (q : JobQueue) : list ioReq := omap exec_job (jq_go q).

(** All requests a queue ever got, with their offset. *)
Definition queue_reqs (q : JobQueue) : list (Z * ioReq) := (jq_pageId q,.) <$> (jq_sent q).*1 ++ in_flight q ++ jq_jobs q.

(** The requests that callers have not added yet; the offset of a queue is in it. *)
Definition caller_req (h : list JobQueue) (c : caller) : option (Z * ioReq) :=
  match c with
  | CCall off job | CMiss off job => Some (off, job)
  | CHave qid job => (fun q => (jq_pageId q, job)) <$> h !! qid
  | CReturned => None
  end.
Definition held (s : DiskSystem) : list (Z * ioReq) := omap (caller_req (ds_heap s)) (ds_callers s).

(** A queue that holds jobs has a goroutine, and so has a running one. *)
Definition queue_live (q : JobQueue) : Prop := (jq_jobs q <> [] -> jq_go q <> []) /\ (jq_running q = true -> jq_go q <> []).

Record sys_ok (tr : list (Z * ioReq)) (s : DiskSystem) : Prop := {
  so_map : map_ok s;
  so_have : forall i qid job, ds_callers s !! i = Some (CHave qid job) -> is_Some (ds_heap s !! qid);
  so_live : Forall queue_live (ds_heap s);
  so_account : tr ≡ₚ held s ++ (ds_heap s ≫= queue_reqs) }.

(** *** One queue *)

Lemma addJob_ok job q : jq_pageId (addJob job q) = jq_pageId q /\
  queue_reqs (addJob job q) ≡ₚ (jq_pageId q, job) :: queue_reqs q /\ (queue_live q -> queue_live (addJob job q)).
Proof.
  split; [done|]. split.
  - unfold queue_reqs, addJob, in_flight. cbn.
    replace (omap exec_job (if negb (jq_running q) then jq_go q ++ [GStart] else jq_go q)) with (omap exec_job (jq_go q)).
    2:{ destruct (negb (jq_running q)); [|done]. rewrite omap_app. cbn. by rewrite app_nil_r. }
    rewrite !fmap_app. cbn. solve_Permutation.
  - intros [Hl Hr]. unfold addJob. destruct (jq_running q) eqn:E; cbn.
    + split; cbn; intros _; by apply Hr.
    + split; cbn; [by destruct (jq_go q)|done].
Qed.

Lemma queue_run_ok i q d q' d' : queue_run i q d = (Val q', d') ->
  jq_pageId q' = jq_pageId q /\ queue_reqs q' ≡ₚ queue_reqs q /\ (queue_live q -> queue_live q').
Proof.
  unfold queue_run. intros H. destruct (jq_go q !! i) as [[| |job|job b]|] eqn:Hi.
  - injection H as <- <-. split; [done|]. split; [|split; intros _; by eapply insert_not_nil].
    unfold queue_reqs, in_flight. cbn. by rewrite (omap_insert_none _ _ _ _ _ Hi eq_refl).
  - destruct (jq_jobs q) as [|job jobs] eqn:Hj; injection H as <- <-; (split; [done|split]).
    + unfold queue_reqs, in_flight. cbn. by rewrite (omap_delete_none _ _ _ _ Hi eq_refl), Hj.
    + by intros _.
    + unfold queue_reqs, in_flight. cbn. rewrite (omap_insert_none _ _ _ _ _ Hi eq_refl), Hj. cbn. by rewrite Permutation_middle.
    + intros _. split; intros _; by eapply insert_not_nil.
  - unfold mbind, M_bind in H. destruct (execute job d) as [[b| | | |] d1]; try done. injection H as <- <-.
    split; [done|]. split; [|intros _; split; intros _; by eapply insert_not_nil].
    unfold queue_reqs, in_flight. cbn. by rewrite (omap_insert_same exec_job _ _ _ (GSend job b) Hi eq_refl).
  - injection H as <- <-. split; [done|]. split; [|intros _; split; intros _; by eapply insert_not_nil].
    unfold queue_reqs, in_flight. cbn. rewrite (omap_insert_some _ _ _ _ GLoop job Hi eq_refl eq_refl). apply fmap_Permutation.
    rewrite fmap_app. cbn. solve_Permutation.
  - injection H as <- <-. done.
Qed.

(** *** The heap *)

Lemma heap_insert (h : list JobQueue) qid q q' l : h !! qid = Some q -> queue_reqs q' ≡ₚ l ++ queue_reqs q ->
  <[qid := q']> h ≫= queue_reqs ≡ₚ l ++ (h ≫= queue_reqs).
Proof.
  intros Hq Hr. destruct (list_elem_of_split_length h qid q Hq) as (h1 & h2 & -> & ->).
  rewrite insert_app_r_alt, Nat.sub_diag by lia. cbn. rewrite !bind_app. cbn. rewrite Hr. solve_Permutation.
Qed.

Lemma caller_req_insert h qid q q' c : h !! qid = Some q -> jq_pageId q' = jq_pageId q -> caller_req (<[qid := q']> h) c = caller_req h c.
Proof.
  intros Hq Hid. destruct c as [| |k job|]; try done. cbn. destruct (decide (k = qid)) as [->|Hne]; [|by rewrite list_lookup_insert_ne].
  rewrite list_lookup_insert_eq by (by eapply lookup_lt_Some). rewrite Hq. cbn. by rewrite Hid.
Qed.

Lemma caller_req_app h q (cs : list caller) : (forall i qid job, cs !! i = Some (CHave qid job) -> is_Some (h !! qid)) ->
  omap (caller_req (h ++ [q])) cs = omap (caller_req h) cs.
Proof.
  induction cs as [|c cs IH]; intros Hc; [done|]. cbn. rewrite IH by (intros i; apply (Hc (S i))).
  replace (caller_req (h ++ [q]) c) with (caller_req h c); [done|]. destruct c as [| |k job|]; try done. cbn.
  destruct (Hc 0%nat k job eq_refl) as [x Hx]. by rewrite (lookup_app_l_Some _ _ _ _ Hx), Hx.
Qed.

Lemma omap_ext_caller h h' (cs : list caller) : (forall c, caller_req h' c = caller_req h c) -> omap (caller_req h') cs = omap (caller_req h) cs.
Proof. intros H. apply list_omap_ext, Forall2_same_length_lookup_2; [done|]. intros i x y Hx Hy. congruence. Qed.

Lemma map_ok_insert s qid q q' cs fd : map_ok s -> ds_heap s !! qid = Some q -> jq_pageId q' = jq_pageId q ->
  map_ok (mkSys fd (<[qid := q']> (ds_heap s)) (ds_Queues s) cs).
Proof.
  intros Hm Hq Hid off k Hk. destruct (Hm off k Hk) as (x & Hx & Hxo). cbn. destruct (decide (k = qid)) as [->|Hne].
  - exists q'. rewrite list_lookup_insert_eq by (by eapply lookup_lt_Some). split; [done|]. congruence.
  - exists x. by rewrite list_lookup_insert_ne.
Qed.

(** *** The steps *)

Lemma sys_ok_enter tr s off job : sys_ok tr s ->
  sys_ok (tr ++ [(off, job)]) (mkSys (ds_fd s) (ds_heap s) (ds_Queues s) (ds_callers s ++ [CCall off job])).
Proof.
  intros [Hm Hh Hl Ha]. split; [done| |done|].
  - intros i qid j Hi. cbn in Hi. apply lookup_app_Some in Hi as [Hi|[_ Hi]]; [by eapply Hh|]. by apply list_lookup_singleton_Some in Hi as [_ ?].
  - unfold held in *. cbn. rewrite omap_app, Ha. cbn. solve_Permutation.
Qed.

Lemma sys_ok_call tr s i s' : sys_ok tr s -> caller_step i s = (Val tt, s') -> sys_ok tr s'.
Proof.
  intros [Hm Hh Hl Ha]. unfold caller_step, mbind at 1, M_bind at 1, get_state. destruct (ds_callers s !! i) as [[off job|off job|qid job|]|] eqn:Hi.
  - destruct (ds_Queues s !! off) as [qid|] eqn:Hq; intros [= <-]; (split; [done| |done|]).
    + intros j k jb Hj. cbn in Hj. apply list_lookup_insert_Some in Hj as [(_ & [= <- <-] & _)|[_ Hj]]; [|by eapply Hh].
      destruct (Hm off qid Hq) as (q & Hqq & _). by eexists.
    + unfold held in *. cbn. destruct (Hm off qid Hq) as (q & Hqq & Hid). rewrite (omap_insert_same _ _ _ _ (CHave qid job) Hi); [done|].
      cbn. by rewrite Hqq, <- Hid.
    + intros j k jb Hj. cbn in Hj. apply list_lookup_insert_Some in Hj as [(_ & ? & _)|[_ Hj]]; [done|by eapply Hh].
    + unfold held in *. cbn. by rewrite (omap_insert_same _ _ _ _ (CMiss off job) Hi).
  - intros [= <-]. split.
    + intros o k Hk. cbn in *. apply lookup_insert_Some in Hk as [[<- <-]|[_ Hk]].
      * exists (newJobQueue off). by rewrite list_lookup_middle.
      * destruct (Hm o k Hk) as (q & Hq & Hid). exists q. by rewrite (lookup_app_l_Some _ _ _ _ Hq).
    + intros j k jb Hj. cbn in *. apply list_lookup_insert_Some in Hj as [(_ & [= <- <-] & _)|[_ Hj]]; [by rewrite list_lookup_middle|].
      destruct (Hh j k jb Hj) as [q Hq]. by rewrite (lookup_app_l_Some _ _ _ _ Hq).
    + cbn. apply Forall_app. split; [done|]. apply Forall_singleton. by split.
    + unfold held in *. cbn. rewrite bind_app. cbn. rewrite app_nil_r.
      rewrite (omap_insert_same (caller_req (ds_heap s ++ [newJobQueue off])) _ _ _ _ Hi); [by rewrite caller_req_app|].
      cbn. by rewrite list_lookup_middle.
  - intros [= <-]. destruct (Hh i qid job Hi) as [q Hq]. destruct (addJob_ok job q) as (Hid & Hrq & Hlv).
    assert (alter (addJob job) qid (ds_heap s) = <[qid := addJob job q]> (ds_heap s)) as Halt by (by apply alter_at).
    split; cbn; rewrite ?Halt.
    + change (map_ok (mkSys (ds_fd s) (<[qid := addJob job q]> (ds_heap s)) (ds_Queues s) (<[i := CReturned]> (ds_callers s)))). by eapply map_ok_insert.
    + intros j k jb Hj. apply list_lookup_insert_Some in Hj as [(_ & ? & _)|[_ Hj]]; [done|]. destruct (Hh j k jb Hj) as [x Hx].
      destruct (decide (k = qid)) as [->|Hne]; [rewrite list_lookup_insert_eq by (by eapply lookup_lt_Some)|rewrite list_lookup_insert_ne by done]; by eexists.
    + apply Forall_insert; [done|]. apply Hlv. rewrite Forall_lookup in Hl. by eapply Hl.
    + unfold held in *. cbn. rewrite (omap_ext_caller (ds_heap s)) by (intros; by eapply caller_req_insert).
      rewrite (heap_insert _ _ _ _ [(jq_pageId q, job)] Hq) by (by rewrite Hrq). rewrite Ha.
      rewrite (omap_insert_some (caller_req (ds_heap s)) _ _ _ CReturned (jq_pageId q, job) Hi); [solve_Permutation|cbn; by rewrite Hq|done].
  - intros [= <-]. done.
  - intros [= <-]. done.
Qed.

Lemma sys_ok_run tr s qid i s' : sys_ok tr s -> goroutine_step qid i s = (Val tt, s') -> sys_ok tr s'.
Proof.
  intros [Hm Hh Hl Ha]. unfold goroutine_step. destruct (ds_heap s !! qid) as [q|] eqn:Hq; [|by intros [= <-]].
  destruct (queue_run i q (mkDisk (ds_fd s) ∅)) as [[q'| | | |] d] eqn:Hrun; try done. intros [= <-].
  destruct (queue_run_ok _ _ _ _ _ Hrun) as (Hid & Hrq & Hlv). split; cbn.
  - by eapply map_ok_insert.
  - intros j k jb Hj. destruct (Hh j k jb Hj) as [x Hx].
    destruct (decide (k = qid)) as [->|Hne]; [rewrite list_lookup_insert_eq by (by eapply lookup_lt_Some)|rewrite list_lookup_insert_ne by done]; by eexists.
  - apply Forall_insert; [done|]. apply Hlv. rewrite Forall_lookup in Hl. by eapply Hl.
  - unfold held in *. cbn. rewrite (omap_ext_caller (ds_heap s)) by (intros; by eapply caller_req_insert).
    by rewrite (heap_insert _ _ _ _ [] Hq).
Qed.

Lemma dm_reach_ok fd tr s : dm_reach fd tr s -> sys_ok tr s.
Proof.
  induction 1 as [|tr s l s' _ IH Hs].
  - split; [intros off qid; cbn; by rewrite lookup_empty|done|constructor|done].
  - destruct Hs; cbn [option_list]; rewrite ?app_nil_r; [by apply sys_ok_enter|by apply sys_ok_enter|by eapply sys_ok_call|by eapply sys_ok_run].
Qed.

(** *** When all is done *)

Lemma omap_returned h (cs : list caller) : Forall (eq CReturned) cs -> omap (caller_req h) cs = [].
Proof. induction 1 as [|c cs <- _ IH]; [done|]. exact IH. Qed.

Lemma ended_reqs (h : list JobQueue) : Forall (fun q => jq_go q = []) h -> Forall queue_live h ->
  h ≫= queue_reqs = h ≫= fun q => (jq_pageId q,.) <$> (jq_sent q).*1.
Proof.
  induction 1 as [|q h Hg _ IH]; intros Hl; [done|]. apply Forall_cons in Hl as [[Hq _] Hl]. cbn. rewrite IH by done. f_equal.
  unfold queue_reqs, in_flight. rewrite Hg. cbn. destruct (jq_jobs q); [by rewrite app_nil_r|]. by destruct (Hq ltac:(done)).
Qed.
