(* ===== verification/DiskTheorems.v ===== *)
(** * Properties of the disk manager

    One goroutine serves its queue like a store of pages; over all interleavings
    every accepted request is answered exactly once; and two goroutines of one
    queue can execute two writes of a page in the wrong order. *)

From S2P Require Import Prelude Keys Files Helpers Disk DiskRace.
Local Open Scope Z_scope.

(** C17: a queue with one goroutine, at the head of its loop, and any number of
    whole-page requests for one page that is in the file: with callers that receive
    their results, the goroutine serves them in FIFO order within [3n+1] steps and ends,
    leaving the queue idle.  Every request is answered with the page as its predecessors
    left it (reads) or as it leaves it (writes; zeros for a dead page), the page
    ends as the last write left it, and every other page of the file is unchanged. *)
Theorem queue_serves_in_order off id running jobs sent d :
  aligned off -> Forall (req_for off) jobs -> on_disk (d_fd d) off ->
  queue_of off d = mkQueue id jobs running [GLoop] sent ->
  exists d', run (3 * length jobs + 1) off d = (Val tt, d') /\
    queue_of off d' = mkQueue id [] false [] (sent ++ zip jobs (pages_after (page_at (d_fd d) off) jobs)) /\
    page_at (d_fd d') off = last_page (page_at (d_fd d) off) jobs /\
    same_elsewhere off (d_fd d) (d_fd d').
Proof.
  intros Ha Hf Hd Hq. destruct (run_serves off id running jobs sent d Ha Hf Hd Hq) as (fd' & Hrun & Hp & Hs).
  eexists. split; [exact Hrun|]. split; [|done]. unfold queue_of. cbn. by rewrite lookup_insert_eq.
Qed.

(** C16: in every interleaving of callers and goroutines, every request made is in
    exactly one place: in the hands of its caller, in a queue, being executed or sent,
    or answered; and no queue holds a job without a goroutine to run it.  This counts
    the queues that were overwritten in the map by a second first request of their
    page.  So when all callers have returned and all goroutines have ended, every
    request has been answered exactly once. *)
Theorem requests_answered_once fd tr s : dm_reach fd tr s ->
  tr ≡ₚ held s ++ (ds_heap s ≫= queue_reqs) /\
  (forall qid q, ds_heap s !! qid = Some q -> jq_jobs q <> [] -> jq_go q <> []) /\
  (Forall (eq CReturned) (ds_callers s) -> Forall (fun q => jq_go q = []) (ds_heap s) ->
   tr ≡ₚ (ds_heap s ≫= fun q => (jq_pageId q,.) <$> (jq_sent q).*1)).
Proof.
  intros H. destruct (dm_reach_ok _ _ _ H) as [_ _ Hl Ha]. rewrite Forall_lookup in Hl.
  split; [done|]. split; [intros qid q Hq; by apply (Hl qid)|]. intros Hc Hg. rewrite Ha. unfold held. rewrite omap_returned by done. cbn.
  apply Permutation_refl', ended_reqs; [done|]. by apply Forall_lookup.
Qed.

(** ** Two goroutines of one queue *)

Section Reorder.
Context (fd b1 b2 : bytes).

Definition w1 : ioReq := write_ioReq 0 b1 8192 false 1 false.
Definition w2 : ioReq := write_ioReq 0 b2 8192 false 2 false.

(** A caller or a goroutine moves on. *)
Lemma call_on tr i s s' : caller_step i s = (Val tt, s') -> dm_reach fd tr s -> dm_reach fd tr s'.
Proof. intros H Hr. rewrite <- (app_nil_r tr). by eapply (dr_step _ _ _ None); [|eapply ds_call]. Qed.
Lemma run_on tr qid i s s' : goroutine_step qid i s = (Val tt, s') -> dm_reach fd tr s -> dm_reach fd tr s'.
Proof. intros H Hr. rewrite <- (app_nil_r tr). by eapply (dr_step _ _ _ None); [|eapply ds_run]. Qed.

Ltac run_call H i s := apply (call_on _ i _ s) in H; [|reflexivity].
Ltac run_goroutine H q i s := apply (run_on _ q i _ s) in H; [|reflexivity].

Lemma both_called : dm_reach fd [(0, w1); (0, w2)] (mkSys fd [] ∅ [CCall 0 w1; CCall 0 w2]).
Proof.
  change [(0, w1); (0, w2)] with (([] ++ option_list (Some (0, w1))) ++ option_list (Some (0, w2))).
  eapply dr_step; [eapply dr_step; [apply dr_init|]|].
  - apply (ds_write 0 b1 8192 false 1 false).
  - apply (ds_write 0 b2 8192 false 2 false (mkSys fd [] ∅ [CCall 0 w1])).
Qed.

(** The states of a run with one queue, in which the second write is added before the
    first goroutine has set [running]. *)
Definition race (fd : bytes) (jobs : list ioReq) (running : bool) (gs : list goroutine) (sent : list (ioReq * bytes)) : DiskSystem :=
  mkSys fd [mkQueue 0 jobs running gs sent] {[0 := 0%nat]} [CReturned; CReturned].

Lemma race_reached : dm_reach fd [(0, w1); (0, w2)] (race (WriteAt (WriteAt fd b2 0) b1 0) [] false [] [(w2, b2); (w1, b1)]).
Proof.
  pose proof both_called as H.
  run_call H 0%nat (mkSys fd [] ∅ [CMiss 0 w1; CCall 0 w2]).
  run_call H 0%nat (mkSys fd [newJobQueue 0] {[0 := 0%nat]} [CHave 0 w1; CCall 0 w2]).
  run_call H 0%nat (mkSys fd [mkQueue 0 [w1] false [GStart] []] {[0 := 0%nat]} [CReturned; CCall 0 w2]).
  run_call H 1%nat (mkSys fd [mkQueue 0 [w1] false [GStart] []] {[0 := 0%nat]} [CReturned; CHave 0 w2]).
  run_call H 1%nat (race fd [w1; w2] false [GStart; GStart] []).
  run_goroutine H 0%nat 0%nat (race fd [w1; w2] true [GLoop; GStart] []).
  run_goroutine H 0%nat 1%nat (race fd [w1; w2] true [GLoop; GLoop] []).
  run_goroutine H 0%nat 0%nat (race fd [w2] true [GExec w1; GLoop] []).
  run_goroutine H 0%nat 1%nat (race fd [] true [GExec w1; GExec w2] []).
  run_goroutine H 0%nat 1%nat (race (WriteAt fd b2 0) [] true [GExec w1; GSend w2 b2] []).
  run_goroutine H 0%nat 1%nat (race (WriteAt fd b2 0) [] true [GExec w1; GLoop] [(w2, b2)]).
  run_goroutine H 0%nat 0%nat (race (WriteAt (WriteAt fd b2 0) b1 0) [] true [GSend w1 b1; GLoop] [(w2, b2)]).
  run_goroutine H 0%nat 0%nat (race (WriteAt (WriteAt fd b2 0) b1 0) [] true [GLoop; GLoop] [(w2, b2); (w1, b1)]).
  run_goroutine H 0%nat 0%nat (race (WriteAt (WriteAt fd b2 0) b1 0) [] false [GLoop] [(w2, b2); (w1, b1)]).
  run_goroutine H 0%nat 0%nat (race (WriteAt (WriteAt fd b2 0) b1 0) [] false [] [(w2, b2); (w1, b1)]).
  exact H.
Qed.

(** Two first requests at the same time: each caller finds no queue and stores one of
    its own.  The map leads to the second queue; the first one, which it no longer
    knows, still holds a request. *)
Lemma queue_overwritten : dm_reach fd [(0, w1); (0, w2)]
  (mkSys fd [mkQueue 0 [w1] false [GStart] []; mkQueue 0 [w2] false [GStart] []] {[0 := 1%nat]} [CReturned; CReturned]).
Proof.
  pose proof both_called as H.
  run_call H 0%nat (mkSys fd [] ∅ [CMiss 0 w1; CCall 0 w2]).
  run_call H 1%nat (mkSys fd [] ∅ [CMiss 0 w1; CMiss 0 w2]).
  run_call H 0%nat (mkSys fd [newJobQueue 0] {[0 := 0%nat]} [CHave 0 w1; CMiss 0 w2]).
  run_call H 1%nat (mkSys fd [newJobQueue 0; newJobQueue 0] {[0 := 1%nat]} [CHave 0 w1; CHave 1 w2]).
  run_call H 0%nat (mkSys fd [mkQueue 0 [w1] false [GStart] []; newJobQueue 0] {[0 := 1%nat]} [CReturned; CHave 1 w2]).
  by run_call H 1%nat (mkSys fd [mkQueue 0 [w1] false [GStart] []; mkQueue 0 [w2] false [GStart] []] {[0 := 1%nat]} [CReturned; CReturned]).
Qed.
End Reorder.

(** C34: [addJob] starts a goroutine while [running] is still false, so two writes
    of a page requested in order can both be acknowledged with the page holding
    the older one: from any file, for any two page contents [b1], [b2], the
    disk manager can accept the write of [b1], then that of [b2], become idle with
    both answered, and leave [b1] on the page. *)
Theorem writes_reordered fd b1 b2 : length b1 = DM_PAGE -> length b2 = DM_PAGE ->
  exists s, dm_reach fd [(0, w1 b1); (0, w2 b2)] s /\ ds_callers s = [CReturned; CReturned] /\
    jq_go (queue_at s 0) = [] /\ map fst (jq_sent (queue_at s 0)) = [w2 b2; w1 b1] /\
    page_at (ds_fd s) 0 = b1.
Proof.
  intros H1 H2. eexists. split; [apply race_reached|]. split; [done|]. split; [done|]. split; [done|]. by apply page_write_same.
Qed.

Module DiskSample.

Definition page (x : Z) : bytes := replicate DM_PAGE x.
Definition disk : DiskManager :=
  mkDisk (page 7 ++ page 9)
    {[8192 := mkQueue 8192 [read_req 1 8192 (page 0); write_req 2 8192 (page 5) true; read_req 3 8192 (page 0)] true [GLoop] []]}.

Lemma page_length x : length (page x) = DM_PAGE.
Proof. apply length_replicate. Qed.

Lemma queue_serves_in_order_witness :
  exists d', run 10 8192 disk = (Val tt, d') /\ jq_go (queue_of 8192 d') = [] /\
    page_at (d_fd d') 8192 = page 5.
Proof.
  destruct (queue_serves_in_order 8192 8192 true
    [read_req 1 8192 (page 0); write_req 2 8192 (page 5) true; read_req 3 8192 (page 0)] [] disk) as (d' & H & Hq & Hp & _).
  - split; [lia|done].
  - repeat constructor; try done; try apply page_length.
  - unfold on_disk, disk. cbn [d_fd]. rewrite length_app, !page_length. by vm_compute.
  - reflexivity.
  - exists d'. split; [exact H|]. rewrite Hq. split; [done|]. rewrite Hp. reflexivity.
Defined.

Lemma requests_answered_once_witness :
  [(0, w1 (page 1)); (0, w2 (page 2))] ≡ₚ [(0, w2 (page 2)); (0, w1 (page 1))].
Proof.
  apply (proj2 (proj2 (requests_answered_once _ _ _ (race_reached [] (page 1) (page 2)))) ltac:(by repeat constructor) ltac:(by repeat constructor)).
Defined.

Lemma writes_reordered_witness :
  exists s, dm_reach [] [(0, w1 (page 1)); (0, w2 (page 2))] s /\ ds_callers s = [CReturned; CReturned] /\
    jq_go (queue_at s 0) = [] /\ map fst (jq_sent (queue_at s 0)) = [w2 (page 2); w1 (page 1)] /\
    page_at (ds_fd s) 0 = page 1.
Proof. apply (writes_reordered [] (page 1) (page 2)); apply page_length. Defined.

End DiskSample.
