(* ===== verification/FreeList.v ===== *)
(** * The free list ([pkg/pager/freelist.go])

    The ids of deleted pages, kept in memory and written to a file of 4096-byte
    pages at shutdown. *)

From S2P Require Import Prelude Keys Files.
Local Open Scope Z_scope.

Definition FREE_LIST_PAGE_SIZE : Z := 4096.
Definition FREE_LIST_ENTRY_SIZE : Z := 4.
Definition ITEMS_PER_PAGE : Z := 1024.

Record FreeList := mkFreeList { fl_count : Z; freePages : list Z; fl_dirty : bool; fl_fd : bytes }.

Definition NewFreeList (flPath : string) (file : bytes) : outcome FreeList :=
  if (String.length flPath =? 0)%nat then Err (mkError FreelistError "No filepath for freelist provided")
  else Val (mkFreeList 0 [] false file).

(** The last id of the list, converted to [int32]; -1 when there is none. *)
Definition pop : M FreeList Z :=
  fl ← get_state;
  if fl_count fl <=? 0 then mret (-1)
  else
    p ← index_at (freePages fl) (fl_count fl - 1);
    let rest := take (Z.to_nat (fl_count fl - 1)) (freePages fl) ++ drop (Z.to_nat (fl_count fl)) (freePages fl) in
    put_state (mkFreeList (i32 (fl_count fl - 1)) rest true (fl_fd fl));;
    mret (i32 p).

Definition fl_add (p : Z) : M FreeList bool :=
  fl ← get_state;
  put_state (mkFreeList (i32 (fl_count fl + 1)) (p :: freePages fl) true (fl_fd fl));;
  mret true.

(** [math.Ceil] of an exact quotient of integers. *)
Definition ceil_div (a b : Z) : Z := (a + b - 1) / b.

(** The byte array of one page: the items, then the zeros of [make]. *)
Definition put_items (items : list Z) : outcome bytes :=
  if Z.of_nat (length items) * FREE_LIST_ENTRY_SIZE >? FREE_LIST_PAGE_SIZE then Panic "slice bounds out of range"
  else Val (concat (le32 <$> items) ++ replicate (Z.to_nat (FREE_LIST_PAGE_SIZE - Z.of_nat (length items) * FREE_LIST_ENTRY_SIZE)) 0).

(** The items of page [i]. *)
Definition page_items (fl : FreeList) (i : Z) : outcome (list Z) :=
  let start := Z.to_nat (i * ITEMS_PER_PAGE) in
  if (length (freePages fl) <? start)%nat then Panic "slice bounds out of range"
  else if fl_count fl >=? (i + 1) * ITEMS_PER_PAGE then
    if (length (freePages fl) <? start + Z.to_nat ITEMS_PER_PAGE)%nat then Panic "slice bounds out of range"
    else Val (take (Z.to_nat ITEMS_PER_PAGE) (drop start (freePages fl)))
  else Val (drop start (freePages fl)).

(** The pages [i], [i+1], ... [i+n-1]; returns the bytes written. *)
Fixpoint flush_pages (n : nat) (i : Z) : M FreeList Z :=
  match n with
  | O => mret 0
  | S n =>
      fl ← get_state;
      items ← lift_outcome (page_items fl i);
      byteArr ← lift_outcome (put_items items);
      put_state (mkFreeList (fl_count fl) (freePages fl) (fl_dirty fl) (WriteAt (fl_fd fl) byteArr (i * FREE_LIST_PAGE_SIZE)));;
      written ← flush_pages n (i + 1);
      mret (Z.of_nat (length byteArr) + written)
  end.

(** Returns what is sent on the channel. *)
Definition flushFreeList : M FreeList Z :=
  fl ← get_state;
  if negb (fl_dirty fl) then mret 0
  else
    let numOfPages := ceil_div (fl_count fl) FREE_LIST_PAGE_SIZE in
    if fl_count fl <=? 0 then
      put_state (mkFreeList (fl_count fl) (freePages fl) false (Truncate (fl_fd fl) 0));; mret 0
    else
      written ← flush_pages (Z.to_nat numOfPages) 0;
      modify (fun fl => mkFreeList (fl_count fl) (freePages fl) false (Truncate (fl_fd fl) (numOfPages * FREE_LIST_PAGE_SIZE)));;
      mret written.

(** The items of a page up to the first zero, and whether there was one
    ([break FreeLoop]). *)
Fixpoint read_items (n : nat) (b : bytes) : outcome (list Z * bool) :=
  match n with
  | O => Val ([], false)
  | S n =>
      match of_le32 b with
      | Val item =>
          if item =? 0 then Val ([], true)
          else match read_items n (drop 4 b) with
               | Val (l, brk) => Val (item :: l, brk)
               | o => o
               end
      | Err e => Err e
      | Panic p => Panic p
      | Blocked => Blocked
      | OutOfFuel => OutOfFuel
      end
  end.

Fixpoint load_pages (n : nat) (i : Z) : M FreeList unit :=
  match n with
  | O => mret tt
  | S n =>
      fl ← get_state;
      let '(byteArr, eof) := ReadAt (fl_fd fl) FREE_LIST_PAGE_SIZE (i * FREE_LIST_PAGE_SIZE) in
      if eof then panic "Unable to read free list"
      else
        '(items, brk) ← lift_outcome (read_items (Z.to_nat ITEMS_PER_PAGE) byteArr);
        put_state (mkFreeList (fl_count fl) (freePages fl ++ items) (fl_dirty fl) (fl_fd fl));;
        if (brk : bool) then mret tt else load_pages n (i + 1)
  end.

Definition loadFreeList : M FreeList unit :=
  fl ← get_state;
  let numPages := ceil_div (Z.of_nat (length (fl_fd fl))) FREE_LIST_PAGE_SIZE in
  load_pages (Z.to_nat numPages) 0;;
  modify (fun fl => mkFreeList (i32 (Z.of_nat (length (freePages fl)))) (freePages fl) (fl_dirty fl) (fl_fd fl)).

(** ** The invariant of the list *)

(** A page id that survives the conversion to [int32]; 0 is the metadata page. *)
Definition id_ok (p : Z) : Prop := 0 < p < 2 ^ 31.

Record fl_ok (fl : FreeList) : Prop := {
  fo_count : fl_count fl = Z.of_nat (length (freePages fl));
  fo_range : fl_count fl < 2 ^ 31;
  fo_ids : Forall id_ok (freePages fl) }.

Lemma pop_empty fl : fl_ok fl -> freePages fl = [] -> pop fl = (Val (-1), fl).
Proof. intros [Hc _ _] He. unfold pop, mbind, M_bind, get_state. rewrite Hc, He. done. Qed.

(** The id added first leaves first. *)
Lemma pop_last fl l p : fl_ok fl -> freePages fl = l ++ [p] ->
  exists fl', pop fl = (Val p, fl') /\ freePages fl' = l /\ fl_ok fl' /\ fl_dirty fl' = true /\ fl_fd fl' = fl_fd fl.
Proof.
  intros [Hc Hr Hi] He. exists (mkFreeList (fl_count fl - 1) l true (fl_fd fl)).
  rewrite He, length_app in Hc. cbn in Hc. rewrite He in Hi. apply Forall_app in Hi as [Hil Hip].
  apply Forall_cons in Hip as [Hip _]. unfold id_ok in Hip. split.
  - unfold pop, mbind at 1, M_bind at 1, get_state. rewrite (proj2 (Z.leb_gt _ _)) by lia.
    unfold index_at. rewrite (proj2 (Z.ltb_ge _ _)) by lia. rewrite He, Hc.
    replace (Z.to_nat (Z.of_nat (length l + 1) - 1)) with (length l) by lia. rewrite list_lookup_middle by done.
    unfold mbind, M_bind, mret, M_ret, put_state. rewrite take_app_length, Nat2Z.id, drop_ge by (rewrite length_app; cbn; lia).
    rewrite app_nil_r. rewrite !i32_small by lia. done.
  - split; [done|]. split; [split; cbn; [lia|lia|done]|done].
Qed.

Lemma fl_add_ok fl p : fl_ok fl -> id_ok p -> fl_count fl + 1 < 2 ^ 31 ->
  exists fl', fl_add p fl = (Val true, fl') /\ freePages fl' = p :: freePages fl /\ fl_ok fl' /\ fl_dirty fl' = true /\ fl_fd fl' = fl_fd fl.
Proof.
  intros [Hc Hr Hi] Hp Hn. exists (mkFreeList (fl_count fl + 1) (p :: freePages fl) true (fl_fd fl)). split.
  - unfold fl_add, mbind, M_bind, get_state, put_state, mret, M_ret. rewrite i32_small by lia. done.
  - split; [done|]. split; [split; cbn; [lia|lia|by constructor]|done].
Qed.

(** ** Writing and reading a page of ids *)

Lemma le32_zeros n rest : (4 <= n)%nat -> of_le32 (replicate n 0 ++ rest) = Val 0.
Proof. intros H. do 4 (destruct n as [|n]; [lia|]). done. Qed.

Lemma concat_le32_length l : length (concat (le32 <$> l)) = (4 * length l)%nat.
Proof. induction l; [done|]. rewrite fmap_cons. cbn [concat length]. rewrite length_app, IHl, le32_length. lia. Qed.

(** The ids of a page come back; a page with room left stops the reading. *)
Lemma read_items_put l : forall n k rest, Forall id_ok l -> (length l <= n)%nat -> (4 * n <= 4 * length l + k)%nat ->
  read_items n (concat (le32 <$> l) ++ replicate k 0 ++ rest) = Val (l, bool_decide (length l < n)%nat).
Proof.
  induction l as [|p l IH]; intros n k rest Hf Hn Hk.
  - cbn. destruct n as [|n]; [done|]. cbn. rewrite le32_zeros by (cbn in Hk; lia). cbn.
    by rewrite bool_decide_eq_true_2 by lia.
  - apply Forall_cons in Hf as [Hp Hf]. unfold id_ok in Hp. cbn in Hn. destruct n as [|n]; [lia|].
    rewrite fmap_cons. cbn [concat read_items]. rewrite <- app_assoc, le32_decode by lia.
    rewrite (proj2 (Z.eqb_neq _ _)) by lia. rewrite drop_app_length' by done.
    rewrite IH by (done || cbn in Hk; lia). cbn [length]. do 2 f_equal. apply bool_decide_ext. lia.
Qed.

Lemma put_items_ok l : (length l <= 1024)%nat ->
  put_items l = Val (concat (le32 <$> l) ++ replicate (4096 - 4 * length l) 0).
Proof.
  intros Hl. unfold put_items, FREE_LIST_ENTRY_SIZE, FREE_LIST_PAGE_SIZE.
  destruct (Z.gtb_spec (Z.of_nat (length l) * 4) 4096); [lia|]. do 3 f_equal. lia.
Qed.

(** ** Writing and reading the whole list *)

(** The first [n] pages' worth of items, page by page. *)
Fixpoint chunks (n : nat) (l : list Z) : list (list Z) :=
  match n with
  | O => []
  | S n => take 1024 l :: chunks n (drop 1024 l)
  end.

Definition enc (items : list Z) : bytes := concat (le32 <$> items) ++ replicate (4096 - 4 * length items) 0.

Definition enc_pages (n : nat) (l : list Z) : bytes := concat (enc <$> chunks n l).

Lemma enc_length l : (length l <= 1024)%nat -> length (enc l) = 4096%nat.
Proof. intros. unfold enc. rewrite length_app, concat_le32_length, length_replicate. lia. Qed.

Lemma enc_take_length l : length (enc (take 1024 l)) = 4096%nat.
Proof. apply enc_length. rewrite length_take. lia. Qed.

Lemma enc_pages_S n l : enc_pages (S n) l = enc (take 1024 l) ++ enc_pages n (drop 1024 l).
Proof. done. Qed.

Lemma enc_pages_length n : forall l, length (enc_pages n l) = (4096 * n)%nat.
Proof. induction n as [|n IH]; intros l; [done|]. rewrite enc_pages_S, length_app, enc_take_length, IH. lia. Qed.

Lemma page_items_ok fl (i : nat) : fl_ok fl -> (i * 1024 <= length (freePages fl))%nat ->
  page_items fl (Z.of_nat i) = Val (take 1024 (drop (i * 1024) (freePages fl))).
Proof.
  intros [Hc _ _] Hi. unfold page_items, ITEMS_PER_PAGE. replace (Z.to_nat (Z.of_nat i * 1024)) with (i * 1024)%nat by lia.
  rewrite (proj2 (Nat.ltb_ge _ _)) by done. change (Z.to_nat 1024) with 1024%nat.
  rewrite Z.geb_leb. destruct (Z.leb_spec ((Z.of_nat i + 1) * 1024) (fl_count fl)).
  - rewrite (proj2 (Nat.ltb_ge _ _)) by lia. done.
  - rewrite (take_ge (drop _ _)) by (rewrite length_drop; lia). done.
Qed.

Lemma WriteAt_inside fd data (o : nat) : (o <= length fd)%nat ->
  WriteAt fd data (Z.of_nat o) = take o fd ++ data ++ drop (o + length data) fd.
Proof. intros. unfold WriteAt. rewrite Nat2Z.id. replace (o - length fd)%nat with 0%nat by lia. done. Qed.

Definition set_file (fd : bytes) (fl : FreeList) : FreeList := mkFreeList (fl_count fl) (freePages fl) (fl_dirty fl) fd.

Lemma flush_pages_ok n : forall (i : nat) fl, fl_ok fl -> (i * 4096 <= length (fl_fd fl))%nat ->
  (n = 0 \/ (i + n - 1) * 1024 <= length (freePages fl))%nat ->
  flush_pages n (Z.of_nat i) fl = (Val (Z.of_nat (4096 * n)),
    set_file (take (i * 4096) (fl_fd fl) ++ enc_pages n (drop (i * 1024) (freePages fl)) ++ drop ((i + n) * 4096) (fl_fd fl)) fl).
Proof.
  induction n as [|n IH]; intros i fl Hok Hfd Hn; cbn [flush_pages].
  - unfold mret, M_ret, enc_pages. cbn [chunks fmap list_fmap concat app]. rewrite Nat.add_0_r, take_drop. by destruct fl.
  - unfold mbind at 1, M_bind at 1, get_state. rewrite page_items_ok by (done || lia).
    unfold lift_outcome, mbind at 1, M_bind at 1. rewrite put_items_ok by (rewrite length_take; lia).
    fold (enc (take 1024 (drop (i * 1024) (freePages fl)))). unfold mbind at 1, M_bind at 1, mbind at 1, M_bind at 1, put_state.
    replace (Z.of_nat i * FREE_LIST_PAGE_SIZE) with (Z.of_nat (i * 4096)) by (unfold FREE_LIST_PAGE_SIZE; lia).
    replace (Z.of_nat i + 1) with (Z.of_nat (S i)) by lia. rewrite WriteAt_inside by done.
    unfold mbind, M_bind. rewrite IH.
    + rewrite enc_take_length. unfold mret, M_ret, set_file. cbn [fl_count freePages fl_dirty fl_fd]. rewrite enc_pages_S, drop_drop.
      rewrite (take_app_ge (take _ _)) by (rewrite length_take; lia).
      rewrite (take_app_length' (enc _)) by (rewrite enc_take_length, length_take; lia).
      rewrite (drop_app_ge (take _ _)) by (rewrite length_take; lia).
      rewrite (drop_app_ge (enc _)) by (rewrite length_take, enc_take_length; lia).
      rewrite drop_drop, length_take, enc_take_length, <- !app_assoc.
      replace (i * 4096 + 4096 + ((S i + n) * 4096 - (i * 4096) `min` length (fl_fd fl) - 4096))%nat with ((i + S n) * 4096)%nat by lia.
      replace (i * 1024 + 1024)%nat with (S i * 1024)%nat by lia.
      f_equal. f_equal. lia.
    + by destruct Hok.
    + cbn [fl_fd]. rewrite !length_app, length_take, enc_take_length. lia.
    + cbn [freePages]. lia.
Qed.

Lemma read_items_enc l : Forall id_ok l -> (length l <= 1024)%nat ->
  read_items (Z.to_nat ITEMS_PER_PAGE) (enc l) = Val (l, bool_decide (length l < 1024)%nat).
Proof.
  intros Hf Hl. change (Z.to_nat ITEMS_PER_PAGE) with 1024%nat. unfold enc.
  rewrite <- (app_nil_r (replicate _ 0)). apply read_items_put; [done|lia|lia].
Qed.

Lemma load_pages_ok n : forall (i : nat) l pre fl, Forall id_ok l -> length pre = (i * 4096)%nat ->
  fl_fd fl = pre ++ enc_pages n l ->
  load_pages n (Z.of_nat i) fl = (Val tt, mkFreeList (fl_count fl) (freePages fl ++ take (1024 * n) l) (fl_dirty fl) (fl_fd fl)).
Proof.
  induction n as [|n IH]; intros i l pre fl Hf Hp Hfd; cbn [load_pages].
  - rewrite Nat.mul_0_r, take_0, app_nil_r. by destruct fl.
  - unfold mbind at 1, M_bind at 1, get_state. rewrite ReadAt_region, Hfd, enc_pages_S.
    unfold FREE_LIST_PAGE_SIZE. replace (Z.to_nat (Z.of_nat i * 4096)) with (length pre) by lia. change (Z.to_nat 4096) with 4096%nat.
    unfold region. rewrite drop_app_length, take_app_length' by (by rewrite enc_take_length).
    rewrite enc_take_length, Z.ltb_irrefl.
    rewrite read_items_enc by (first [by apply Forall_take | rewrite length_take; lia]). unfold lift_outcome, mbind, M_bind, put_state.
    case_bool_decide as Hlt; rewrite length_take in Hlt.
    + unfold mret, M_ret. rewrite !take_ge by lia. done.
    + replace (Z.of_nat i + 1) with (Z.of_nat (S i)) by lia.
      rewrite (IH (S i) (drop 1024 l) (pre ++ enc (take 1024 l))); cbn [fl_fd fl_count freePages fl_dirty].
      * rewrite <- app_assoc. replace (1024 * S n)%nat with (1024 + 1024 * n)%nat by lia. by rewrite take_take_drop.
      * by apply Forall_drop.
      * rewrite length_app, enc_take_length. lia.
      * by rewrite <- app_assoc.
Qed.

(** The ids on disk after a flush: those of the pages it writes. *)
Definition kept (l : list Z) : list Z := take (Z.to_nat (1024 * ceil_div (Z.of_nat (length l)) FREE_LIST_PAGE_SIZE)) l.

Lemma ceil_div_pages (n : nat) : ceil_div (Z.of_nat (4096 * n)) FREE_LIST_PAGE_SIZE = Z.of_nat n.
Proof. unfold ceil_div, FREE_LIST_PAGE_SIZE. Z.to_euclidean_division_equations. lia. Qed.

Lemma flushFreeList_ok fl : fl_ok fl -> fl_dirty fl = true ->
  let n := Z.to_nat (ceil_div (Z.of_nat (length (freePages fl))) FREE_LIST_PAGE_SIZE) in
  flushFreeList fl = (Val (Z.of_nat (4096 * n)), mkFreeList (fl_count fl) (freePages fl) false (enc_pages n (freePages fl))).
Proof.
  intros Hok Hd. cbv zeta. pose proof Hok as [Hc _ _]. unfold flushFreeList, mbind at 1, M_bind at 1, get_state. rewrite Hd, <- Hc. cbn [negb].
  assert (Z.to_nat (ceil_div (fl_count fl) FREE_LIST_PAGE_SIZE) = 0%nat \/
    (0 + Z.to_nat (ceil_div (fl_count fl) FREE_LIST_PAGE_SIZE) - 1) * 1024 <= length (freePages fl))%nat as Hn.
  { rewrite Hc. unfold ceil_div, FREE_LIST_PAGE_SIZE. Z.to_euclidean_division_equations. lia. }
  destruct (Z.leb_spec (fl_count fl) 0) as [H0|H0].
  - assert (ceil_div (fl_count fl) FREE_LIST_PAGE_SIZE = 0) as ->.
    { assert (fl_count fl = 0) as -> by lia. done. }
    unfold put_state, mbind, M_bind, mret, M_ret. cbn. done.
  - pose proof (flush_pages_ok _ 0 fl Hok ltac:(lia) Hn) as Hfl. change (Z.of_nat 0) with 0 in Hfl.
    unfold mbind, M_bind. rewrite Hfl. unfold modify, mret, M_ret, set_file. cbn [fl_count freePages fl_dirty fl_fd].
    cbn [Nat.mul take drop app]. do 2 f_equal. unfold Truncate. rewrite Z2Nat.inj_mul by (unfold ceil_div, FREE_LIST_PAGE_SIZE; Z.to_euclidean_division_equations; lia).
    change (Z.to_nat FREE_LIST_PAGE_SIZE) with 4096%nat. rewrite take_0, drop_0, app_nil_l, take_app_length' by (rewrite enc_pages_length; lia).
    rewrite length_app, enc_pages_length.
    replace (_ - _)%nat with 0%nat by lia. by rewrite app_nil_r.
Qed.

Lemma flush_then_load fl : fl_ok fl -> fl_dirty fl = true ->
  exists w fl', flushFreeList fl = (Val w, fl') /\ freePages fl' = freePages fl /\ fl_dirty fl' = false /\
    loadFreeList (mkFreeList 0 [] false (fl_fd fl')) =
      (Val tt, mkFreeList (Z.of_nat (length (kept (freePages fl)))) (kept (freePages fl)) false (fl_fd fl')).
Proof.
  intros Hok Hd. pose proof Hok as [Hc Hr Hf]. eexists _, _. split; [by apply flushFreeList_ok|]. split; [done|]. split; [done|].
  cbn [fl_fd]. set (n := Z.to_nat _). unfold loadFreeList, mbind, M_bind, get_state. cbn [fl_fd].
  rewrite enc_pages_length, ceil_div_pages, Nat2Z.id. unfold mbind, M_bind.
  pose proof (load_pages_ok n 0 (freePages fl) [] (mkFreeList 0 [] false (enc_pages n (freePages fl))) Hf eq_refl eq_refl) as Hl.
  change (Z.of_nat 0) with 0 in Hl. rewrite Hl.
  unfold modify. cbn [fl_count freePages fl_dirty fl_fd app].
  assert (take (1024 * n) (freePages fl) = kept (freePages fl)) as ->.
  { unfold kept, n. f_equal. rewrite Z2Nat.inj_mul; [done|lia|].
    unfold ceil_div, FREE_LIST_PAGE_SIZE; Z.to_euclidean_division_equations; lia. }
  do 3 f_equal. apply i32_small. unfold kept. rewrite length_take. lia.
Qed.
