(* ===== verification/Page.v ===== *)
(** * Page headers ([pkg/pager/page.go])

    A page is its 8192 bytes; the header's fields are little-endian integers at
    fixed offsets, updated in place. *)

From S2P Require Import Prelude Keys Files Helpers.
Local Open Scope Z_scope.

Definition PAGE_SIZE_BYTES : Z := 8192.
Definition LSN_SIZE_BYTE : Z := 12.

(** Flag bits of the first byte. *)
Definition Dead : Z := 4.
Definition Dirty : Z := 5.
Definition Written : Z := 6.
Definition IsInternalBit : Z := 7.

Record Page := mkPage { pgeData : bytes; PageId : Z }.

Definition flag_byte (p : Page) : Z := default 0 (head (pgeData p)).
Definition set_data (b : bytes) (p : Page) : Page := mkPage b (PageId p).
Definition set_flag_byte (f : Z) (p : Page) : Page := set_data (WriteAt (pgeData p) [f] 0) p.

(** [PutUint32(p.pgeData[off:off+4], v)] *)
Definition PutUint32 (off v : Z) (p : Page) : Page := set_data (WriteAt (pgeData p) (le32 v) off) p.

(** [copy(p.pgeData[off:off+n], src)] *)
Definition copy_at (off n : Z) (src : bytes) (p : Page) : Page :=
  set_data (WriteAt (pgeData p) (take (Z.to_nat n) src) off) p.

Definition UpdateRightPtr (pageId : Z) : M Page unit :=
  p ← get_state;
  if pageId =? 0 then mret tt
  else if negb (BitIsSet (flag_byte p) IsInternalBit) then
    fail PagerError "Invalid node: Only internal nodes can have right pointer in header."
  else modify (PutUint32 39 (u32 pageId)).

Definition MarkAsDead : M Page unit := modify (fun p => set_flag_byte (SetFlag (flag_byte p) [Dead; Dirty]) p).
Definition MarkDirty : M Page unit := modify (fun p => set_flag_byte (SetFlag (flag_byte p) [Dirty]) p).
Definition MarkClean : M Page unit := modify (fun p => set_flag_byte (UnsetFlag (flag_byte p) [Dirty]) p).
Definition IsDeleted : M Page bool := gets (fun p => BitIsSet (flag_byte p) Dead).
Definition IsInternal : M Page bool := gets (fun p => BitIsSet (flag_byte p) IsInternalBit).

Definition UpdateLSN (lsn : option bytes) : M Page unit :=
  match lsn with
  | None => fail PagerError "Invalid LSN provided"
  | Some lsn =>
      if negb (Z.of_nat (length lsn) =? LSN_SIZE_BYTE) then fail PagerError "LSN size is invalid."
      else modify (copy_at 5 LSN_SIZE_BYTE lsn)
  end.

Definition GetLSN : M Page bytes := gets (fun p => region (pgeData p) 5 12).

Definition initializePage (pageId : Z) (internal : bool) : M Page unit :=
  if pageId =? 0 then fail PagerError "Invalid page id provided"
  else
    modify (fun p => mkPage (pgeData p) pageId);;
    modify (PutUint32 1 pageId);;
    if internal then modify (fun p => set_flag_byte (SetFlag (flag_byte p) [IsInternalBit]) p) else mret tt.

Definition Clear : M Page unit := modify (set_data (replicate (Z.to_nat PAGE_SIZE_BYTES) 0)).

Definition GetPageByteData : M Page bytes := gets pgeData.

(** [TestAddDummyData]: the lowest bit of every byte of the whole chunks behind the
    first one; the rest of the division by the chunk's size stays as it is. *)
Definition CACHE_LINE_SIZE : nat := 646.
Definition dummy_end : nat := (Z.to_nat PAGE_SIZE_BYTES / CACHE_LINE_SIZE * CACHE_LINE_SIZE)%nat.
Definition TestAddDummyData : M Page unit :=
  modify (fun p =>
    let d := pgeData p in
    set_data (take CACHE_LINE_SIZE d ++ (Z.lor 1 <$> drop CACHE_LINE_SIZE (take dummy_end d)) ++ drop dummy_end d) p).

Definition UpdateUpperOffset (off : Z) : M Page unit := modify (PutUint32 25 off).
Definition UpdateLowerOffset (off : Z) : M Page unit := modify (PutUint32 29 off).
Definition UpdateItemCount (count : Z) : M Page unit := modify (PutUint32 17 (u32 count)).
Definition UpdateFreeSpace (free : Z) : M Page unit := modify (PutUint32 21 (u32 free)).
Definition UpdateRightSibling (pageId : Z) : M Page unit := modify (PutUint32 43 pageId).
Definition UpdateLeftSibling (pageId : Z) : M Page unit := modify (PutUint32 47 pageId).
Definition SetLSN (lsn : bytes) : M Page unit := modify (copy_at 5 12 lsn).

Definition SwapData (buff : option bytes) : M Page unit :=
  match buff with
  | None => fail PagerError "No byte data provided"
  | Some b => modify (copy_at 0 PAGE_SIZE_BYTES b)
  end.

(** ** The header as a record of fields *)

(** The fields of the header, by offset and size. *)
Inductive field := FFlags | FPageId | FLSN | FItemCount | FFreeSpace | FUpper | FLower | FRightPtr | FRightSibling | FLeftSibling.

Definition field_at (f : field) : nat * nat :=
  match f with
  | FFlags => (0, 1) | FPageId => (1, 4) | FLSN => (5, 12) | FItemCount => (17, 4) | FFreeSpace => (21, 4)
  | FUpper => (25, 4) | FLower => (29, 4) | FRightPtr => (39, 4) | FRightSibling => (43, 4) | FLeftSibling => (47, 4)
  end%nat.

#[export] Instance field_eq_dec : EqDecision field.
Proof. solve_decision. Defined.

(** The bytes of a field. *)
Definition field_bytes (p : Page) (f : field) : bytes := region (pgeData p) (field_at f).1 (field_at f).2.

Definition page_ok (p : Page) : Prop := length (pgeData p) = 8192%nat /\ is_byte (flag_byte p).

(** A write of exactly one field. *)
Definition writes_field (f : field) (b : bytes) (p p' : Page) : Prop :=
  field_bytes p' f = b /\ (forall g, g <> f -> field_bytes p' g = field_bytes p g) /\
  length (pgeData p') = length (pgeData p) /\ drop 51 (pgeData p') = drop 51 (pgeData p).

Lemma field_fits f p : length (pgeData p) = 8192%nat -> ((field_at f).1 + (field_at f).2 <= length (pgeData p))%nat.
Proof. intros ->. destruct f; cbn; lia. Qed.

Lemma fields_disjoint f g : f <> g -> ((field_at f).1 + (field_at f).2 <= (field_at g).1)%nat \/
  ((field_at g).1 + (field_at g).2 <= (field_at f).1)%nat.
Proof. destruct f, g; cbn; intros; try done; lia. Qed.

Lemma field_below f : ((field_at f).1 + (field_at f).2 <= 51)%nat.
Proof. destruct f; cbn; lia. Qed.

Lemma drop_region {A} (l l' : list A) n : length l = length l' -> take (length l - n) (drop n l) = take (length l - n) (drop n l') -> drop n l = drop n l'.
Proof. intros Hl. rewrite !take_ge; [done| |]; rewrite length_drop; lia. Qed.

Lemma write_field f b p : length (pgeData p) = 8192%nat -> length b = (field_at f).2 ->
  writes_field f b p (set_data (WriteAt (pgeData p) b (Z.of_nat (field_at f).1)) p).
Proof.
  intros Hp Hb. pose proof (field_fits f p Hp) as Hfit. unfold writes_field, field_bytes. cbn [pgeData set_data].
  assert (length (WriteAt (pgeData p) b (Z.of_nat (field_at f).1)) = length (pgeData p)) as Hlen.
  { rewrite WriteAt_length, Nat2Z.id. lia. }
  split; [|split; [|split; [done|]]].
  - rewrite <- Hb. rewrite <- (Nat2Z.id (field_at f).1) at 2. apply region_write_same.
  - intros g Hg. destruct (fields_disjoint f g) as [H|H]; [done| |].
    + apply region_write_after. rewrite Nat2Z.id. lia.
    + apply region_write_before; rewrite ?Nat2Z.id; [lia|by apply field_fits].
  - apply drop_region; [done|]. rewrite Hlen.
    apply (region_write_after (pgeData p) b _ 51 (length (pgeData p) - 51)). rewrite Nat2Z.id. pose proof (field_below f). lia.
Qed.

(** The dummy data leaves the header alone, and the last 440 bytes of the page. *)
Lemma TestAddDummyData_bytes p p' : length (pgeData p) = 8192%nat -> TestAddDummyData p = (Val tt, p') ->
  length (pgeData p') = 8192%nat /\ take 646 (pgeData p') = take 646 (pgeData p) /\
  drop dummy_end (pgeData p') = drop dummy_end (pgeData p) /\ (8192 - dummy_end = 440)%nat.
Proof.
  intros Hl H. unfold TestAddDummyData, modify in H. injection H as <-. cbn [pgeData set_data]. unfold CACHE_LINE_SIZE.
  assert (8192 - dummy_end = 440)%nat as He by (vm_compute; reflexivity). assert (646 <= dummy_end)%nat as Hc by (apply Nat.leb_le; vm_compute; reflexivity).
  assert (length (take 646 (pgeData p)) = 646%nat) as H1 by (rewrite length_take; lia).
  assert (length (Z.lor 1 <$> drop 646 (take dummy_end (pgeData p))) = dummy_end - 646)%nat as H2 by (rewrite length_fmap, length_drop, length_take; lia).
  split; [rewrite !length_app, H1, H2, length_drop; lia|]. split; [by rewrite take_app_length'|]. split; [|done].
  rewrite app_assoc, drop_app_length' by (rewrite length_app; lia). done.
Qed.
