(* ===== verification/Pager.v ===== *)
(** * The pager ([pkg/pager/pager.go])

    Page ids, the metadata page, and page reads and writes through the disk
    manager.  A worker sends one request and waits for its answer, and the caller
    waits for the worker; the model runs that hand-over to its end: the request is
    enqueued and the queue's goroutine takes its five steps (start, take the job,
    execute it, hand the result over, stop). *)

From S2P Require Import Prelude Keys Files Helpers Disk FreeList Page.
Local Open Scope Z_scope.

Record IOJob := mkJob { j_flag : Z; j_buff : bytes; j_pageId : Z }.

Record Pager := mkPager {
  freeList : FreeList; dManager : DiskManager; rootPageId : Z; pageCount : Z; maxPageId : Z }.

Definition set_freeList (fl : FreeList) (p : Pager) : Pager := mkPager fl (dManager p) (rootPageId p) (pageCount p) (maxPageId p).
Definition set_dManager (d : DiskManager) (p : Pager) : Pager := mkPager (freeList p) d (rootPageId p) (pageCount p) (maxPageId p).
Definition set_root (r : Z) (p : Pager) : Pager := mkPager (freeList p) (dManager p) r (pageCount p) (maxPageId p).
Definition set_count (c : Z) (p : Pager) : Pager := mkPager (freeList p) (dManager p) (rootPageId p) c (maxPageId p).
Definition set_max (m : Z) (p : Pager) : Pager := mkPager (freeList p) (dManager p) (rootPageId p) (pageCount p) m.

Definition on_disk_manager {A} (m : M DiskManager A) : M Pager A := zoom dManager set_dManager m.
Definition on_free_list {A} (m : M FreeList A) : M Pager A := zoom freeList set_freeList m.

(** [<-errChan] after [WriteReq]/[ReadReq]: the goroutine of the queue runs; the
    request's buffer as [execute] left it. *)
Definition await (off : Z) : M DiskManager bytes :=
  run 5 off;;
  d ← get_state;
  match last (jq_sent (queue_of off d)) with
  | Some (_, b) => mret b
  | None => blocked
  end.

(** The byte offset is a product of [uint32] values. *)
Definition page_offset (pageId : Z) : Z := u32 (pageId * PAGE_SIZE_BYTES).

(** Returns the buffer after the job. *)
Definition executeJob (j : IOJob) : M Pager bytes :=
  let off := page_offset (j_pageId j) in
  if BitIsSet (j_flag j) 7 then
    let isDead := BitIsSet (j_flag j) 6 in
    let flush := BitIsSet (j_flag j) 5 in
    on_disk_manager (WriteReq off (Some (j_buff j)) PAGE_SIZE_BYTES isDead (Some 0) flush;; await off)
  else
    on_disk_manager (ReadReq (Some (j_buff j)) off (Some 0);; await off).

Definition NewPageId : M Pager Z :=
  n ← on_free_list pop;
  if n <? 0 then
    pgr ← get_state;
    modify (set_max (u32 (maxPageId pgr + 1)));;
    mret (u32 (maxPageId pgr + 1))
  else mret (u32 n).

(** The page is the caller's: the call returns it with the id. *)
Definition NewPage (setAsRoot isInternal : bool) (pge : option Page) (pid : Z) : M Pager (Z * Page) :=
  match pge with
  | None => fail PagerError "No page entry provided."
  | Some pge =>
      match initializePage pid isInternal pge with
      | (Val _, pge') =>
          (if setAsRoot then modify (set_root pid) else mret tt);;
          pgr ← get_state;
          modify (set_count (u32 (pageCount pgr + 1)));;
          mret (pid, pge')
      | (Err e, _) => lift_outcome (Err e)
      | (Panic m, _) => panic m
      | (_, _) => blocked
      end
  end.

Definition UpdatePageMeta (pageId : Z) (isInternal : bool) : M Page unit :=
  if pageId =? 0 then fail PagerError "Invalid pageId"
  else initializePage pageId isInternal.

Definition readMetadata (buff : bytes) : M Pager bytes :=
  if negb (Z.of_nat (length buff) =? PAGE_SIZE_BYTES) then fail PagerError "Invalid buffer size."
  else executeJob (mkJob 0 buff 0).

Definition ReadPage (pageId : Z) (buff : bytes) : M Pager bytes :=
  if negb (Z.of_nat (length buff) =? PAGE_SIZE_BYTES) then fail PagerError "Invalid buffer size."
  else executeJob (mkJob 0 buff pageId).

(** The id of a dead page goes to the free list. *)
Definition release_page (pageId : Z) : M Pager unit :=
  on_free_list (fl_add pageId);;
  pgr ← get_state;
  if pageCount pgr >? 0 then modify (set_count (pageCount pgr - 1)) else mret tt.

Definition WritePage (pageId : Z) (buff : bytes) (flush : bool) : M Pager bytes :=
  if negb (Z.of_nat (length buff) =? PAGE_SIZE_BYTES) then fail PagerError "Invalid buffer size."
  else
    let isDead := BitIsSet (default 0 (head buff)) Dead in
    let flag := u8 (Z.shiftl 1 7) in
    let flag := if isDead then Z.lor flag (Z.shiftl 1 6) else flag in
    let flag := if flush then Z.lor flag (Z.shiftl 1 5) else flag in
    b ← executeJob (mkJob flag buff pageId);
    (if isDead then release_page pageId else mret tt);;
    mret b.

(** The metadata written into the page: root, page count and last id. *)
Definition put_metadata (pgr : Pager) (buff : bytes) : bytes :=
  let buff := WriteAt buff (le32 (rootPageId pgr)) 0 in
  let buff := WriteAt buff (le32 (pageCount pgr)) 12 in
  WriteAt buff (le32 (maxPageId pgr)) 16.

Definition FlushMetadata (buff : bytes) : M Pager bytes :=
  if negb (Z.of_nat (length buff) =? PAGE_SIZE_BYTES) then fail PagerError "Invalid buffer size."
  else
    pgr ← get_state;
    executeJob (mkJob (Z.lor (Z.shiftl 1 7) (Z.shiftl 1 5)) (put_metadata pgr buff) 0).

Definition UpdateRootPage (pageId : Z) : M Pager unit := modify (set_root pageId).
Definition RootPage : M Pager Z := gets rootPageId.

(** The count of written bytes is only printed. *)
Definition FlushFreeList : M Pager unit := on_free_list flushFreeList;; mret tt.

(** [Uint32(data[off:off+4])] *)
Definition get32 (data : bytes) (off : nat) : outcome Z := of_le32 (region data off 4).

(** The metadata page after the call. *)
Definition InitFromMetadata (metaPge : Page) : M Pager Page :=
  b ← readMetadata (pgeData metaPge);
  root ← lift_outcome (get32 b 0);
  modify (set_root root);;
  count ← lift_outcome (get32 b 12);
  modify (set_count count);;
  max ← lift_outcome (get32 b 16);
  modify (set_max max);;
  mret (set_data b metaPge).

Definition MAX_WORKERS : Z := 5500.

(** [NewPager] with a worker pool of [poolsize], over the free-list file [file];
    the last outcome of [startWorkers] is an error of the pool's size. *)
Definition NewPager (d : option DiskManager) (flPath : string) (file : bytes) (poolsize : Z) : outcome Pager :=
  match d with
  | None => Err (mkError PagerError "diskmanager instance not proviided")
  | Some d =>
      let size := if poolsize =? 0 then MAX_WORKERS else poolsize in
      match NewFreeList flPath file with
      | Val fl =>
          match loadFreeList fl with
          | (Val _, fl) =>
              if size >? MAX_WORKERS then Err (mkError PagerError "Unable to start workers: Worker pool size cannot go above 5500")
              else Val (mkPager fl d 0 0 0)
          | (Err e, _) => Err e
          | (Panic m, _) => Panic m
          | (_, _) => Blocked
          end
      | Err e => Err e
      | Panic m => Panic m
      | _ => Blocked
      end
  end.

(** ** Pages of the data file *)

Definition MAX_PAGE : Z := 2 ^ 19.

(** A page id whose offset fits in 32 bits. *)
Definition addressable (pid : Z) : Prop := 0 <= pid < MAX_PAGE.

(** No request is under way: every queue is empty and has no goroutine. *)
Definition idle (d : DiskManager) : Prop :=
  forall off, jq_jobs (queue_of off d) = [] /\ jq_running (queue_of off d) = false /\ jq_go (queue_of off d) = [].

Definition page_of (pgr : Pager) (pid : Z) : bytes := page_at (d_fd (dManager pgr)) (pid * 8192).
Definition page_exists (pgr : Pager) (pid : Z) : Prop := on_disk (d_fd (dManager pgr)) (pid * 8192).

Lemma page_offset_aligned pid : addressable pid -> page_offset pid = pid * 8192 /\ aligned (pid * 8192).
Proof.
  unfold addressable, MAX_PAGE, page_offset, PAGE_SIZE_BYTES, aligned. intros H. rewrite u32_small by lia.
  split; [done|]. split; [lia|]. apply Z.mod_mul. lia.
Qed.

(** A request alone in its queue is executed and answered. *)
Lemma request_runs off job d b d' :
  idle d ->
  execute job (set_queue off (mkQueue (jq_pageId (queue_of off d)) [] true [GExec job] (jq_sent (queue_of off d))) d) = (Val b, d') ->
  (enqueue off job;; await off) d =
    (Val b, set_queue off (mkQueue (jq_pageId (queue_of off d)) [] false [] (jq_sent (queue_of off d) ++ [(job, b)])) d').
Proof.
  intros Hidle He. destruct (Hidle off) as (Hj & Hr & Hg).
  set (q := queue_of off d) in *.
  unfold enqueue, mbind at 1, M_bind at 1, modify. fold q. unfold addJob. rewrite Hj, Hr, Hg. cbn [negb app].
  unfold await. set (id := jq_pageId q) in *. set (sent := jq_sent q) in *.
  change (run 5 off) with (run_step off 0;; run_step off 0;; run_step off 0;; run_step off 0;; run_step off 0;; (mret tt : M DiskManager unit)).
  unfold mbind, M_bind. rewrite step_start, step_take, (step_exec off id d job b d') by done.
  rewrite step_send, step_stop. unfold mret, M_ret, get_state. rewrite queue_of_set. cbn [jq_sent]. by rewrite last_snoc.
Qed.

Lemma idle_set_queue off q d : idle d -> jq_jobs q = [] -> jq_running q = false -> jq_go q = [] -> idle (set_queue off q d).
Proof.
  intros Hi H1 H2 H3 o. destruct (decide (off = o)) as [->|Hne]; [by rewrite queue_of_set|].
  rewrite queue_of_set_ne by done. apply Hi.
Qed.

(** Only the file's content changed, to [fd]. *)
Definition file_is (fd : bytes) (pgr pgr' : Pager) : Prop :=
  freeList pgr' = freeList pgr /\ rootPageId pgr' = rootPageId pgr /\ pageCount pgr' = pageCount pgr /\
  maxPageId pgr' = maxPageId pgr /\ idle (dManager pgr') /\ d_fd (dManager pgr') = fd.

Lemma job_runs off job pgr b fd :
  idle (dManager pgr) ->
  (forall d, d_fd d = d_fd (dManager pgr) -> execute job d = (Val b, set_fd fd d)) ->
  exists pgr', on_disk_manager (enqueue off job;; await off) pgr = (Val b, pgr') /\ file_is fd pgr pgr'.
Proof.
  intros Hi He. set (d := dManager pgr) in *. eexists. split.
  - unfold on_disk_manager, zoom. fold d. erewrite (request_runs off job d b _ Hi) by (by apply He). reflexivity.
  - unfold file_is. cbn. do 4 (split; [done|]). split; [|done]. intros o. unfold queue_of, set_queue, set_fd. cbn.
    rewrite insert_insert_eq. destruct (decide (off = o)) as [->|Hne]; [by rewrite lookup_insert_eq|].
    rewrite lookup_insert_ne by done. apply (Hi o).
Qed.

(** [ReadPage] returns the page. *)
Lemma read_job pid buff pgr : addressable pid -> length buff = DM_PAGE -> idle (dManager pgr) -> page_exists pgr pid ->
  exists pgr', executeJob (mkJob 0 buff pid) pgr = (Val (page_of pgr pid), pgr') /\ file_is (d_fd (dManager pgr)) pgr pgr'.
Proof.
  intros Hp Hl Hi He. destruct (page_offset_aligned pid Hp) as [Hoff Hal]. pose proof Hal as [Hr _]. unfold executeJob. cbn [j_flag j_pageId j_buff].
  change (BitIsSet 0 7) with false. cbv iota. rewrite Hoff. unfold ReadReq, read_ioReq. rewrite (u64_small (pid * 8192)) by lia.
  apply job_runs; [done|]. intros d Hd. fold (read_req 0 (pid * 8192) buff). rewrite execute_read; [unfold page_of; rewrite <- Hd; by destruct d|done|done|].
  by rewrite Hd.
Qed.

(** A write leaves its buffer on the page, or zeros when the page is dead. *)
Definition written_page (dead : bool) (buff : bytes) : bytes := if dead then replicate DM_PAGE 0 else buff.

Lemma write_job pid buff (dead flush : bool) flag pgr : addressable pid -> length buff = DM_PAGE -> idle (dManager pgr) ->
  BitIsSet flag 7 = true -> BitIsSet flag 6 = dead -> BitIsSet flag 5 = flush ->
  exists pgr', executeJob (mkJob flag buff pid) pgr = (Val (written_page dead buff), pgr') /\
    file_is (WriteAt (d_fd (dManager pgr)) (written_page dead buff) (pid * 8192)) pgr pgr'.
Proof.
  intros Hp Hl Hi H7 H6 H5. destruct (page_offset_aligned pid Hp) as [Hoff Hal]. pose proof Hal as [Hr _]. unfold executeJob. cbn [j_flag j_pageId j_buff].
  rewrite H7, H6, H5, Hoff. cbv zeta iota. unfold WriteReq, write_ioReq. rewrite (u64_small (pid * 8192)) by lia.
  apply job_runs; [done|]. intros d Hd. rewrite <- Hd. destruct dead.
  - change (SetFlag 0 [6]) with 64. apply execute_dead; done.
  - apply execute_write; done.
Qed.

Lemma written_length dead buff : length buff = DM_PAGE -> length (written_page dead buff) = DM_PAGE.
Proof. intros. destruct dead; [apply length_replicate|done]. Qed.

Lemma write_page_same pid fd dead buff : length buff = DM_PAGE ->
  page_at (WriteAt fd (written_page dead buff) (pid * 8192)) (pid * 8192) = written_page dead buff.
Proof. intros. by apply page_write_same, written_length. Qed.

Lemma write_page_other pid o fd dead buff : addressable pid -> addressable o -> o <> pid -> length buff = DM_PAGE ->
  on_disk fd (o * 8192) ->
  page_at (WriteAt fd (written_page dead buff) (pid * 8192)) (o * 8192) = page_at fd (o * 8192).
Proof.
  intros Hp Ho Hne Hl Hd. apply page_write_other; try done; try (by apply page_offset_aligned); [lia|by apply written_length].
Qed.

(** *** Whole operations *)

Definition page_flag (dead flush : bool) : Z :=
  let flag := u8 (Z.shiftl 1 7) in
  let flag := if dead then Z.lor flag (Z.shiftl 1 6) else flag in
  if flush then Z.lor flag (Z.shiftl 1 5) else flag.

Definition is_dead (buff : bytes) : bool := BitIsSet (default 0 (head buff)) Dead.

Lemma WritePage_eq pid buff flush pgr : length buff = DM_PAGE ->
  WritePage pid buff flush pgr = (b ← executeJob (mkJob (page_flag (is_dead buff) flush) buff pid);
    (if is_dead buff then release_page pid else mret tt);; mret b) pgr.
Proof. intros Hl. unfold WritePage. rewrite Hl. change (Z.of_nat DM_PAGE =? PAGE_SIZE_BYTES) with true. done. Qed.

Lemma WritePage_job pid buff flush pgr : addressable pid -> length buff = DM_PAGE -> idle (dManager pgr) ->
  exists pgr1, file_is (WriteAt (d_fd (dManager pgr)) (written_page (is_dead buff) buff) (pid * 8192)) pgr pgr1 /\
    WritePage pid buff flush pgr =
      ((if is_dead buff then release_page pid else mret tt);; mret (written_page (is_dead buff) buff)) pgr1.
Proof.
  intros Hp Hl Hi. rewrite WritePage_eq by done.
  destruct (write_job pid buff (is_dead buff) flush (page_flag (is_dead buff) flush) pgr) as (pgr1 & He & Hf); try done;
    try (by destruct (is_dead buff), flush).
  exists pgr1. split; [done|]. by rewrite (bind_Val _ _ _ _ _ He).
Qed.

(** A live page. *)
Lemma WritePage_live pid buff flush pgr : addressable pid -> length buff = DM_PAGE -> idle (dManager pgr) -> is_dead buff = false ->
  exists pgr', WritePage pid buff flush pgr = (Val buff, pgr') /\ file_is (WriteAt (d_fd (dManager pgr)) buff (pid * 8192)) pgr pgr'.
Proof.
  intros Hp Hl Hi Hd. destruct (WritePage_job pid buff flush pgr Hp Hl Hi) as (pgr1 & Hf & ->). rewrite Hd in *. by exists pgr1.
Qed.

(** A dead page: zeros on disk, the id on the free list. *)
Lemma WritePage_dead pid buff flush pgr : addressable pid -> 0 < pid -> length buff = DM_PAGE -> idle (dManager pgr) ->
  is_dead buff = true -> fl_ok (freeList pgr) -> fl_count (freeList pgr) + 1 < 2 ^ 31 ->
  exists pgr', WritePage pid buff flush pgr = (Val (replicate DM_PAGE 0), pgr') /\
    d_fd (dManager pgr') = WriteAt (d_fd (dManager pgr)) (replicate DM_PAGE 0) (pid * 8192) /\ idle (dManager pgr') /\
    fl_ok (freeList pgr') /\ freePages (freeList pgr') = pid :: freePages (freeList pgr) /\
    maxPageId pgr' = maxPageId pgr /\ rootPageId pgr' = rootPageId pgr.
Proof.
  intros Hp H0 Hl Hi Hd Hfl Hc. destruct (WritePage_job pid buff flush pgr Hp Hl Hi) as (pgr1 & Hf & ->). rewrite Hd in *.
  destruct Hf as (Hf1 & Hf2 & Hf3 & Hf4 & Hf5 & Hf6).
  destruct (fl_add_ok (freeList pgr1) pid) as (fl' & Ha & Hfp & Hfo & _); try (rewrite Hf1; done).
  { unfold addressable, MAX_PAGE in Hp. unfold id_ok. lia. }
  unfold release_page, on_free_list, zoom, mbind, M_bind. rewrite Ha. cbn [fst snd]. unfold get_state.
  destruct (_ >? 0); unfold modify, mret, M_ret; (eexists; split; [reflexivity|]); cbn; rewrite Hfp, Hf1; done.
Qed.
