(* ===== verification/PagerTheorems.v ===== *)
(** * Properties of the pager, the page header and the free list

    Pages are read back as written, ids handed out are never in use, metadata and
    free list survive a restart; with the limits of each: ids from 2{^19} on, a
    dead page written twice, and more than 1024 free ids. *)

From S2P Require Import Prelude Keys Files Helpers Disk FreeList Page Pager.
Local Open Scope Z_scope.

(** ** Page contents *)

(** C13: with no other request under way and an id below 2^19, [WritePage] of a live page followed by
    [ReadPage] of it, with any buffer of page size, returns the bytes written, and
    every other page of the file keeps its content. *)
Theorem WritePage_ReadPage pid buff flush rbuff pgr :
  addressable pid -> length buff = DM_PAGE -> length rbuff = DM_PAGE -> is_dead buff = false -> idle (dManager pgr) ->
  exists pgr1 pgr2, WritePage pid buff flush pgr = (Val buff, pgr1) /\ ReadPage pid rbuff pgr1 = (Val buff, pgr2) /\
    (forall o, addressable o -> o <> pid -> page_exists pgr o -> page_of pgr2 o = page_of pgr o) /\
    idle (dManager pgr2) /\ freeList pgr2 = freeList pgr.
Proof.
  intros Hp Hl Hr Hd Hi. destruct (WritePage_live pid buff flush pgr Hp Hl Hi Hd) as (pgr1 & Hw & F1).
  destruct F1 as (Hf1 & _ & _ & _ & Hi1 & Hfd1).
  destruct (read_job pid rbuff pgr1 Hp Hr Hi1) as (pgr2 & Hread & F2).
  { unfold page_exists. rewrite Hfd1. by apply on_disk_written. }
  destruct F2 as (Hf2 & _ & _ & _ & Hi2 & Hfd2).
  exists pgr1, pgr2. split; [done|]. split; [|split; [|split; [done|congruence]]].
  - unfold ReadPage. rewrite Hr. change (Z.of_nat DM_PAGE =? PAGE_SIZE_BYTES) with true. cbn [negb]. rewrite Hread.
    unfold page_of. rewrite Hfd1. by rewrite page_write_same.
  - intros o Ho Hne He. unfold page_of. rewrite Hfd2, Hfd1. by apply (write_page_other pid o _ false buff).
Qed.

(** C36: page 524288 and the metadata page share their offset, because the product
    of page id and page size is taken in [uint32]: [WritePage 524288] of any live
    page replaces the metadata page on disk. *)
Theorem page_id_wraps buff flush pgr :
  length buff = DM_PAGE -> is_dead buff = false -> idle (dManager pgr) ->
  exists pgr', WritePage 524288 buff flush pgr = (Val buff, pgr') /\ page_of pgr' 0 = buff.
Proof.
  intros Hl Hd Hi.
  assert (executeJob (mkJob (page_flag false flush) buff 524288) pgr = executeJob (mkJob (page_flag false flush) buff 0) pgr) as Heq by done.
  destruct (write_job 0 buff false flush (page_flag false flush) pgr) as (pgr1 & He & F); try done; try (by destruct flush).
  exists pgr1. rewrite WritePage_eq, Hd by done. unfold mbind, M_bind. rewrite Heq, He. split; [done|].
  destruct F as (_ & _ & _ & _ & _ & Hfd). unfold page_of. rewrite Hfd. by apply page_write_same.
Qed.

(** ** Page ids *)

(** The ids in use [live] and the free ones are disjoint and issued. *)
Record alloc_ok (live : gset Z) (pgr : Pager) : Prop := {
  al_idle : idle (dManager pgr);
  al_fl : fl_ok (freeList pgr);
  al_nodup : NoDup (freePages (freeList pgr));
  al_disj : forall p, p ∈ freePages (freeList pgr) -> p ∉ live;
  al_free : Forall (fun p => 1 <= p <= maxPageId pgr) (freePages (freeList pgr));
  al_live : forall p, p ∈ live -> 1 <= p <= maxPageId pgr;
  al_max : 0 <= maxPageId pgr < MAX_PAGE }.

Lemma nodup_range_length l m : 0 <= m -> NoDup l -> Forall (fun p => 1 <= p <= m) l -> Z.of_nat (length l) <= m.
Proof.
  intros Hm Hn Hf. assert (l ⊆+ seqZ 1 m) as H.
  { apply NoDup_submseteq; [done|]. intros x Hx. rewrite elem_of_seqZ. rewrite Forall_forall in Hf. specialize (Hf x Hx). lia. }
  apply submseteq_length in H. rewrite length_seqZ in H. lia.
Qed.

Lemma NewPageId_max pgr : fl_ok (freeList pgr) -> freePages (freeList pgr) = [] -> 0 <= maxPageId pgr < MAX_PAGE ->
  NewPageId pgr = (Val (maxPageId pgr + 1), set_max (maxPageId pgr + 1) pgr).
Proof.
  intros Hf He Hm. unfold NewPageId, on_free_list, zoom, mbind, M_bind. rewrite pop_empty by done. cbn.
  unfold get_state, modify, mret, M_ret. cbn. unfold MAX_PAGE in Hm. rewrite u32_small by lia. done.
Qed.

Lemma NewPageId_recycled pgr l p : fl_ok (freeList pgr) -> freePages (freeList pgr) = l ++ [p] -> id_ok p ->
  exists fl', NewPageId pgr = (Val p, set_freeList fl' pgr) /\ fl_ok fl' /\ freePages fl' = l.
Proof.
  intros Hf He Hp. destruct (pop_last _ l p Hf He) as (fl' & Hpop & Hl & Hok & _). exists fl'.
  unfold NewPageId, on_free_list, zoom, mbind, M_bind. rewrite Hpop. unfold id_ok in Hp.
  rewrite (proj2 (Z.ltb_ge _ _)) by lia. unfold mret, M_ret. rewrite u32_small by lia. done.
Qed.

Lemma list_snoc_case {A} (l : list A) : l = [] \/ exists l' x, l = l' ++ [x].
Proof. induction l as [|x l _] using rev_ind; [by left|right; eauto]. Qed.

Lemma NewPageId_fresh live pgr : alloc_ok live pgr -> maxPageId pgr + 1 < MAX_PAGE ->
  exists id pgr', NewPageId pgr = (Val id, pgr') /\ id ∉ live /\ 1 <= id <= maxPageId pgr' /\ alloc_ok ({[id]} ∪ live) pgr'.
Proof.
  intros [Hi Hf Hn Hd Hr Hl Hm] Hmax. destruct (list_snoc_case (freePages (freeList pgr))) as [He|(l & p & He)].
  - exists (maxPageId pgr + 1), (set_max (maxPageId pgr + 1) pgr). split; [by apply NewPageId_max|].
    assert (maxPageId pgr + 1 ∉ live) as Hfresh by (intros H; specialize (Hl _ H); lia).
    split; [done|]. split; [cbn; lia|]. split; cbn; try done; try (rewrite He; constructor).
    + rewrite He. intros p Hp. by apply not_elem_of_nil in Hp.
    + intros p Hp. apply elem_of_union in Hp as [->%elem_of_singleton|Hp]; [lia|]. specialize (Hl _ Hp). lia.
    + lia.
  - rewrite He in *. apply NoDup_app in Hn as (Hnl & Hnd & _). apply Forall_app in Hr as [Hrl Hrp]. apply Forall_cons in Hrp as [Hrp _].
    destruct (NewPageId_recycled pgr l p Hf He) as (fl' & Hnew & Hok & Hfl); [unfold id_ok, MAX_PAGE in *; lia|].
    exists p, (set_freeList fl' pgr). split; [done|]. split; [apply Hd; set_solver|]. split; [done|].
    split; cbn; rewrite ?Hfl; try done.
    + intros q Hq. specialize (Hnd q Hq). specialize (Hd q). set_solver.
    + intros q Hq. apply elem_of_union in Hq as [->%elem_of_singleton|Hq]; [done|by apply Hl].
Qed.

Lemma release_ok live pid buff flush pgr : alloc_ok live pgr -> pid ∈ live -> length buff = DM_PAGE -> is_dead buff = true ->
  exists pgr', WritePage pid buff flush pgr = (Val (replicate DM_PAGE 0), pgr') /\ alloc_ok (live ∖ {[pid]}) pgr'.
Proof.
  intros [Hi Hf Hn Hd Hr Hl Hm] Hp Hb Hdead. pose proof (Hl _ Hp) as Hpr. pose proof Hf as [Hc _ _].
  pose proof (nodup_range_length _ (maxPageId pgr) ltac:(lia) Hn Hr).
  destruct (WritePage_dead pid buff flush pgr) as (pgr' & Hw & _ & Hi' & Hok' & Hfp & Hmx & _);
    [unfold addressable; lia|lia|exact Hb|exact Hi|exact Hdead|exact Hf|unfold MAX_PAGE in Hm; lia|].
  exists pgr'. split; [done|]. split; rewrite ?Hfp, ?Hmx; try done.
  - constructor; [|done]. intros H'. by apply (Hd _ H').
  - intros q Hq. apply elem_of_cons in Hq as [->|Hq]; apply not_elem_of_difference; [right; by apply elem_of_singleton|left; by apply Hd].
  - by constructor.
  - intros q Hq. apply elem_of_difference in Hq as [Hq _]. by apply Hl.
Qed.

Lemma write_live_ok live pid buff flush pgr : alloc_ok live pgr -> pid ∈ live -> length buff = DM_PAGE -> is_dead buff = false ->
  exists pgr', WritePage pid buff flush pgr = (Val buff, pgr') /\ alloc_ok live pgr'.
Proof.
  intros [Hi Hf Hn Hd Hr Hl Hm] Hp Hb Hdead. pose proof (Hl _ Hp) as Hpr.
  destruct (WritePage_live pid buff flush pgr) as (pgr' & Hw & F); [unfold addressable; lia|done|done|done|].
  destruct F as (H1 & _ & _ & H4 & H5 & _). exists pgr'. split; [done|]. split; rewrite ?H1, ?H4; done.
Qed.

(** The uses of the pager: an id is taken, its page is written, and once it is
    dead it is written for the last time. *)
Inductive alloc_step : gset Z * Pager -> gset Z * Pager -> Prop :=
| as_new live pgr id pgr' : maxPageId pgr + 1 < MAX_PAGE -> NewPageId pgr = (Val id, pgr') ->
    alloc_step (live, pgr) ({[id]} ∪ live, pgr')
| as_write live pgr pid buff flush b pgr' : pid ∈ live -> length buff = DM_PAGE -> is_dead buff = false ->
    WritePage pid buff flush pgr = (Val b, pgr') -> alloc_step (live, pgr) (live, pgr')
| as_release live pgr pid buff flush b pgr' : pid ∈ live -> length buff = DM_PAGE -> is_dead buff = true ->
    WritePage pid buff flush pgr = (Val b, pgr') -> alloc_step (live, pgr) (live ∖ {[pid]}, pgr').

Lemma alloc_step_ok x y : alloc_step x y -> alloc_ok x.1 x.2 -> alloc_ok y.1 y.2.
Proof.
  intros [live pgr id pgr' Hm Hn|live pgr pid buff flush b pgr' Hp Hb Hd Hw|live pgr pid buff flush b pgr' Hp Hb Hd Hw] Hok; cbn in *.
  - destruct (NewPageId_fresh _ _ Hok Hm) as (id' & p' & He & _ & _ & H). rewrite Hn in He. injection He as -> ->. done.
  - destruct (write_live_ok _ _ _ flush _ Hok Hp Hb Hd) as (p' & He & H). rewrite Hw in He. injection He as _ ->. done.
  - destruct (release_ok _ _ _ flush _ Hok Hp Hb Hd) as (p' & He & H). rewrite Hw in He. injection He as _ ->. done.
Qed.

Lemma alloc_steps_ok x y : rtc alloc_step x y -> alloc_ok x.1 x.2 -> alloc_ok y.1 y.2.
Proof. induction 1 as [|x y z Hs _ IH]; [done|]. intros H. by apply IH, (alloc_step_ok _ _ Hs). Qed.

(** C12: after any sequence of allocations, page writes and releases from a pager
    whose ids are consistent, a further [NewPageId] returns a page id that is not
    0 and not in use, whether it comes from the free list or from the counter.  Ids
    stay below 2^19, and no page is released twice. *)
Theorem page_ids_fresh live0 pgr0 live pgr :
  alloc_ok live0 pgr0 -> rtc alloc_step (live0, pgr0) (live, pgr) -> maxPageId pgr + 1 < MAX_PAGE ->
  exists id pgr', NewPageId pgr = (Val id, pgr') /\ id <> 0 /\ id ∉ live /\ alloc_ok ({[id]} ∪ live) pgr'.
Proof.
  intros H0 Hs Hm. apply alloc_steps_ok in Hs; [|done].
  destruct (NewPageId_fresh _ _ Hs Hm) as (id & pgr' & He & Hf & Hr & Hok). exists id, pgr'. split; [done|]. split; [lia|done].
Qed.

(** C37: a dead page written twice puts its id on the free list twice: with an
    otherwise empty free list, the next two allocations both return that id. *)
Theorem dead_page_twice pid buff flush pgr :
  addressable pid -> 0 < pid -> length buff = DM_PAGE -> is_dead buff = true -> idle (dManager pgr) ->
  fl_ok (freeList pgr) -> freePages (freeList pgr) = [] ->
  exists pgr1 pgr2 pgr3 pgr4, WritePage pid buff flush pgr = (Val (replicate DM_PAGE 0), pgr1) /\
    WritePage pid buff flush pgr1 = (Val (replicate DM_PAGE 0), pgr2) /\
    NewPageId pgr2 = (Val pid, pgr3) /\ NewPageId pgr3 = (Val pid, pgr4).
Proof.
  intros Hp H0 Hb Hd Hi Hf He. pose proof Hf as [Hc _ _]. rewrite He in Hc. cbn in Hc.
  destruct (WritePage_dead pid buff flush pgr) as (pgr1 & Hw1 & _ & Hi1 & Hf1 & Hl1 & _); try done; [lia|]. rewrite He in Hl1.
  pose proof Hf1 as [Hc1 _ Hid]. rewrite Hl1 in Hc1, Hid. cbn in Hc1. apply Forall_cons in Hid as [Hid _].
  destruct (WritePage_dead pid buff flush pgr1) as (pgr2 & Hw2 & _ & Hi2 & Hf2 & Hl2 & _); try done; [lia|]. rewrite Hl1 in Hl2.
  destruct (NewPageId_recycled pgr2 [pid] pid Hf2 Hl2 Hid) as (fl3 & Hn3 & Hf3 & Hl3).
  destruct (NewPageId_recycled (set_freeList fl3 pgr2) [] pid Hf3 Hl3 Hid) as (fl4 & Hn4 & _).
  by exists pgr1, pgr2, (set_freeList fl3 pgr2), (set_freeList fl4 (set_freeList fl3 pgr2)).
Qed.

(** ** Restart *)

Definition meta_ok (pgr : Pager) : Prop :=
  0 <= rootPageId pgr < 2 ^ 32 /\ 0 <= pageCount pgr < 2 ^ 32 /\ 0 <= maxPageId pgr < 2 ^ 32.

Lemma put_metadata_length pgr buff : length buff = DM_PAGE -> length (put_metadata pgr buff) = DM_PAGE.
Proof.
  intros Hl. assert (20 <= DM_PAGE)%nat by (apply Nat.leb_le; reflexivity).
  unfold put_metadata. rewrite !WriteAt_length, Hl, !le32_length. change (Z.to_nat 16) with 16%nat. change (Z.to_nat 12) with 12%nat.
  change (Z.to_nat 0) with 0%nat. lia.
Qed.

Lemma get32_region data off v : 0 <= v < 2 ^ 32 -> region data off 4 = le32 v -> get32 data off = Val v.
Proof. intros Hv H. unfold get32. rewrite H. by apply le32_decode_nil. Qed.

Lemma put_metadata_fields pgr buff : length buff = DM_PAGE -> meta_ok pgr ->
  get32 (put_metadata pgr buff) 0 = Val (rootPageId pgr) /\ get32 (put_metadata pgr buff) 12 = Val (pageCount pgr) /\
  get32 (put_metadata pgr buff) 16 = Val (maxPageId pgr).
Proof.
  intros Hl (H1 & H2 & H3). assert (20 <= length buff)%nat by (rewrite Hl; apply Nat.leb_le; reflexivity).
  unfold put_metadata. split; [|split]; apply get32_region; try done.
  - rewrite (region_write_before _ _ 16); [exact (region_write_same _ (le32 _) 12)|..]; rewrite ?WriteAt_length; cbn; lia.
  - exact (region_write_same _ (le32 _) 16).
Qed.

(** What [FlushMetadata] writes is what [InitFromMetadata] of a pager opened
    later on the same file reads: root page, page count and last id issued. *)
Lemma metadata_roundtrip buff pgr :
  length buff = DM_PAGE -> idle (dManager pgr) -> meta_ok pgr ->
  exists b pgr', FlushMetadata buff pgr = (Val b, pgr') /\ idle (dManager pgr') /\
    (forall later metaPge, idle (dManager later) -> length (pgeData metaPge) = DM_PAGE ->
     d_fd (dManager later) = d_fd (dManager pgr') ->
     exists pg later', InitFromMetadata metaPge later = (Val pg, later') /\ pgeData pg = b /\
       rootPageId later' = rootPageId pgr /\ pageCount later' = pageCount pgr /\ maxPageId later' = maxPageId pgr).
Proof.
  intros Hl Hi Hok. pose proof (put_metadata_length pgr buff Hl) as Hpl.
  destruct (write_job 0 (put_metadata pgr buff) false true (Z.lor (Z.shiftl 1 7) (Z.shiftl 1 5)) pgr) as (pgr' & He & F); try done.
  destruct F as (_ & _ & _ & _ & Hi' & Hfd). cbn [written_page] in *.
  exists (put_metadata pgr buff), pgr'. split; [|split; [done|]].
  { unfold FlushMetadata. rewrite Hl. change (Z.of_nat DM_PAGE =? PAGE_SIZE_BYTES) with true. exact He. }
  intros later metaPge Hil Hm Hsame. rewrite Hfd in Hsame.
  destruct (read_job 0 (pgeData metaPge) later) as (later1 & Hr & F); try done.
  { unfold page_exists. rewrite Hsame. by apply on_disk_written. }
  unfold page_of in Hr. rewrite Hsame, page_write_same in Hr by done.
  destruct (put_metadata_fields pgr buff Hl Hok) as (G0 & G1 & G2).
  eexists _, _. split.
  - unfold InitFromMetadata. rewrite (bind_Val _ _ _ (put_metadata pgr buff) later1).
    + rewrite G0, G1, G2. reflexivity.
    + unfold readMetadata. rewrite Hm. change (Z.of_nat DM_PAGE =? PAGE_SIZE_BYTES) with true. exact Hr.
  - done.
Qed.

(** C26: flushing a modified free list and loading it again yields the ids of the
    [ceil(n/4096)] pages written, 1024 to a page: all of them up to 1024 ids. *)
Theorem freelist_reload fl : fl_ok fl -> fl_dirty fl = true ->
  exists w fl' fl'', flushFreeList fl = (Val w, fl') /\ loadFreeList (mkFreeList 0 [] false (fl_fd fl')) = (Val tt, fl'') /\
    fl_ok fl'' /\ freePages fl'' = kept (freePages fl) /\
    ((length (freePages fl) <= 1024)%nat -> freePages fl'' = freePages fl).
Proof.
  intros Hok Hd. destruct (flush_then_load fl Hok Hd) as (w & fl' & Hf & _ & _ & Hl). pose proof Hok as [Hc Hr Hi].
  eexists _, _, _. split; [exact Hf|]. split; [exact Hl|]. cbn. split; [split; cbn; try done|split; [done|]].
  - unfold kept. rewrite length_take. lia.
  - by apply Forall_take.
  - intros Hs. unfold kept. apply take_ge. unfold ceil_div, FREE_LIST_PAGE_SIZE. Z.to_euclidean_division_equations. lia.
Qed.

(** A free list of 1025 to 4096 ids keeps only its first 1024 across a
    restart, because the number of pages is computed from 4096 entries a page. *)
Lemma freelist_loses_ids fl : fl_ok fl -> fl_dirty fl = true -> (1024 < length (freePages fl) <= 4096)%nat ->
  exists w fl' fl'', flushFreeList fl = (Val w, fl') /\ loadFreeList (mkFreeList 0 [] false (fl_fd fl')) = (Val tt, fl'') /\
    freePages fl'' = take 1024 (freePages fl).
Proof.
  intros Hok Hd Hn. destruct (flush_then_load fl Hok Hd) as (w & fl' & Hf & _ & _ & Hl).
  eexists _, _, _. split; [exact Hf|]. split; [exact Hl|]. cbn. unfold kept. f_equal.
  unfold ceil_div, FREE_LIST_PAGE_SIZE. Z.to_euclidean_division_equations. lia.
Qed.

(** ** The page header *)

(** The updates of the header: the operation, the field it is for, and the bytes
    it puts there. *)
Inductive header_update (p : Page) : M Page unit -> field -> bytes -> Prop :=
| hu_upper v : header_update p (UpdateUpperOffset v) FUpper (le32 v)
| hu_lower v : header_update p (UpdateLowerOffset v) FLower (le32 v)
| hu_count v : header_update p (UpdateItemCount v) FItemCount (le32 (u32 v))
| hu_free v : header_update p (UpdateFreeSpace v) FFreeSpace (le32 (u32 v))
| hu_right v : header_update p (UpdateRightSibling v) FRightSibling (le32 v)
| hu_left v : header_update p (UpdateLeftSibling v) FLeftSibling (le32 v)
| hu_ptr v : v <> 0 -> BitIsSet (flag_byte p) IsInternalBit = true -> header_update p (UpdateRightPtr v) FRightPtr (le32 (u32 v))
| hu_lsn b : length b = 12%nat -> header_update p (UpdateLSN (Some b)) FLSN b
| hu_set_lsn b : length b = 12%nat -> header_update p (SetLSN b) FLSN b
| hu_dead : header_update p MarkAsDead FFlags [SetFlag (flag_byte p) [Dead; Dirty]]
| hu_dirty : header_update p MarkDirty FFlags [SetFlag (flag_byte p) [Dirty]]
| hu_clean : header_update p MarkClean FFlags [UnsetFlag (flag_byte p) [Dirty]]
| hu_init v : v <> 0 -> header_update p (initializePage v false) FPageId (le32 v).

Lemma put_field f v p : length (pgeData p) = 8192%nat -> (field_at f).2 = 4%nat ->
  writes_field f (le32 v) p (PutUint32 (Z.of_nat (field_at f).1) v p).
Proof. intros Hp Hf. apply write_field; [done|by rewrite Hf]. Qed.

Lemma copy_lsn b p : length (pgeData p) = 8192%nat -> length b = 12%nat -> writes_field FLSN b p (copy_at 5 12 b p).
Proof. intros Hp Hb. unfold copy_at. rewrite take_ge by (rewrite Hb; done). by apply (write_field FLSN). Qed.

Ltac header_field := eexists; split; [reflexivity|].

(** C27: every update of the page header writes exactly its field: the bytes of the
    field become the encoded value, every other field and everything after the
    51-byte header stay as they were.  [initializePage] is the one of a leaf here; that
    of an internal node writes two fields ([initializePage_internal]). *)
Theorem header_update_frame p op f b : length (pgeData p) = 8192%nat -> header_update p op f b ->
  exists p', op p = (Val tt, p') /\ writes_field f b p p'.
Proof.
  intros Hp Hu. destruct Hu as [v|v|v|v|v|v|v Hv Hint|b Hb|b Hb| | | |v Hv].
  - header_field. by apply (put_field FUpper).
  - header_field. by apply (put_field FLower).
  - header_field. by apply (put_field FItemCount).
  - header_field. by apply (put_field FFreeSpace).
  - header_field. by apply (put_field FRightSibling).
  - header_field. by apply (put_field FLeftSibling).
  - unfold UpdateRightPtr, mbind, M_bind, get_state. rewrite Hint, (proj2 (Z.eqb_neq _ _)) by done.
    header_field. by apply (put_field FRightPtr).
  - unfold UpdateLSN. rewrite Hb. header_field. by apply copy_lsn.
  - header_field. by apply copy_lsn.
  - header_field. by apply (write_field FFlags).
  - header_field. by apply (write_field FFlags).
  - header_field. by apply (write_field FFlags).
  - unfold initializePage. rewrite (proj2 (Z.eqb_neq _ _)) by done. header_field.
    by apply (put_field FPageId v (mkPage (pgeData p) v)).
Qed.

(** The page of an internal node gets its id and then its flag. *)
Lemma initializePage_internal p v : length (pgeData p) = 8192%nat -> v <> 0 ->
  exists q p', initializePage v true p = (Val tt, p') /\ writes_field FPageId (le32 v) p q /\
    writes_field FFlags [SetFlag (flag_byte p) [IsInternalBit]] q p'.
Proof.
  intros Hp Hv. unfold initializePage. rewrite (proj2 (Z.eqb_neq _ _)) by done.
  set (q := PutUint32 1 v (mkPage (pgeData p) v)). exists q.
  assert (writes_field FPageId (le32 v) p q) as Hq by (by apply (put_field FPageId v (mkPage (pgeData p) v))).
  assert (flag_byte q = flag_byte p) as Hf by (unfold q; destruct p as [[|x l] i]; [done|reflexivity]).
  eexists. split; [reflexivity|]. split; [exact Hq|]. rewrite <- Hf.
  apply (write_field FFlags); [|done]. unfold q, PutUint32, set_data. cbn [pgeData]. rewrite WriteAt_length, Hp. reflexivity.
Qed.

Lemma flag_byte_set f p : flag_byte (set_flag_byte f p) = f.
Proof. done. Qed.

(** [MarkAsDead] sets the dead and dirty bits and no other, and [MarkClean]
    afterwards clears the dirty bit and leaves the page dead and its kind as it
    was. *)
Lemma dead_then_clean p : is_byte (flag_byte p) ->
  exists p1 p2, MarkAsDead p = (Val tt, p1) /\ MarkClean p1 = (Val tt, p2) /\
    IsDeleted p1 = (Val true, p1) /\ BitIsSet (flag_byte p1) Dirty = true /\
    IsDeleted p2 = (Val true, p2) /\ BitIsSet (flag_byte p2) Dirty = false /\
    IsInternal p2 = (Val (BitIsSet (flag_byte p) IsInternalBit), p2).
Proof.
  intros [Hb _].
  assert (0 <= SetFlag (flag_byte p) [Dead; Dirty]) by (apply Z.lor_nonneg; split; [done|by apply flag_mask_nonneg]).
  eexists _, _. split; [reflexivity|]. split; [reflexivity|]. unfold IsDeleted, IsInternal, gets. rewrite !flag_byte_set.
  rewrite !UnsetFlag_bit, !SetFlag_bit; try done; try (unfold Dead, Dirty, IsInternalBit; repeat constructor; lia).
  change (bool_decide (Dead ∈ [Dead; Dirty])) with true. change (bool_decide (Dirty ∈ [Dead; Dirty])) with true.
  change (bool_decide (IsInternalBit ∈ [Dead; Dirty])) with false. change (bool_decide (IsInternalBit ∈ [Dirty])) with false.
  change (bool_decide (Dead ∈ [Dirty])) with false. change (bool_decide (Dirty ∈ [Dirty])) with true.
  rewrite !orb_true_r, !orb_false_r, !andb_true_r. done.
Qed.

Module PagerSample.

Definition page (x : Z) : bytes := replicate DM_PAGE x.
Definition new_pager : Pager := mkPager (mkFreeList 0 [] false []) (mkDisk [] ∅) 0 0 0.
Definition dead_page : bytes := 16 :: replicate 8191 0.

Lemma sample_page_length x : length (page x) = DM_PAGE.
Proof. apply length_replicate. Qed.

Lemma dead_length : length dead_page = DM_PAGE.
Proof. unfold dead_page. cbn [length]. by rewrite length_replicate. Qed.

Lemma new_idle : idle (mkDisk [] ∅).
Proof. done. Qed.

Lemma new_alloc : alloc_ok ∅ new_pager.
Proof.
  split; cbn; try done.
  - apply NoDup_nil_2.
Qed.

Lemma WritePage_ReadPage_witness :
  exists pgr1 pgr2, WritePage 3 (page 1) true new_pager = (Val (page 1), pgr1) /\ ReadPage 3 (page 0) pgr1 = (Val (page 1), pgr2).
Proof.
  destruct (WritePage_ReadPage 3 (page 1) true (page 0) new_pager) as (p1 & p2 & H1 & H2 & _);
    [done|apply sample_page_length|apply sample_page_length|reflexivity|apply new_idle|]. exists p1, p2. split; [exact H1|]. exact H2.
Defined.

Lemma page_id_wraps_witness :
  exists pgr', WritePage 524288 (page 1) false new_pager = (Val (page 1), pgr') /\ page_of pgr' 0 = page 1.
Proof. apply (page_id_wraps (page 1) false new_pager); [apply sample_page_length|reflexivity|apply new_idle]. Defined.

Lemma page_ids_fresh_witness :
  exists id pgr', NewPageId (set_max 1 new_pager) = (Val id, pgr') /\ id <> 0 /\ id ∉ ({[1]} ∪ ∅ : gset Z).
Proof.
  destruct (page_ids_fresh ∅ new_pager ({[1]} ∪ ∅) (set_max 1 new_pager) new_alloc) as (id & pgr' & H & Hz & Hf & _).
  - apply rtc_once, (as_new ∅ new_pager 1); reflexivity.
  - reflexivity.
  - exists id, pgr'. exact (conj H (conj Hz Hf)).
Defined.

Lemma dead_page_twice_witness :
  exists pgr1 pgr2 pgr3 pgr4, WritePage 2 dead_page false new_pager = (Val (replicate DM_PAGE 0), pgr1) /\
    WritePage 2 dead_page false pgr1 = (Val (replicate DM_PAGE 0), pgr2) /\
    NewPageId pgr2 = (Val 2, pgr3) /\ NewPageId pgr3 = (Val 2, pgr4).
Proof.
  apply (dead_page_twice 2 dead_page false new_pager);
    [done|done|apply dead_length|reflexivity|apply new_idle|split; [done|done|constructor]|reflexivity].
Defined.

Definition used_pager : Pager := mkPager (mkFreeList 0 [] false []) (mkDisk [] ∅) 7 3 9.

Lemma meta_used : meta_ok used_pager.
Proof. repeat split; done. Qed.

Lemma metadata_roundtrip_witness :
  exists b pgr' pg later', FlushMetadata (page 0) used_pager = (Val b, pgr') /\
    InitFromMetadata (mkPage (page 0) 0) (mkPager (freeList new_pager) (dManager pgr') 0 0 0) = (Val pg, later') /\
    rootPageId later' = 7 /\ pageCount later' = 3 /\ maxPageId later' = 9.
Proof.
  destruct (metadata_roundtrip (page 0) used_pager (sample_page_length 0) new_idle meta_used) as (b & pgr' & H & Hi & Hl).
  destruct (Hl (mkPager (freeList new_pager) (dManager pgr') 0 0 0) (mkPage (page 0) 0) Hi (sample_page_length 0) eq_refl)
    as (pg & later' & H1 & _ & H2).
  exists b, pgr', pg, later'. exact (conj H (conj H1 H2)).
Defined.

Definition ids (n : nat) : list Z := Z.of_nat <$> seq 1 n.
Definition free_ids (n : nat) : FreeList := mkFreeList (Z.of_nat n) (ids n) true [].

Lemma free_ids_ok n : (n <= 4096)%nat -> fl_ok (free_ids n).
Proof.
  intros Hn. split; cbn.
  - unfold ids. by rewrite length_fmap, length_seq.
  - lia.
  - unfold ids. apply Forall_fmap, Forall_forall. intros i Hi. apply elem_of_seq in Hi. unfold id_ok. cbn. lia.
Qed.

Lemma freelist_reload_witness :
  exists w fl' fl'', flushFreeList (free_ids 3) = (Val w, fl') /\
    loadFreeList (mkFreeList 0 [] false (fl_fd fl')) = (Val tt, fl'') /\ freePages fl'' = [1; 2; 3].
Proof.
  destruct (freelist_reload (free_ids 3)) as (w & fl' & fl'' & H1 & H2 & _ & _ & H5); [apply free_ids_ok; lia|done|].
  exists w, fl', fl''. split; [done|]. split; [done|]. apply H5. cbn. lia.
Defined.

Lemma freelist_loses_ids_witness :
  exists w fl' fl'', flushFreeList (free_ids 1025) = (Val w, fl') /\
    loadFreeList (mkFreeList 0 [] false (fl_fd fl')) = (Val tt, fl'') /\ freePages fl'' = take 1024 (ids 1025).
Proof.
  apply (freelist_loses_ids (free_ids 1025)); [apply free_ids_ok; lia|done|].
  cbn [freePages free_ids]. unfold ids. rewrite length_fmap, length_seq. lia.
Defined.

Lemma header_update_frame_witness :
  exists p', UpdateItemCount 5 (mkPage (page 0) 1) = (Val tt, p') /\ writes_field FItemCount (le32 5) (mkPage (page 0) 1) p'.
Proof. apply (header_update_frame (mkPage (page 0) 1)); [apply sample_page_length|apply hu_count]. Defined.

End PagerSample.
