(* ===== verification/Workers.v ===== *)
(** * Worker pools ([startWorkers], [shutdown] of [pkg/pager/pager.go], [startBmWorkers],
    [shutdownWorkers] of [pkg/buffermanager/shard.go])

    Both packages hand jobs to a fixed number of goroutines over a buffered channel.
    A pool is the channel (its content, its capacity and whether it is closed), the
    goroutines that range over it, and the jobs done so far; callers and workers
    interleave ([pool_run]).  A job is performed on a shared state in one step, and
    may never end ([None]), which keeps its worker for ever. *)

From S2P Require Import Prelude Keys Files Helpers Disk FreeList Page Pager.
Local Open Scope Z_scope.

Section Pool.
Context {J St : Type} (perform : J -> St -> option St).

(** A goroutine of the pool: waiting at the channel, with a job, or returned. *)
Inductive worker := WIdle | WBusy (j : J) | WDone.

(** [jobQ] is nil for [None]; the wait group counts the workers that have not returned. *)
Record workerpool := mkWorkers {
  jobQ : option (list J); w_cap : nat; w_closed : bool; w_pool : list worker; w_done : list J }.

Definition set_jobQ (q : option (list J)) (w : workerpool) : workerpool := mkWorkers q (w_cap w) (w_closed w) (w_pool w) (w_done w).
Definition set_closed (b : bool) (w : workerpool) : workerpool := mkWorkers (jobQ w) (w_cap w) b (w_pool w) (w_done w).
Definition set_worker (i : nat) (x : worker) (w : workerpool) : workerpool := mkWorkers (jobQ w) (w_cap w) (w_closed w) (<[i := x]> (w_pool w)) (w_done w).
Definition add_done (j : J) (w : workerpool) : workerpool := mkWorkers (jobQ w) (w_cap w) (w_closed w) (w_pool w) (w_done w ++ [j]).

(** [make(chan, n)], and a pool without goroutines. *)
Definition new_workers (n : nat) : workerpool := mkWorkers (Some []) n false [] [].
Definition spawn (n : nat) (w : workerpool) : workerpool := mkWorkers (jobQ w) (w_cap w) (w_closed w) (w_pool w ++ replicate n WIdle) (w_done w).

Definition startWorkers (poolsize : Z) (w : workerpool) : outcome workerpool :=
  match jobQ w with
  | None => Err (mkError PagerError "job queue not initialized")
  | Some _ =>
      if poolsize =? 0 then Err (mkError PagerError "Invalid worker poolsize. Atleast one worker required.")
      else if poolsize >? MAX_WORKERS then Err (mkError PagerError "Worker pool size cannot go above 5500")
      else Val (spawn (Z.to_nat poolsize) w)
  end.

Definition startBmWorkers (poolSize : Z) (w : workerpool) : outcome workerpool :=
  match jobQ w with
  | None => Err (mkError BufferManagerError "buffer manager job queue not initialized")
  | Some _ =>
      if poolSize =? 0 then Err (mkError BufferManagerError "Invalid pool size")
      else Val (spawn (Z.to_nat poolSize) w)
  end.

(** [queue <- job]: a full buffer and a nil channel block, a closed channel panics. *)
Definition send_job (j : J) : M workerpool unit := fun w =>
  match jobQ w with
  | None => (Blocked, w)
  | Some q =>
      if w_closed w then (Panic "send on closed channel", w)
      else if (length q <? w_cap w)%nat then (Val tt, set_jobQ (Some (q ++ [j])) w)
      else (Blocked, w)
  end.

(** [close(queue)], for a channel that is not nil. *)
Definition close_queue : M workerpool unit := fun w =>
  match jobQ w with
  | None => (Val tt, w)
  | Some _ => if w_closed w then (Panic "close of closed channel", w) else (Val tt, set_closed true w)
  end.

Definition is_done (x : worker) : bool := match x with WDone => true | _ => false end.
Definition all_done (w : workerpool) : bool := forallb is_done (w_pool w).

(** The next step of goroutine [i] of the pool, if it has one: [for j := range queue]
    takes a job, or ends when the channel is closed and empty. *)
Definition worker_step (i : nat) (c : workerpool * St) : option (workerpool * St) :=
  let '(w, st) := c in
  match w_pool w !! i with
  | Some WIdle =>
      match jobQ w with
      | Some (j :: q) => Some (set_worker i (WBusy j) (set_jobQ (Some q) w), st)
      | Some [] => if w_closed w then Some (set_worker i WDone w, st) else None
      | None => None
      end
  | Some (WBusy j) => (fun st' => (set_worker i WIdle (add_done j w), st')) <$> perform j st
  | _ => None
  end.

(** One turn of each of the [n] workers from [i] on. *)
Fixpoint turns (n i : nat) (c : workerpool * St) : workerpool * St :=
  match n with
  | O => c
  | S n' => turns n' (S i) (default c (worker_step i c))
  end.

Definition weight (x : worker) : nat := match x with WIdle => 1 | WBusy _ => 2 | WDone => 0 end.
Definition queued (w : workerpool) : list J := default [] (jobQ w).
(** What is left to do: a bound on the steps of the workers once the channel is closed. *)
Definition work (w : workerpool) : nat := (2 * length (queued w) + sum_list_with weight (w_pool w))%nat.

(** [wg.Wait()]: the workers take turns until all have returned. *)
Fixpoint wait_rounds (n : nat) (c : workerpool * St) : outcome unit * (workerpool * St) :=
  if all_done c.1 then (Val tt, c)
  else match n with
  | O => (Blocked, c)
  | S n' => wait_rounds n' (turns (length (w_pool c.1)) 0 c)
  end.
Definition wait : M (workerpool * St) unit := fun c => wait_rounds (work c.1) c.

(** [shutdown] of the pager's pool and [shutdownWorkers] of a shard's. *)
Definition shutdown : M (workerpool * St) unit := fun c =>
  match jobQ c.1 with
  | None => (Val tt, c)
  | Some _ =>
      match close_queue c.1 with
      | (Val _, w) => wait (w, c.2)
      | (o, w) => (o, (w, c.2))
      end
  end.

(** Runs of callers and workers, with the jobs accepted. *)
Inductive pool_run (c0 : workerpool * St) : list J -> workerpool * St -> Prop :=
| pr_init : pool_run c0 [] c0
| pr_send js w st j w' : pool_run c0 js (w, st) -> send_job j w = (Val tt, w') -> pool_run c0 (js ++ [j]) (w', st)
| pr_close js w st w' : pool_run c0 js (w, st) -> close_queue w = (Val tt, w') -> pool_run c0 js (w', st)
| pr_work js c i c' : pool_run c0 js c -> worker_step i c = Some c' -> pool_run c0 js c'.

(** [n] steps of the workers alone. *)
Inductive worker_steps : nat -> workerpool * St -> workerpool * St -> Prop :=
| ws_none c : worker_steps 0 c c
| ws_step n i c c' c'' : worker_step i c = Some c' -> worker_steps n c' c'' -> worker_steps (S n) c c''.

(** *** Every job is accounted for *)

Definition busy_job (x : worker) : option J := match x with WBusy j => Some j | _ => None end.

(** A worker returns only when the channel is closed and empty. *)
Record workers_ok (st0 : St) (js : list J) (c : workerpool * St) : Prop := {
  wk_queue : is_Some (jobQ c.1);
  wk_some : w_pool c.1 <> [];
  wk_done : WDone ∈ w_pool c.1 -> w_closed c.1 = true /\ queued c.1 = [];
  wk_account : js ≡ₚ w_done c.1 ++ omap busy_job (w_pool c.1) ++ queued c.1;
  wk_state : foldl (fun o j => st ← o; perform j st) (Some st0) (w_done c.1) = Some c.2 }.

Lemma WDone_insert i x (l : list worker) : x <> WDone -> WDone ∈ <[i := x]> l -> WDone ∈ l.
Proof.
  intros Hx Hin. apply list_elem_of_lookup in Hin as (j & Hj). apply list_lookup_insert_Some in Hj as [(_ & E & _)|[_ Hj]]; [done|].
  apply list_elem_of_lookup. eauto.
Qed.

Lemma omap_take_job i (l : list worker) x y : l !! i = Some x ->
  option_list (busy_job x) ++ omap busy_job (<[i := y]> l) ≡ₚ option_list (busy_job y) ++ omap busy_job l.
Proof.
  intros Hi. destruct (list_elem_of_split_length l i x Hi) as (l1 & l2 & -> & ->).
  rewrite insert_app_r_alt, Nat.sub_diag by lia. cbn. rewrite !omap_app. cbn.
  destruct (busy_job x), (busy_job y); cbn; solve_Permutation.
Qed.

Lemma worker_step_ok st0 js i c c' : workers_ok st0 js c -> worker_step i c = Some c' -> workers_ok st0 js c'.
Proof.
  destruct c as [w st]. intros [[q Hq] Hne Hd Ha Hst] H. cbn [fst snd] in *. cbn [worker_step] in H.
  destruct (w_pool w !! i) as [[|j|]|] eqn:Hi; try done.
  - unfold queued in *. rewrite Hq in H, Hd, Ha. destruct q as [|j q].
    + destruct (w_closed w) eqn:Hc; [|done]. injection H as <-. pose proof (omap_take_job i _ _ WDone Hi) as Hp.
      split; cbn; [by rewrite Hq|by eapply insert_not_nil|unfold queued; cbn; by rewrite Hq| |done].
      unfold queued. cbn. rewrite Hq. cbn in Hp |- *. by rewrite Hp.
    + injection H as <-. pose proof (omap_take_job i _ _ (WBusy j) Hi) as Hp.
      split; cbn; [done|by eapply insert_not_nil| | |done].
      * intros Hin. apply WDone_insert in Hin; [|done]. destruct (Hd Hin) as [_ E]. done.
      * unfold queued. cbn in Hp |- *. rewrite Hp, Ha. cbn. solve_Permutation.
  - destruct (perform j st) as [st'|] eqn:Hp; [|done]. injection H as <-.
    pose proof (omap_take_job i _ _ WIdle Hi) as Hm. cbn in Hm.
    split; cbn; [done|by eapply insert_not_nil| | |].
    + intros Hin. apply WDone_insert in Hin; [|done]. by apply Hd.
    + rewrite Ha, <- Hm. unfold queued. cbn. solve_Permutation.
    + rewrite foldl_app, Hst. cbn. by rewrite Hp.
Qed.

Lemma pool_run_ok w0 st0 js c : workers_ok st0 [] (w0, st0) -> pool_run (w0, st0) js c -> workers_ok st0 js c.
Proof.
  intros H0. induction 1 as [|js w st j w' _ IH H|js w st w' _ IH H|js c i c' _ IH H]; [done| | |by eapply worker_step_ok].
  - destruct IH as [[q Hq] Hne Hd Ha Hst]. cbn [fst snd] in *. unfold send_job in H. rewrite Hq in H.
    destruct (w_closed w) eqn:Hc; [done|]. destruct (_ <? _)%nat; [|done]. injection H as <-. unfold queued in *. rewrite Hq in *.
    split; cbn; [done|done|intros Hin; by destruct (Hd Hin)| |done]. unfold queued. cbn. rewrite Ha. cbn. by rewrite <- !app_assoc.
  - destruct IH as [[q Hq] Hne Hd Ha Hst]. cbn [fst snd] in *. unfold close_queue in H. rewrite Hq in H.
    destruct (w_closed w) eqn:Hc; [done|]. injection H as <-. split; cbn; try done. intros Hin. by destruct (Hd Hin).
Qed.

Lemma spawned_ok n m st0 : (0 < n)%nat -> workers_ok st0 [] (spawn n (new_workers m), st0).
Proof.
  intros Hn. assert (omap busy_job (replicate n WIdle) = []) as E by (clear; by induction n).
  split; cbn; [done|by destruct n; [lia|]|intros Hin; by apply elem_of_replicate in Hin as [? _]| |done]. by rewrite E.
Qed.

(** *** Closing the channel ends the pool *)

Lemma weight_insert i (l : list worker) x y : l !! i = Some x ->
  (sum_list_with weight (<[i := y]> l) + weight x = sum_list_with weight l + weight y)%nat.
Proof.
  intros Hi. destruct (list_elem_of_split_length l i x Hi) as (l1 & l2 & -> & ->).
  rewrite insert_app_r_alt, Nat.sub_diag by lia. cbn. rewrite !sum_list_with_app. cbn. lia.
Qed.

Lemma worker_step_work i c c' : worker_step i c = Some c' -> (work c'.1 < work c.1)%nat /\ w_closed c'.1 = w_closed c.1.
Proof.
  destruct c as [w st]. unfold work, queued. cbn [worker_step fst]. destruct (w_pool w !! i) as [[|j|]|] eqn:Hi; try done.
  - destruct (jobQ w) as [[|j q]|] eqn:Hq; [|intros [= <-]; cbn; rewrite ?Hq; pose proof (weight_insert i _ _ (WBusy j) Hi) as Hw|done].
    + destruct (w_closed w) eqn:Hc; [|done]. intros [= <-]. cbn. rewrite Hq. pose proof (weight_insert i _ _ WDone Hi) as Hw. cbn in Hw |- *. split; [lia|done].
    + cbn in Hw |- *. split; [lia|done].
  - destruct (perform j st); [|done]. intros [= <-]. cbn. pose proof (weight_insert i _ _ WIdle Hi) as Hw. cbn in Hw |- *. split; [lia|done].
Qed.

Lemma worker_steps_work n c c' : worker_steps n c c' -> (n + work c'.1 <= work c.1)%nat /\ w_closed c'.1 = w_closed c.1.
Proof.
  induction 1 as [c|n i c c1 c2 H _ [IH1 IH2]]; [split; [lia|done]|].
  destruct (worker_step_work _ _ _ H) as [H1 H2]. split; [lia|congruence].
Qed.

Lemma worker_steps_ok st0 js n c c' : worker_steps n c c' -> workers_ok st0 js c -> workers_ok st0 js c'.
Proof. induction 1 as [|n i c c1 c2 H _ IH]; [done|]. intros Hok. by eapply IH, worker_step_ok. Qed.

(** Jobs of the pool end in states that [Inv] describes, and leave such states. *)
Section Ending.
Context (Inv : St -> Prop) (Ends : J -> Prop).
Context (Hperform : forall j st, Ends j -> Inv st -> exists st', perform j st = Some st' /\ Inv st').

Lemma performed_inv l : forall st0 st, Forall Ends l -> Inv st0 -> foldl (fun o j => st ← o; perform j st) (Some st0) l = Some st -> Inv st.
Proof.
  induction l as [|j l IH]; intros st0 st Hl H0; [by intros [= <-]|]. apply Forall_cons in Hl as [Hj Hl].
  destruct (Hperform j st0 Hj H0) as (st1 & H1 & Hi). cbn [foldl mbind option_bind]. rewrite H1. by apply IH.
Qed.

Lemma stuck_done st0 js c : workers_ok st0 js c -> Forall Ends js -> Inv st0 -> w_closed c.1 = true ->
  (forall i, worker_step i c = None) ->
  all_done c.1 = true /\ w_done c.1 ≡ₚ js.
Proof.
  destruct c as [w st]. intros Hok Hjs H0 Hc Hno. pose proof Hok as [[q Hq] Hne Hd Ha Hst]. cbn [fst snd] in *.
  assert (Forall Ends (w_done w) /\ Forall Ends (omap busy_job (w_pool w))) as [Hd1 Hb1].
  { rewrite Ha in Hjs. apply Forall_app in Hjs as [? Hjs]. by apply Forall_app in Hjs as [? _]. }
  pose proof (performed_inv _ _ _ Hd1 H0 Hst) as Hinv.
  assert (Hall : Forall (fun x => x = WDone) (w_pool w)).
  { apply Forall_lookup. intros i x Hi. specialize (Hno i). cbn [worker_step] in Hno. rewrite Hi in Hno. destruct x as [|j|]; [| |done].
    - rewrite Hq, Hc in Hno. by destruct q.
    - rewrite Forall_forall in Hb1. destruct (Hperform j st) as (st' & E & _); [|done|by rewrite E in Hno].
      apply Hb1, list_elem_of_omap. exists (WBusy j). split; [|done]. by eapply list_elem_of_lookup_2. }
  assert (queued w = []) as Hq0. { destruct (w_pool w) as [|x l]; [done|]. apply Forall_cons in Hall as [-> _]. apply Hd. by left. }
  assert (omap busy_job (w_pool w) = []) as Hb0. { revert Hall. clear. induction 1 as [|x l -> _ IH]; done. }
  split; [|by rewrite Ha, Hq0, Hb0, app_nil_r]. apply Is_true_true_1, forallb_True, (Forall_impl _ _ _ Hall). by intros x ->.
Qed.

(** From any state of a pool with a worker whose channel is closed: the workers take
    at most [work] more steps, in whichever order, and when none of them can go on
    all have returned and the accepted jobs are done, each once. *)
Lemma close_drains n m st0 js c : (0 < n)%nat -> pool_run (spawn n (new_workers m), st0) js c -> Forall Ends js -> Inv st0 -> w_closed c.1 = true ->
  forall k c', worker_steps k c c' -> (k <= work c.1)%nat /\
    ((forall i, worker_step i c' = None) -> all_done c'.1 = true /\ w_done c'.1 ≡ₚ js /\
      foldl (fun o j => st ← o; perform j st) (Some st0) (w_done c'.1) = Some c'.2).
Proof.
  intros Hn Hrun Hjs H0 Hc k c' Hk. pose proof (pool_run_ok _ _ _ _ (spawned_ok n m st0 Hn) Hrun) as Hok.
  destruct (worker_steps_work _ _ _ Hk) as [Hw Hc']. split; [lia|]. intros Hno. pose proof (worker_steps_ok _ _ _ _ _ Hk Hok) as Hok'.
  destruct (stuck_done st0 js c' Hok' Hjs H0) as [H1 H2]; [congruence|done|]. split_and!; [done|done|]. apply Hok'.
Qed.

(** *** Waiting for the workers *)

Lemma worker_steps_app n m c c1 c2 : worker_steps n c c1 -> worker_steps m c1 c2 -> worker_steps (n + m) c c2.
Proof. induction 1 as [|n i c c' c1 H _ IH]; [done|]. intros H2. eapply ws_step; [exact H|by apply IH]. Qed.

Lemma turns_steps n : forall i c, exists k, worker_steps k c (turns n i c) /\
  (k = 0%nat -> forall j, (i <= j < i + n)%nat -> worker_step j c = None).
Proof.
  induction n as [|n IH]; intros i c; cbn [turns]; [exists 0%nat; split; [constructor|lia]|].
  destruct (worker_step i c) as [c1|] eqn:E; cbn [default from_option].
  - destruct (IH (S i) c1) as (k & Hk & _). exists (S k). split; [by eapply ws_step|done].
  - destruct (IH (S i) c) as (k & Hk & H0). exists k. split; [done|]. intros Hz j Hj.
    destruct (decide (j = i)) as [->|]; [done|]. apply H0; [done|lia].
Qed.

Lemma wait_rounds_returns st0 js n : forall c, (work c.1 <= n)%nat -> workers_ok st0 js c -> Forall Ends js -> Inv st0 -> w_closed c.1 = true ->
  exists k c', wait_rounds n c = (Val tt, c') /\ worker_steps k c c' /\ all_done c'.1 = true.
Proof.
  induction n as [|n IH]; intros c Hn Hok Hjs H0 Hc; cbn [wait_rounds]; destruct (all_done c.1) eqn:Hd;
    try (exists 0%nat, c; split_and!; [done|constructor|done]);
    destruct (turns_steps (length (w_pool c.1)) 0 c) as (k & Hk & Hz);
    (assert (k <> 0%nat) as Hk0;
      [intros ->; destruct (stuck_done st0 js c Hok Hjs H0 Hc) as [E _]; [|by rewrite E in Hd];
       intros j; destruct (decide (j < length (w_pool c.1))%nat); [by apply Hz; [|lia]|];
       destruct c as [w st]; cbn [worker_step fst] in *; by rewrite lookup_ge_None_2 by lia|]);
    pose proof (worker_steps_work _ _ _ Hk) as [Hw Hc']; [lia|].
  destruct (IH (turns (length (w_pool c.1)) 0 c)) as (k2 & c2 & E & Hs & Ha); [lia|by eapply worker_steps_ok|done|done|congruence|].
  exists (k + k2)%nat, c2. split_and!; [done|by eapply worker_steps_app|done].
Qed.

End Ending.

(** A pool without jobs is closed at once, and nothing is performed. *)
Definition resting (w : workerpool) : Prop := jobQ w = Some [] /\ w_closed w = false /\ exists n, w_pool w = replicate (S n) WIdle.

Lemma turns_idle w st n : forall l, jobQ w = Some [] -> w_closed w = true -> w_pool w = l ++ replicate n WIdle ->
  turns n (length l) (w, st) = (mkWorkers (Some []) (w_cap w) true (l ++ replicate n WDone) (w_done w), st).
Proof.
  revert w. induction n as [|n IH]; intros w l Hq Hc Hp; cbn [turns]; [destruct w; cbn in *; by subst|].
  cbn [worker_step]. rewrite Hp, lookup_app_r, Nat.sub_diag, Hq, Hc by lia. cbn [replicate lookup list_lookup]. unfold default, from_option, id.
  replace (S (length l)) with (length (l ++ [WDone])) by (rewrite length_app; cbn; lia).
  rewrite (IH (set_worker (length l) WDone w) (l ++ [WDone])); cbn [set_worker jobQ w_closed w_pool w_cap w_done]; [by rewrite <- app_assoc|done|done|].
  rewrite Hp, insert_app_r_alt, Nat.sub_diag, <- app_assoc by lia. done.
Qed.

Lemma shutdown_resting w st : resting w -> exists w', shutdown (w, st) = (Val tt, (w', st)) /\ jobQ w' = Some [] /\ w_closed w' = true /\ all_done w' = true.
Proof.
  intros (Hq & Hc & n & Hp). unfold shutdown, close_queue. cbn [fst]. rewrite Hq, Hc. unfold wait. cbn [fst].
  assert (forall m, all_done (mkWorkers (Some []) (w_cap w) true (replicate (S m) WDone) (w_done w)) = true) as Hd.
  { intros m. apply Is_true_true_1, forallb_True, Forall_replicate. done. }
  assert (exists m, work (set_closed true w) = S m) as [m ->].
  { unfold work, queued. cbn [set_closed jobQ w_pool]. rewrite Hq, Hp. cbn. eauto. }
  pose proof (turns_idle (set_closed true w) st (S n) [] Hq eq_refl Hp) as Ht. cbn [length app] in Ht.
  unfold set_closed in *. cbn [wait_rounds fst w_pool w_cap w_done] in *. unfold all_done at 1. cbn [w_pool]. rewrite Hp. cbn [replicate forallb is_done andb].
  change (WIdle :: replicate n WIdle) with (replicate (S n) WIdle). rewrite length_replicate, <- Hp. cbn [snd]. rewrite Ht.
  eexists. split; [destruct m; cbn [wait_rounds fst]; by rewrite Hd|split_and!; [done..|apply Hd]].
Qed.

(** A closed channel takes no job, and cannot be closed again. *)
Lemma send_closed j w q : jobQ w = Some q -> w_closed w = true -> send_job j w = (Panic "send on closed channel", w).
Proof. intros Hq Hc. unfold send_job. by rewrite Hq, Hc. Qed.
Lemma shutdown_closed w st q : jobQ w = Some q -> w_closed w = true -> shutdown (w, st) = (Panic "close of closed channel", (w, st)).
Proof. intros Hq Hc. unfold shutdown, close_queue. cbn. by rewrite Hq, Hc. Qed.

(** A worker whose job never ends stays, so the wait never ends. *)
Lemma stuck_worker_stays i j w st : w_pool w !! i = Some (WBusy j) -> (forall st, perform j st = None) ->
  forall k c', worker_steps k (w, st) c' -> w_pool c'.1 !! i = Some (WBusy j) /\ all_done c'.1 = false.
Proof.
  intros Hi Hp k c' Hk. assert (w_pool c'.1 !! i = Some (WBusy j)) as Hs.
  { change (w_pool (w, st).1 !! i = Some (WBusy j)) in Hi. revert Hi. induction Hk as [|k i' c c1 c2 H _ IH]; [done|]. intros Hi. apply IH.
    destruct c as [w1 st1]. cbn [worker_step fst] in H, Hi |- *. destruct (decide (i' = i)) as [->|Hne]; [by rewrite Hi, Hp in H|].
    destruct (w_pool w1 !! i') as [[|j'|]|]; try done; [|destruct (perform j' st1); [|done]; injection H as <-; cbn; by rewrite list_lookup_insert_ne].
    destruct (jobQ w1) as [[|? ?]|]; [destruct (w_closed w1); [|done]|..]; try done; injection H as <-; cbn; by rewrite list_lookup_insert_ne. }
  split; [done|]. apply not_true_is_false. intros Ht. apply Is_true_true_2, forallb_True in Ht. rewrite Forall_lookup in Ht. by specialize (Ht _ _ Hs).
Qed.

End Pool.

Arguments worker : clear implicits.
Arguments workerpool : clear implicits.

(** ** The pager's pool *)

Definition perform_io (j : IOJob) (pgr : Pager) : option Pager :=
  match executeJob j pgr with
  | (Val _, pgr') => Some pgr'
  | _ => None
  end.

(** The jobs of [ReadPage], [WritePage] and the metadata calls: one page. *)
Definition io_ok (j : IOJob) : Prop := addressable (j_pageId j) /\ length (j_buff j) = DM_PAGE.

Lemma perform_io_ends j pgr : io_ok j -> idle (dManager pgr) -> exists pgr', perform_io j pgr = Some pgr' /\ idle (dManager pgr').
Proof.
  destruct j as [flag buff pid]. intros [Hp Hl] Hi. cbn [j_pageId j_buff] in *. unfold perform_io.
  destruct (BitIsSet flag 7) eqn:H7.
  - destruct (write_job pid buff (BitIsSet flag 6) (BitIsSet flag 5) flag pgr) as (pgr' & -> & Hf); try done. exists pgr'. split; [done|]. apply Hf.
  - destruct (page_offset_aligned pid Hp) as [Hoff [Hr _]]. unfold executeJob. cbn [j_flag j_pageId j_buff]. rewrite H7, Hoff.
    unfold ReadReq, read_ioReq. rewrite (u64_small (pid * 8192)) by lia.
    destruct (job_runs (pid * 8192) (mkReq buff 0 0 (pid * 8192) 128 false) pgr
      ((ReadAt (d_fd (dManager pgr)) (Z.of_nat (length buff)) (pid * 8192)).1 ++
        drop (length (ReadAt (d_fd (dManager pgr)) (Z.of_nat (length buff)) (pid * 8192)).1) buff) (d_fd (dManager pgr))) as (pgr' & -> & Hf); [done| |].
    + intros d Hd. unfold execute. cbn [q_flag q_off q_buff]. change (BitIsSet 128 7) with true. cbv iota. rewrite u32_small by lia.
      unfold loadPage, mbind, M_bind, get_state. rewrite Hd. destruct (ReadAt _ _ _) as [b e]. cbn. destruct d. cbn in Hd. by subst.
    + exists pgr'. split; [done|]. apply Hf.
Qed.

(** C18: stopping the pager's workers ends, loses no request and starts none twice.
    From any interleaving of callers and workers after [startWorkers] in which only
    requests for whole pages were accepted, [shutdown] closes the channel and
    returns; the workers have all returned, every accepted request has been executed
    exactly once (a job runs in one step, so two workers do not overlap inside the disk
    manager), and the pager is what executing them in the order they were finished
    makes of it.  Whatever the scheduler does, the workers take at most
    [work] more steps.  A request sent afterwards panics. *)
Theorem pager_shutdown poolsize w0 pgr js w pgr1 :
  startWorkers poolsize (new_workers (Z.to_nat poolsize)) = Val w0 -> 0 <= poolsize -> idle (dManager pgr) ->
  pool_run perform_io (w0, pgr) js (w, pgr1) -> w_closed w = false -> Forall io_ok js ->
  exists w2 pgr2, shutdown perform_io (w, pgr1) = (Val tt, (w2, pgr2)) /\ all_done w2 = true /\ w_done w2 ≡ₚ js /\
    foldl (fun o j => p ← o; perform_io j p) (Some pgr) (w_done w2) = Some pgr2 /\
    (forall j, send_job j w2 = (Panic "send on closed channel", w2)) /\
    forall k c, worker_steps perform_io k (set_closed true w, pgr1) c -> (k <= work w)%nat.
Proof.
  intros Hst Hp0 Hid Hrun Hc Hjs. set (n := Z.to_nat poolsize) in *.
  assert (w0 = spawn n (new_workers n) /\ (0 < n)%nat) as [-> Hn].
  { unfold startWorkers in Hst. cbn in Hst. destruct (Z.eqb_spec poolsize 0); [done|]. destruct (_ >? _); [done|]. injection Hst as <-. split; [done|lia]. }
  pose proof (pool_run_ok perform_io _ _ _ _ (spawned_ok perform_io n n pgr Hn) Hrun) as Hok. pose proof (wk_queue _ _ _ _ Hok) as [q Hq]. cbn [fst] in Hq.
  assert (close_queue w = (Val tt, set_closed true w)) as Hcl by (unfold close_queue; by rewrite Hq, Hc).
  pose proof (pr_close perform_io _ _ _ _ _ Hrun Hcl) as Hrun1.
  pose proof (pool_run_ok perform_io _ _ _ _ (spawned_ok perform_io n n pgr Hn) Hrun1) as Hok1.
  destruct (wait_rounds_returns perform_io (fun p => idle (dManager p)) io_ok perform_io_ends pgr js (work (set_closed true w)) (set_closed true w, pgr1))
    as (k & [w2 pgr2] & Hw & Hks & Hd); [done|done|done|done|done|].
  pose proof (worker_steps_ok _ _ _ _ _ _ Hks Hok1) as Hok2. pose proof (worker_steps_work _ _ _ _ Hks) as [_ Hc2]. cbn [fst] in *.
  exists w2, pgr2. split; [unfold shutdown; cbn [fst snd]; by rewrite Hq, Hcl|]. split; [done|].
  destruct (stuck_done perform_io (fun p => idle (dManager p)) io_ok perform_io_ends pgr js (w2, pgr2) Hok2 Hjs Hid Hc2) as [_ Hperm].
  { intros i. cbn [worker_step]. destruct (w_pool w2 !! i) as [x|] eqn:Hi; [|done]. apply Is_true_true_2, forallb_True in Hd.
    rewrite Forall_lookup in Hd. specialize (Hd _ _ Hi). by destruct x. }
  split; [done|]. split; [apply Hok2|]. split; [intros j; destruct (wk_queue _ _ _ _ Hok2) as [q2 Hq2]; by eapply send_closed|].
  intros k' c' Hk'. apply worker_steps_work in Hk' as [Hle _]. cbn [fst] in Hle. change (work (set_closed true w)) with (work w) in Hle. lia.
Qed.

Module WorkersSample.

Definition pgr0 : Pager := mkPager (mkFreeList 0 [] false []) (mkDisk [] ∅) 0 0 0.
Definition w2 : workerpool IOJob := spawn 2 (new_workers 2).

(** Two writes are accepted, of which one is under way when the pool is shut down. *)
Definition job1 : IOJob := mkJob 128 (replicate DM_PAGE 1) 1.
Definition job2 : IOJob := mkJob 128 (replicate DM_PAGE 2) 2.
Definition sent : workerpool IOJob := set_worker 1 (WBusy job1) (set_jobQ (Some [job2]) w2).

Lemma sent_run : pool_run perform_io (w2, pgr0) [job1; job2] (sent, pgr0).
Proof.
  eapply (pr_work _ _ _ (set_jobQ (Some [job1; job2]) w2, pgr0) 1); [|reflexivity].
  eapply (pr_send _ _ [job1] (set_jobQ (Some [job1]) w2)); [|reflexivity].
  eapply (pr_send _ _ [] w2); [apply pr_init|reflexivity].
Qed.

Lemma pager_shutdown_witness : exists w pgr, shutdown perform_io (sent, pgr0) = (Val tt, (w, pgr)) /\ all_done w = true /\ w_done w ≡ₚ [job1; job2] /\
    foldl (fun o j => p ← o; perform_io j p) (Some pgr0) (w_done w) = Some pgr /\
    (forall j, send_job j w = (Panic "send on closed channel", w)) /\
    forall k c, worker_steps perform_io k (set_closed true sent, pgr0) c -> (k <= 5)%nat.
Proof.
  apply (pager_shutdown 2 w2 pgr0 [job1; job2] sent pgr0); [reflexivity|lia| |exact sent_run|reflexivity|].
  - intros off. unfold queue_of. cbn. by rewrite lookup_empty.
  - repeat (apply Forall_cons; split; [split; [unfold addressable, MAX_PAGE; cbn [j_pageId job1 job2]; lia|apply length_replicate]|]). apply Forall_nil; exact I.
Defined.

End WorkersSample.
