(* ===== verification/TinyLFU.v ===== *)
(** * The admission filter ([internal/tinylfu])

    A Bloom filter (the doorkeeper) in front of a count-min sketch.  The 64-bit
    hash is the one of a package outside the repository ([cespare/xxhash]), so it
    is a parameter of the definitions; nothing is assumed of it but that it
    returns a 64-bit value, which [u64] makes explicit.  [NewCMS] computes the
    width and depth of the sketch in floating point; here they are its arguments, and
    [Sizing] has the computation. *)

From S2P Require Import Prelude Keys Helpers.
Local Open Scope Z_scope.

Definition SAMPLE_SIZE : Z := 800000.

(** Conversion to [int64]. *)
Definition i64 (z : Z) : Z := (z + 2 ^ 63) mod 2 ^ 64 - 2 ^ 63.

Section Hash.
Context (Sum64 : bytes -> Z).

(** The two hashes; the second one is made odd. *)
Definition hash1 (data : bytes) : Z := u64 (Sum64 data).
Definition hash2 (data : bytes) : Z :=
  let h2 := u64 (Sum64 (data ++ [1])) in
  if h2 mod 2 =? 0 then u64 (h2 + 1) else h2.

Definition index_of (data : bytes) (m : Z) (i : nat) : Z :=
  u64 (hash1 data + u64 (Z.of_nat i * hash2 data)) mod m.

(** A modulus of 0 panics unless there is nothing to compute. *)
Definition DoubleHashIndices (data : bytes) (k : nat) (m : Z) : outcome (list Z) :=
  if (m =? 0) && negb (k =? 0)%nat then Panic "integer divide by zero"
  else Val (index_of data m <$> seq 0 k).

(** ** The doorkeeper ([doorkeeper.go]) *)

Record Bloom := mkBloom { b_m : Z; b_k : nat; bitArray : list Z }.

Definition NewDoorkeeper (m k : Z) : outcome Bloom :=
  if k =? 0 then Err (mkError TinyLFUError "At least one hash function required. Hash function count is zero")
  else if m =? 0 then Err (mkError TinyLFUError "size of bit array cannot be zero")
  else if negb (m mod 8 =? 0) then Err (mkError TinyLFUError "Size of bit array must be a multiple of 8")
  else Val (mkBloom m (Z.to_nat k) (replicate (Z.to_nat (u64 (m + 7) / 8)) 0)).

(** The mask of bit [p] within its byte [l], counted from the left. *)
Definition bit_mask_of (p : Z) : Z :=
  let l := p / 8 in
  let maskPos := u64 (8 * (l + 1) - (p + 1)) in
  u8 (Z.shiftl 1 (u8 maskPos)).

(** The masks of all positions collected; [len] is the length of [bitArray]. *)
Fixpoint mask_arr (len : Z) (pos : list Z) (maskArr : list Z) : outcome (list Z) :=
  match pos with
  | [] => Val maskArr
  | p :: pos =>
      let l := p / 8 in
      if l >=? len then Err (mkError GoError "Invalid index")
      else match maskArr !! Z.to_nat l with
      | None => Panic "index out of range"
      | Some x => mask_arr len pos (<[Z.to_nat l := Z.lor x (bit_mask_of p)]> maskArr)
      end
  end.

Definition setBit (pos : list Z) : M Bloom unit :=
  b ← get_state;
  let n := Z.to_nat (b_m b / 8) in
  maskArr ← lift_outcome (mask_arr (Z.of_nat (length (bitArray b))) pos (replicate n 0));
  if (length (bitArray b) <? n)%nat then panic "index out of range"
  else put_state (mkBloom (b_m b) (b_k b) (zip_with Z.lor (take n (bitArray b)) maskArr ++ drop n (bitArray b))).

Definition unsetBit (pos : Z) : M Bloom unit :=
  b ← get_state;
  let l := pos / 8 in
  if l >=? Z.of_nat (length (bitArray b)) then fail GoError "Invalid index"
  else
    x ← index_at (bitArray b) l;
    put_state (mkBloom (b_m b) (b_k b) (<[Z.to_nat l := Z.land x (Z.lxor (bit_mask_of pos) 255)]> (bitArray b))).

Definition isSet (pos : Z) : M Bloom bool :=
  b ← get_state;
  let l := pos / 8 in
  if l >=? Z.of_nat (length (bitArray b)) then fail GoError "Invalid index"
  else
    x ← index_at (bitArray b) l;
    mret (Z.land x (bit_mask_of pos) >? 0).

Definition bloom_Add (data : bytes) : M Bloom unit :=
  b ← get_state;
  indices ← lift_outcome (DoubleHashIndices data (b_k b) (b_m b));
  setBit indices.

Fixpoint check_bits (indices : list Z) : M Bloom bool :=
  match indices with
  | [] => mret true
  | v :: vs =>
      set ← or_panic (isSet v);
      rest ← check_bits vs;
      mret (if set : bool then rest else false)
  end.

Definition bloom_Check (data : bytes) : M Bloom bool :=
  b ← get_state;
  indices ← lift_outcome (DoubleHashIndices data (b_k b) (b_m b));
  check_bits indices.

Definition bloom_Clear : M Bloom unit :=
  modify (fun b => mkBloom (b_m b) (b_k b) ((fun x => Z.land x 0) <$> bitArray b)).

(** ** The sketch ([count-min-sketch.go]) *)

Record CMS := mkCMS { c_k : nat; c_width : Z; c_arr : list (list Z); op_counter : Z }.

Definition NewCMS (w : Z) (d : nat) : CMS := mkCMS d w (replicate d (replicate (Z.to_nat w) 0)) 0.

(** [c.arr[i][v] += 1], row by row. *)
Fixpoint incr_rows (arr : list (list Z)) (indices : list Z) : outcome (list (list Z)) :=
  match indices, arr with
  | [], _ => Val arr
  | _ :: _, [] => Panic "index out of range"
  | v :: vs, row :: rows =>
      match row !! Z.to_nat v with
      | None => Panic "index out of range"
      | Some x =>
          match incr_rows rows vs with
          | Val rows' => Val (<[Z.to_nat v := u64 (x + 1)]> row :: rows')
          | o => o
          end
      end
  end.

Definition Increment (key : bytes) : M CMS Z :=
  c ← get_state;
  indices ← lift_outcome (DoubleHashIndices key (c_k c) (c_width c));
  arr ← lift_outcome (incr_rows (c_arr c) indices);
  put_state (mkCMS (c_k c) (c_width c) arr (u64 (op_counter c + 1)));;
  mret (u64 (op_counter c + 1)).

(** The smallest count so far, [None] for the nil pointer. *)
Fixpoint min_rows (arr : list (list Z)) (indices : list Z) (count : option Z) : outcome (option Z) :=
  match indices, arr with
  | [], _ => Val count
  | _ :: _, [] => Panic "index out of range"
  | v :: vs, row :: rows =>
      match row !! Z.to_nat v with
      | None => Panic "index out of range"
      | Some x =>
          min_rows rows vs (match count with
            | Some n => Some (if n >? x then x else n)
            | None => Some x
            end)
      end
  end.

Definition GetCount (key : bytes) : M CMS Z :=
  c ← get_state;
  indices ← lift_outcome (DoubleHashIndices key (c_k c) (c_width c));
  count ← lift_outcome (min_rows (c_arr c) indices None);
  match count with
  | Some n => mret (i64 n)
  | None => panic "invalid memory address or nil pointer dereference"
  end.

Definition cms_reset : M CMS unit :=
  modify (fun c => mkCMS (c_k c) (c_width c) (map (map (fun n => if n >? 0 then n / 2 else n)) (c_arr c)) 0).

(** ** The filter ([tinylfu.go]) *)

Record TinyLFU := mkTinyLFU { Doorkeeper : Bloom; MainStruct : CMS }.

Definition onBloom {A} (m : M Bloom A) : M TinyLFU A := zoom Doorkeeper (fun b t => mkTinyLFU b (MainStruct t)) m.
Definition onCMS {A} (m : M CMS A) : M TinyLFU A := zoom MainStruct (fun c t => mkTinyLFU (Doorkeeper t) c) m.

Definition IncrementItem (data : bytes) : M TinyLFU unit :=
  if (length data =? 0)%nat then fail TinyLFUError "Invalid/empty data bytes provided"
  else
    mayExist ← onBloom (bloom_Check data);
    if negb mayExist then ignore (onBloom (bloom_Add data))
    else
      opCount ← onCMS (Increment data);
      if opCount >=? SAMPLE_SIZE then onCMS cms_reset;; onBloom bloom_Clear else mret tt.

Definition CheckItemCount (data : bytes) : M TinyLFU Z := onCMS (GetCount data).

Definition NewTinyLFU (m k w : Z) (d : nat) : outcome TinyLFU :=
  match NewDoorkeeper m k with
  | Val b => Val (mkTinyLFU b (NewCMS w d))
  | Err e => Err e
  | Panic s => Panic s
  | _ => Blocked
  end.

End Hash.
