(* ===== verification/TinyLFUTheorems.v ===== *)
(** * Properties of the admission filter

    The doorkeeper has no false negatives, the sketch never underestimates, and
    together they count every access of an item but the first. *)

From S2P Require Import Prelude Keys Helpers TinyLFU.
Local Open Scope Z_scope.

(** ** Bits of an array of bytes *)

(** Bit [p], counted from the left within its byte. *)
Definition bit_at (l : list Z) (p : Z) : bool := Z.testbit (default 0 (l !! Z.to_nat (p / 8))) (7 - p mod 8).

Lemma bit_mask_eq p : 0 <= p < 2 ^ 63 -> bit_mask_of p = 2 ^ (7 - p mod 8).
Proof.
  intros Hp. unfold bit_mask_of. rewrite u64_small by (Z.to_euclidean_division_equations; lia).
  replace (8 * (p / 8 + 1) - (p + 1)) with (7 - p mod 8) by (Z.to_euclidean_division_equations; lia).
  apply bit_mask. Z.to_euclidean_division_equations; lia.
Qed.

Lemma bit_at_or l p q x : 0 <= p < 2 ^ 63 -> 0 <= q -> l !! Z.to_nat (p / 8) = Some x -> 0 <= x ->
  bit_at (<[Z.to_nat (p / 8) := Z.lor x (bit_mask_of p)]> l) q = bit_at l q || (q =? p).
Proof.
  intros Hp Hq Hx Hx0. unfold bit_at. rewrite bit_mask_eq by done.
  destruct (decide (q / 8 = p / 8)) as [E|E].
  - rewrite E, list_lookup_insert_eq, Hx by (by eapply lookup_lt_Some). cbn. rewrite Z.lor_spec. f_equal.
    rewrite Z.pow2_bits_eqb by (Z.to_euclidean_division_equations; lia).
    destruct (Z.eqb_spec q p) as [->|Hne]; [apply Z.eqb_refl|]. apply Z.eqb_neq. Z.to_euclidean_division_equations; lia.
  - rewrite list_lookup_insert_ne by (intros H; apply E; Z.to_euclidean_division_equations; lia).
    destruct (Z.eqb_spec q p) as [->|]; [done|]. by rewrite orb_false_r.
Qed.

Definition nonneg (l : list Z) : Prop := Forall (fun x => 0 <= x) l.

Lemma bit_mask_nonneg p : 0 <= bit_mask_of p.
Proof. apply Z.mod_pos_bound. lia. Qed.

(** The collected mask has exactly the given bits. *)
Lemma mask_arr_spec (n : nat) pos : forall l, length l = n -> nonneg l -> Forall (fun p => 0 <= p < 8 * Z.of_nat n /\ p < 2 ^ 63) pos ->
  exists l', mask_arr (Z.of_nat n) pos l = Val l' /\ length l' = n /\ nonneg l' /\
    forall q, 0 <= q -> bit_at l' q = bit_at l q || bool_decide (q ∈ pos).
Proof.
  induction pos as [|p pos IH]; intros l Hl Hn Hf; cbn [mask_arr].
  - exists l. split_and!; try done. intros q _. rewrite bool_decide_eq_false_2 by apply not_elem_of_nil. by rewrite orb_false_r.
  - apply Forall_cons in Hf as [[Hp Hp63] Hf].
    assert (0 <= p / 8 < Z.of_nat n) as Hpd by (Z.to_euclidean_division_equations; lia).
    rewrite Z.geb_leb, (proj2 (Z.leb_gt _ _)) by lia.
    destruct (lookup_lt_is_Some_2 l (Z.to_nat (p / 8))) as [x Hx]; [lia|]. rewrite Hx.
    assert (0 <= x) as Hx0 by (unfold nonneg in Hn; rewrite Forall_forall in Hn; apply Hn; apply list_elem_of_lookup; eauto).
    destruct (IH (<[Z.to_nat (p / 8) := Z.lor x (bit_mask_of p)]> l)) as (l' & He & Hl' & Hn' & Hb); try done.
    { by rewrite length_insert. }
    { apply Forall_insert; [done|]. apply Z.lor_nonneg. split; [done|apply bit_mask_nonneg]. }
    exists l'. split_and!; try done. intros q Hq. rewrite Hb by done. rewrite bit_at_or by (done || lia).
    rewrite <- orb_assoc. f_equal. destruct (Z.eqb_spec q p) as [->|Hne]; cbn [orb].
    + symmetry. apply bool_decide_eq_true_2. by left.
    + apply bool_decide_ext. rewrite elem_of_cons. naive_solver.
Qed.

Lemma bit_at_zip l1 l2 q : length l1 = length l2 -> bit_at (zip_with Z.lor l1 l2) q = bit_at l1 q || bit_at l2 q.
Proof.
  intros Hl. unfold bit_at. rewrite lookup_zip_with.
  destruct (l1 !! Z.to_nat (q / 8)) as [x|] eqn:E1; cbn.
  - destruct (lookup_lt_is_Some_2 l2 (Z.to_nat (q / 8))) as [y Hy]; [rewrite <- Hl; by eapply lookup_lt_Some|].
    rewrite Hy. cbn. apply Z.lor_spec.
  - rewrite (proj2 (lookup_ge_None l2 _)); [cbn; by rewrite Z.bits_0|]. rewrite <- Hl. by apply lookup_ge_None.
Qed.

(** ** The doorkeeper *)

(** A filter of [m] bits in [m/8] bytes. *)
Record bloom_ok (b : Bloom) : Prop := {
  bo_k : b_k b <> 0%nat;
  bo_m : b_m b = 8 * Z.of_nat (length (bitArray b));
  bo_range : 0 < b_m b < 2 ^ 63;
  bo_nonneg : nonneg (bitArray b) }.

Section Bloom.
Context (Sum64 : bytes -> Z).

Lemma index_range data m i : 0 < m -> 0 <= index_of Sum64 data m i < m.
Proof. intros. by apply Z.mod_pos_bound. Qed.

Definition indices (data : bytes) (k : nat) (m : Z) : list Z := index_of Sum64 data m <$> seq 0 k.

Lemma indices_ok data k m : 0 < m -> DoubleHashIndices Sum64 data k m = Val (indices data k m) /\ Forall (fun p => 0 <= p < m) (indices data k m).
Proof.
  intros Hm. split.
  - unfold DoubleHashIndices. rewrite (proj2 (Z.eqb_neq m 0)) by lia. done.
  - apply Forall_fmap, Forall_forall. intros i _. by apply index_range.
Qed.

(** The bits of an item. *)
Definition member (b : Bloom) (data : bytes) : Prop := Forall (fun p => bit_at (bitArray b) p = true) (indices data (b_k b) (b_m b)).

Lemma bloom_Add_spec b data : bloom_ok b -> exists b', bloom_Add Sum64 data b = (Val tt, b') /\ bloom_ok b' /\
  b_k b' = b_k b /\ b_m b' = b_m b /\ forall q, 0 <= q -> bit_at (bitArray b') q = bit_at (bitArray b) q || bool_decide (q ∈ indices data (b_k b) (b_m b)).
Proof.
  intros [Hk Hm Hr Hn]. destruct (indices_ok data (b_k b) (b_m b)) as [Hi Hf]; [lia|].
  destruct (mask_arr_spec (length (bitArray b)) (indices data (b_k b) (b_m b)) (replicate (length (bitArray b)) 0)) as (l' & He & Hl' & Hn' & Hb).
  { apply length_replicate. }
  { by apply Forall_replicate. }
  { eapply Forall_impl; [exact Hf|]. cbn. lia. }
  eexists. split.
  { unfold bloom_Add, setBit, mbind, M_bind, get_state, lift_outcome. rewrite Hi.
    replace (Z.to_nat (b_m b / 8)) with (length (bitArray b)) by (rewrite Hm; Z.to_euclidean_division_equations; lia).
    rewrite He, Nat.ltb_irrefl. unfold put_state. reflexivity. }
  rewrite firstn_all, drop_all, app_nil_r. split_and!; [|done|done|].
  - split; cbn; rewrite ?length_zip_with, ?Hl', ?Nat.min_id; try done. unfold nonneg in *. rewrite Forall_forall in *.
    intros x (y & z & -> & Hy & Hz)%elem_of_zip_with. apply Z.lor_nonneg. auto.
  - intros q Hq. cbn. rewrite bit_at_zip by done. rewrite Hb by done. f_equal.
    assert (bit_at (replicate (length (bitArray b)) 0) q = false) as ->; [|done]. unfold bit_at.
    destruct (replicate _ 0 !! _) as [x|] eqn:E; [|apply Z.bits_0]. apply lookup_replicate in E as [-> _]. apply Z.bits_0.
Qed.

Lemma isSet_spec b p : bloom_ok b -> 0 <= p < b_m b -> isSet p b = (Val (bit_at (bitArray b) p), b).
Proof.
  intros [Hk Hm Hr Hn] Hp. unfold isSet, mbind, M_bind, get_state.
  assert (0 <= p / 8 < Z.of_nat (length (bitArray b))) as Hpd by (Z.to_euclidean_division_equations; lia).
  rewrite Z.geb_leb, (proj2 (Z.leb_gt _ _)) by lia. unfold index_at. rewrite (proj2 (Z.ltb_ge _ _)) by lia.
  destruct (lookup_lt_is_Some_2 (bitArray b) (Z.to_nat (p / 8))) as [x Hx]; [lia|]. rewrite Hx. unfold mret, M_ret.
  unfold bit_at. rewrite Hx. cbn. rewrite bit_mask_eq by lia. rewrite land_pow2_gt; [done| |Z.to_euclidean_division_equations; lia].
  unfold nonneg in Hn. rewrite Forall_forall in Hn. apply Hn, list_elem_of_lookup. eauto.
Qed.

Lemma check_bits_spec b vs : bloom_ok b -> Forall (fun p => 0 <= p < b_m b) vs ->
  check_bits vs b = (Val (forallb (bit_at (bitArray b)) vs), b).
Proof.
  intros Hb. induction vs as [|v vs IH]; intros Hf; [done|]. apply Forall_cons in Hf as [Hv Hf].
  cbn [check_bits forallb]. rewrite (bind_Val _ _ _ (bit_at (bitArray b) v) b).
  - rewrite (bind_Val _ _ _ _ _ (IH Hf)). by destruct (bit_at (bitArray b) v).
  - unfold or_panic, catch, mbind, M_bind. by rewrite isSet_spec.
Qed.

Lemma bloom_Check_spec b data : bloom_ok b ->
  exists r, bloom_Check Sum64 data b = (Val r, b) /\ (r = true <-> member b data).
Proof.
  intros Hb. pose proof Hb as [_ _ Hr _]. destruct (indices_ok data (b_k b) (b_m b)) as [Hi Hf]; [lia|].
  eexists. split.
  - unfold bloom_Check, mbind, M_bind, get_state, lift_outcome. rewrite Hi. by apply check_bits_spec.
  - unfold member. rewrite forallb_forall, List.Forall_forall. done.
Qed.

Lemma member_added b b' data x : bloom_ok b -> b_k b' = b_k b -> b_m b' = b_m b ->
  (forall q, 0 <= q -> bit_at (bitArray b') q = bit_at (bitArray b) q || bool_decide (q ∈ indices data (b_k b) (b_m b))) ->
  x = data \/ member b x -> member b' x.
Proof.
  intros [_ _ Hr _] Hk Hm Hbits Hx. unfold member. rewrite Hk, Hm. apply Forall_forall. intros q Hq.
  destruct (indices_ok x (b_k b) (b_m b)) as [_ Hf]; [lia|]. rewrite Forall_forall in Hf. rewrite Hbits by (by apply Hf).
  destruct Hx as [->|Hx]; [rewrite bool_decide_eq_true_2 by done; apply orb_true_r|].
  unfold member in Hx. rewrite Forall_forall in Hx. by rewrite Hx.
Qed.

Lemma NewDoorkeeper_ok m k b : NewDoorkeeper m k = Val b -> 0 < m < 2 ^ 63 -> 0 < k -> bloom_ok b.
Proof.
  intros H Hm Hk. unfold NewDoorkeeper in H. rewrite (proj2 (Z.eqb_neq k 0)), (proj2 (Z.eqb_neq m 0)) in H by lia.
  destruct (Z.eqb_spec (m mod 8) 0) as [E|]; [|done]. cbn [negb] in H. injection H as <-.
  split; cbn; [lia| |lia|by apply Forall_replicate].
  rewrite length_replicate, u64_small by lia. Z.to_euclidean_division_equations; lia.
Qed.

End Bloom.

(** ** The sketch *)

Section Sketch.
Context (Sum64 : bytes -> Z).
Local Abbreviation index := (index_of Sum64).

(** How often [x] is in the list. *)
Definition occ (x : bytes) (l : list bytes) : Z := Z.of_nat (length (filter (fun y => y = x) l)).

Lemma occ_snoc x l y : occ x (l ++ [y]) = occ x l + if decide (y = x) then 1 else 0.
Proof. unfold occ. rewrite filter_app, length_app. rewrite filter_cons. case_decide; cbn; lia. Qed.

Lemma occ_le x l : 0 <= occ x l <= Z.of_nat (length l).
Proof. unfold occ. pose proof (length_filter (fun y => y = x) l). lia. Qed.

(** Row [i] of a sketch of the items [l]: the counter of an item is at least its
    number of occurrences and at most the number of all items. *)
Definition row_ok (w : Z) (l : list bytes) (i : nat) (row : list Z) : Prop :=
  length row = Z.to_nat w /\
  forall x c, row !! Z.to_nat (index x w i) = Some c -> occ x l <= c <= Z.of_nat (length l).

Record cms_ok (l : list bytes) (c : CMS) : Prop := {
  co_k : c_k c <> 0%nat;
  co_width : 0 < c_width c;
  co_rows : length (c_arr c) = c_k c;
  co_row : forall i row, c_arr c !! i = Some row -> row_ok (c_width c) l i row;
  co_ops : op_counter c = Z.of_nat (length l) }.

Lemma row_ok_incr w l i row key c : 0 < w -> Z.of_nat (length l) + 1 < 2 ^ 63 -> row_ok w l i row ->
  row !! Z.to_nat (index key w i) = Some c -> row_ok w (l ++ [key]) i (<[Z.to_nat (index key w i) := u64 (c + 1)]> row).
Proof.
  intros Hw Hlen [Hl Hrow] Hc. split; [by rewrite length_insert|]. intros x d Hd. rewrite occ_snoc, length_app. cbn [length].
  pose proof (Hrow key c Hc) as Hkey. pose proof (occ_le key l). pose proof (occ_le x l).
  destruct (decide (Z.to_nat (index x w i) = Z.to_nat (index key w i))) as [E|E].
  - rewrite E, list_lookup_insert_eq in Hd by (by eapply lookup_lt_Some). injection Hd as <-. rewrite u64_small by lia.
    rewrite <- E in Hc. pose proof (Hrow x c Hc). case_decide; lia.
  - rewrite list_lookup_insert_ne in Hd by done. pose proof (Hrow x d Hd). rewrite decide_False by (intros ->; done). lia.
Qed.

Lemma incr_rows_spec w l key k : 0 < w -> Z.of_nat (length l) + 1 < 2 ^ 63 -> forall (i : nat) arr,
  length arr = k -> (forall j row, arr !! j = Some row -> row_ok w l (i + j) row) ->
  exists arr', incr_rows arr (index key w <$> seq i k) = Val arr' /\ length arr' = k /\
    forall j row, arr' !! j = Some row -> row_ok w (l ++ [key]) (i + j) row.
Proof.
  intros Hw Hlen. induction k as [|k IH]; intros i arr Hl Hrows.
  - destruct arr; [|done]. exists []. split_and!; done.
  - destruct arr as [|row arr]; [done|]. cbn [seq fmap list_fmap incr_rows].
    pose proof (Hrows 0%nat row eq_refl) as Hrow. rewrite Nat.add_0_r in Hrow. pose proof Hrow as [Hlr _].
    pose proof (index_range Sum64 key w i Hw).
    destruct (lookup_lt_is_Some_2 row (Z.to_nat (index key w i))) as [c Hc]; [lia|]. rewrite Hc.
    destruct (IH (S i) arr) as (arr' & He & Hl' & Hr'); [cbn in Hl; lia| |].
    { intros j r Hj. rewrite Nat.add_succ_l, <- Nat.add_succ_r. by apply Hrows. }
    rewrite He. eexists. split; [reflexivity|]. split; [cbn; lia|]. intros [|j] r Hj; cbn in Hj.
    + injection Hj as <-. rewrite Nat.add_0_r. by apply row_ok_incr.
    + rewrite Nat.add_succ_r, <- Nat.add_succ_l. by apply Hr'.
Qed.

Lemma Increment_spec l c key : cms_ok l c -> Z.of_nat (length l) + 1 < 2 ^ 63 ->
  exists c', Increment Sum64 key c = (Val (Z.of_nat (length l) + 1), c') /\ cms_ok (l ++ [key]) c'.
Proof.
  intros [Hk Hw Hr Hrow Ho] Hlen. destruct (indices_ok Sum64 key (c_k c) (c_width c) Hw) as [Hi _].
  destruct (incr_rows_spec (c_width c) l key (c_k c) Hw Hlen 0 (c_arr c) Hr Hrow) as (arr' & He & Hl' & Hr').
  eexists. split.
  - unfold Increment, mbind, M_bind, get_state, lift_outcome. rewrite Hi. fold (indices Sum64 key (c_k c) (c_width c)) in He.
    unfold indices in *. rewrite He. unfold put_state, mret, M_ret. rewrite Ho, u64_small by lia. reflexivity.
  - split; cbn; try done. rewrite length_app. cbn. lia.
Qed.

Lemma min_rows_spec w l key k : 0 < w -> forall (i : nat) arr count,
  length arr = k -> (forall j row, arr !! j = Some row -> row_ok w l (i + j) row) ->
  (match count with Some n => occ key l <= n <= Z.of_nat (length l) | None => k <> 0%nat end) ->
  exists n, min_rows arr (index key w <$> seq i k) count = Val (Some n) /\ occ key l <= n <= Z.of_nat (length l).
Proof.
  intros Hw. induction k as [|k IH]; intros i arr count Hl Hrows Hcount.
  - destruct count as [n|]; [|done]. exists n. by destruct arr.
  - destruct arr as [|row arr]; [done|]. cbn [seq fmap list_fmap min_rows].
    pose proof (Hrows 0%nat row eq_refl) as [Hlr Hrow]. rewrite Nat.add_0_r in Hrow.
    pose proof (index_range Sum64 key w i Hw).
    destruct (lookup_lt_is_Some_2 row (Z.to_nat (index key w i))) as [c Hc]; [lia|]. rewrite Hc.
    pose proof (Hrow key c Hc) as Hb. apply IH; [cbn in Hl; lia| |].
    + intros j r Hj. rewrite Nat.add_succ_l, <- Nat.add_succ_r. by apply Hrows.
    + destruct count as [n|]; [destruct (n >? c); lia|lia].
Qed.

Lemma GetCount_spec l c key : cms_ok l c -> Z.of_nat (length l) < 2 ^ 63 ->
  exists n, GetCount Sum64 key c = (Val n, c) /\ occ key l <= n <= Z.of_nat (length l).
Proof.
  intros [Hk Hw Hr Hrow Ho] Hlen. destruct (indices_ok Sum64 key (c_k c) (c_width c) Hw) as [Hi _].
  destruct (min_rows_spec (c_width c) l key (c_k c) Hw 0 (c_arr c) None Hr Hrow Hk) as (n & He & Hn).
  exists n. split; [|done]. pose proof (occ_le key l).
  unfold GetCount, mbind, M_bind, get_state, lift_outcome. rewrite Hi. unfold indices. rewrite He. unfold mret, M_ret.
  do 2 f_equal. unfold i64. rewrite Z.mod_small; lia.
Qed.

Lemma NewCMS_ok w d : 0 < w -> d <> 0%nat -> cms_ok [] (NewCMS w d).
Proof.
  intros Hw Hd. split; cbn; try done; [apply length_replicate|]. intros i row Hrow. apply lookup_replicate in Hrow as [-> _].
  split; [apply length_replicate|]. intros x c Hc. apply lookup_replicate in Hc as [-> _]. done.
Qed.

(** ** The whole filter *)

(** After the accesses [xs], of which [l] were counted in the sketch: each item
    accessed is in the doorkeeper and misses at most one access in [l]. *)
Record lfu_ok (xs l : list bytes) (t : TinyLFU) : Prop := {
  lo_bloom : bloom_ok (Doorkeeper t);
  lo_cms : cms_ok l (MainStruct t);
  lo_len : (length l <= length xs)%nat;
  lo_member : forall x, x ∈ xs -> member Sum64 (Doorkeeper t) x;
  lo_count : forall x, occ x xs <= occ x l + 1 }.

Lemma occ_absent x l : x ∉ l -> occ x l = 0.
Proof.
  intros Hx. induction l as [|y l IH] using rev_ind; [done|]. rewrite occ_snoc, IH by set_solver.
  rewrite decide_False; [done|]. intros ->. set_solver.
Qed.

Lemma IncrementItem_spec xs l t x : lfu_ok xs l t -> x <> [] -> Z.of_nat (length xs) + 1 < SAMPLE_SIZE ->
  exists l' t', IncrementItem Sum64 x t = (Val tt, t') /\ lfu_ok (xs ++ [x]) l' t'.
Proof.
  intros [Hb Hc Hlen Hm Hcnt] Hx Hs. unfold SAMPLE_SIZE in Hs. destruct t as [b c]. cbn [Doorkeeper MainStruct] in *.
  unfold IncrementItem. rewrite (proj2 (Nat.eqb_neq _ _)) by (destruct x; cbn; [done|lia]).
  destruct (bloom_Check_spec Sum64 b x Hb) as (r & Hchk & Hr).
  rewrite (bind_Val _ _ _ r (mkTinyLFU b c)) by (unfold onBloom, zoom; cbn [Doorkeeper]; by rewrite Hchk).
  destruct r; cbn [negb].
  - destruct (Increment_spec l c x Hc ltac:(lia)) as (c' & Hinc & Hc'). exists (l ++ [x]), (mkTinyLFU b c'). split.
    + rewrite (bind_Val _ _ _ (Z.of_nat (length l) + 1) (mkTinyLFU b c')) by (unfold onCMS, zoom; cbn [MainStruct]; by rewrite Hinc).
      unfold SAMPLE_SIZE. rewrite Z.geb_leb, (proj2 (Z.leb_gt _ _)) by lia. done.
    + split; cbn; try done.
      * rewrite !length_app. cbn. lia.
      * intros y Hy. apply elem_of_app in Hy as [Hy|Hy]; [by apply Hm|]. apply list_elem_of_singleton in Hy as ->. by apply Hr.
      * intros y. rewrite !occ_snoc. specialize (Hcnt y). lia.
  - destruct (bloom_Add_spec Sum64 b x Hb) as (b' & Hadd & Hb' & Hk & Hmm & Hbits). exists l, (mkTinyLFU b' c). split.
    + unfold ignore, catch, mbind, M_bind, onBloom, zoom. cbn [Doorkeeper]. by rewrite Hadd.
    + split; cbn; try done.
      * rewrite length_app. cbn. lia.
      * intros y Hy. eapply (member_added Sum64 b b' x); [done|done|done|done|]. apply elem_of_app in Hy as [Hy|Hy]; [right; by apply Hm|].
        left. by apply list_elem_of_singleton in Hy.
      * intros y. rewrite occ_snoc. case_decide as E; [|specialize (Hcnt y); lia]. subst y.
        rewrite (occ_absent x xs); [pose proof (occ_le x l); lia|]. intros Hin. by apply Hm, Hr in Hin.
Qed.

(** A sequence of accesses. *)
Fixpoint access_all (xs : list bytes) : M TinyLFU unit :=
  match xs with
  | [] => mret tt
  | x :: xs => IncrementItem Sum64 x;; access_all xs
  end.

Lemma access_all_spec ys : forall xs l t, lfu_ok xs l t -> Forall (fun x => x <> []) ys -> Z.of_nat (length xs + length ys) < SAMPLE_SIZE ->
  exists l' t', access_all ys t = (Val tt, t') /\ lfu_ok (xs ++ ys) l' t'.
Proof.
  induction ys as [|y ys IH]; intros xs l t Hok Hf Hs.
  - exists l, t. rewrite app_nil_r. done.
  - apply Forall_cons in Hf as [Hy Hf]. cbn [length] in Hs.
    destruct (IncrementItem_spec xs l t y Hok Hy ltac:(lia)) as (l1 & t1 & H1 & Hok1).
    destruct (IH (xs ++ [y]) l1 t1 Hok1 Hf) as (l2 & t2 & H2 & Hok2); [rewrite length_app; cbn; lia|].
    exists l2, t2. rewrite <- app_assoc in Hok2. split; [|exact Hok2]. cbn [access_all]. by rewrite (bind_Val _ _ _ _ _ H1).
Qed.


Fixpoint add_all (xs : list bytes) : M Bloom unit :=
  match xs with
  | [] => mret tt
  | x :: xs => bloom_Add Sum64 x;; add_all xs
  end.

Lemma add_all_spec xs : forall b, bloom_ok b -> exists b', add_all xs b = (Val tt, b') /\ bloom_ok b' /\
  forall x, x ∈ xs \/ member Sum64 b x -> member Sum64 b' x.
Proof.
  induction xs as [|y xs IH]; intros b Hb.
  - exists b. split_and!; [done|done|]. intros x [Hx|Hx]; [by apply not_elem_of_nil in Hx|done].
  - destruct (bloom_Add_spec Sum64 b y Hb) as (b1 & Ha & Hb1 & Hk & Hm & Hbits). destruct (IH b1 Hb1) as (b2 & H2 & Hb2 & Hx2).
    exists b2. split_and!; [cbn [add_all]; by rewrite (bind_Val _ _ _ _ _ Ha)|done|]. intros x Hx. apply Hx2.
    rewrite elem_of_cons in Hx. destruct Hx as [[->|Hx]|Hx]; [right|by left|right]; (eapply (member_added Sum64 b b1 y); [done..|auto]).
Qed.

Fixpoint increment_all (xs : list bytes) : M CMS unit :=
  match xs with
  | [] => mret tt
  | x :: xs => Increment Sum64 x;; increment_all xs
  end.

Lemma increment_all_spec ys : forall l c, cms_ok l c -> Z.of_nat (length l + length ys) < 2 ^ 63 ->
  exists c', increment_all ys c = (Val tt, c') /\ cms_ok (l ++ ys) c'.
Proof.
  induction ys as [|y ys IH]; intros l c Hc Hs.
  - exists c. by rewrite app_nil_r.
  - cbn [length] in Hs. destruct (Increment_spec l c y Hc ltac:(lia)) as (c1 & H1 & Hc1).
    destruct (IH (l ++ [y]) c1 Hc1) as (c2 & H2 & Hc2); [rewrite length_app; cbn; lia|]. rewrite <- app_assoc in Hc2.
    exists c2. split; [|exact Hc2]. cbn [increment_all]. by rewrite (bind_Val _ _ _ _ _ H1).
Qed.

Lemma NewTinyLFU_ok m k w d t : NewTinyLFU m k w d = Val t -> 0 < m < 2 ^ 63 -> 0 < k -> 0 < w -> d <> 0%nat -> lfu_ok [] [] t.
Proof.
  intros H Hm Hk Hw Hd. unfold NewTinyLFU in H. destruct (NewDoorkeeper m k) as [b|?|?| |] eqn:E; try done. injection H as <-.
  split; cbn; [by eapply NewDoorkeeper_ok|by apply NewCMS_ok|done|intros x Hx; by apply not_elem_of_nil in Hx|done].
Qed.

(** Whatever the hash function, an item added to a new doorkeeper is reported
    present by [Check] from then on, however many other items are added before and
    after it. *)
Lemma doorkeeper_no_false_negatives m k b xs x :
  NewDoorkeeper m k = Val b -> 0 < m < 2 ^ 63 -> 0 < k -> x ∈ xs ->
  exists b', add_all xs b = (Val tt, b') /\ bloom_Check Sum64 x b' = (Val true, b').
Proof.
  intros H Hm Hk Hx. destruct (add_all_spec xs b) as (b' & Ha & Hb' & Hmem); [by eapply NewDoorkeeper_ok|].
  exists b'. split; [done|]. destruct (bloom_Check_spec Sum64 b' x Hb') as (r & Hc & Hr). rewrite Hc. do 2 f_equal. apply Hr, Hmem. by left.
Qed.

(** After any sequence of increments of a new sketch, [GetCount] of an item is
    at least the number of times it was incremented and at most the number of all
    increments. *)
Lemma sketch_bounds w d xs x : 0 < w -> d <> 0%nat -> Z.of_nat (length xs) < 2 ^ 63 ->
  exists c n, increment_all xs (NewCMS w d) = (Val tt, c) /\ GetCount Sum64 x c = (Val n, c) /\
    occ x xs <= n <= Z.of_nat (length xs).
Proof.
  intros Hw Hd Hs. destruct (increment_all_spec xs [] (NewCMS w d) (NewCMS_ok w d Hw Hd) Hs) as (c & Hi & Hc).
  destruct (GetCount_spec xs c x Hc Hs) as (n & Hg & Hn). by exists c, n.
Qed.

(** C24: after fewer than [SAMPLE_SIZE] accesses of a new filter, the count of an
    item is at least its number of accesses less one, the first one being kept in
    the doorkeeper, and at most the number of all accesses. *)
Theorem lfu_counts m k w d t xs x : NewTinyLFU m k w d = Val t -> 0 < m < 2 ^ 63 -> 0 < k -> 0 < w -> d <> 0%nat ->
  Forall (fun y => y <> []) xs -> Z.of_nat (length xs) < SAMPLE_SIZE ->
  exists t' n, access_all xs t = (Val tt, t') /\ CheckItemCount Sum64 x t' = (Val n, t') /\
    occ x xs - 1 <= n <= Z.of_nat (length xs).
Proof.
  intros H Hm Hk Hw Hd Hf Hs. pose proof (NewTinyLFU_ok m k w d t H Hm Hk Hw Hd) as Hok.
  destruct (access_all_spec xs [] [] t Hok Hf Hs) as (l & t' & Ha & [Hb Hc Hl Hmem Hcnt]). unfold SAMPLE_SIZE in Hs.
  destruct (GetCount_spec l (MainStruct t') x Hc) as (n & Hg & Hn); [cbn in Hl; lia|].
  exists t', n. split; [done|]. split; [|specialize (Hcnt x); cbn in *; lia].
  unfold CheckItemCount, onCMS, zoom. rewrite Hg. by destruct t'.
Qed.

(** The first access of an item to a new filter is not counted: [CheckItemCount]
    returns 0 although the item is in the doorkeeper. *)
Lemma first_access_uncounted m k w d t x : NewTinyLFU m k w d = Val t -> 0 < m < 2 ^ 63 -> 0 < k -> 0 < w -> d <> 0%nat ->
  x <> [] ->
  exists t', IncrementItem Sum64 x t = (Val tt, t') /\ (bloom_Check Sum64 x (Doorkeeper t')).1 = Val true /\
    CheckItemCount Sum64 x t' = (Val 0, t').
Proof.
  intros H Hm Hk Hw Hd Hx. pose proof (NewTinyLFU_ok m k w d t H Hm Hk Hw Hd) as [Hb Hc _ _ _]. destruct t as [b c]. cbn [Doorkeeper MainStruct] in *.
  assert (~ member Sum64 b x) as Hno.
  { unfold NewTinyLFU, NewDoorkeeper in H. repeat case_match; simplify_eq. intros Hmem. unfold member in Hmem. cbn in Hmem.
    destruct (Z.to_nat k) as [|k'] eqn:Ek; [lia|]. cbn [seq] in Hmem. unfold indices in Hmem. cbn [seq fmap list_fmap] in Hmem.
    apply Forall_cons in Hmem as [Hbit _]. unfold bit_at in Hbit.
    destruct (replicate _ 0 !! _) as [y|] eqn:E; [apply lookup_replicate in E as [-> _]|]; cbn in Hbit; by rewrite Z.bits_0 in Hbit. }
  destruct (bloom_Check_spec Sum64 b x Hb) as (r & Hchk & Hr). destruct r; [by apply proj1, (fun f => f eq_refl) in Hr|].
  destruct (bloom_Add_spec Sum64 b x Hb) as (b' & Hadd & Hb' & Hk' & Hmm & Hbits). exists (mkTinyLFU b' c). split_and!.
  - unfold IncrementItem. rewrite (proj2 (Nat.eqb_neq _ _)) by (destruct x; cbn; [done|lia]).
    rewrite (bind_Val _ _ _ false (mkTinyLFU b c)) by (unfold onBloom, zoom; cbn [Doorkeeper]; by rewrite Hchk).
    unfold ignore, catch, mbind, M_bind, onBloom, zoom. cbn. by rewrite Hadd.
  - cbn. destruct (bloom_Check_spec Sum64 b' x Hb') as (r & Hc2 & Hr2). rewrite Hc2. cbn. f_equal. apply Hr2.
    eapply (member_added Sum64 b b' x); [done..|by left].
  - destruct (GetCount_spec [] c x Hc) as (n & Hg & Hn); [done|]. unfold CheckItemCount, onCMS, zoom. cbn [MainStruct]. rewrite Hg.
    pose proof (occ_le x []). cbn [length] in *. replace n with 0 by lia. done.
Qed.

(** *** Without bounds on the number of accesses *)

(** The shape of a filter, whatever its counters: enough for every call to return. *)
Record filter_ok (t : TinyLFU) : Prop := {
  fo_bloom : bloom_ok (Doorkeeper t);
  fo_k : c_k (MainStruct t) <> 0%nat;
  fo_width : 0 < c_width (MainStruct t);
  fo_rows : length (c_arr (MainStruct t)) = c_k (MainStruct t);
  fo_row : Forall (fun row => length row = Z.to_nat (c_width (MainStruct t))) (c_arr (MainStruct t)) }.

Lemma incr_rows_total w key k : 0 < w -> forall (i : nat) arr,
  length arr = k -> Forall (fun row => length row = Z.to_nat w) arr ->
  exists arr', incr_rows arr (index key w <$> seq i k) = Val arr' /\ length arr' = k /\ Forall (fun row => length row = Z.to_nat w) arr'.
Proof.
  intros Hw. induction k as [|k IH]; intros i arr Hl Hrows.
  - destruct arr; [|done]. by exists [].
  - destruct arr as [|row arr]; [done|]. apply Forall_cons in Hrows as [Hrow Hrows]. cbn [seq fmap list_fmap incr_rows].
    pose proof (index_range Sum64 key w i Hw).
    destruct (lookup_lt_is_Some_2 row (Z.to_nat (index key w i))) as [c Hc]; [lia|]. rewrite Hc.
    destruct (IH (S i) arr) as (arr' & He & Hl' & Hr'); [cbn in Hl; lia|done|]. rewrite He.
    eexists. split; [reflexivity|]. split; [cbn; lia|]. constructor; [by rewrite length_insert|done].
Qed.

Lemma min_rows_total w key k : 0 < w -> forall (i : nat) arr count,
  length arr = k -> Forall (fun row => length row = Z.to_nat w) arr -> (count = None -> k <> 0%nat) ->
  exists n, min_rows arr (index key w <$> seq i k) count = Val (Some n).
Proof.
  intros Hw. induction k as [|k IH]; intros i arr count Hl Hrows Hcount.
  - destruct count as [n|]; [|by destruct Hcount]. exists n. by destruct arr.
  - destruct arr as [|row arr]; [done|]. apply Forall_cons in Hrows as [Hrow Hrows]. cbn [seq fmap list_fmap min_rows].
    pose proof (index_range Sum64 key w i Hw).
    destruct (lookup_lt_is_Some_2 row (Z.to_nat (index key w i))) as [c Hc]; [lia|]. rewrite Hc.
    apply IH; [cbn in Hl; lia|done|]. by destruct count.
Qed.

Lemma CheckItemCount_total t key : filter_ok t -> exists n, CheckItemCount Sum64 key t = (Val n, t).
Proof.
  intros [_ Hk Hw Hr Hrow]. destruct (indices_ok Sum64 key (c_k (MainStruct t)) _ Hw) as [Hi _].
  destruct (min_rows_total _ key _ Hw 0 _ None Hr Hrow (fun _ => Hk)) as (n & He). exists (i64 n).
  unfold CheckItemCount, onCMS, zoom, GetCount, mbind, M_bind, get_state, lift_outcome. rewrite Hi. unfold indices. rewrite He. by destruct t.
Qed.

Lemma bloom_Clear_ok b : bloom_ok b -> bloom_ok (bloom_Clear b).2.
Proof.
  intros [Hk Hm Hr Hn]. split; cbn; rewrite ?length_fmap; try done. apply Forall_fmap, Forall_forall. intros x _. cbn. by rewrite Z.land_0_r.
Qed.

Lemma IncrementItem_total t x : filter_ok t -> x <> [] -> exists t', IncrementItem Sum64 x t = (Val tt, t') /\ filter_ok t'.
Proof.
  intros [Hb Hk Hw Hr Hrow] Hx. destruct t as [b c]. cbn [Doorkeeper MainStruct] in *.
  unfold IncrementItem. rewrite (proj2 (Nat.eqb_neq _ _)) by (destruct x; cbn; [done|lia]).
  destruct (bloom_Check_spec Sum64 b x Hb) as (r & Hchk & _).
  rewrite (bind_Val _ _ _ r (mkTinyLFU b c)) by (unfold onBloom, zoom; cbn [Doorkeeper]; by rewrite Hchk). destruct r; cbn [negb].
  - destruct (indices_ok Sum64 x (c_k c) _ Hw) as [Hi _]. destruct (incr_rows_total _ x _ Hw 0 _ Hr Hrow) as (arr' & He & Hl' & Hr').
    set (c1 := mkCMS (c_k c) (c_width c) arr' (u64 (op_counter c + 1))).
    rewrite (bind_Val _ _ _ (u64 (op_counter c + 1)) (mkTinyLFU b c1)).
    2:{ unfold onCMS, zoom, Increment, mbind, M_bind, get_state, lift_outcome. cbn [MainStruct]. rewrite Hi. unfold indices. by rewrite He. }
    destruct (_ >=? SAMPLE_SIZE); eexists; (split; [reflexivity|]); split; cbn; try done.
    + by apply bloom_Clear_ok.
    + by rewrite length_map.
    + apply Forall_map. eapply Forall_impl; [exact Hr'|]. intros row Hl. cbn. by rewrite length_map.
  - destruct (bloom_Add_spec Sum64 b x Hb) as (b' & Hadd & Hb' & _). exists (mkTinyLFU b' c). split; [|by split].
    unfold ignore, catch, mbind, M_bind, onBloom, zoom. cbn [Doorkeeper]. by rewrite Hadd.
Qed.

Lemma NewTinyLFU_filter m k w d t : NewTinyLFU m k w d = Val t -> 0 < m < 2 ^ 63 -> 0 < k -> 0 < w -> d <> 0%nat -> filter_ok t.
Proof.
  intros H Hm Hk Hw Hd. destruct (NewTinyLFU_ok m k w d t H Hm Hk Hw Hd) as [Hb [H1 H2 H3 H4 _] _ _ _]. split; try done.
  apply Forall_lookup. intros i row Hrow. by destruct (H4 i row Hrow).
Qed.

End Sketch.

Module LFUSample.

(** A concrete hash: the sum of the bytes. *)
Definition sum (data : bytes) : Z := foldr Z.add 0 data.

Definition filter0 : TinyLFU := match NewTinyLFU 64 3 50 4 with Val t => t | _ => mkTinyLFU (mkBloom 0 0 []) (NewCMS 0 0) end.

Lemma doorkeeper_no_false_negatives_witness :
  exists b', add_all sum [[1]; [2]; [3]] (Doorkeeper filter0) = (Val tt, b') /\ bloom_Check sum [2] b' = (Val true, b').
Proof. apply (doorkeeper_no_false_negatives sum 64 3 (Doorkeeper filter0)); [reflexivity|lia|lia|set_solver]. Defined.

Lemma sketch_bounds_witness :
  exists c n, increment_all sum [[1]; [2]; [1]] (NewCMS 50 4) = (Val tt, c) /\ GetCount sum [1] c = (Val n, c) /\
    occ [1] [[1]; [2]; [1]] <= n <= 3.
Proof. apply (sketch_bounds sum 50 4 [[1]; [2]; [1]] [1]); [lia|lia|cbn; lia]. Defined.

Lemma lfu_counts_witness :
  exists t' n, access_all sum [[1]; [2]; [1]; [1]] filter0 = (Val tt, t') /\ CheckItemCount sum [1] t' = (Val n, t') /\
    occ [1] [[1]; [2]; [1]; [1]] - 1 <= n <= 4.
Proof.
  apply (lfu_counts sum 64 3 50 4 filter0 [[1]; [2]; [1]; [1]] [1]); [reflexivity|lia|lia|lia|lia|repeat constructor; done|reflexivity].
Defined.

Lemma first_access_uncounted_witness :
  exists t', IncrementItem sum [7] filter0 = (Val tt, t') /\ (bloom_Check sum [7] (Doorkeeper t')).1 = Val true /\
    CheckItemCount sum [7] t' = (Val 0, t').
Proof. apply (first_access_uncounted sum 64 3 50 4 filter0 [7]); [reflexivity|lia|lia|lia|lia|done]. Defined.

End LFUSample.
