(* ===== verification/Clock.v ===== *)
(** * Frames and the clock ([pkg/buffermanager/frame.go], [clock.go])

    A frame holds a page; an entry of the clock is a frame with its reference,
    access, eviction and segment marks and its pin counters.  The pool is a list of
    entries, an entry is named by its index.  [NewClock] points every frame's
    [parentEntry] at the frame's own entry and nothing points it elsewhere, so the
    pointer is the index.  Each operation holds the lock of the entry or of the
    clock throughout and is one step; the counters are 64 bits wide and grow by one
    per access, and are natural numbers here. *)

From S2P Require Import Prelude Keys Files Helpers Page.
Local Open Scope Z_scope.

Inductive SegmentType := unassigned | windowSegment | probationSegment | protectedSegment.

#[export] Instance segment_eq_dec : EqDecision SegmentType.
Proof. solve_decision. Defined.

Record Frame := mkFrame { f_page : Page; f_isInternal : bool; f_isDeleted : bool; f_dirty : bool; f_key : Z }.

Record clockentry := mkEntry {
  entry : Frame; ref : bool; acc : bool; reserved : bool; isOccupied : bool; markedForEviction : bool;
  pinCount : nat; unpinCount : nat; segtype : SegmentType }.

Record clock := mkClock { Head : nat; Reserved : option nat; capacity : nat; bPool : list clockentry }.

Definition set_Head (h : nat) (c : clock) : clock := mkClock h (Reserved c) (capacity c) (bPool c).
Definition set_Reserved (r : option nat) (c : clock) : clock := mkClock (Head c) r (capacity c) (bPool c).
Definition set_bPool (l : list clockentry) (c : clock) : clock := mkClock (Head c) (Reserved c) (capacity c) l.

Definition set_frame (f : Frame) (e : clockentry) : clockentry :=
  mkEntry f (ref e) (acc e) (reserved e) (isOccupied e) (markedForEviction e) (pinCount e) (unpinCount e) (segtype e).
Definition set_marks (r a : bool) (e : clockentry) : clockentry :=
  mkEntry (entry e) r a (reserved e) (isOccupied e) (markedForEviction e) (pinCount e) (unpinCount e) (segtype e).
Definition set_reserved (b : bool) (e : clockentry) : clockentry :=
  mkEntry (entry e) (ref e) (acc e) b (isOccupied e) (markedForEviction e) (pinCount e) (unpinCount e) (segtype e).
Definition set_occupied (b : bool) (e : clockentry) : clockentry :=
  mkEntry (entry e) (ref e) (acc e) (reserved e) b (markedForEviction e) (pinCount e) (unpinCount e) (segtype e).
Definition set_evict (b : bool) (e : clockentry) : clockentry :=
  mkEntry (entry e) (ref e) (acc e) (reserved e) (isOccupied e) b (pinCount e) (unpinCount e) (segtype e).
Definition set_pins (p u : nat) (e : clockentry) : clockentry :=
  mkEntry (entry e) (ref e) (acc e) (reserved e) (isOccupied e) (markedForEviction e) p u (segtype e).
Definition set_seg (s : SegmentType) (e : clockentry) : clockentry :=
  mkEntry (entry e) (ref e) (acc e) (reserved e) (isOccupied e) (markedForEviction e) (pinCount e) (unpinCount e) s.

(** ** Frames *)

(** A page operation on the frame's page; those used on frames cannot fail. *)
Definition on_page (m : M Page unit) (f : Frame) : Frame :=
  mkFrame (m (f_page f)).2 (f_isInternal f) (f_isDeleted f) (f_dirty f) (f_key f).

Definition frame_MarkDirty (f : Frame) : Frame :=
  on_page MarkDirty (mkFrame (f_page f) (f_isInternal f) (f_isDeleted f) true (f_key f)).
Definition frame_MarkClean (f : Frame) : Frame :=
  on_page MarkClean (mkFrame (f_page f) (f_isInternal f) (f_isDeleted f) false (f_key f)).
Definition frame_MarkDead (f : Frame) : Frame :=
  on_page MarkAsDead (mkFrame (f_page f) (f_isInternal f) true true (f_key f)).
Definition frame_Clear (f : Frame) : Frame :=
  on_page Clear (mkFrame (f_page f) (f_isInternal f) (f_isDeleted f) false 0).

(** [SetData] of the frame's own page: metadata from the page, and the parent
    entry becomes occupied. *)
Definition frame_SetData (markDirty : bool) (e : clockentry) : clockentry :=
  let f := entry e in
  let isIntern := BitIsSet (flag_byte (f_page f)) IsInternalBit in
  set_occupied true (set_frame (mkFrame (f_page f) isIntern false (if markDirty then true else f_dirty f)
    (PageId (f_page f))) e).

(** ** Entries *)

(** The entry is pinned: access and reference bit, and one more pin. *)
Definition pin_entry (e : clockentry) : clockentry := set_marks true true (set_pins (S (pinCount e)) (unpinCount e) e).

(** An operation on entry [i], given as a function that returns a value. *)
Definition on_entry {A} (i : nat) (m : M clockentry A) : M clock A := fun c =>
  match bPool c !! i with
  | None => (Panic "invalid memory address or nil pointer dereference", c)
  | Some e => let '(o, e') := m e in (o, set_bPool (<[i := e']> (bPool c)) c)
  end.

Definition reference : M clockentry unit := modify pin_entry.

Definition unref : M clockentry unit :=
  e ← get_state;
  if (pinCount e <=? unpinCount e)%nat then panic "Called unref with equal no. of pins and unpins."
  else
    modify (set_pins (pinCount e) (S (unpinCount e)));;
    if (pinCount e - unpinCount e =? 1)%nat then modify (set_marks (ref e) false) else mret tt.

Definition refIfOccupied : M clockentry bool :=
  e ← get_state;
  if negb (isOccupied e) then mret false
  else if markedForEviction e then mret false
  else modify pin_entry;; mret true.

Definition refIfNotReferenced : M clockentry bool :=
  e ← get_state;
  if acc e then mret false
  else if markedForEviction e then mret false
  else if negb (isOccupied e) then mret false
  else modify pin_entry;; mret true.

Definition markOccupied : M clockentry unit := modify (set_occupied true).
Definition markVacant : M clockentry unit := modify (set_occupied false).
Definition isReferenced : M clockentry bool := gets acc.
Definition getSegType : M clockentry SegmentType := gets segtype.
Definition markForEviction : M clockentry unit := modify (set_evict true).
Definition unMarkForEviction : M clockentry unit := modify (set_evict false).
Definition updateSegment (s : SegmentType) : M clockentry unit := modify (set_seg s).

Definition updateSegmentCAS (old s : SegmentType) : M clockentry bool :=
  e ← get_state;
  if decide (segtype e = old) then modify (set_seg s);; mret true else mret false.

(** The entry without pins, marks and segment; its eviction mark stays. *)
Definition reset_marks (e : clockentry) : clockentry :=
  set_seg unassigned (set_pins 0 0 (set_occupied false (set_marks false false e))).

Definition resetEntry : M clockentry unit := modify reset_marks.
Definition clearEntry : M clockentry unit := modify (fun e => reset_marks (set_frame (frame_Clear (entry e)) e)).

(** Getters of the entry's frame.  A frame always has its page, so the errors of
    [RawBufferSlice] and [ByteData] do not occur; both return a pointer to the bytes. *)
Definition frame_isDirty : M clockentry bool := gets (fun e => f_dirty (entry e)).
Definition frame_IsDead : M clockentry bool := gets (fun e => f_isDeleted (entry e)).
Definition frame_getKey : M clockentry Z := gets (fun e => f_key (entry e)).
Definition frame_GetPage : M clockentry Page := gets (fun e => f_page (entry e)).
Definition RawBufferSlice : M clockentry bytes := gets (fun e => pgeData (f_page (entry e))).
Definition occupied : M clockentry bool := gets isOccupied.

Definition getEntrySegType (i : nat) : M clock SegmentType := on_entry i getSegType.
Definition TestAddFrameDummyData (f : Frame) : Frame := on_page TestAddDummyData f.

(** Getters of the clock. *)
Definition getReserved : M clock (option nat) := gets Reserved.
Definition getCap : M clock nat := gets capacity.
Definition clockHead : M clock clockentry :=
  c ← get_state;
  match bPool c !! Head c with
  | None => panic "index out of range"
  | Some e => mret e
  end.

(** [Frame.Reference] and [Frame.Unreference], through the parent entry. *)
Definition Reference (i : nat) : M clock unit := on_entry i reference.
Definition Unreference (i : nat) : M clock unit := on_entry i unref.

(** ** The clock hand *)

Definition MAX_LOOP : nat := 2.
Definition MAX_RETRIES : nat := 2.

Definition advance : M clock unit := modify (fun c => set_Head ((Head c + 1) mod capacity c) c).

(** [n] more entries to look at. *)
Fixpoint sweep (n : nat) (seg : SegmentType) : M clock (option nat) :=
  match n with
  | O => mret None
  | S n' =>
      c ← get_state;
      match bPool c !! Head c with
      | None => panic "index out of range"
      | Some e =>
          if reserved e then advance;; sweep n' seg
          else if acc e then advance;; sweep n' seg
          else if markedForEviction e then advance;; sweep n' seg
          else if negb (bool_decide (segtype e = seg)) then advance;; sweep n' seg
          else if ref e then
            modify (set_bPool (<[Head c := set_marks false (acc e) e]> (bPool c)));;
            advance;; sweep n' seg
          else
            modify (set_bPool (<[Head c := set_evict true (pin_entry e)]> (bPool c)));;
            advance;;
            mret (Some (Head c))
      end
  end.

(** [tries] more attempts; another goroutine may run between two of them, which
    is a separate operation here. *)
Fixpoint evict_tries (tries : nat) (seg : SegmentType) : M clock (option nat) :=
  match tries with
  | O => mret None
  | S tries' =>
      c ← get_state;
      r ← sweep (capacity c * MAX_LOOP) seg;
      match r with
      | Some i => mret (Some i)
      | None => evict_tries tries' seg
      end
  end.

Definition EvictWithoutClearing (seg : SegmentType) : M clock (option nat) := evict_tries MAX_RETRIES seg.

(** ** Construction *)

(** Fresh memory is zero. *)
Definition new_frame : Frame :=
  mkFrame (mkPage (replicate (Z.to_nat PAGE_SIZE_BYTES) 0) 0) false false false 0.
Definition new_entry : clockentry := mkEntry new_frame false false false false false 0 0 unassigned.

Definition NewClock (itemCount : nat) (reserve : bool) : outcome clock :=
  if (itemCount <? 3)%nat then Err (mkError BufferManagerError "Minimum capacity is 3")
  else
    let clk := mkClock 0 None itemCount (replicate itemCount new_entry) in
    if reserve then
      match EvictWithoutClearing unassigned clk with
      | (Val (Some e), clk) =>
          Val (set_Reserved (Some e) (set_bPool (alter (set_reserved true) e (bPool clk)) clk))
      | (Val None, _) => Err (mkError BufferManagerError "Could not reserve metadata page frame")
      | (Err e, _) => Err e
      | (Panic m, _) => Panic m
      | (Blocked, _) => Blocked
      | (OutOfFuel, _) => OutOfFuel
      end
    else Val clk.
