(* ===== verification/ClockTheorems.v ===== *)
(** * The clock sweep

    [EvictWithoutClearing] is total, takes only entries nobody uses, and finds one
    whenever there is one; entries accessed since the last sweep are passed over
    once.  Pins keep an entry in the pool in every run. *)

From S2P Require Import Prelude Keys Files Helpers Page Clock.
Local Open Scope Z_scope.

(** ** Well-formed clocks *)

Record clock_ok (c : clock) : Prop := {
  ck_len : length (bPool c) = capacity c;
  ck_head : (Head c < capacity c)%nat }.

(** The entries the hand may take for segment [seg], reference bit aside. *)
Definition eligible (seg : SegmentType) (e : clockentry) : bool :=
  negb (reserved e) && negb (acc e) && negb (markedForEviction e) && bool_decide (segtype e = seg).

(** A passed entry: its second chance is used up. *)
Definition tick (seg : SegmentType) (e : clockentry) : clockentry :=
  if eligible seg e && ref e then set_marks false (acc e) e else e.

Definition victim (e : clockentry) : clockentry := set_evict true (pin_entry e).

Lemma eligible_tick seg s e : eligible seg (tick s e) = eligible seg e.
Proof. unfold tick. by destruct (_ && _). Qed.

Lemma tick_id seg e : eligible seg e = false \/ ref e = false -> tick seg e = e.
Proof. unfold tick. intros [->| ->]; [done|]. by rewrite andb_false_r. Qed.

Lemma tick_ref seg e : eligible seg e = true -> ref (tick seg e) = false.
Proof. intros He. unfold tick. rewrite He. by destruct (ref e) eqn:Hr. Qed.

Lemma victim_tick seg e : victim (tick seg e) = victim e.
Proof. unfold tick. by destruct (_ && _). Qed.

(** The next position of the hand. *)
Definition hand (c : clock) (k : nat) : nat := ((Head c + k) mod capacity c)%nat.

Definition passed (seg : SegmentType) (c : clock) : clock :=
  set_Head (hand c 1) (set_bPool (alter (tick seg) (Head c) (bPool c)) c).

Lemma passed_ok seg c : clock_ok c -> clock_ok (passed seg c).
Proof.
  intros [Hl Hh]. split; cbn; [by rewrite length_alter|]. unfold hand. apply Nat.mod_upper_bound. lia.
Qed.

Lemma hand_passed seg c k : clock_ok c -> hand (passed seg c) k = hand c (S k).
Proof.
  intros [_ Hh]. unfold hand at 1. cbn [Head passed set_Head capacity]. unfold hand.
  rewrite Nat.Div0.add_mod_idemp_l. f_equal. lia.
Qed.

Lemma hand_covers c i : clock_ok c -> (i < capacity c)%nat -> exists k, (k < capacity c)%nat /\ hand c k = i.
Proof.
  intros [_ Hh] Hi. unfold hand. destruct (decide (Head c <= i)%nat) as [Hle|Hgt].
  - exists (i - Head c)%nat. split; [lia|]. replace (Head c + (i - Head c))%nat with i by lia. by apply Nat.mod_small.
  - exists (i + capacity c - Head c)%nat. split; [lia|].
    replace (Head c + (i + capacity c - Head c))%nat with (i + 1 * capacity c)%nat by lia.
    rewrite Nat.Div0.mod_add. by apply Nat.mod_small.
Qed.

(** ** One step of the sweep *)

(** The hand passes the entry it points to unless that one is eligible and has
    not been referenced. *)
Lemma sweep_step n seg c e : clock_ok c -> bPool c !! Head c = Some e ->
  sweep (S n) seg c =
    if eligible seg e && negb (ref e)
    then (Val (Some (Head c)), set_Head (hand c 1) (set_bPool (<[Head c := victim e]> (bPool c)) c))
    else sweep n seg (passed seg c).
Proof.
  intros Hc He. cbn [sweep]. unfold mbind at 1, M_bind at 1, get_state. rewrite He.
  assert (forall e', e' = tick seg e -> passed seg c = set_Head (hand c 1) (set_bPool (<[Head c := e']> (bPool c)) c)) as Hp.
  { intros e' ->. unfold passed. f_equal. f_equal. apply list_eq. intros i. rewrite list_lookup_alter.
    case_decide as Hi; [subst i; rewrite He, list_lookup_insert_eq; [done|destruct Hc; lia]|by rewrite list_lookup_insert_ne]. }
  assert (Hid : set_bPool (<[Head c := e]> (bPool c)) c = c) by (rewrite list_insert_id by done; by destruct c).
  unfold eligible in *. unfold tick, eligible in Hp.
  destruct (reserved e); [by rewrite (Hp e), Hid|]. destruct (acc e) eqn:Ha; [by rewrite (Hp e), Hid|].
  destruct (markedForEviction e); [by rewrite (Hp e), Hid|].
  destruct (bool_decide (segtype e = seg)); [|by rewrite (Hp e), Hid]. cbn [negb andb] in *.
  destruct (ref e); [|done]. rewrite <- Ha in *. by rewrite (Hp _ eq_refl).
Qed.

Lemma head_entry c : clock_ok c -> is_Some (bPool c !! Head c).
Proof. intros [Hl Hh]. apply lookup_lt_is_Some. lia. Qed.

(** The pool after a sweep: entries are as before, or passed. *)
Definition entries_passed (seg : SegmentType) (c c' : clock) (i : nat) : Prop :=
  bPool c' !! i = bPool c !! i \/ bPool c' !! i = tick seg <$> bPool c !! i.

Definition same_clock (c c' : clock) : Prop := clock_ok c' /\ capacity c' = capacity c /\ Reserved c' = Reserved c.

(** [n] steps that find nothing. *)
Definition swept (seg : SegmentType) (n : nat) (c c' : clock) : Prop :=
  same_clock c c' /\ Head c' = hand c n /\ (forall i, entries_passed seg c c' i) /\
  (forall k e, (k < n)%nat -> bPool c !! hand c k = Some e -> eligible seg e = true ->
     ref e = true /\ bPool c' !! hand c k = Some (tick seg e)).

(** A sweep that takes entry [v]. *)
Definition caught (seg : SegmentType) (v : nat) (c c' : clock) : Prop :=
  same_clock c c' /\ exists e, bPool c !! v = Some e /\ eligible seg e = true /\ bPool c' !! v = Some (victim e) /\
    forall i, i <> v -> entries_passed seg c c' i.

Lemma passed_lookup seg c i : entries_passed seg c (passed seg c) i.
Proof.
  unfold entries_passed. cbn [passed bPool set_Head set_bPool]. rewrite list_lookup_alter. case_decide; [right|left]; by subst.
Qed.

Lemma tick_tick seg e : tick seg (tick seg e) = tick seg e.
Proof.
  destruct (eligible seg e) eqn:He; [|by rewrite tick_id; [|left; rewrite eligible_tick]].
  apply tick_id. right. by apply tick_ref.
Qed.

Lemma entries_passed_trans seg c1 c2 c3 i : entries_passed seg c1 c2 i -> entries_passed seg c2 c3 i -> entries_passed seg c1 c3 i.
Proof.
  unfold entries_passed. intros [H|H] [H'|H']; rewrite H', H; [by left|by right|by right|right].
  destruct (bPool c1 !! i); cbn; [by rewrite tick_tick|done].
Qed.

Lemma same_clock_trans c1 c2 c3 : same_clock c1 c2 -> same_clock c2 c3 -> same_clock c1 c3.
Proof. unfold same_clock. intuition congruence. Qed.

Lemma same_passed seg c : clock_ok c -> same_clock c (passed seg c).
Proof. intros. split; [by apply passed_ok|done]. Qed.

Lemma caught_before seg v c c1 c' : same_clock c c1 -> (forall i, entries_passed seg c c1 i) -> caught seg v c1 c' -> caught seg v c c'.
Proof.
  intros Hs Hp (Hs' & e1 & He1 & Hel & Hv & Ho). split; [by eapply same_clock_trans|].
  destruct (Hp v) as [H|H]; rewrite H in He1.
  - exists e1. split_and!; try done. intros i Hi. eapply entries_passed_trans; [apply Hp|by apply Ho].
  - apply fmap_Some in He1 as (e & He & ->). rewrite victim_tick in Hv. rewrite eligible_tick in Hel.
    exists e. split_and!; try done. intros i Hi. eapply entries_passed_trans; [apply Hp|by apply Ho].
Qed.

(** ** Sweeps *)

(** What a sweep has found after [n] steps. *)
Definition sweep_result (seg : SegmentType) (n : nat) (c : clock) (r : option nat) (c' : clock) : Prop :=
  match r with None => swept seg n c c' | Some v => caught seg v c c' end.

Lemma swept_step seg n c c' e : clock_ok c -> bPool c !! Head c = Some e -> (eligible seg e = true -> ref e = true) ->
  swept seg n (passed seg c) c' -> swept seg (S n) c c'.
Proof.
  intros Hc He Hr (Hs & Hh & Hp & Hk). split_and!.
  - eapply same_clock_trans; [by apply same_passed|done].
  - by rewrite Hh, hand_passed.
  - intros i. eapply entries_passed_trans; [apply passed_lookup|apply Hp].
  - assert (Hhead : hand c 0 = Head c) by (unfold hand; rewrite Nat.add_0_r; apply Nat.mod_small, Hc).
    assert (Hk1 : bPool (passed seg c) !! Head c = Some (tick seg e))
      by (cbn; by rewrite list_lookup_alter, decide_True, He).
    intros [|k] e' Hlt He' Hel.
    + rewrite Hhead in *. simplify_eq. split; [auto|]. destruct (Hp (Head c)) as [H|H]; rewrite H, Hk1; [done|].
      cbn. by rewrite tick_tick.
    + rewrite <- (hand_passed seg c k Hc) in *. destruct (decide (hand (passed seg c) k = Head c)) as [Heq|Hne].
      * rewrite Heq in *. assert (e' = e) as -> by congruence. destruct (Hk k (tick seg e)) as [Hf _]; [lia|by rewrite Heq|by rewrite eligible_tick|].
        by rewrite tick_ref in Hf.
      * apply Hk; [lia| |done]. cbn. by rewrite list_lookup_alter, decide_False.
Qed.

Lemma sweep_spec seg n : forall c, clock_ok c -> returns (sweep n seg) c (sweep_result seg n c).
Proof.
  induction n as [|n IH]; intros c Hc.
  - exists None, c. split; [done|]. split_and!; [done| |by left|by intros k e ?; lia].
    unfold hand. rewrite Nat.add_0_r. symmetry. apply Nat.mod_small, Hc.
  - destruct (head_entry c Hc) as [e He]. unfold returns. rewrite (sweep_step n seg c e Hc He).
    destruct (eligible seg e && negb (ref e)) eqn:Hb.
    + apply andb_true_iff in Hb as [Hel _]. do 2 eexists. split; [done|]. split; [|exists e; split_and!; [done|done| |]].
      * split; [|done]. split; cbn; [rewrite length_insert; apply Hc|]. apply Nat.mod_upper_bound. destruct Hc. lia.
      * cbn. apply list_lookup_insert_eq. destruct Hc. lia.
      * intros i Hi. left. cbn. by apply list_lookup_insert_ne.
    + destruct (IH (passed seg c) (passed_ok seg c Hc)) as (r & c' & Hsw & Hr). exists r, c'. split; [done|].
      destruct r as [v|]; cbn in *.
      * eapply caught_before; [by apply same_passed|apply passed_lookup|done].
      * eapply swept_step; try done. intros Hel. rewrite Hel in Hb. by destruct (ref e).
Qed.

(** Within one round the entry taken had its reference bit unset. *)
Lemma sweep_first_round seg n : forall c v c', clock_ok c -> (n <= capacity c)%nat -> sweep n seg c = (Val (Some v), c') ->
  exists k e, (k < n)%nat /\ v = hand c k /\ bPool c !! v = Some e /\ ref e = false.
Proof.
  induction n as [|n IH]; intros c v c' Hc Hn Hs; [done|].
  destruct (head_entry c Hc) as [e He]. rewrite (sweep_step n seg c e Hc He) in Hs.
  assert (Hhead : hand c 0 = Head c) by (unfold hand; rewrite Nat.add_0_r; apply Nat.mod_small, Hc).
  destruct (eligible seg e && negb (ref e)) eqn:Hb.
  - injection Hs as <- _. apply andb_true_iff in Hb as [_ Hf%negb_true_iff]. exists 0%nat, e. split_and!; [lia|done..].
  - destruct (IH (passed seg c) v c' (passed_ok seg c Hc) ltac:(cbn; lia) Hs) as (k & e1 & Hk & -> & He1 & Hf).
    exists (S k), e1. rewrite hand_passed in * by done. split_and!; [lia|done| |done].
    cbn in He1. rewrite list_lookup_alter in He1. case_decide as Heq; [|done]. exfalso.
    destruct Hc as [_ Hh]. unfold hand in Heq. destruct (decide (Head c + S k < capacity c)%nat) as [Hlt|Hge].
    + rewrite Nat.mod_small in Heq by lia. lia.
    + replace (Head c + S k)%nat with (Head c + S k - capacity c + 1 * capacity c)%nat in Heq by lia.
      rewrite Nat.Div0.mod_add, Nat.mod_small in Heq by lia. lia.
Qed.

Lemma sweep_add seg n m c :
  sweep (n + m) seg c = match sweep n seg c with (Val None, c1) => sweep m seg c1 | r => r end.
Proof.
  revert c. induction n as [|n IH]; intros c; [done|]. cbn [sweep Nat.add]. unfold mbind, M_bind, get_state, advance, modify, panic, mret, M_ret.
  destruct (bPool c !! Head c) as [e|]; [|done].
  destruct (reserved e), (acc e), (markedForEviction e), (bool_decide (segtype e = seg)), (ref e); (done || apply IH).
Qed.

(** ** Eviction *)

Lemma swept_round seg c c' : clock_ok c -> swept seg (capacity c) c c' ->
  forall i e, bPool c !! i = Some e -> eligible seg e = true -> ref e = true /\ bPool c' !! i = Some (tick seg e).
Proof.
  intros Hc (_ & _ & _ & Hk) i e He Hel. destruct (hand_covers c i Hc) as (k & Hlt & <-); [|by apply Hk].
  apply lookup_lt_Some in He. destruct Hc. lia.
Qed.

Lemma sweep_none seg c c' n : clock_ok c -> (forall i e, bPool c !! i = Some e -> eligible seg e = false) ->
  swept seg n c c' -> c' = set_Head (hand c n) c.
Proof.
  intros Hc Hno ((_ & Hcap & Hres) & Hh & Hp & _). assert (bPool c' = bPool c) as Hpool.
  { apply list_eq. intros i. destruct (Hp i) as [H|H]; [done|]. rewrite H. destruct (bPool c !! i) as [e|] eqn:He; [|done].
    cbn. f_equal. apply tick_id. left. by eapply Hno. }
  destruct c', c. cbn in *. by subst.
Qed.

(** Which entry a sweep may take: an eligible one, and a referenced one only when
    all eligible entries are referenced. *)
Definition choice_ok (seg : SegmentType) (c : clock) (v : nat) : Prop :=
  exists e, bPool c !! v = Some e /\ eligible seg e = true /\
    (ref e = true -> forall i e', bPool c !! i = Some e' -> eligible seg e' = true -> ref e' = true).

Lemma two_rounds seg c : clock_ok c -> returns (sweep (capacity c * MAX_LOOP) seg) c (fun r c' =>
  match r with
  | Some v => caught seg v c c' /\ choice_ok seg c v
  | None => c' = c /\ forall i e, bPool c !! i = Some e -> eligible seg e = false
  end).
Proof.
  intros Hc. unfold MAX_LOOP, returns. replace (capacity c * 2)%nat with (capacity c + capacity c)%nat by lia. rewrite sweep_add.
  destruct (sweep_spec seg (capacity c) c Hc) as ([v|] & c1 & H1 & R1); rewrite H1; cbn in R1.
  - exists (Some v), c1. split; [done|]. split; [done|]. destruct R1 as (_ & e & He & Hel & _).
    destruct (sweep_first_round seg (capacity c) c v c1) as (k & e' & _ & _ & He' & Hf); [done..|].
    exists e. split_and!; [done..|]. intros Hr. congruence.
  - pose proof R1 as ((Hc1 & Hcap & Hres) & Hh & Hp & _). pose proof (swept_round seg c c1 Hc R1) as Hall.
    rewrite <- Hcap. destruct (sweep_spec seg (capacity c1) c1 Hc1) as ([v|] & c2 & H2 & R2); cbn in R2; rewrite H2.
    + exists (Some v), c2. split; [done|]. assert (caught seg v c c2) as Hv by (by eapply caught_before).
      split; [done|]. destruct Hv as (_ & e & He & Hel & _). exists e. split_and!; [done..|]. intros _ i e' Hi He'. by apply (Hall i e').
    + exists None, c2. split; [done|]. pose proof (swept_round seg c1 c2 Hc1 R2) as Hall2.
      assert (Hno : forall i e, bPool c !! i = Some e -> eligible seg e = false).
      { intros i e He. destruct (eligible seg e) eqn:Hel; [|done]. exfalso. destruct (Hall i e He Hel) as [_ He1].
        destruct (Hall2 i (tick seg e) He1) as [Hf _]; [by rewrite eligible_tick|]. by rewrite tick_ref in Hf. }
      split; [|done]. pose proof (sweep_none seg c c1 _ Hc Hno R1) as E1.
      pose proof (sweep_none seg c1 c2 _ Hc1 ltac:(rewrite E1; exact Hno) R2) as E2.
      rewrite E2, Hcap, E1. unfold hand. cbn [Head set_Head capacity]. rewrite Nat.Div0.add_mod_idemp_l.
      destruct Hc as [_ Hhd]. replace (Head c + capacity c + capacity c)%nat with (Head c + 2 * capacity c)%nat by lia.
      rewrite Nat.Div0.mod_add, Nat.mod_small by done. by destruct c.
Qed.

Lemma evict_spec seg c : clock_ok c -> returns (EvictWithoutClearing seg) c (fun r c' =>
  match r with
  | Some v => caught seg v c c' /\ choice_ok seg c v
  | None => c' = c /\ forall i e, bPool c !! i = Some e -> eligible seg e = false
  end).
Proof.
  intros Hc. unfold EvictWithoutClearing, MAX_RETRIES. cbn [evict_tries].
  go_step. go_step. go_step. go_call two_rounds; [|done]. intros [v|] c1.
  - intros H. by go_step.
  - intros [-> Hno]. go_step. go_step. go_step. go_call two_rounds; [|done]. intros [v|] c2; [intros H; by go_step|].
    intros [-> _]. by go_step.
Qed.

(** C20: a sweep of a well-formed clock returns.  The entry it takes is not
    reserved, pinned or marked and is of the requested segment; it leaves pinned
    and marked for eviction, and it had been referenced only if all such entries
    had been.  Other entries change at most by losing their reference bit.  The
    sweep returns nothing exactly when there is no such entry, and then the clock
    is as it was. *)
Theorem evict_second_chance seg c : clock_ok c ->
  returns (EvictWithoutClearing seg) c (fun r c' => clock_ok c' /\
    match r with
    | None => c' = c /\ forall i e, bPool c !! i = Some e -> eligible seg e = false
    | Some v => exists e, bPool c !! v = Some e /\ eligible seg e = true /\ bPool c' !! v = Some (victim e) /\
        (ref e = true -> forall i e', bPool c !! i = Some e' -> eligible seg e' = true -> ref e' = true) /\
        forall i, i <> v -> bPool c' !! i = bPool c !! i \/ bPool c' !! i = tick seg <$> bPool c !! i
    end).
Proof.
  intros Hc. go_call evict_spec; [|done]. intros [v|] c'.
  - intros (((Hc' & _) & e & He & Hel & Hv & Ho) & e' & He' & _ & Hch). simplify_eq. split; [done|].
    exists e. by split_and!.
  - by intros [-> Hno].
Qed.

(** ** Pins *)

Inductive entry_op :=
| EReference | EUnref | ERefIfOccupied | ERefIfNotReferenced | EMarkOccupied | EMarkForEviction | EUnMarkForEviction
| EUpdateSegment (s : SegmentType) | EUpdateSegmentCAS (old s : SegmentType) | EResetEntry | EClearEntry | ESetData (dirty : bool)
| EFrame (g : Frame -> Frame).

Definition run_entry_op (o : entry_op) : M clockentry unit :=
  match o with
  | EReference => reference | EUnref => unref
  | ERefIfOccupied => refIfOccupied;; mret tt | ERefIfNotReferenced => refIfNotReferenced;; mret tt
  | EMarkOccupied => markOccupied | EMarkForEviction => markForEviction | EUnMarkForEviction => unMarkForEviction
  | EUpdateSegment s => updateSegment s | EUpdateSegmentCAS old s => updateSegmentCAS old s;; mret tt
  | EResetEntry => resetEntry | EClearEntry => clearEntry | ESetData d => modify (frame_SetData d)
  | EFrame g => modify (fun e => set_frame (g (entry e)) e)
  end.

(** Any goroutine performs an operation on an entry, or a sweep. *)
Inductive clock_step : clock -> clock -> Prop :=
| cs_entry i o c c' : on_entry i (run_entry_op o) c = (Val tt, c') -> clock_step c c'
| cs_evict seg r c c' : EvictWithoutClearing seg c = (Val r, c') -> clock_step c c'.

Inductive clock_reach (n : nat) (reserve : bool) : clock -> Prop :=
| cr_new c : NewClock n reserve = Val c -> clock_reach n reserve c
| cr_step c c' : clock_reach n reserve c -> clock_step c c' -> clock_reach n reserve c'.

Definition outstanding (e : clockentry) : nat := (pinCount e - unpinCount e)%nat.

Definition pins_ok (e : clockentry) : Prop := (unpinCount e <= pinCount e)%nat /\ (acc e = true <-> (0 < outstanding e)%nat).

Definition pool_ok (c : clock) : Prop := clock_ok c /\ Forall pins_ok (bPool c).

Lemma pins_ok_pin e : pins_ok e -> pins_ok (pin_entry e).
Proof. unfold pins_ok, outstanding. cbn. intuition lia. Qed.

Lemma pins_ok_op o e e' : pins_ok e -> run_entry_op o e = (Val tt, e') -> pins_ok e'.
Proof.
  intros Hok. destruct o; cbn; unfold reference, unref, refIfOccupied, refIfNotReferenced, markOccupied, markForEviction,
    unMarkForEviction, updateSegment, updateSegmentCAS, resetEntry, clearEntry, mbind, M_bind, mret, M_ret, modify, panic, get_state; intros H;
    repeat case_match; simplify_eq; try done; try (by apply pins_ok_pin);
    unfold pins_ok, outstanding in *; cbn in *;
    repeat match goal with
    | H : (_ <=? _)%nat = false |- _ => apply Nat.leb_gt in H
    | H : (_ =? _)%nat = true |- _ => apply Nat.eqb_eq in H
    | H : (_ =? _)%nat = false |- _ => apply Nat.eqb_neq in H
    end; intuition (try lia; try congruence; auto with lia).
Qed.

Lemma pool_ok_evict seg c r c' : pool_ok c -> EvictWithoutClearing seg c = (Val r, c') -> pool_ok c'.
Proof.
  intros [Hc Hp] He. destruct (evict_spec seg c Hc) as (r' & c1 & He' & Hr). rewrite He in He'. injection He' as <- <-.
  destruct r as [v|]; [|by destruct Hr as [-> _]]. destruct Hr as (((Hc' & _) & e & Hv & _ & Hv' & Ho) & _). split; [done|].
  rewrite Forall_lookup in *. intros i x Hx. destruct (decide (i = v)) as [->|Hne].
  - rewrite Hv' in Hx. injection Hx as <-. apply (pins_ok_pin e), (Hp v), Hv.
  - destruct (Ho i Hne) as [H|H]; rewrite H in Hx; [by eapply Hp|].
    apply fmap_Some in Hx as (y & Hy & ->). unfold tick. destruct (_ && _); [|by eapply Hp]. apply (Hp i y Hy).
Qed.

Lemma on_entry_inv {A} i (m : M clockentry A) c a c' : on_entry i m c = (Val a, c') ->
  exists e e', bPool c !! i = Some e /\ m e = (Val a, e') /\ c' = set_bPool (<[i := e']> (bPool c)) c.
Proof.
  unfold on_entry. destruct (bPool c !! i) as [e|]; [|done]. destruct (m e) as [o e'] eqn:He. intros [= -> <-]. eauto.
Qed.

Lemma NewClock_ok n reserve c : NewClock n reserve = Val c -> pool_ok c.
Proof.
  unfold NewClock. destruct (n <? 3)%nat eqn:Hn; [done|]. apply Nat.ltb_ge in Hn.
  set (c0 := mkClock 0 None n (replicate n new_entry)).
  assert (pool_ok c0) as H0.
  { split; [split; cbn; [apply length_replicate|lia]|]. apply Forall_replicate. split; cbn; [lia|]. split; [done|]. unfold outstanding. cbn. lia. }
  destruct reserve; [|by intros [= <-]].
  destruct (EvictWithoutClearing unassigned c0) as [[[v|]| | | |] c1] eqn:He; try done. intros [= <-].
  destruct (pool_ok_evict _ _ _ _ H0 He) as [[Hl Hh] Hp]. split; [split; cbn; [by rewrite length_alter|done]|].
  cbn. apply Forall_alter; [done|]. intros x _ Hx. exact Hx.
Qed.

Lemma reach_pool_ok n reserve c : clock_reach n reserve c -> pool_ok c.
Proof.
  induction 1 as [c Hc|c c' _ IH Hs]; [by eapply NewClock_ok|]. destruct Hs as [i o c c' Hs|seg r c c' Hs]; [|by eapply pool_ok_evict].
  apply on_entry_inv in Hs as (e & e' & He & Hop & ->). destruct IH as [[Hl Hh] Hp].
  split; [split; cbn; [by rewrite length_insert|done]|]. cbn. apply Forall_insert; [done|].
  eapply pins_ok_op; [|done]. rewrite Forall_lookup in Hp. by eapply Hp.
Qed.

(** C21: in every run of a clock, whatever operations on entries and sweeps it
    consists of, a sweep never takes an entry with an outstanding pin, and leaves
    the entry it takes with exactly one pin, its own. *)
Theorem pinned_not_evicted n reserve seg c v c' :
  clock_reach n reserve c -> EvictWithoutClearing seg c = (Val (Some v), c') ->
  exists e e', bPool c !! v = Some e /\ outstanding e = 0%nat /\ bPool c' !! v = Some e' /\ outstanding e' = 1%nat.
Proof.
  intros Hr He. destruct (reach_pool_ok n reserve c Hr) as [Hc Hp].
  destruct (evict_spec seg c Hc) as (r & c1 & He' & Hres). rewrite He in He'. injection He' as <- <-.
  destruct Hres as ((_ & e & Hv & Hel & Hv' & _) & _). exists e, (victim e). rewrite Forall_lookup in Hp.
  destruct (Hp v e Hv) as [Hle Hacc]. unfold eligible in Hel. destruct (acc e); [by destruct (reserved e)|].
  assert (outstanding e = 0%nat) as H0 by (destruct (outstanding e) eqn:Ho; [done|]; destruct Hacc as [_ Hacc]; by discriminate (Hacc ltac:(lia))).
  split_and!; try done. unfold outstanding in *. cbn. lia.
Qed.

(** ** Examples *)

Module ClockSample.

Definition clk4 : clock := mkClock 0 None 4 (replicate 4 new_entry).

Lemma clk4_ok : clock_ok clk4.
Proof. split; cbn; lia. Qed.

Lemma evict_second_chance_witness : clock_ok clk4 /\
  returns (EvictWithoutClearing unassigned) clk4 (fun r c' => clock_ok c' /\
    match r with
    | None => c' = clk4 /\ forall i e, bPool clk4 !! i = Some e -> eligible unassigned e = false
    | Some v => exists e, bPool clk4 !! v = Some e /\ eligible unassigned e = true /\ bPool c' !! v = Some (victim e) /\
        (ref e = true -> forall i e', bPool clk4 !! i = Some e' -> eligible unassigned e' = true -> ref e' = true) /\
        forall i, i <> v -> bPool c' !! i = bPool clk4 !! i \/ bPool c' !! i = tick unassigned <$> bPool clk4 !! i
    end).
Proof. split; [apply clk4_ok|]. apply (evict_second_chance unassigned clk4). apply clk4_ok. Defined.

(** Entry 0 is in use when the hand comes round, so entry 1 is taken. *)
Definition clk4_pinned : clock := (on_entry 0 (run_entry_op EReference) clk4).2.

Lemma pinned_not_evicted_witness :
  clock_reach 4 false clk4_pinned /\
  exists e e', bPool clk4_pinned !! 1%nat = Some e /\ outstanding e = 0%nat /\
    bPool (EvictWithoutClearing unassigned clk4_pinned).2 !! 1%nat = Some e' /\ outstanding e' = 1%nat.
Proof.
  assert (clock_reach 4 false clk4_pinned) as Hr.
  { eapply (cr_step _ _ clk4); [by apply cr_new|]. by apply (cs_entry 0 EReference). }
  split; [exact Hr|]. apply (pinned_not_evicted 4 false unassigned clk4_pinned 1); [exact Hr|reflexivity].
Defined.

End ClockSample.
