(* ===== verification/Latch.v ===== *)
(** * Frame latches ([Acquire] and [Release] of [pkg/buffermanager/frame.go])

    A frame is guarded by a reader-writer lock, taken shared or exclusively.  The
    lock's own rules are those of [sync.RWMutex]; what they give the users of a frame
    is proved over runs of any number of goroutines that release only what they hold. *)

From S2P Require Import Prelude.
Local Open Scope nat_scope.

Definition Acquire (shared : bool) : M RWMutex unit := fun mu =>
  if shared then
    if mu_writer mu then (Blocked, mu) else (Val tt, mkMutex false (S (mu_readers mu)))
  else
    if mu_writer mu || negb (mu_readers mu =? 0) then (Blocked, mu) else (Val tt, mkMutex true 0).

Definition Release (shared : bool) : M RWMutex unit := fun mu =>
  if shared then
    match mu_readers mu with
    | O => (Panic "sync: RUnlock of unlocked RWMutex", mu)
    | S r => (Val tt, mkMutex (mu_writer mu) r)
    end
  else
    if mu_writer mu then (Val tt, mkMutex false (mu_readers mu)) else (Panic "sync: Unlock of unlocked RWMutex", mu).

(** Goroutines with the latch, and whether they share it. *)
Abbreviation holders := (list (nat * bool)).

Inductive latch_run : RWMutex -> holders -> Prop :=
| lr_free : latch_run free_mutex []
| lr_acquire mu hs g shared mu' : latch_run mu hs -> Acquire shared mu = (Val tt, mu') -> latch_run mu' ((g, shared) :: hs)
| lr_release mu hs1 g shared hs2 mu' : latch_run mu (hs1 ++ (g, shared) :: hs2) -> Release shared mu = (Val tt, mu') -> latch_run mu' (hs1 ++ hs2).

(** The lock counts its holders. *)
Definition counts (mu : RWMutex) (hs : holders) : Prop :=
  if mu_writer mu then mu_readers mu = 0 /\ exists g, hs = [(g, false)]
  else length hs = mu_readers mu /\ Forall (fun h => h.2 = true) hs.

Lemma latch_counts mu hs : latch_run mu hs -> counts mu hs.
Proof.
  induction 1 as [|mu hs g shared mu' _ IH H|mu hs1 g shared hs2 mu' _ IH H]; [by repeat constructor| |]; unfold counts in *.
  - unfold Acquire in H. destruct shared, (mu_writer mu) eqn:Hw; try done; cbn [orb] in H.
    + injection H as <-. cbn. destruct IH as [Hl Hf]. split; [lia|by constructor].
    + destruct (mu_readers mu =? 0) eqn:Hr; [|done]. injection H as <-. cbn. apply Nat.eqb_eq in Hr. rewrite Hr in IH.
      destruct IH as [Hl _]. destruct hs; [|done]. split; [done|]. by exists g.
  - unfold Release in H. destruct (mu_writer mu) eqn:Hw.
    + destruct IH as [Hr (g' & E)]. destruct hs1 as [|h hs1]; cbn in E; [|by destruct hs1]. injection E as -> -> ->.
      injection H as <-. cbn. by rewrite Hr.
    + destruct IH as [Hl Hf]. apply Forall_app in Hf as [Hf1 Hf2]. apply Forall_cons in Hf2 as [Hs Hf2]. cbn in Hs. subst shared.
      rewrite length_app in Hl. cbn in Hl. destruct (mu_readers mu) as [|r]; [lia|]. injection H as <-. cbn. rewrite length_app.
      split; [lia|]. by apply Forall_app.
Qed.

(** A goroutine with the exclusive latch is alone, and what is held can be released. *)
Lemma latch_exclusive mu hs g : latch_run mu hs -> (g, false) ∈ hs -> hs = [(g, false)].
Proof.
  intros Hr Hg. apply latch_counts in Hr. unfold counts in Hr. destruct (mu_writer mu).
  - destruct Hr as [_ (g' & ->)]. by apply list_elem_of_singleton in Hg as [= ->].
  - destruct Hr as [_ Hf]. rewrite Forall_forall in Hf. by specialize (Hf _ Hg).
Qed.

Lemma latch_release mu hs g shared : latch_run mu hs -> (g, shared) ∈ hs -> exists mu', Release shared mu = (Val tt, mu').
Proof.
  intros Hr Hg. apply latch_counts in Hr. unfold counts in Hr. unfold Release. destruct (mu_writer mu).
  - destruct Hr as [_ (g' & ->)]. apply list_elem_of_singleton in Hg as [= -> ->]. eauto.
  - destruct Hr as [Hl Hf]. rewrite Forall_forall in Hf. specialize (Hf _ Hg). cbn in Hf. subst shared.
    destruct hs; [by apply not_elem_of_nil in Hg|]. cbn in Hl. destruct (mu_readers mu); [done|]. eauto.
Qed.

(** A latch nobody holds is free; readers do not wait for readers. *)
Lemma latch_acquire mu hs (shared : bool) : latch_run mu hs -> (if shared then Forall (fun h : nat * bool => h.2 = true) hs else hs = []) ->
  exists mu', Acquire shared mu = (Val tt, mu').
Proof.
  intros Hr Hh. apply latch_counts in Hr. unfold counts in Hr. unfold Acquire. destruct shared, (mu_writer mu).
  - destruct Hr as [_ (g & ->)]. by apply Forall_cons in Hh as [? _].
  - eauto.
  - destruct Hr as [_ (g & ->)]. done.
  - destruct Hr as [Hl _]. subst hs. cbn in Hl. rewrite <- Hl. eauto.
Qed.
