(* ===== verification/WTinyLFU.v ===== *)
(** * Window TinyLFU ([pkg/buffermanager/wtinylfu.go])

    The pool of frames is divided into a window, a probation and a protected
    segment; frames of no segment are free.  The state is the record [WTinyLfu],
    together with the pager the victims are written to and the hash table of the
    shard, both of which the operations receive from their caller.  An operation
    holds the lock of the [WTinyLfu] throughout. *)

From S2P Require Import Prelude Keys Files Helpers Disk FreeList Page Pager TinyLFU Clock.
Local Open Scope Z_scope.

Record WTinyLfu := mkW {
  cBuffer : clock; tinyFilter : TinyLFU;
  windowCount : Z; probationCount : Z; protectedCount : Z;
  windowCapacity : Z; probationCapacity : Z; protectedCapacity : Z }.

(** The filter, the pager and the hash table from page ids to entries. *)
Record pool := mkPool { p_w : WTinyLfu; p_pager : Pager; p_table : gmap Z nat }.

Definition set_clock (c : clock) (p : pool) : pool :=
  let w := p_w p in
  mkPool (mkW c (tinyFilter w) (windowCount w) (probationCount w) (protectedCount w)
    (windowCapacity w) (probationCapacity w) (protectedCapacity w)) (p_pager p) (p_table p).
Definition set_filter (t : TinyLFU) (p : pool) : pool :=
  let w := p_w p in
  mkPool (mkW (cBuffer w) t (windowCount w) (probationCount w) (protectedCount w)
    (windowCapacity w) (probationCapacity w) (protectedCapacity w)) (p_pager p) (p_table p).
Definition set_counts (wc pbc ptc : Z) (p : pool) : pool :=
  let w := p_w p in
  mkPool (mkW (cBuffer w) (tinyFilter w) wc pbc ptc (windowCapacity w) (probationCapacity w) (protectedCapacity w))
    (p_pager p) (p_table p).
Definition set_pager (pgr : Pager) (p : pool) : pool := mkPool (p_w p) pgr (p_table p).
Definition set_table (t : gmap Z nat) (p : pool) : pool := mkPool (p_w p) (p_pager p) t.

Definition clock_of (p : pool) : clock := cBuffer (p_w p).

Definition on_clock {A} (m : M clock A) : M pool A := zoom clock_of set_clock m.
Definition on_en {A} (i : nat) (m : M clockentry A) : M pool A := on_clock (on_entry i m).
Definition on_pager {A} (m : M Pager A) : M pool A := zoom p_pager set_pager m.

(** [toBytes]: the four bytes of a page id. *)
Definition key_bytes (key : Z) : bytes := le32 key.

(** Changes of the counters ([uint64]). *)
Definition add_counts (dw dpb dpt : Z) : M pool unit :=
  p ← get_state;
  let w := p_w p in
  modify (set_counts (u64 (windowCount w + dw)) (u64 (probationCount w + dpb)) (u64 (protectedCount w + dpt))).

(** The numbers of frames of the segments. *)
Definition getWindowCount : M pool Z := gets (fun p => windowCount (p_w p)).
Definition getProbationCount : M pool Z := gets (fun p => probationCount (p_w p)).
Definition getProtectedCount : M pool Z := gets (fun p => protectedCount (p_w p)).

Section Policy.
Context (Sum64 : bytes -> Z).

Definition on_filter {A} (m : M TinyLFU A) : M pool A := zoom (fun p => tinyFilter (p_w p)) set_filter m.

(** ** Promotion *)

Definition promoteToProtected (en : nat) : M pool unit :=
  cType ← on_en en (gets segtype);
  if negb (bool_decide (cType = probationSegment)) then mret tt
  else
    w ← gets p_w;
    if protectedCount w <? protectedCapacity w then
      updated ← on_en en (updateSegmentCAS probationSegment protectedSegment);
      if negb updated then mret tt
      else
        add_counts 0 (-1) 1;;
        w ← gets p_w;
        if probationCount w >? probationCapacity w then panic "probation capacity surpassed." else mret tt
    else
      protectedVictim ← on_clock (EvictWithoutClearing protectedSegment);
      match protectedVictim with
      | None => fail BufferManagerError "Could not find eligible victim."
      | Some v =>
          if (v =? en)%nat then panic "Evicted protected entry equal to current probation entry"
          else
            on_en v (updateSegmentCAS protectedSegment probationSegment);;
            on_en en (updateSegmentCAS probationSegment protectedSegment);;
            on_en v unMarkForEviction;;
            on_en v unref
      end.

(** The goroutine that counts the access runs at once; its error is a panic. *)
Definition Increment (en : nat) : M pool bool :=
  cType ← on_en en (gets segtype);
  (match cType with
   | probationSegment => promoteToProtected en
   | unassigned => on_en en (updateSegmentCAS unassigned windowSegment);; mret tt
   | _ => mret tt
   end);;
  k ← on_en en frame_getKey;
  or_panic (on_filter (IncrementItem Sum64 (key_bytes k)));;
  mret true.

(** ** Eviction *)

(** A victim is written to disk when it is dirty, leaves the hash table, and its
    frame becomes free.  [WritePage] works on the bytes of the frame itself. *)
Definition drop_victim (v : nat) (key : Z) : M pool unit :=
  dirty ← on_en v frame_isDirty;
  (if dirty : bool then
     buff ← on_en v RawBufferSlice;
     b ← on_pager (WritePage key buff false);
     on_en v (modify (fun e => set_frame (on_page (modify (set_data b)) (entry e)) e))
   else mret tt);;
  modify (fun p => set_table (delete key (p_table p)) p);;
  on_en v resetEntry;;
  on_en v (modify (fun e => set_frame (frame_Clear (entry e)) e));;
  on_en v unMarkForEviction.

(** Both segments are full: the victim with the smaller count goes. *)
Definition evict_between (wv pv : nat) : M pool unit :=
  windKey ← on_en wv frame_getKey;
  r1 ← catch (on_filter (CheckItemCount Sum64 (key_bytes windKey)));
  match r1 with
  | inr e => on_en wv unref;; on_en pv unref;; fail (ekind e) (Message e)
  | inl windCount =>
      mainKey ← on_en pv frame_getKey;
      r2 ← catch (on_filter (CheckItemCount Sum64 (key_bytes mainKey)));
      match r2 with
      | inr e => on_en wv unref;; on_en pv unref;; fail (ekind e) (Message e)
      | inl mainCacheCount =>
          if windCount >=? mainCacheCount then
            drop_victim pv mainKey;;
            on_en wv (updateSegmentCAS windowSegment probationSegment);;
            on_en wv unMarkForEviction;;
            on_en wv unref;;
            add_counts (-1) 0 0
          else
            drop_victim wv windKey;;
            on_en pv unMarkForEviction;;
            on_en pv unref;;
            add_counts (-1) 0 0
      end
  end.

(** Room in probation: the window's victim moves there. *)
Definition demote_window : M pool unit :=
  windVictim ← on_clock (EvictWithoutClearing windowSegment);
  match windVictim with
  | None => fail BufferManagerError "Unable to find window victim(all frames in use)."
  | Some wv =>
      on_en wv (updateSegmentCAS windowSegment probationSegment);;
      add_counts (-1) 1 0;;
      w ← gets p_w;
      if probationCount w >? probationCapacity w then panic "probation count exceeded capacity"
      else
        on_en wv unMarkForEviction;;
        on_en wv unref
  end.

Definition evictWindow : M pool unit :=
  w ← gets p_w;
  if probationCount w >? probationCapacity w then panic "probation items surpassed allowed max"
  else if windowCount w <? windowCapacity w then fail WTinyLFUError "Window cache is not full"
  else if probationCount w >=? probationCapacity w then
    windVictim ← on_clock (EvictWithoutClearing windowSegment);
    probationVictim ← on_clock (EvictWithoutClearing probationSegment);
    match windVictim, probationVictim with
    | None, None => fail BufferManagerError "(probation full) Could not find window victim(all frames in use)."
    | None, Some pv =>
        on_en pv unref;;
        fail BufferManagerError "(probation full) Could not find window victim(all frames in use)."
    | Some wv, None =>
        on_en wv unref;;
        fail BufferManagerError "Unable to find probation victim(all frames in use)."
    | Some wv, Some pv => evict_between wv pv
    end
  else demote_window.

Definition getFreeFrame : M pool nat :=
  w ← gets p_w;
  if windowCount w >? windowCapacity w then panic "window cache overflow."
  else
    (if windowCount w =? windowCapacity w then evictWindow else mret tt);;
    en ← on_clock (EvictWithoutClearing unassigned);
    match en with
    | None => fail BufferManagerError "Unable to add item to WtinyLFU"
    | Some en =>
        on_en en (updateSegmentCAS unassigned windowSegment);;
        add_counts 1 0 0;;
        mret en
    end.

Definition readdFrameToPool (en : nat) : M pool unit := on_en en clearEntry.

End Policy.

(** ** Construction *)

(** [math.Round] of a fifth and of four fifths of the main cache: the fraction is
    a multiple of one fifth, never a half, so the rounded float is exact ([sizes_exact] of [Sizing]). *)
Definition probation_cap (mainCacheSize : Z) : Z := (2 * mainCacheSize + 5) / 10.
Definition protected_cap (mainCacheSize : Z) : Z := (8 * mainCacheSize + 5) / 10.

(** The filter [t] is the result of [NewTinyLFU]. *)
Definition NewWTinylfu (t : TinyLFU) (windowSize mainCacheSize : Z) (reserveMetadata : bool) : outcome WTinyLfu :=
  if windowSize <=? 0 then Err (mkError WTinyLFUError "Window size must be greater than 0")
  else if mainCacheSize <=? 0 then Err (mkError WTinyLFUError "Main cache size must be greater than 0")
  else if windowSize >=? mainCacheSize then Err (mkError WTinyLFUError "Window size is greater than main cache size.")
  else
    let protectedCap := if reserveMetadata then u64 (protected_cap mainCacheSize - 1) else protected_cap mainCacheSize in
    match NewClock (Z.to_nat (windowSize + mainCacheSize)) reserveMetadata with
    | Val cBuff => Val (mkW cBuff t 0 0 0 windowSize (probation_cap mainCacheSize) protectedCap)
    | Err e => Panic (Message e)
    | Panic m => Panic m
    | Blocked => Blocked
    | OutOfFuel => OutOfFuel
    end.
