(* ===== verification/WTinyLFUTheorems.v ===== *)
(** * What W-TinyLFU keeps

    The counters of the segments are the numbers of frames in them and stay within
    their capacities, victims that are dirty are on disk before their frames are
    reused, and the two ways in which frames get lost. *)

From S2P Require Import Prelude Keys Files Helpers Disk FreeList Page Pager TinyLFU TinyLFUTheorems Clock ClockTheorems WTinyLFU.
Local Open Scope Z_scope.

(** ** The pool as frames in segments *)

Definition fsc (c : clock) : list (Frame * SegmentType) := (fun e => (entry e, segtype e)) <$> bPool c.
Definition fs (p : pool) : list (Frame * SegmentType) := fsc (clock_of p).

Definition in_seg (s : SegmentType) (x : Frame * SegmentType) : Z := if decide (x.2 = s) then 1 else 0.
Definition scnt (s : SegmentType) (l : list (Frame * SegmentType)) : Z := Z.of_nat (length (filter (fun x => x.2 = s) l)).

Lemma scnt_cons s x l : scnt s (x :: l) = in_seg s x + scnt s l.
Proof. unfold scnt, in_seg. rewrite filter_cons. case_decide; cbn [length]; lia. Qed.

Lemma scnt_app s l1 l2 : scnt s (l1 ++ l2) = scnt s l1 + scnt s l2.
Proof. unfold scnt. rewrite filter_app, length_app. lia. Qed.

Lemma scnt_insert s l i x y : l !! i = Some x -> scnt s (<[i := y]> l) = scnt s l - in_seg s x + in_seg s y.
Proof.
  intros Hx. pose proof (take_drop_middle l i x Hx) as Hl.
  rewrite insert_take_drop by (by eapply lookup_lt_Some). rewrite <- Hl at 3. rewrite !scnt_app, !scnt_cons. lia.
Qed.

Lemma scnt_pos s l i x : l !! i = Some x -> x.2 = s -> 0 < scnt s l.
Proof.
  intros Hx Hs. rewrite <- (take_drop_middle l i x Hx), scnt_app, scnt_cons. unfold in_seg. rewrite decide_True by done.
  unfold scnt. lia.
Qed.

Lemma scnt_nonneg s l : 0 <= scnt s l.
Proof. unfold scnt. lia. Qed.

(** One entry replaced. *)
Definition put_entry (i : nat) (e : clockentry) (c : clock) : clock := set_bPool (<[i := e]> (bPool c)) c.

Lemma put_entry_twice i e e' c : put_entry i e (put_entry i e' c) = put_entry i e c.
Proof. unfold put_entry. cbn. by rewrite list_insert_insert_eq. Qed.

Lemma put_entry_comm i j e e' e'' c : i <> j -> put_entry i e (put_entry j e' (put_entry i e'' c)) = put_entry j e' (put_entry i e (put_entry i e'' c)).
Proof. intros Hij. unfold put_entry. cbn. by rewrite list_insert_insert_ne. Qed.

Lemma put_entry_eq i e x c : bPool c !! i = Some x -> bPool (put_entry i e c) !! i = Some e.
Proof. intros Hx. cbn. apply list_lookup_insert_eq. by eapply lookup_lt_Some. Qed.

Lemma put_entry_ne i j e c : i <> j -> bPool (put_entry i e c) !! j = bPool c !! j.
Proof. intros Hx. cbn. by apply list_lookup_insert_ne. Qed.

Lemma fsc_put i e c : fsc (put_entry i e c) = <[i := (entry e, segtype e)]> (fsc c).
Proof. unfold fsc. cbn. by rewrite list_fmap_insert. Qed.

Lemma fsc_lookup c i e : bPool c !! i = Some e -> fsc c !! i = Some (entry e, segtype e).
Proof. intros He. unfold fsc. by rewrite list_lookup_fmap, He. Qed.

Lemma pool_ok_put i e c : pool_ok c -> pins_ok e -> pool_ok (put_entry i e c).
Proof. intros [[Hl Hh] Hp] He. split; [split; cbn; [by rewrite length_insert|done]|]. by apply Forall_insert. Qed.

Lemma pool_ok_pins c i e : pool_ok c -> bPool c !! i = Some e -> pins_ok e.
Proof. intros [_ Hp] He. rewrite Forall_lookup in Hp. by eapply Hp. Qed.

(** ** Steps on the pool *)

Section Steps.
Context {A B : Type} (f : A -> M pool B) (Q : B -> pool -> Prop) (E : pool -> Prop).

(** An operation on entry [i], and one more on an entry just written. *)
Lemma en_step i (m : M clockentry A) c p e a e' : bPool c !! i = Some e -> m e = (Val a, e') ->
  settles (f a) (set_clock (put_entry i e' c) p) Q E -> settles (on_en i m ≫= f) (set_clock c p) Q E.
Proof.
  intros He Hm Hf. apply settles_bind. unfold settles at 1, on_en, on_clock, zoom, on_entry. cbn. by rewrite He, Hm.
Qed.

Lemma en_again i (m : M clockentry A) c p e a e' x : bPool c !! i = Some x -> m e = (Val a, e') ->
  settles (f a) (set_clock (put_entry i e' c) p) Q E -> settles (on_en i m ≫= f) (set_clock (put_entry i e c) p) Q E.
Proof.
  intros Hx Hm Hf. eapply en_step; [by eapply put_entry_eq|done|]. by rewrite put_entry_twice.
Qed.

End Steps.

(** The same for an operation that ends a call. *)
Lemma en_last {A} i (m : M clockentry A) c p e a e' (Q : A -> pool -> Prop) E x : bPool c !! i = Some x -> m e = (Val a, e') ->
  Q a (set_clock (put_entry i e' c) p) -> settles (on_en i m) (set_clock (put_entry i e c) p) Q E.
Proof.
  intros Hx Hm HQ. unfold settles, on_en, on_clock, zoom, on_entry. cbn [clock_of p_w cBuffer set_clock].
  rewrite (put_entry_eq i e x c Hx), Hm. cbn. unfold put_entry in HQ. by rewrite list_insert_insert_eq.
Qed.

Lemma en_end {A} i (m : M clockentry A) c p e a e' (Q : A -> pool -> Prop) E : bPool c !! i = Some e -> m e = (Val a, e') ->
  Q a (set_clock (put_entry i e' c) p) -> settles (on_en i m) (set_clock c p) Q E.
Proof. intros He Hm HQ. unfold settles, on_en, on_clock, zoom, on_entry. cbn. by rewrite He, Hm. Qed.

(** The entry after [unref] of its last pin. *)
Definition unpinned (e : clockentry) : clockentry := set_marks (ref e) false (set_pins (pinCount e) (S (unpinCount e)) e).

Lemma unref_last e : outstanding e = 1%nat -> unref e = (Val tt, unpinned e).
Proof.
  unfold outstanding, unref, mbind, M_bind, get_state, modify. intros Ho.
  rewrite (proj2 (Nat.leb_gt _ _)) by lia. rewrite Ho. done.
Qed.

Lemma unpinned_ok e : outstanding e = 1%nat -> pins_ok (unpinned e).
Proof. unfold pins_ok, outstanding. cbn. intros. split; [lia|]. split; [done|lia]. Qed.

Lemma victim_outstanding seg c v e : pool_ok c -> bPool c !! v = Some e -> eligible seg e = true -> outstanding (victim e) = 1%nat.
Proof.
  intros Hc He Hel. destruct (pool_ok_pins c v e Hc He) as [Hle Hacc]. unfold eligible in Hel.
  destruct (acc e); [by destruct (reserved e)|]. unfold outstanding in *. cbn.
  destruct (pinCount e - unpinCount e)%nat eqn:Ho; [lia|]. destruct Hacc as [_ Hacc]. by discriminate (Hacc ltac:(lia)).
Qed.

(** Entries with the same marks. *)
Definition same_marks (x x' : clockentry) : Prop :=
  markedForEviction x' = markedForEviction x /\ isOccupied x' = isOccupied x /\ reserved x' = reserved x /\ segtype x' = segtype x.

Lemma tick_marks s e : same_marks e (tick s e).
Proof. unfold tick. by destruct (_ && _). Qed.

(** What the rest of an operation knows about a victim. *)
Record taken (seg : SegmentType) (v : nat) (e : clockentry) (c c' : clock) : Prop := {
  tk_before : bPool c !! v = Some e;
  tk_seg : segtype e = seg;
  tk_after : bPool c' !! v = Some (victim e);
  tk_pin : outstanding (victim e) = 1%nat;
  tk_ok : pool_ok c';
  tk_fs : fsc c' = fsc c;
  tk_pinned : forall i x, acc x = true -> bPool c !! i = Some x -> bPool c' !! i = Some x;
  tk_other : forall i x', i <> v -> bPool c' !! i = Some x' ->
    exists x, bPool c !! i = Some x /\ (forall s, eligible s x' = eligible s x) /\ same_marks x x' }.

Lemma tick_fs s e : entry (tick s e) = entry e /\ segtype (tick s e) = segtype e.
Proof. unfold tick. by destruct (_ && _). Qed.

Lemma evict_taken seg c : pool_ok c -> returns (EvictWithoutClearing seg) c (fun r c' =>
  match r with
  | None => c' = c /\ forall i e, bPool c !! i = Some e -> eligible seg e = false
  | Some v => exists e, eligible seg e = true /\ taken seg v e c c'
  end).
Proof.
  intros Hp. pose proof Hp as [Hc _]. destruct (evict_spec seg c Hc) as (r & c' & He & Hr). exists r, c'. split; [done|].
  destruct r as [v|]; [|done]. pose proof (pool_ok_evict _ _ _ _ Hp He) as Hp'.
  destruct Hr as ((_ & e & Hv & Hel & Hv' & Ho) & _). exists e. split; [done|]. split; try done.
  - unfold eligible in Hel. rewrite !andb_true_iff in Hel. destruct Hel as [_ Hs]. by apply bool_decide_eq_true in Hs.
  - exact (victim_outstanding seg c v e Hp Hv Hel).
  - unfold fsc. apply list_eq. intros i. rewrite !list_lookup_fmap. destruct (decide (i = v)) as [->|Hne]; [by rewrite Hv', Hv|].
    destruct (Ho i Hne) as [H|H]; rewrite H; [done|]. destruct (bPool c !! i) as [x|]; [|done]. cbn.
    destruct (tick_fs seg x) as [-> ->]. done.
  - intros i x Ha Hx. destruct (decide (i = v)) as [->|Hne].
    + exfalso. rewrite Hv in Hx. injection Hx as ->. unfold eligible in Hel. rewrite Ha in Hel. by destruct (reserved x).
    + destruct (Ho i Hne) as [H|H]; rewrite H, Hx; [done|]. cbn. rewrite tick_id; [done|]. left. unfold eligible. rewrite Ha.
      by destruct (reserved x).
  - intros i x' Hne Hx'. destruct (Ho i Hne) as [H|H]; rewrite H in Hx'; [by exists x'|].
    apply fmap_Some in Hx' as (x & Hx & ->). exists x. split; [done|]. split; [intros s; apply eligible_tick|apply tick_marks].
Qed.

Lemma taken_lookup seg v e c c' i x : taken seg v e c c' -> i <> v -> bPool c !! i = Some x ->
  exists x', bPool c' !! i = Some x' /\ forall s, eligible s x' = eligible s x.
Proof.
  intros Ht Hi Hx. assert (is_Some (fsc c' !! i)) as [y Hy] by (rewrite (tk_fs _ _ _ _ _ Ht); apply fsc_lookup in Hx; by eexists).
  unfold fsc in Hy. rewrite list_lookup_fmap in Hy. apply fmap_Some in Hy as (x' & Hx' & _). exists x'. split; [done|].
  destruct (tk_other _ _ _ _ _ Ht i x' Hi Hx') as (z & Hz & He & _). congruence.
Qed.

(** No new eviction mark on entry [i]; its occupancy is the same while it is in a
    segment, and a free entry is not newly occupied. *)
Definition calm_entry (x x' : clockentry) : Prop :=
  (markedForEviction x' = true -> markedForEviction x = true) /\
  (segtype x' <> unassigned -> isOccupied x' = isOccupied x) /\
  (segtype x' = unassigned -> isOccupied x' = true -> isOccupied x = true /\ segtype x = unassigned) /\
  reserved x' = reserved x.
Ltac calm_marks := split_and!; cbn; intros; congruence.
Definition calm_at (c c' : clock) (i : nat) : Prop :=
  forall x', bPool c' !! i = Some x' -> exists x, bPool c !! i = Some x /\ calm_entry x x'.
Definition calm (c c' : clock) : Prop := forall i, calm_at c c' i.

(** Marks are compared through the sweeps of an operation. *)
Definition marks_at (c c' : clock) (i : nat) : Prop :=
  forall x', bPool c' !! i = Some x' -> exists x, bPool c !! i = Some x /\ same_marks x x'.

Lemma marks_at_taken seg v e c c' i : taken seg v e c c' -> i <> v -> marks_at c c' i.
Proof.
  intros Ht Hi x' Hx'. destruct (tk_other _ _ _ _ _ Ht i x' Hi Hx') as (x & Hx & _ & Hm). by exists x.
Qed.

Lemma marks_at_trans c c1 c2 i : marks_at c c1 i -> marks_at c1 c2 i -> marks_at c c2 i.
Proof.
  intros H1 H2 z Hz. destruct (H2 z Hz) as (y & Hy & Hm & Ho & Hr). destruct (H1 y Hy) as (x & Hx & Hm' & Ho' & Hr').
  exists x. split; [done|]. unfold same_marks. rewrite Hm, Ho. destruct Hr as [-> ->]. by destruct Hr' as [-> ->].
Qed.

Lemma calm_at_marks c c' i : marks_at c c' i -> calm_at c c' i.
Proof.
  intros H x' Hx'. destruct (H x' Hx') as (x & Hx & Hm & Ho & Hr & Hs). exists x. split; [done|]. unfold calm_entry. by rewrite Hm, Ho, Hr, Hs.
Qed.

Lemma calm_at_taken seg v e c c' i : taken seg v e c c' -> i <> v -> calm_at c c' i.
Proof. intros. by eapply calm_at_marks, marks_at_taken. Qed.

Lemma calm_refl c i : calm_at c c i.
Proof. intros x Hx. by exists x. Qed.

Lemma calm_at_put_ne v e' c c1 i : i <> v -> calm_at c c1 i -> calm_at c (put_entry v e' c1) i.
Proof. intros Hi Hc x'. rewrite put_entry_ne by done. apply Hc. Qed.

Lemma calm_at_put v e' c c1 x : bPool c !! v = Some x -> calm_entry x e' -> calm_at c (put_entry v e' c1) v.
Proof.
  intros Hx He x' Hx'. cbn in Hx'. apply list_lookup_insert_Some in Hx' as [(_ & <- & _)|[Hn _]]; [|done]. by exists x.
Qed.

(** Two entries replaced. *)
Lemma calm_put2 i j ei ej c c1 x y :
  (forall k, k <> i -> k <> j -> calm_at c c1 k) -> bPool c !! i = Some x -> calm_entry x ei ->
  bPool c !! j = Some y -> calm_entry y ej -> i <> j -> calm c (put_entry i ei (put_entry j ej c1)).
Proof.
  intros Hc Hx Hex Hy Hey Hij k. destruct (decide (k = i)) as [->|Hki]; [by eapply calm_at_put|].
  apply calm_at_put_ne; [done|]. destruct (decide (k = j)) as [->|Hkj]; [by eapply calm_at_put|].
  apply calm_at_put_ne; [done|]. by apply Hc.
Qed.

Lemma calm_put v e' c c1 x :
  (forall k, k <> v -> calm_at c c1 k) -> bPool c !! v = Some x -> calm_entry x e' -> calm c (put_entry v e' c1).
Proof.
  intros Hc Hx He k. destruct (decide (k = v)) as [->|Hk]; [by eapply calm_at_put|]. apply calm_at_put_ne; [done|]. by apply Hc.
Qed.

Lemma evict_step {B} seg (f : option nat -> M pool B) c p Q E : pool_ok c ->
  ((forall i e, bPool c !! i = Some e -> eligible seg e = false) -> settles (f None) (set_clock c p) Q E) ->
  (forall v e c', eligible seg e = true -> taken seg v e c c' -> settles (f (Some v)) (set_clock c' p) Q E) ->
  settles (on_clock (EvictWithoutClearing seg) ≫= f) (set_clock c p) Q E.
Proof.
  intros Hp H0 H1. destruct (evict_taken seg c Hp) as (r & c' & He & Hr). apply settles_bind.
  unfold settles at 1, on_clock, zoom. change (clock_of (set_clock c p)) with c. rewrite He.
  change (set_clock c' (set_clock c p)) with (set_clock c' p). destruct r as [v|].
  - destruct Hr as (e & Hel & Ht). by eapply H1.
  - destruct Hr as [-> Hno]. by apply H0.
Qed.

Lemma en_get {A B} i (g : clockentry -> A) (f : A -> M pool B) c p e Q E : bPool c !! i = Some e ->
  settles (f (g e)) (set_clock c p) Q E -> settles (on_en i (gets g) ≫= f) (set_clock c p) Q E.
Proof.
  intros He Hf. eapply en_step; [exact He|reflexivity|]. unfold put_entry. rewrite list_insert_id by done. by destruct c.
Qed.

Lemma set_clock_id p : set_clock (clock_of p) p = p.
Proof. by destruct p as [[]]. Qed.

Lemma CAS_eq old s e : segtype e = old -> updateSegmentCAS old s e = (Val true, set_seg s e).
Proof. intros <-. unfold updateSegmentCAS, mbind, M_bind, get_state. by rewrite decide_True. Qed.

Lemma fsc_entry c i f s : fsc c !! i = Some (f, s) -> exists e, bPool c !! i = Some e /\ entry e = f /\ segtype e = s.
Proof.
  unfold fsc. rewrite list_lookup_fmap. destruct (bPool c !! i) as [e|]; [|done]. cbn. intros [= <- <-]. eauto.
Qed.

Lemma gets_step {A B} (g : pool -> A) (f : A -> M pool B) p Q E :
  settles (f (g p)) p Q E -> settles (gets g ≫= f) p Q E.
Proof. done. Qed.

Lemma counts_step {B} dw dpb dpt (f : unit -> M pool B) c p wc pbc ptc Q E :
  wc = u64 (windowCount (p_w p) + dw) -> pbc = u64 (probationCount (p_w p) + dpb) -> ptc = u64 (protectedCount (p_w p) + dpt) ->
  settles (f tt) (set_clock c (set_counts wc pbc ptc p)) Q E ->
  settles (add_counts dw dpb dpt ≫= f) (set_clock c p) Q E.
Proof. intros -> -> -> H. exact H. Qed.

Lemma counts_last dw dpb dpt c p wc pbc ptc (Q : unit -> pool -> Prop) E :
  wc = u64 (windowCount (p_w p) + dw) -> pbc = u64 (probationCount (p_w p) + dpb) -> ptc = u64 (protectedCount (p_w p) + dpt) ->
  Q tt (set_clock c (set_counts wc pbc ptc p)) -> settles (add_counts dw dpb dpt) (set_clock c p) Q E.
Proof. intros -> -> -> H. exact H. Qed.

(** ** The invariant *)

Section Invariant.
Context (Sum64 : bytes -> Z).

Definition frame_ok (x : Frame * SegmentType) : Prop :=
  length (pgeData (f_page x.1)) = DM_PAGE /\ addressable (f_key x.1).

Definition counts_ok (w : WTinyLfu) (l : list (Frame * SegmentType)) : Prop :=
  windowCount w = scnt windowSegment l /\ probationCount w = scnt probationSegment l /\
  protectedCount w = scnt protectedSegment l /\
  windowCount w <= windowCapacity w < 2 ^ 63 /\ probationCount w <= probationCapacity w < 2 ^ 63 /\
  protectedCount w <= protectedCapacity w < 2 ^ 63.

(** The sketch answers queries and does not change by them. *)
Definition readable (t : TinyLFU) : Prop := forall key, exists n, CheckItemCount Sum64 key t = (Val n, t).

Record wt_ok (p : pool) : Prop := {
  wo_pool : pool_ok (clock_of p);
  wo_counts : counts_ok (p_w p) (fs p);
  wo_frames : Forall frame_ok (fs p);
  wo_idle : idle (dManager (p_pager p));
  wo_filter : readable (tinyFilter (p_w p)) }.

Lemma wt_ok_clock c p : wt_ok p -> pool_ok c -> fsc c = fs p -> wt_ok (set_clock c p).
Proof.
  intros [H1 H2 H3 H4 H5] Hc Hf. split; try done.
  - unfold fs. change (clock_of (set_clock c p)) with c. by rewrite Hf.
  - unfold fs. change (clock_of (set_clock c p)) with c. by rewrite Hf.
Qed.

(** Frames stay what they are, entries move between segments. *)
Definition same_frames (p p' : pool) : Prop := (fs p').*1 = (fs p).*1.

Lemma moved_frames (l : list (Frame * SegmentType)) i f s s' : l !! i = Some (f, s) -> (<[i := (f, s')]> l).*1 = l.*1.
Proof. intros Hi. rewrite list_fmap_insert. cbn. apply list_insert_id. by rewrite list_lookup_fmap, Hi. Qed.

Lemma frames_moved l i f s s' : l !! i = Some (f, s) -> Forall frame_ok l -> Forall frame_ok (<[i := (f, s')]> l).
Proof. intros Hi Hl. apply Forall_insert; [done|]. rewrite Forall_lookup in Hl. exact (Hl i _ Hi). Qed.

Ltac in_segs := unfold in_seg in *; cbn [snd] in *; repeat (case_decide; try congruence).

(** *** Promotion *)

(** One entry changed its segment, and the counters with it. *)
Lemma wt_ok_moved p c wc pbc ptc i f s s' : wt_ok p -> fs p !! i = Some (f, s) -> pool_ok c -> fsc c = <[i := (f, s')]> (fs p) ->
  wc = windowCount (p_w p) - in_seg windowSegment (f, s) + in_seg windowSegment (f, s') ->
  pbc = probationCount (p_w p) - in_seg probationSegment (f, s) + in_seg probationSegment (f, s') ->
  ptc = protectedCount (p_w p) - in_seg protectedSegment (f, s) + in_seg protectedSegment (f, s') ->
  wc <= windowCapacity (p_w p) -> pbc <= probationCapacity (p_w p) -> ptc <= protectedCapacity (p_w p) ->
  wt_ok (set_clock c (set_counts wc pbc ptc p)) /\ same_frames p (set_clock c (set_counts wc pbc ptc p)).
Proof.
  intros [Hp (Hw & Hpb & Hpt & Bw & Bpb & Bpt) Hfr Hidle Hfil] Hi Hc Hf Ew Epb Ept Cw Cpb Cpt.
  assert (Hfs : fs (set_clock c (set_counts wc pbc ptc p)) = <[i := (f, s')]> (fs p)) by done.
  split; [split; try done|]; rewrite ?Hfs.
  - unfold counts_ok. cbn. rewrite !(scnt_insert _ _ _ _ _ Hi). lia.
  - by eapply frames_moved.
  - unfold same_frames. rewrite Hfs. by eapply moved_frames.
Qed.

Lemma count_u64 n d : 0 <= n + d < 2 ^ 64 -> n + d = u64 (n + d).
Proof. intros. symmetry. by apply u64_small. Qed.

(** The same frames are free. *)
Definition free_at (l : list (Frame * SegmentType)) (i : nat) : Prop := (l !! i) ≫= (fun x => Some x.2) = Some unassigned.
Definition same_free (p p' : pool) : Prop := forall i, free_at (fs p') i <-> free_at (fs p) i.

Lemma free_moved l i f s s' j : l !! i = Some (f, s) -> s <> unassigned -> s' <> unassigned ->
  free_at (<[i := (f, s')]> l) j <-> free_at l j.
Proof.
  intros Hi Hs Hs'. unfold free_at. destruct (decide (i = j)) as [->|]; [|by rewrite list_lookup_insert_ne].
  rewrite list_lookup_insert_eq, Hi by (by eapply lookup_lt_Some). cbn. naive_solver.
Qed.

(** Pinned entries keep their pins. *)
Definition pins_kept (c c' : clock) : Prop := forall i e, acc e = true -> bPool c !! i = Some e ->
  exists e', bPool c' !! i = Some e' /\ outstanding e' = outstanding e.

(** What else promotion keeps. *)
Definition promoted (p p' : pool) : Prop :=
  calm (clock_of p) (clock_of p') /\ same_free p p' /\ p_table p' = p_table p /\ p_pager p' = p_pager p /\
  tinyFilter (p_w p') = tinyFilter (p_w p) /\ pins_kept (clock_of p) (clock_of p').

Lemma promoted_refl p : promoted p p.
Proof. split_and!; try done; [intros i; apply calm_refl|]. intros i e _ He. by exists e. Qed.

Lemma promote_settles p en e : wt_ok p -> bPool (clock_of p) !! en = Some e ->
  settles (promoteToProtected en) p (fun _ p' => wt_ok p' /\ same_frames p p' /\ promoted p p') (fun p' => p' = p).
Proof.
  intros Hok He. pose proof Hok as [Hp (Hw & Hpb & Hpt & Bw & Bpb & Bpt) _ _ _].
  rewrite <- (set_clock_id p) at 1. unfold promoteToProtected.
  apply (en_get en segtype) with (e := e); [done|]. case_bool_decide as Hseg; cbn [negb].
  2:{ rewrite set_clock_id. split; [done|]. split; [done|apply promoted_refl]. }
  apply gets_step. cbn [p_w set_clock protectedCount protectedCapacity].
  pose proof (fsc_lookup _ en e He) as Hfs. rewrite Hseg in Hfs. fold (fs p) in Hfs.
  pose proof (scnt_pos probationSegment (fs p) en _ Hfs eq_refl) as Hpos.
  pose proof (scnt_nonneg windowSegment (fs p)). pose proof (scnt_nonneg protectedSegment (fs p)).
  destruct (Z.ltb_spec (protectedCount (p_w p)) (protectedCapacity (p_w p))).
  - eapply en_step; [exact He|by apply CAS_eq|]. cbn [negb].
    eapply counts_step; [apply count_u64; lia..|]. apply gets_step. cbn [p_w set_clock set_counts probationCount probationCapacity].
    rewrite Z.gtb_ltb, (proj2 (Z.ltb_ge _ _)) by lia. apply settles_returns, returns_ret.
    set (p' := set_clock _ _). assert (wt_ok p' /\ same_frames p p') as [Ho Hs].
    { apply (wt_ok_moved p) with (i := en) (f := entry e) (s := probationSegment) (s' := protectedSegment); [done|exact Hfs| |rewrite fsc_put; done|in_segs; lia..|lia|lia|lia].
      apply pool_ok_put; [done|]. exact (pool_ok_pins _ _ _ Hp He). }
    split; [done|]. split; [done|]. split_and!; try done.
    + eapply calm_put; [intros; apply calm_refl|exact He|done].
    + intros j. change (fs p') with (fsc (put_entry en (set_seg protectedSegment e) (clock_of p))). rewrite fsc_put. by eapply free_moved.
    + intros j x _ Hx. destruct (decide (j = en)) as [->|Hj].
      * rewrite He in Hx. injection Hx as <-. eexists. split; [by eapply put_entry_eq|done].
      * exists x. split; [|done]. change (bPool (put_entry en (set_seg protectedSegment e) (clock_of p)) !! j = Some x). by rewrite put_entry_ne.
  - apply evict_step; [done| |].
    + intros _. unfold settles. cbn. by rewrite set_clock_id.
    + intros v e1 c1 Hel Htk. pose proof Htk as [Hv Hsv Hv1 Hpin Hc1 Hf1 _ _]. destruct (Nat.eqb_spec v en) as [->|Hne]; [congruence|].
      destruct (fsc_entry c1 en (entry e) probationSegment) as (x & Hx & Hxe & Hxs); [by rewrite Hf1|].
      eapply en_step; [exact Hv1|by apply CAS_eq|]. eapply en_step; [rewrite put_entry_ne by done; exact Hx|by apply CAS_eq|].
      eapply en_step; [rewrite put_entry_ne by done; by eapply put_entry_eq|reflexivity|].
      eapply en_last; [rewrite put_entry_ne by done; by eapply put_entry_eq|by apply unref_last|].
      set (c2 := put_entry v _ _).
      assert (fsc c2 = <[en := (entry e, protectedSegment)]> (<[v := (entry e1, probationSegment)]> (fs p))) as Hf2.
      { unfold c2. rewrite !fsc_put, Hf1. cbn. rewrite Hxe.
        rewrite (list_insert_insert_ne _ v en) by done. by rewrite !list_insert_insert_eq. }
      assert (Hfv : fs p !! v = Some (entry e1, protectedSegment)) by (rewrite <- Hsv; by apply fsc_lookup).
      assert (Hfs2 : <[v := (entry e1, probationSegment)]> (fs p) !! en = Some (entry e, probationSegment))
        by (by rewrite list_lookup_insert_ne).
      split; [split; [| | |apply Hok|apply Hok]|split; [|split_and!; try done]].
      * unfold c2. repeat apply pool_ok_put; try done; try (by apply unpinned_ok);
          [exact (pool_ok_pins _ _ _ Hc1 Hv1)|exact (pool_ok_pins _ _ _ Hc1 Hx)].
      * change (fs (set_clock c2 p)) with (fsc c2). rewrite Hf2. unfold counts_ok. cbn.
        rewrite !(scnt_insert _ _ _ _ _ Hfs2), !(scnt_insert _ _ _ _ _ Hfv). in_segs. lia.
      * change (fs (set_clock c2 p)) with (fsc c2). rewrite Hf2. eapply frames_moved; [exact Hfs2|]. eapply frames_moved; [exact Hfv|apply Hok].
      * unfold same_frames. change (fs (set_clock c2 p)) with (fsc c2). rewrite Hf2.
        rewrite (moved_frames _ _ _ _ _ Hfs2). by rewrite (moved_frames _ _ _ _ _ Hfv).
      * change (calm (clock_of p) c2). unfold c2. destruct (tk_other _ _ _ _ _ Htk en x ltac:(done) Hx) as (x0 & Hx0 & _ & Hm & Ho & Hr & _).
        rewrite (put_entry_comm v en) by done. rewrite !put_entry_twice.
        eapply calm_put2; [|exact Hx0|by unfold calm_entry; cbn; rewrite Hm, Ho, Hr|exact Hv|done|done].
        intros k _ Hk. by eapply calm_at_taken.
      * intros j. change (fs (set_clock c2 p)) with (fsc c2). rewrite Hf2. rewrite (free_moved _ en _ _ _ j Hfs2) by done.
        by eapply free_moved.
      * change (pins_kept (clock_of p) c2). unfold c2. rewrite (put_entry_comm v en) by done. rewrite !put_entry_twice.
        intros j y Hacc Hy. pose proof (tk_pinned _ _ _ _ _ Htk j y Hacc Hy) as Hy1. destruct (decide (j = en)) as [->|Hj].
        { rewrite Hx in Hy1. injection Hy1 as ->. eexists. split; [eapply put_entry_eq; by rewrite put_entry_ne|done]. }
        assert (j <> v) as Hjv. { intros ->. rewrite Hv in Hy. injection Hy as ->. unfold eligible in Hel. rewrite Hacc, andb_false_r in Hel. done. }
        exists y. by rewrite !put_entry_ne.
Qed.

(** *** Dropping a victim *)

(** The data file after the victim [f] with page id [key] was written back. *)
Definition written_back (key : Z) (f : Frame) (fd : bytes) : bytes :=
  if f_dirty f then WriteAt fd (written_page (is_dead (pgeData (f_page f))) (pgeData (f_page f))) (key * 8192) else fd.

Definition freed (x : clockentry) : clockentry := set_evict false (set_frame (frame_Clear (entry x)) (reset_marks x)).

Lemma release_page_total key pgr : exists pgr', release_page key pgr = (Val tt, pgr') /\ dManager pgr' = dManager pgr.
Proof.
  unfold release_page, on_free_list, zoom, fl_add, mbind, M_bind, get_state, put_state, mret, M_ret, modify.
  destruct (pageCount _ >? 0); by eexists.
Qed.

Lemma WritePage_total key buff flush pgr : addressable key -> length buff = DM_PAGE -> idle (dManager pgr) ->
  exists b pgr', WritePage key buff flush pgr = (Val b, pgr') /\ idle (dManager pgr') /\
    d_fd (dManager pgr') = WriteAt (d_fd (dManager pgr)) (written_page (is_dead buff) buff) (key * 8192).
Proof.
  intros Hk Hl Hi. destruct (WritePage_job key buff flush pgr Hk Hl Hi) as (pgr1 & (_ & _ & _ & _ & Hi1 & Hfd) & ->).
  destruct (is_dead buff); [|do 2 eexists; by split].
  destruct (release_page_total key pgr1) as (pgr2 & Hr & Hd). rewrite (bind_Val _ _ _ _ _ Hr).
  do 2 eexists. split; [done|]. by rewrite Hd.
Qed.

Lemma freed_ok x : pins_ok (freed x).
Proof. split; cbn; [lia|]. unfold outstanding. cbn. split; [done|lia]. Qed.

Lemma drop_step {B} v key (f : unit -> M pool B) c p x Q E :
  bPool c !! v = Some x -> length (pgeData (f_page (entry x))) = DM_PAGE -> addressable key -> idle (dManager (p_pager p)) ->
  (forall pgr, idle (dManager pgr) -> d_fd (dManager pgr) = written_back key (entry x) (d_fd (dManager (p_pager p))) ->
    settles (f tt) (set_clock (put_entry v (freed x) c) (set_table (delete key (p_table p)) (set_pager pgr p))) Q E) ->
  settles (drop_victim v key ≫= f) (set_clock c p) Q E.
Proof.
  intros Hx Hl Hk Hi Hf. apply settles_bind. unfold drop_victim. eapply en_get; [exact Hx|]. unfold written_back in Hf.
  apply settles_bind. destruct (f_dirty (entry x)).
  - eapply en_get; [exact Hx|]. destruct (WritePage_total key (pgeData (f_page (entry x))) false (p_pager p) Hk Hl Hi) as (b & pgr & Hw & Hi' & Hfd).
    apply settles_bind. unfold settles at 1, on_pager, zoom. cbn [p_pager set_clock]. rewrite Hw.
    change (set_pager pgr (set_clock c p)) with (set_clock c (set_pager pgr p)).
    eapply en_end; [exact Hx|reflexivity|].
    eapply (settles_after _ _ _ (fun _ p' => p' = set_clock (put_entry v (set_frame (on_page (modify (set_data b)) (entry x)) x) c)
      (set_table (delete key (p_table p)) (set_pager pgr p)))); [by do 2 eexists|]. intros _ ? ->.
    eapply en_again; [exact Hx|reflexivity|]. eapply en_again; [exact Hx|reflexivity|]. eapply en_last; [exact Hx|reflexivity|].
    exact (Hf pgr Hi' Hfd).
  - eapply (settles_after _ _ _ (fun _ p' => p' = set_clock c (set_table (delete key (p_table p)) p))); [by do 2 eexists|]. intros _ ? ->.
    eapply en_step; [exact Hx|reflexivity|]. eapply en_again; [exact Hx|reflexivity|]. eapply en_last; [exact Hx|reflexivity|].
    specialize (Hf (p_pager p) Hi eq_refl). by destruct p as [[] ? ?].
Qed.

(** *** Evicting from the window *)

(** Nothing but the segments changed. *)
Definition frames_kept (p p' : pool) : Prop := same_frames p p' /\ p_table p' = p_table p /\ p_pager p' = p_pager p.

(** One frame of a segment was written back if dirty, and freed. *)
Definition dropped_at (v : nat) (f : Frame) (s : SegmentType) (p p' : pool) : Prop :=
  fs p !! v = Some (f, s) /\ s <> unassigned /\ (fs p').*1 = <[v := frame_Clear f]> (fs p).*1 /\
  p_table p' = delete (f_key f) (p_table p) /\
  d_fd (dManager (p_pager p')) = written_back (f_key f) f (d_fd (dManager (p_pager p))).
Definition frame_dropped (p p' : pool) : Prop := exists v f s, dropped_at v f s p p'.

Definition same_caps (p p' : pool) : Prop :=
  windowCapacity (p_w p') = windowCapacity (p_w p) /\ probationCapacity (p_w p') = probationCapacity (p_w p) /\
  protectedCapacity (p_w p') = protectedCapacity (p_w p) /\ tinyFilter (p_w p') = tinyFilter (p_w p).

Definition made_room (p p' : pool) : Prop :=
  wt_ok p' /\ (frames_kept p p' /\ same_free p p' \/
    exists v f s, dropped_at v f s p p' /\ forall i, free_at (fs p') i <-> i = v \/ free_at (fs p) i) /\ same_caps p p' /\ windowCount (p_w p') = windowCount (p_w p) - 1 /\
  calm (clock_of p) (clock_of p').

(** No entry but [v] is newly marked for eviction, and the other marks are the same. *)
Definition marked_at_most (v : nat) (c c' : clock) : Prop := forall i x', bPool c' !! i = Some x' -> exists x, bPool c !! i = Some x /\
  (markedForEviction x' = true -> markedForEviction x = true \/ i = v) /\ isOccupied x' = isOccupied x /\ reserved x' = reserved x.

(** A refused eviction: frames, table and pager are the same, but the victim that was
    found may stay marked. *)
Definition refused (p p' : pool) : Prop := wt_ok p' /\ frames_kept p p' /\ same_caps p p' /\ fs p' = fs p /\
  exists v, marked_at_most v (clock_of p) (clock_of p').

(** No entry of a segment can be taken: each is pinned, marked or reserved. *)
Definition none_eligible (s : SegmentType) (p : pool) : Prop := forall i e, bPool (clock_of p) !! i = Some e -> eligible s e = false.

(** Why an eviction is refused: the window is full and none of its frames can go, or
    probation is full as well and none of its frames can. *)
Definition starved (p : pool) : Prop := windowCount (p_w p) = windowCapacity (p_w p) /\
  (none_eligible windowSegment p \/ probationCount (p_w p) = probationCapacity (p_w p) /\ none_eligible probationSegment p).

Lemma marked_at_most_refl v c : marked_at_most v c c.
Proof. intros i x Hx. exists x. auto. Qed.

Lemma marked_at_most_taken seg v e c c' : taken seg v e c c' -> marked_at_most v c (put_entry v (unpinned (victim e)) c').
Proof.
  intros Ht i x' Hx'. destruct (decide (i = v)) as [->|Hi].
  - rewrite (put_entry_eq _ _ _ _ (tk_after _ _ _ _ _ Ht)) in Hx'. injection Hx' as <-. exists e. split; [apply Ht|]. auto.
  - rewrite put_entry_ne in Hx' by done. destruct (tk_other _ _ _ _ _ Ht i x' Hi Hx') as (x & Hx & _ & Hm & Ho & Hr & _).
    exists x. rewrite Hm, Ho, Hr. auto.
Qed.

Lemma frame_Clear_ok f s : frame_ok (frame_Clear f, s).
Proof. split; cbn -[replicate Z.to_nat]; [apply length_replicate|]. unfold addressable, MAX_PAGE. lia. Qed.

Lemma made_room_frames p p' : made_room p p' -> frames_kept p p' \/ frame_dropped p p'.
Proof. intros (_ & [[? _]|(v & f & s & ? & _)] & _); [by left|right; by exists v, f, s]. Qed.

Lemma dropped_room p c pgr i j fi fj si sj si' :
  wt_ok p -> i <> j -> fs p !! i = Some (fi, si) -> fs p !! j = Some (fj, sj) -> sj <> unassigned -> pool_ok c ->
  fsc c = <[i := (fi, si')]> (<[j := (frame_Clear fj, unassigned)]> (fs p)) ->
  idle (dManager pgr) -> d_fd (dManager pgr) = written_back (f_key fj) fj (d_fd (dManager (p_pager p))) ->
  in_seg windowSegment (fi, si') = in_seg windowSegment (fi, si) + in_seg windowSegment (fj, sj) - 1 ->
  in_seg probationSegment (fi, si') = in_seg probationSegment (fi, si) + in_seg probationSegment (fj, sj) ->
  in_seg protectedSegment (fi, si') = in_seg protectedSegment (fi, si) + in_seg protectedSegment (fj, sj) ->
  si <> unassigned -> si' <> unassigned -> calm (clock_of p) c ->
  made_room p (set_clock c (set_counts (windowCount (p_w p) - 1) (probationCount (p_w p)) (protectedCount (p_w p))
    (set_table (delete (f_key fj) (p_table p)) (set_pager pgr p)))).
Proof.
  intros [Hp (Hw & Hpb & Hpt & Bw & Bpb & Bpt) Hfr Hidle Hfil] Hij Hi Hj Hsj Hc Hf Hid Hfd Ew Epb Ept Hsi Hsi' Hcalm.
  set (l1 := <[j := (frame_Clear fj, unassigned)]> (fs p)) in *.
  assert (Hi1 : l1 !! i = Some (fi, si)) by (unfold l1; by rewrite list_lookup_insert_ne).
  assert (Hfr1 : Forall frame_ok l1) by (apply Forall_insert; [done|apply frame_Clear_ok]).
  set (p' := set_clock _ _). assert (Hfs : fs p' = <[i := (fi, si')]> l1) by exact Hf.
  split; [split; try done|split; [right|done]].
  - rewrite Hfs. unfold counts_ok. cbn. unfold l1. rewrite !(scnt_insert _ _ _ _ _ Hi1). unfold l1. rewrite !(scnt_insert _ _ _ _ _ Hj).
    assert (forall s, s <> unassigned -> in_seg s (frame_Clear fj, unassigned) = 0) as Hz
      by (intros s Hs; unfold in_seg; cbn [snd]; by rewrite decide_False).
    rewrite !Hz by done. lia.
  - rewrite Hfs. by eapply frames_moved.
  - exists j, fj, sj. split; [split_and!; try done; rewrite Hfs, (moved_frames _ _ _ _ _ Hi1); unfold l1; by rewrite list_fmap_insert|].
    intros k. rewrite Hfs, (free_moved _ _ _ _ _ k Hi1) by done. unfold l1, free_at. destruct (decide (k = j)) as [->|Hkj].
    + rewrite list_lookup_insert_eq by (by eapply lookup_lt_Some). naive_solver.
    + rewrite list_lookup_insert_ne by done. naive_solver.
Qed.

Lemma check_step {B} key (f : Z + error -> M pool B) c p Q E : readable (tinyFilter (p_w p)) ->
  (forall n, settles (f (inl n)) (set_clock c p) Q E) ->
  settles (catch (on_filter (CheckItemCount Sum64 key)) ≫= f) (set_clock c p) Q E.
Proof.
  intros Hr Hf. destruct (Hr key) as [n Hn]. apply settles_bind. unfold settles at 1, catch, on_filter, zoom.
  cbn [p_w tinyFilter set_clock]. rewrite Hn. specialize (Hf n). by destruct p as [[] ? ?].
Qed.

Lemma between_settles p c wv pv x y : wt_ok p -> pool_ok c -> fsc c = fs p ->
  bPool c !! wv = Some x -> segtype x = windowSegment -> outstanding x = 1%nat ->
  bPool c !! pv = Some y -> segtype y = probationSegment -> outstanding y = 1%nat ->
  (forall i, i <> wv -> i <> pv -> calm_at (clock_of p) c i) ->
  (exists x0, bPool (clock_of p) !! wv = Some x0 /\ isOccupied x = isOccupied x0 /\ reserved x = reserved x0) ->
  (exists y0, bPool (clock_of p) !! pv = Some y0 /\ isOccupied y = isOccupied y0 /\ reserved y = reserved y0) ->
  settles (evict_between Sum64 wv pv) (set_clock c p) (fun _ p' => made_room p p') (fun _ => False).
Proof.
  intros Hok Hc Hf Hx Hxs Hxo Hy Hys Hyo Hcalm (x0 & Hx0 & Hxoc & Hxr) (y0 & Hy0 & Hyoc & Hyr). pose proof Hok as [_ (Hw & Hpb & Hpt & Bw & Bpb & Bpt) Hfr Hidle Hfil].
  assert (Hne : wv <> pv) by congruence.
  pose proof (fsc_lookup c wv x Hx) as Fx. pose proof (fsc_lookup c pv y Hy) as Fy. rewrite Hf, Hxs in Fx. rewrite Hf, Hys in Fy.
  rewrite Forall_lookup in Hfr. destruct (Hfr wv _ Fx) as [Lx Kx]. destruct (Hfr pv _ Fy) as [Ly Ky]. cbn [fst] in *.
  pose proof (scnt_pos windowSegment (fs p) wv _ Fx eq_refl). pose proof (scnt_nonneg probationSegment (fs p)).
  pose proof (scnt_nonneg protectedSegment (fs p)).
  unfold evict_between. eapply en_get; [exact Hx|]. apply check_step; [done|]. intros n1. cbv beta iota.
  eapply en_get; [exact Hy|]. apply check_step; [done|]. intros n2. cbv beta iota. destruct (n1 >=? n2).
  - eapply drop_step; [exact Hy|done|done|done|]. intros pgr Hid Hfd.
    eapply en_step; [rewrite put_entry_ne by done; exact Hx|by apply CAS_eq|].
    eapply en_again; [rewrite put_entry_ne by done; exact Hx|reflexivity|].
    eapply en_again; [rewrite put_entry_ne by done; exact Hx|by apply unref_last|].
    eapply counts_last; [by apply count_u64; cbn; lia|symmetry; cbn; rewrite Z.add_0_r; apply u64_small; lia..|].
    eapply (dropped_room p _ pgr wv pv); try done; [|by rewrite !fsc_put, Hf|in_segs; lia..|].
    + repeat apply pool_ok_put; [done|apply freed_ok|by apply unpinned_ok].
    + eapply calm_put2; [done|exact Hx0|calm_marks|exact Hy0|calm_marks|done].
  - eapply drop_step; [exact Hx|done|done|done|]. intros pgr Hid Hfd.
    eapply en_step; [rewrite put_entry_ne by done; exact Hy|reflexivity|].
    eapply en_again; [rewrite put_entry_ne by done; exact Hy|by apply unref_last|].
    eapply counts_last; [by apply count_u64; cbn; lia|symmetry; cbn; rewrite Z.add_0_r; apply u64_small; lia..|].
    eapply (dropped_room p _ pgr pv wv); try done; [|rewrite !fsc_put, Hf; cbn; by rewrite Hys|in_segs; lia..|].
    + repeat apply pool_ok_put; [done|apply freed_ok|by apply unpinned_ok].
    + eapply calm_put2; [intros; by apply Hcalm|exact Hy0|calm_marks|exact Hx0|calm_marks|done].
Qed.

Lemma refused_clock p c v : wt_ok p -> pool_ok c -> fsc c = fs p -> marked_at_most v (clock_of p) c -> refused p (set_clock c p).
Proof.
  intros Hok Hc Hf Hm. split; [by apply wt_ok_clock|]. split; [|split; [done|split; [done|by exists v]]]. split; [|done].
  unfold same_frames, fs at 1. cbn. by rewrite Hf.
Qed.

(** The victim that was found is let go, but stays marked. *)
Lemma refused_victim seg p v e c : wt_ok p -> taken seg v e (clock_of p) c -> refused p (set_clock (put_entry v (unpinned (victim e)) c) p).
Proof.
  intros Hok Htk. pose proof Htk as [Hv Hsv Hv1 Hpin Hc1 Hf1 _ _].
  eapply (refused_clock _ _ v); [done|apply pool_ok_put; [done|by apply unpinned_ok]| |by eapply marked_at_most_taken].
  rewrite fsc_put, Hf1. cbn. apply list_insert_id. by apply fsc_lookup.
Qed.

Lemma demote_settles p : wt_ok p -> probationCount (p_w p) < probationCapacity (p_w p) -> windowCount (p_w p) = windowCapacity (p_w p) ->
  settles demote_window p (fun _ p' => made_room p p') (fun p' => refused p p' /\ starved p).
Proof.
  intros Hok Hlt Hfull. pose proof Hok as [Hp (Hw & Hpb & Hpt & Bw & Bpb & Bpt) _ _ _].
  rewrite <- (set_clock_id p) at 1. unfold demote_window. apply evict_step; [done| |].
  - intros Hnone. split; [|split; [done|by left]]. by apply (refused_clock _ _ 0), marked_at_most_refl.
  - intros v e c1 Hel Htk. pose proof Htk as [Hv Hsv Hv1 Hpin Hc1 Hf1 _ _].
    pose proof (fsc_lookup _ v e Hv) as Fv. rewrite Hsv in Fv. fold (fs p) in Fv.
    pose proof (scnt_pos windowSegment (fs p) v _ Fv eq_refl). pose proof (scnt_nonneg probationSegment (fs p)).
    pose proof (scnt_nonneg protectedSegment (fs p)).
    eapply en_step; [exact Hv1|by apply CAS_eq|]. eapply counts_step; [apply count_u64; lia..|].
    apply gets_step. cbn [p_w set_clock set_counts probationCount probationCapacity].
    rewrite Z.gtb_ltb, (proj2 (Z.ltb_ge _ _)) by lia. eapply en_again; [exact Hv1|reflexivity|].
    eapply en_last; [exact Hv1|by apply unref_last|]. rewrite Z.add_0_r.
    destruct (wt_ok_moved p (put_entry v (unpinned (set_evict false (set_seg probationSegment (victim e)))) c1)
      (windowCount (p_w p) + -1) (probationCount (p_w p) + 1) (protectedCount (p_w p)) v (entry e) windowSegment probationSegment) as [Ho Hs];
      [done|done|apply pool_ok_put; [done|by apply unpinned_ok]|by rewrite fsc_put, Hf1|in_segs; lia..|lia|lia|lia|].
    split; [done|]. split; [left; split; [done|]|].
    { intros j. set (p' := set_clock _ _). change (fs p') with (fsc (put_entry v (unpinned (set_evict false (set_seg probationSegment (victim e)))) c1)).
      rewrite fsc_put, Hf1. by eapply free_moved. }
    split; [done|]. split; [cbn; lia|]. eapply calm_put; [|exact Hv|done]. intros k Hk. by eapply calm_at_taken.
Qed.

Lemma evictWindow_settles p : wt_ok p -> windowCapacity (p_w p) = windowCount (p_w p) ->
  settles (evictWindow Sum64) p (fun _ p' => made_room p p') (fun p' => refused p p' /\ starved p).
Proof.
  intros Hok Hfull. pose proof Hok as [Hp (Hw & Hpb & Hpt & Bw & Bpb & Bpt) _ _ _]. unfold evictWindow. apply gets_step.
  rewrite Z.gtb_ltb, (proj2 (Z.ltb_ge _ _)) by lia. rewrite (proj2 (Z.ltb_ge _ _)) by lia.
  destruct (Z.geb_spec (probationCount (p_w p)) (probationCapacity (p_w p))); [|by apply demote_settles; [|lia|lia]].
  rewrite <- (set_clock_id p) at 1. apply evict_step; [done| |].
  - intros Hnone. assert (starved p) as Hst by (split; [done|by left]).
    apply evict_step; [done|intros _; split; [|done]; by apply (refused_clock _ _ 0), marked_at_most_refl|].
    intros v e c1 Hel Htk. pose proof Htk as [_ _ Hv1 Hpin _ _ _ _]. eapply en_step; [exact Hv1|by apply unref_last|].
    split; [|done]. by eapply refused_victim.
  - intros wv e c1 Hel Htk1. pose proof Htk1 as [Hv Hsv Hv1 Hpin Hc1 Hf1 Hpd1 _]. apply evict_step; [done| |].
    + intros Hnone. eapply en_step; [exact Hv1|by apply unref_last|]. split; [by eapply refused_victim|].
      split; [done|]. right. split; [lia|]. intros i x Hx. destruct (decide (i = wv)) as [->|Hi].
      * rewrite Hv in Hx. injection Hx as <-. unfold eligible. rewrite Hsv, (bool_decide_false (windowSegment = _)) by done. by rewrite andb_false_r.
      * destruct (taken_lookup _ _ _ _ _ i x Htk1 Hi Hx) as (x' & Hx' & <-). by apply (Hnone i).
    + intros pv e2 c2 Hel2 Htk2. pose proof Htk2 as [Hv2 Hsv2 Hv3 Hpin2 Hc2 Hf2 Hpd2 _].
      assert (pv <> wv) as Hne. { intros ->. rewrite Hv1 in Hv2. injection Hv2 as <-. unfold eligible in Hel2. cbn in Hel2. by rewrite andb_false_r in Hel2. }
      eapply settles_mono; [| |apply (between_settles p c2 wv pv (victim e) (victim e2))]; try done; [by rewrite Hf2|by apply Hpd2| |by exists e|].
      * intros i H1 H2. apply calm_at_marks. eapply marks_at_trans; by eapply marks_at_taken.
      * destruct (marks_at_taken _ _ _ _ _ pv Htk1 Hne e2 Hv2) as (y0 & Hy0 & _ & Ho & Hr & _). by exists y0.
Qed.

(** *** A free frame *)

(** The frame handed out: it was free, belongs to the window now, and is pinned once. *)
Definition handed_out (en : nat) (p' : pool) : Prop := exists e,
  bPool (clock_of p') !! en = Some e /\ segtype e = windowSegment /\ markedForEviction e = true /\
  acc e = true /\ outstanding e = 1%nat.

(** The free frame [en] of [p1] moved to the window. *)
Definition given (p1 : pool) (en : nat) (p' : pool) : Prop := exists e,
  bPool (clock_of p1) !! en = Some e /\ eligible unassigned e = true /\
  bPool (clock_of p') !! en = Some (set_seg windowSegment (victim e)) /\
  fs p' = <[en := (entry e, windowSegment)]> (fs p1) /\ (forall i, i <> en -> calm_at (clock_of p1) (clock_of p') i) /\
  p_table p' = p_table p1 /\ p_pager p' = p_pager p1 /\ tinyFilter (p_w p') = tinyFilter (p_w p1).

Definition got_frame (p : pool) (en : nat) (p' : pool) : Prop :=
  wt_ok p' /\ (frames_kept p p' \/ frame_dropped p p') /\ same_caps p p' /\ handed_out en p' /\
  exists p1, (p1 = p \/ made_room p p1) /\ given p1 en p'.

Definition no_frame (p p' : pool) : Prop :=
  wt_ok p' /\ (frames_kept p p' \/ frame_dropped p p') /\ same_caps p p' /\
  (refused p p' /\ starved p \/ (p' = p \/ made_room p p' /\ windowCount (p_w p) = windowCapacity (p_w p)) /\ none_eligible unassigned p').

Lemma take_free p0 p : wt_ok p -> windowCount (p_w p) < windowCapacity (p_w p) -> same_caps p0 p ->
  (p = p0 \/ made_room p0 p /\ windowCount (p_w p0) = windowCapacity (p_w p0)) ->
  settles (en ← on_clock (EvictWithoutClearing unassigned);
    match en with
    | None => fail BufferManagerError "Unable to add item to WtinyLFU"
    | Some en => on_en en (updateSegmentCAS unassigned windowSegment);; add_counts 1 0 0;; mret en
    end) p (got_frame p0) (no_frame p0).
Proof.
  intros Hok Hlt Hcaps Hroom. pose proof Hok as [Hp (Hw & Hpb & Hpt & Bw & Bpb & Bpt) _ _ _].
  assert (Hk : frames_kept p0 p \/ frame_dropped p0 p) by (destruct Hroom as [->|[? _]]; [by left|by apply made_room_frames]).
  rewrite <- (set_clock_id p) at 1. apply evict_step; [done| |].
  { intros Hnone. unfold settles. cbn. rewrite set_clock_id. split_and!; try done. by right. }
  intros v e c1 Hel Htk. pose proof Htk as [Hv Hsv Hv1 Hpin Hc1 Hf1 _ _].
  pose proof (fsc_lookup _ v e Hv) as Fv. rewrite Hsv in Fv. fold (fs p) in Fv.
  pose proof (scnt_nonneg windowSegment (fs p)). pose proof (scnt_nonneg probationSegment (fs p)). pose proof (scnt_nonneg protectedSegment (fs p)).
  eapply en_step; [exact Hv1|by apply CAS_eq|]. eapply counts_step; [apply count_u64; lia..|]. rewrite !Z.add_0_r.
  apply settles_returns, returns_ret.
  destruct (wt_ok_moved p (put_entry v (set_seg windowSegment (victim e)) c1) (windowCount (p_w p) + 1) (probationCount (p_w p))
    (protectedCount (p_w p)) v (entry e) unassigned windowSegment) as [Ho Hs];
    [done|done|apply pool_ok_put; [done|exact (pool_ok_pins _ _ _ Hc1 Hv1)]|by rewrite fsc_put, Hf1|in_segs; lia..|lia|lia|lia|].
  split; [done|]. split; [|split; [done|split]].
  - destruct Hk as [(K1 & K2 & K3)|(u & f & s & K1 & K2 & K3 & K4 & K5)]; [left|right].
    + split; [|done]. unfold same_frames in *. by rewrite Hs.
    + exists u, f, s. unfold same_frames in Hs. split_and!; try done. by rewrite Hs.
  - exists (set_seg windowSegment (victim e)). split; [by eapply put_entry_eq|]. by split_and!.
  - exists p. split; [destruct Hroom as [?|[? _]]; auto|]. exists e. split_and!; try done.
    + by eapply put_entry_eq.
    + unfold fs at 1. cbn [clock_of p_w cBuffer set_clock]. rewrite fsc_put, Hf1. done.
    + intros i Hi. apply calm_at_put_ne; [done|]. by eapply calm_at_taken.
Qed.

Lemma getFreeFrame_settles p : wt_ok p ->
  settles (getFreeFrame Sum64) p (got_frame p) (no_frame p).
Proof.
  intros Hok. pose proof Hok as [Hp (Hw & Hpb & Hpt & Bw & Bpb & Bpt) _ _ _]. unfold getFreeFrame. apply gets_step.
  rewrite Z.gtb_ltb, (proj2 (Z.ltb_ge _ _)) by lia. destruct (Z.eqb_spec (windowCount (p_w p)) (windowCapacity (p_w p))).
  - apply settles_bind. eapply settles_mono; [| |by apply evictWindow_settles].
    + intros ? p1 Hm. cbv beta in Hm. pose proof Hm as (Hok1 & Hk & Hc & Hwc & _). apply take_free; try done; [|by right; split]. destruct Hc as (Hcap & _). lia.
    + intros p1 Hm. pose proof Hm as ((Hok1 & Hk & Hc & _) & _). split; [done|]. split; [by left|]. split; [done|by left].
  - apply settles_bind, settles_returns, returns_ret. apply take_free; [done|lia|done|by left].
Qed.

(** ** Runs *)

(** What users of frames do to an entry: pins, marks, and writes to the frame that
    leave it a frame. *)
Definition user_op (o : entry_op) : Prop :=
  match o with
  | EReference | EUnref | ERefIfOccupied | ERefIfNotReferenced | EMarkOccupied | EMarkForEviction | EUnMarkForEviction => True
  | EFrame g => forall f s, frame_ok (f, s) -> frame_ok (g f, s)
  | _ => False
  end.

Inductive pool_step : pool -> pool -> Prop :=
| ps_free r p p' : getFreeFrame Sum64 p = (r, p') -> pool_step p p'
| ps_promote i e r p p' : bPool (clock_of p) !! i = Some e -> promoteToProtected i p = (r, p') -> pool_step p p'
| ps_entry i o p p' : user_op o -> on_en i (run_entry_op o) p = (Val tt, p') -> pool_step p p'
| ps_count t p : readable t -> pool_step p (set_filter t p).

Inductive pool_reach (p0 : pool) : pool -> Prop :=
| pr_start : pool_reach p0 p0
| pr_step p p' : pool_reach p0 p -> pool_step p p' -> pool_reach p0 p'.

Lemma user_op_fs o e e' : user_op o -> run_entry_op o e = (Val tt, e') ->
  segtype e' = segtype e /\ (frame_ok (entry e, segtype e) -> frame_ok (entry e', segtype e')).
Proof.
  intros Ho. destruct o; cbn; unfold reference, unref, refIfOccupied, refIfNotReferenced, markOccupied, markForEviction,
    unMarkForEviction, mbind, M_bind, mret, M_ret, modify, panic, get_state; intros H; try done;
    repeat case_match; simplify_eq; try done.
  split; [done|]. intros Hf. by apply Ho.
Qed.

Lemma settled_state {A} (m : M pool A) p r p' (E : pool -> Prop) : settles m p (fun _ => E) E -> m p = (r, p') -> E p'.
Proof. unfold settles. intros H Hm. rewrite Hm in H. by destruct r. Qed.

Lemma wt_ok_step p p' : wt_ok p -> pool_step p p' -> wt_ok p'.
Proof.
  intros Hok Hs. destruct Hs as [r p p' H|i e r p p' He H|i o p p' Ho H|t p Ht].
  - eapply settled_state; [|exact H]. eapply settles_mono; [| |by apply getFreeFrame_settles]; [by intros ? ? [? _]|by intros ? [? _]].
  - eapply settled_state; [|exact H]. eapply settles_mono; [| |by eapply promote_settles]; [by intros ? ? [? _]|by intros ? ->].
  - unfold on_en, on_clock, zoom in H. destruct (on_entry i (run_entry_op o) (clock_of p)) as [a c'] eqn:Hon. injection H as -> <-.
    apply on_entry_inv in Hon as (e & e' & He & Hop & ->). destruct (user_op_fs o e e' Ho Hop) as [Hseg Hfr].
    pose proof Hok as [Hp Hcnt Hframes Hid Hfil]. pose proof (fsc_lookup _ i e He) as Fi. fold (fs p) in Fi.
    assert (Hfs : fs (set_clock (set_bPool (<[i := e']> (bPool (clock_of p))) (clock_of p)) p) = <[i := (entry e', segtype e')]> (fs p)) by apply fsc_put.
    split; try done; rewrite ?Hfs.
    + apply pool_ok_put; [done|]. eapply pins_ok_op; [|exact Hop]. exact (pool_ok_pins _ _ _ Hp He).
    + unfold counts_ok in *. cbn. rewrite !(scnt_insert _ _ _ _ _ Fi). unfold in_seg. cbn [snd]. rewrite Hseg. lia.
    + apply Forall_insert; [done|]. apply Hfr. rewrite Forall_lookup in Hframes. exact (Hframes i _ Fi).
  - destruct Hok. split; done.
Qed.

Lemma wt_ok_reach p0 p : wt_ok p0 -> pool_reach p0 p -> wt_ok p.
Proof. intros H0 Hr. induction Hr; [done|]. by eapply wt_ok_step. Qed.

(** A new pool: every frame is free. *)
Lemma NewClock_fs n reserve c : NewClock n reserve = Val c -> fsc c = replicate n (new_frame, unassigned).
Proof.
  unfold NewClock. destruct (n <? 3)%nat eqn:Hn; [done|]. apply Nat.ltb_ge in Hn.
  set (c0 := mkClock 0 None n (replicate n new_entry)). assert (fsc c0 = replicate n (new_frame, unassigned)) as H0.
  { unfold fsc, c0. cbn [bPool]. by rewrite fmap_replicate. }
  destruct reserve; [|by intros [= <-]].
  assert (pool_ok c0) as Hp0 by (apply (NewClock_ok n false); unfold NewClock; by rewrite (proj2 (Nat.ltb_ge _ _))).
  destruct (evict_taken unassigned c0 Hp0) as ([v|] & c1 & He & Hr); rewrite He; [|done]. intros [= <-].
  destruct Hr as (e & _ & [_ _ Hv _ _ Hf _ _]). rewrite <- H0, <- Hf. unfold fsc. cbn [bPool set_Reserved set_bPool].
  apply list_eq. intros i. rewrite !list_lookup_fmap, list_lookup_alter. case_decide; [subst|done]. by destruct (bPool c1 !! _).
Qed.

Lemma scnt_replicate s n f : s <> unassigned -> scnt s (replicate n (f, unassigned)) = 0.
Proof. intros Hs. induction n; [done|]. cbn [replicate]. rewrite scnt_cons, IHn. unfold in_seg. cbn [snd]. by rewrite decide_False. Qed.

Lemma new_pool t ws ms reserve w pgr tbl : NewWTinylfu t ws ms reserve = Val w -> ws + ms < 2 ^ 63 -> readable t -> idle (dManager pgr) ->
  wt_ok (mkPool w pgr tbl) /\ fs (mkPool w pgr tbl) = replicate (Z.to_nat (ws + ms)) (new_frame, unassigned) /\
  windowCapacity w = ws /\ 0 < ws /\ windowCount w = 0 /\ probationCount w = 0 /\ protectedCount w = 0.
Proof.
  unfold NewWTinylfu. destruct (Z.leb_spec ws 0); [done|]. destruct (Z.leb_spec ms 0); [done|].
  rewrite Z.geb_leb. destruct (Z.leb_spec ms ws); [done|].
  destruct (NewClock (Z.to_nat (ws + ms)) reserve) as [c| | | |] eqn:Hc; try done. intros [= <-] Hb Ht Hi.
  pose proof (NewClock_ok _ _ _ Hc) as Hp. pose proof (NewClock_fs _ _ _ Hc) as Hf.
  split; [|done]. split; try done.
  - unfold counts_ok, fs. cbn [p_w clock_of cBuffer windowCount probationCount protectedCount windowCapacity probationCapacity protectedCapacity].
    rewrite Hf, !scnt_replicate by done.
    assert (0 <= probation_cap ms <= ms) by (unfold probation_cap; split; [apply Z.div_pos|apply Z.div_le_upper_bound]; lia).
    assert (1 <= protected_cap ms < ms + 1) by (unfold protected_cap; split; [apply Z.div_le_lower_bound|apply Z.div_lt_upper_bound]; lia).
    split_and!; try lia; destruct reserve; rewrite ?u64_small by lia; lia.
  - unfold fs. cbn. rewrite Hf. apply Forall_replicate. split; [apply length_replicate|]. cbn. unfold addressable, MAX_PAGE. lia.
Qed.

(** C19: in every run of a new pool (frames handed out and promoted, pinned, marked
    and written by any number of users, accesses counted), whatever errors occur
    on the way, each segment's counter is the number of frames in that segment and
    within its capacity, and the next request for a frame neither panics nor
    blocks: it returns an error, or a frame of the window that is pinned exactly
    once. *)
Theorem wtinylfu_segments t ws ms reserve w pgr tbl p :
  NewWTinylfu t ws ms reserve = Val w -> ws + ms < 2 ^ 63 -> readable t -> idle (dManager pgr) ->
  pool_reach (mkPool w pgr tbl) p ->
  (windowCount (p_w p) = scnt windowSegment (fs p) /\ windowCount (p_w p) <= windowCapacity (p_w p)) /\
  (probationCount (p_w p) = scnt probationSegment (fs p) /\ probationCount (p_w p) <= probationCapacity (p_w p)) /\
  (protectedCount (p_w p) = scnt protectedSegment (fs p) /\ protectedCount (p_w p) <= protectedCapacity (p_w p)) /\
  settles (getFreeFrame Sum64) p handed_out (fun _ => True).
Proof.
  intros Hw Hb Ht Hi Hr. destruct (new_pool t ws ms reserve w pgr tbl Hw Hb Ht Hi) as [H0 _].
  pose proof (wt_ok_reach _ _ H0 Hr) as Hok. pose proof Hok as [_ (Cw & Cpb & Cpt & Bw & Bpb & Bpt) _ _ _].
  split_and!; try lia. eapply settles_mono; [| |by apply getFreeFrame_settles]; [|done]. by intros en p' (_ & _ & _ & H & _).
Qed.

(** A dirty page is never lost by a request for a frame.  When the only frame
    of page [key] is dirty and not dead, then after the request, successful or not,
    either the hash table still leads to that frame and the frame is as it was, or
    the page left the hash table and its bytes are on disk. *)
Lemma eviction_writes_back p key i f s :
  wt_ok p -> p_table p !! key = Some i -> fs p !! i = Some (f, s) -> f_key f = key ->
  (forall j g s', fs p !! j = Some (g, s') -> s' <> unassigned -> f_key g = key -> j = i) ->
  f_dirty f = true -> is_dead (pgeData (f_page f)) = false ->
  let safe p' := (p_table p' !! key = Some i /\ (fs p').*1 !! i = Some f) \/
    (p_table p' !! key = None /\ page_of (p_pager p') key = pgeData (f_page f)) in
  settles (getFreeFrame Sum64) p (fun _ => safe) safe.
Proof.
  intros Hok Ht Hi Hk Huniq Hd Hdead safe. pose proof Hok as [_ _ Hfr _ _].
  assert (forall p', frames_kept p p' \/ frame_dropped p p' -> safe p') as Hsafe.
  { intros p' [(H1 & H2 & _)|(v & g & s' & Hv & Hs & Hf & Htb & Hfd)]; [left; rewrite H2, H1; by rewrite list_lookup_fmap, Hi|].
    destruct (decide (f_key g = key)) as [Hg|Hg].
    - assert (v = i) as -> by (by eapply Huniq). rewrite Hi in Hv. injection Hv as <- <-. right. rewrite Htb, Hk.
      split; [apply lookup_delete_eq|]. unfold page_of. rewrite Hfd. unfold written_back. rewrite Hd, Hdead. cbn [written_page].
      rewrite Hk. apply page_write_same. rewrite Forall_lookup in Hfr. apply (Hfr i _ Hi).
    - left. rewrite Htb, lookup_delete_ne by done. split; [done|]. rewrite Hf, list_lookup_insert_ne; [by rewrite list_lookup_fmap, Hi|].
      intros ->. rewrite Hi in Hv. injection Hv as <- <-. done. }
  eapply settles_mono; [| |by apply getFreeFrame_settles]; [intros en p' (_ & Hc & _)|intros p' (_ & Hc & _)]; by apply Hsafe.
Qed.

(** ** Frames that get lost *)

(** Window and probation are full and no frame of probation is free to go: the
    request fails, and leaves the window's victim without a pin but marked for
    eviction.  Lookups of its page will not use the frame ([refIfOccupied] is
    false) and no sweep will take it. *)
Lemma evict_error_strands_frame p i0 e0 :
  wt_ok p -> windowCount (p_w p) = windowCapacity (p_w p) -> probationCount (p_w p) = probationCapacity (p_w p) ->
  bPool (clock_of p) !! i0 = Some e0 -> eligible windowSegment e0 = true ->
  (forall i e, bPool (clock_of p) !! i = Some e -> eligible probationSegment e = false) ->
  exists err v e p', getFreeFrame Sum64 p = (Err err, p') /\ bPool (clock_of p') !! v = Some e /\
    segtype e = windowSegment /\ outstanding e = 0%nat /\ refIfOccupied e = (Val false, e) /\ forall s, eligible s e = false.
Proof.
  intros Hok Hw Hpb Hi0 He0 Hno. pose proof Hok as [Hp _ _ _ _].
  assert (settles (evictWindow Sum64) p (fun _ _ => False) (fun p' => exists v e, bPool (clock_of p') !! v = Some e /\
    segtype e = windowSegment /\ outstanding e = 0%nat /\ markedForEviction e = true)) as Hs.
  { unfold evictWindow. apply gets_step. rewrite Hw, Hpb, Z.gtb_ltb, Z.ltb_irrefl, Z.ltb_irrefl, Z.geb_leb, Z.leb_refl.
    rewrite <- (set_clock_id p). apply evict_step; [done|intros H; by rewrite (H i0 e0) in He0|].
    intros wv e c1 Hel [Hv Hsv Hv1 Hpin Hc1 Hf1 _ Hoth]. apply evict_step; [done| |].
    - intros _. eapply en_step; [exact Hv1|by apply unref_last|]. exists wv, (unpinned (victim e)).
      split; [by eapply put_entry_eq|]. split; [done|]. split; [|done]. unfold outstanding in *. cbn in *. lia.
    - intros pv e2 c2 Hel2 [Hv2 _ _ _ _ _ _ _]. exfalso. destruct (decide (pv = wv)) as [->|Hne].
      + rewrite Hv1 in Hv2. injection Hv2 as <-. unfold eligible in Hel2. cbn in Hel2. by rewrite andb_false_r in Hel2.
      + destruct (Hoth pv e2 Hne Hv2) as (x & Hx & Hxe & _). rewrite Hxe, (Hno pv x Hx) in Hel2. done. }
  unfold settles in Hs. destruct (evictWindow Sum64 p) as [[| err| | |] p'] eqn:He; try done.
  destruct Hs as (v & e & Hv & Hseg & Ho & Hm). exists err, v, e, p'. split_and!; try done.
  - unfold getFreeFrame, mbind, M_bind, gets. rewrite Hw, Z.gtb_ltb, Z.ltb_irrefl, Z.eqb_refl. by rewrite He.
  - unfold refIfOccupied, mbind, M_bind, get_state. destruct (isOccupied e); [|done]. cbn. by rewrite Hm.
  - intros s. unfold eligible. rewrite Hm. by rewrite andb_false_r.
Qed.

(** All frames are free although the window's counter is [n]. *)
Record drained (n : Z) (p : pool) : Prop := {
  dr_pool : pool_ok (clock_of p);
  dr_free : forall i e, bPool (clock_of p) !! i = Some e -> segtype e = unassigned;
  dr_some : exists i e, bPool (clock_of p) !! i = Some e /\ eligible unassigned e = true;
  dr_window : windowCount (p_w p) = n;
  dr_probation : probationCount (p_w p) = 0 /\ 0 <= probationCapacity (p_w p) }.

Lemma no_segment n p s i e : drained n p -> s <> unassigned -> bPool (clock_of p) !! i = Some e -> eligible s e = false.
Proof. intros Hd Hs He. unfold eligible. rewrite (dr_free n p Hd i e He), bool_decide_false by done. by rewrite andb_false_r. Qed.

(** A frame is handed out without making room. *)
Lemma drained_frame n p (Q : nat -> pool -> Prop) E : drained n p -> 0 <= n < windowCapacity (p_w p) -> windowCapacity (p_w p) < 2 ^ 63 ->
  (forall v e c, eligible unassigned e = true -> taken unassigned v e (clock_of p) c -> bPool c !! v = Some (victim e) ->
    Q v (set_clock (put_entry v (set_seg windowSegment (victim e)) c)
      (set_counts (n + 1) (u64 (probationCount (p_w p) + 0)) (u64 (protectedCount (p_w p) + 0)) p))) ->
  settles (getFreeFrame Sum64) p Q E.
Proof.
  intros Hd Hn Hcap HQ. pose proof Hd as [Hp Hfree (j & ej & Hj & Hje) Hw [Hpb Hpc]].
  unfold getFreeFrame. apply gets_step. rewrite Hw, Z.gtb_ltb, (proj2 (Z.ltb_ge _ _)) by lia.
  rewrite (proj2 (Z.eqb_neq _ _)) by lia. apply settles_bind, settles_returns, returns_ret. rewrite <- (set_clock_id p) at 1.
  apply evict_step; [done|intros H; by rewrite (H j ej) in Hje|].
  intros v e c Hel Ht. pose proof Ht as [Hv Hsv Hv1 Hpin Hc1 Hf1 _ Hoth]. eapply en_step; [exact Hv1|by apply CAS_eq|].
  eapply counts_step; [rewrite Hw; symmetry; apply u64_small; lia|done|done|]. apply settles_returns, returns_ret. by apply HQ.
Qed.

(** The frame is given back: every frame is free again, and the counter is one more. *)
Lemma drained_cleared n p v e c f p' : drained n p -> eligible unassigned e = true -> taken unassigned v e (clock_of p) c ->
  clock_of p' = put_entry v (reset_marks (set_frame f (set_evict false (set_seg windowSegment (victim e))))) c ->
  windowCount (p_w p') = n + 1 -> probationCount (p_w p') = 0 -> probationCapacity (p_w p') = probationCapacity (p_w p) ->
  drained (n + 1) p'.
Proof.
  intros [Hp Hfree _ Hw [Hpb Hpc]] Hel [Hv Hsv Hv1 Hpin Hc1 Hf1 _ Hoth] Hc' Hw' Hpb' Hcap.
  set (e' := reset_marks _) in Hc'. assert (Hl : bPool (put_entry v e' c) !! v = Some e') by (by eapply put_entry_eq).
  split; rewrite ?Hc'; [| | |done|split; [done|by rewrite Hcap]].
  - apply pool_ok_put; [done|]. split; cbn; [lia|]. unfold outstanding. cbn. split; [done|lia].
  - intros i x Hx. destruct (decide (i = v)) as [->|Hne]; [rewrite Hl in Hx; by injection Hx as <-|].
    rewrite put_entry_ne in Hx by done.
    pose proof (fsc_lookup c i x Hx) as Fx. rewrite Hf1 in Fx. apply fsc_entry in Fx as (y & Hy & _ & <-). by eapply Hfree.
  - exists v, e'. split; [exact Hl|]. unfold eligible in *. rewrite !andb_true_iff in Hel. cbn. destruct Hel as [[[Hr _] _] _]. by rewrite Hr.
Qed.

Lemma drained_stuck n p : drained n p -> n = windowCapacity (p_w p) -> exists err, getFreeFrame Sum64 p = (Err err, p).
Proof.
  intros Hd Hn. pose proof Hd as [Hp _ _ Hw [Hpb Hpc]].
  assert (settles (evictWindow Sum64) p (fun _ _ => False) (fun p' => p' = p)) as H.
  { unfold evictWindow. apply gets_step. rewrite Hpb, Hw, Hn, Z.gtb_ltb, (proj2 (Z.ltb_ge _ _)), Z.ltb_irrefl by lia.
    assert (forall s v e c', s <> unassigned -> eligible s e = true -> taken s v e (clock_of p) c' -> False) as Hnone.
    { intros s v e c' Hs Hel [Hv _ _ _ _ _ _ _]. by rewrite (no_segment n p s v e Hd Hs Hv) in Hel. }
    rewrite <- (set_clock_id p) at 1. destruct (0 >=? _).
    - apply evict_step; [done| |intros ? ? ? Hel Ht; exfalso; by eapply Hnone in Ht].
      intros _. apply evict_step; [done| |intros ? ? ? Hel Ht; exfalso; by eapply Hnone in Ht]. intros _. apply set_clock_id.
    - unfold demote_window. apply evict_step; [done| |intros ? ? ? Hel Ht; exfalso; by eapply Hnone in Ht]. intros _. apply set_clock_id. }
  unfold settles in H. destruct (evictWindow Sum64 p) as [[|err| | |] p'] eqn:He; try done. subst p'. exists err.
  unfold getFreeFrame, mbind, M_bind, gets. rewrite Hw, Hn, Z.gtb_ltb, Z.ltb_irrefl, Z.eqb_refl. by rewrite He.
Qed.

Lemma NewClock_eligible n reserve c : NewClock n reserve = Val c -> exists i e, bPool c !! i = Some e /\ eligible unassigned e = true.
Proof.
  unfold NewClock. destruct (n <? 3)%nat eqn:Hn; [done|]. apply Nat.ltb_ge in Hn.
  set (c0 := mkClock 0 None n (replicate n new_entry)).
  assert (forall i, (i < n)%nat -> bPool c0 !! i = Some new_entry) as H0 by (intros; by apply lookup_replicate).
  destruct reserve; [|intros [= <-]; exists 0%nat, new_entry; split; [apply H0; lia|done]].
  assert (clock_ok c0) as Hc0 by (split; cbn; [apply length_replicate|lia]).
  destruct (evict_spec unassigned c0 Hc0) as ([v|] & c1 & He & Hr); rewrite He; [|done]. intros [= <-].
  destruct Hr as ((_ & e & Hv & _ & _ & Ho) & _). set (i := if decide (v = 0%nat) then 1%nat else 0%nat).
  assert (i <> v /\ (i < n)%nat) as [Hi Hin] by (unfold i; case_decide; lia). exists i, new_entry. split; [|done].
  cbn [bPool set_Reserved set_bPool]. rewrite list_lookup_alter, decide_False by done.
  destruct (Ho i Hi) as [H|H]; rewrite H, (H0 i Hin); done.
Qed.

(** A new pool, whatever its pager. *)
Lemma NewWTinylfu_drained t ws ms reserve w pgr tbl : NewWTinylfu t ws ms reserve = Val w ->
  drained 0 (mkPool w pgr tbl) /\ windowCapacity w = ws /\ 0 < ws /\
  forall i e, bPool (cBuffer w) !! i = Some e -> entry e = new_frame.
Proof.
  unfold NewWTinylfu. destruct (Z.leb_spec ws 0); [done|]. destruct (Z.leb_spec ms 0); [done|].
  rewrite Z.geb_leb. destruct (Z.leb_spec ms ws); [done|].
  destruct (NewClock (Z.to_nat (ws + ms)) reserve) as [c| | | |] eqn:Hc; try done. intros [= <-].
  assert (forall i e, bPool c !! i = Some e -> entry e = new_frame /\ segtype e = unassigned) as Hall.
  { intros i e He. apply fsc_lookup in He. rewrite (NewClock_fs _ _ _ Hc) in He. by apply lookup_replicate in He as [[= -> ->] _]. }
  split; [|split; [done|split; [lia|intros i e He; by apply (Hall i)]]].
  split; [by eapply NewClock_ok|intros i e He; by apply (Hall i)|by eapply NewClock_eligible|done|].
  split; [done|]. cbn. unfold probation_cap. apply Z.div_pos; lia.
Qed.

End Invariant.

(** ** Examples *)

Module PoolSample.

(** Any hash will do; a filter with one row of four counters. *)
Definition hash0 (b : bytes) : Z := 0.
Definition filter0 : TinyLFU := mkTinyLFU (mkBloom 8 1 [0]) (NewCMS 4 1).

Lemma sketch0_readable b : readable hash0 (mkTinyLFU b (NewCMS 4 1)).
Proof.
  intros key. destruct (GetCount_spec hash0 [] (NewCMS 4 1) key) as (n & Hn & _); [by apply NewCMS_ok|cbn; lia|].
  exists n. unfold CheckItemCount, onCMS, zoom. cbn [MainStruct]. by rewrite Hn.
Qed.

Lemma filter0_readable : readable hash0 filter0.
Proof. apply sketch0_readable. Qed.

Definition pager0 : Pager := mkPager (mkFreeList 0 [] false []) (mkDisk [] ∅) 0 0 0.

Lemma pager0_idle : idle (dManager pager0).
Proof. intros off. unfold queue_of. cbn. by rewrite lookup_empty. Qed.

Definition w0 : WTinyLfu := mkW (mkClock 0 None 7 (replicate 7 new_entry)) filter0 0 0 0 1 1 5.

Definition pool0 : pool := mkPool w0 pager0 ∅.
Definition pool1 : pool := (getFreeFrame hash0 pool0).2.

Lemma wtinylfu_segments_witness :
  NewWTinylfu filter0 1 6 false = Val w0 /\ pool_reach hash0 pool0 pool1 /\
  (windowCount (p_w pool1) = scnt windowSegment (fs pool1) /\ windowCount (p_w pool1) <= windowCapacity (p_w pool1)) /\
  (probationCount (p_w pool1) = scnt probationSegment (fs pool1) /\ probationCount (p_w pool1) <= probationCapacity (p_w pool1)) /\
  (protectedCount (p_w pool1) = scnt protectedSegment (fs pool1) /\ protectedCount (p_w pool1) <= protectedCapacity (p_w pool1)) /\
  settles (getFreeFrame hash0) pool1 handed_out (fun _ => True).
Proof.
  assert (pool_reach hash0 pool0 pool1) as Hr.
  { eapply pr_step; [apply pr_start|]. apply (ps_free hash0 (getFreeFrame hash0 pool0).1). exact (surjective_pairing _). }
  split; [reflexivity|]. split; [exact Hr|].
  apply (wtinylfu_segments hash0 filter0 1 6 false w0 pager0 ∅ pool1);
    [reflexivity|lia|apply filter0_readable|apply pager0_idle|exact Hr].
Defined.

(** A full window (page 9) and a full probation segment (page 7, dirty), [pins]
    pins on page 7. *)
Definition frame_of (key : Z) (dirty : bool) : Frame :=
  mkFrame (mkPage (replicate DM_PAGE 0) key) false false dirty key.
Definition full_pool (pins : nat) : pool :=
  let e7 := mkEntry (frame_of 7 true) false (0 <? pins)%nat false true false pins 0 probationSegment in
  let e9 := mkEntry (frame_of 9 false) false false false true false 0 0 windowSegment in
  mkPool (mkW (mkClock 0 None 7 (e7 :: e9 :: replicate 5 new_entry)) filter0 1 1 0 1 1 5) pager0 {[7 := 0%nat; 9 := 1%nat]}.

Lemma full_pool_ok pins : wt_ok hash0 (full_pool pins).
Proof.
  split.
  - assert (pins_ok new_entry) as Hn by (split; cbn; [lia|]; unfold outstanding; cbn; split; [done|lia]).
    split; [split; cbn -[new_entry]; lia|]. cbn -[new_entry Nat.ltb]. repeat apply Forall_cons_2; try done; split; cbn -[Nat.ltb]; try lia.
    unfold outstanding. cbn -[Nat.ltb Nat.sub]. rewrite Nat.ltb_lt. lia.
  - split_and!; try reflexivity; cbn; lia.
  - assert (forall k d s, addressable k -> frame_ok (frame_of k d, s)) as Hf by (intros; split; [apply length_replicate|assumption]).
    assert (frame_ok (new_frame, unassigned)) as Hn by (split; [apply length_replicate|cbn; unfold addressable, MAX_PAGE; lia]).
    unfold fs, fsc. cbn -[frame_of new_frame]. repeat apply Forall_cons_2; try exact Hn; try apply Forall_nil_2; apply Hf; unfold addressable, MAX_PAGE; lia.
  - apply pager0_idle.
  - apply filter0_readable.
Qed.

Definition safe7 (p' : pool) : Prop :=
  (p_table p' !! 7 = Some 0%nat /\ (fs p').*1 !! 0%nat = Some (frame_of 7 true)) \/
  (p_table p' !! 7 = None /\ page_of (p_pager p') 7 = pgeData (f_page (frame_of 7 true))).

Lemma eviction_writes_back_witness :
  wt_ok hash0 (full_pool 0) /\ settles (getFreeFrame hash0) (full_pool 0) (fun _ => safe7) safe7.
Proof.
  split; [apply full_pool_ok|].
  apply (eviction_writes_back hash0 (full_pool 0) 7 0 (frame_of 7 true) probationSegment);
    [apply full_pool_ok|reflexivity|reflexivity|reflexivity| |reflexivity|reflexivity].
  intros [|[|j]] g s' Hg Hs Hk; [done|by injection Hg as <- <-|]. exfalso. apply Hs.
  change (fs (full_pool 0) !! S (S j)) with (((fun e => (entry e, segtype e)) <$> replicate 5 new_entry) !! j) in Hg.
  rewrite fmap_replicate in Hg. by apply lookup_replicate in Hg as [[= _ <-] _].
Defined.

Lemma evict_error_strands_frame_witness :
  wt_ok hash0 (full_pool 1) /\
  exists err v e p', getFreeFrame hash0 (full_pool 1) = (Err err, p') /\ bPool (clock_of p') !! v = Some e /\
    segtype e = windowSegment /\ outstanding e = 0%nat /\ refIfOccupied e = (Val false, e) /\ forall s, eligible s e = false.
Proof.
  split; [apply full_pool_ok|].
  eapply (evict_error_strands_frame hash0 (full_pool 1) 1); [apply full_pool_ok|reflexivity|reflexivity|reflexivity|reflexivity|].
  intros [|[|j]] e He; [by injection He as <-|by injection He as <-|].
  change (bPool (clock_of (full_pool 1)) !! S (S j)) with (replicate 5 new_entry !! j) in He.
  by apply lookup_replicate in He as [-> _].
Defined.

End PoolSample.
