(* ===== verification/DirtyList.v ===== *)
(** * The list of dirty pages ([pkg/buffermanager/p_dirty.go])

    Dirty frames are kept in a doubly linked list, most recently used first, with
    a map from page ids to the nodes.  The nodes live in a store: a pointer is a
    number, [nil] is [None], and a node that has left the list stays in the store,
    as do the pointers to it.  A node points to a frame; [fkey] gives the page id a
    frame holds.  The locks of the nodes order concurrent calls and are not
    modelled. *)

From S2P Require Import Prelude.

Record pDirty := mkDirty { pd_frame : nat; pd_next : option nat; pd_prev : option nat }.

(** [dPages] with its list [dirtyPageLRU] (head and tail), the store of nodes and
    the next fresh pointer. *)
Record dPages := mkPages {
  dp_head : option nat; dp_tail : option nat; dPageMap : gmap Z nat; dp_store : gmap nat pDirty; dp_fresh : nat }.

Definition set_ends (h t : option nat) (d : dPages) : dPages := mkPages h t (dPageMap d) (dp_store d) (dp_fresh d).
Definition set_pmap (m : gmap Z nat) (d : dPages) : dPages := mkPages (dp_head d) (dp_tail d) m (dp_store d) (dp_fresh d).
Definition set_store (s : gmap nat pDirty) (d : dPages) : dPages := mkPages (dp_head d) (dp_tail d) (dPageMap d) s (dp_fresh d).

Definition with_next (q : option nat) (n : pDirty) : pDirty := mkDirty (pd_frame n) q (pd_prev n).
Definition with_prev (q : option nat) (n : pDirty) : pDirty := mkDirty (pd_frame n) (pd_next n) q.

(** Reading and writing through a pointer; a pointer to nothing panics. *)
Definition load (a : nat) : M dPages pDirty := fun d =>
  match dp_store d !! a with
  | Some n => (Val n, d)
  | None => (Panic "invalid memory address or nil pointer dereference", d)
  end.
Definition store (a : nat) (g : pDirty -> pDirty) : M dPages unit :=
  n ← load a; modify (fun d => set_store (<[a := g n]> (dp_store d)) d).

(** [if p != nil { p.field = v }] *)
Definition store_opt (p : option nat) (g : pDirty -> pDirty) : M dPages unit :=
  match p with Some a => store a g | None => mret tt end.

(** ** [dirtyPageLRU] *)

Definition popDirty : M dPages (option nat) :=
  d ← get_state;
  match dp_tail d, dp_head d with
  | Some t, Some h =>
      (if (h =? t)%nat then modify (set_ends None None)
       else n ← load t; modify (fun d => set_ends (dp_head d) (pd_prev n) d));;
      mret (Some t)
  | _, _ => mret None
  end.

Definition isEmpty : M dPages bool :=
  gets (fun d => match dp_head d, dp_tail d with Some _, Some _ => false | _, _ => true end).

Definition addToDirtyList (p : nat) : M dPages unit :=
  d ← get_state;
  match dp_head d, dp_tail d with
  | Some h, Some _ =>
      store p (with_next (Some h));;
      store h (with_prev (Some p));;
      modify (fun d => set_ends (Some p) (dp_tail d) d)
  | _, _ => modify (set_ends (Some p) (Some p))
  end.

Definition moveToHead (pD : nat) : M dPages unit :=
  d ← get_state;
  if decide (dp_head d = Some pD) then
    n ← load pD;
    match pd_prev n with
    | Some _ => panic "(moveToHead) head has a prev pointer."
    | None => mret tt
    end
  else
    n ← load pD;
    store_opt (pd_next n) (with_prev (pd_prev n));;
    n ← load pD;
    store_opt (pd_prev n) (with_next (pd_next n));;
    store pD (with_next (dp_head d));;
    match dp_head d with
    | None => panic "invalid memory address or nil pointer dereference"
    | Some h =>
        store h (with_prev (Some pD));;
        modify (fun d => set_ends (Some pD) (dp_tail d) d);;
        (if decide (dp_tail d = Some pD) then
           n ← load pD; modify (fun d => set_ends (dp_head d) (pd_prev n) d)
         else mret tt);;
        store pD (with_prev None)
    end.

Definition removeFromLru (p : nat) : M dPages unit :=
  d ← get_state;
  if decide (dp_head d = Some p /\ dp_tail d = Some p) then modify (set_ends None None)
  else
    n ← load p;
    store_opt (pd_prev n) (with_next (pd_next n));;
    n ← load p;
    store_opt (pd_next n) (with_prev (pd_prev n));;
    n ← load p;
    (if decide (dp_head d = Some p) then modify (fun d => set_ends (pd_next n) (dp_tail d) d) else mret tt);;
    (if decide (dp_tail d = Some p) then modify (fun d => set_ends (dp_head d) (pd_prev n) d) else mret tt);;
    store p (with_next None);;
    store p (with_prev None).

(** ** [dPages] *)

Definition NewDirtyPageList : dPages := mkPages None None ∅ ∅ 0.

(** [&pDirty{frame: f}] *)
Definition new_node (f : nat) : M dPages nat := fun d =>
  (Val (dp_fresh d), mkPages (dp_head d) (dp_tail d) (dPageMap d)
    (<[dp_fresh d := mkDirty f None None]> (dp_store d)) (S (dp_fresh d))).

Section Pages.
Context (fkey : nat -> Z).

Definition addDirtyFrame (f : nat) : M dPages unit :=
  d ← get_state;
  match dPageMap d !! fkey f with
  | Some pD => or_panic (moveToHead pD)
  | None =>
      p ← new_node f;
      modify (fun d => set_pmap (<[fkey f := p]> (dPageMap d)) d);;
      or_panic (addToDirtyList p)
  end.

Definition popDirtyPage : M dPages (option nat) :=
  p ← popDirty;
  match p with
  | None => mret None
  | Some p =>
      n ← load p;
      let pgeId := fkey (pd_frame n) in
      if (pgeId =? 0)%Z then mret None
      else modify (fun d => set_pmap (delete pgeId (dPageMap d)) d);; mret (Some p)
  end.

Definition removePage (id : Z) : M dPages unit :=
  d ← get_state;
  match dPageMap d !! id with
  | Some p =>
      modify (fun d => set_pmap (delete id (dPageMap d)) d);;
      or_panic (removeFromLru p)
  | None => mret tt
  end.

End Pages.
