(* ===== verification/DirtyListTheorems.v ===== *)
(** * The list of dirty pages: properties

    [dseg] describes a run of the doubly linked list in the store and [drep] the
    whole structure.  The list is shown to be a list of frames, most recently
    marked first, with at most one frame per page. *)

From S2P Require Import Prelude DirtyList.

(** ** Runs of nodes *)

(** Pointers with the frames they point to. *)
Notation run := (list (nat * nat)).

Definition head_or (l : run) (q : option nat) : option nat := match l with [] => q | (a, _) :: _ => Some a end.
Definition last_or (l : run) (p : option nat) : option nat := match last l with Some (a, _) => Some a | None => p end.

(** [dseg h p l q]: the nodes of [l] are linked both ways in [h]; [p] is before
    the first one and [q] after the last one. *)
Fixpoint dseg (h : gmap nat pDirty) (p : option nat) (l : run) (q : option nat) : Prop :=
  match l with
  | [] => True
  | (a, f) :: l' => h !! a = Some (mkDirty f (head_or l' q) p) /\ dseg h (Some a) l' q
  end.

Lemma last_or_cons a f l p : last_or ((a, f) :: l) p = last_or l (Some a).
Proof. unfold last_or. rewrite last_cons. by destruct (last l) as [[]|]. Qed.

Lemma last_or_snoc l a f p : last_or (l ++ [(a, f)]) p = Some a.
Proof. unfold last_or. by rewrite last_snoc. Qed.

Lemma head_or_app l1 l2 q : head_or (l1 ++ l2) q = head_or l1 (head_or l2 q).
Proof. by destruct l1 as [|[]]. Qed.

Lemma dseg_app h l1 l2 p q :
  dseg h p (l1 ++ l2) q <-> dseg h p l1 (head_or l2 q) /\ dseg h (last_or l1 p) l2 q.
Proof.
  revert p. induction l1 as [|[a f] l1 IH]; intros p; cbn; [naive_solver|].
  rewrite IH, last_or_cons, head_or_app. naive_solver.
Qed.

Lemma dseg_out h g a l p q : a ∉ l.*1 -> dseg h p l q -> dseg (alter g a h) p l q.
Proof.
  revert p. induction l as [|[b f] l IH]; intros p Ha Hl; [done|]. cbn in *.
  apply not_elem_of_cons in Ha as [Hab Ha]. destruct Hl as [Hb Hl]. split; [|by apply IH].
  by rewrite lookup_alter_ne.
Qed.

Lemma dseg_new h n a l p q : a ∉ l.*1 -> dseg h p l q -> dseg (<[a := n]> h) p l q.
Proof.
  revert p. induction l as [|[b f] l IH]; intros p Ha Hl; [done|]. cbn in *.
  apply not_elem_of_cons in Ha as [Hab Ha]. destruct Hl as [Hb Hl]. split; [|by apply IH].
  by rewrite lookup_insert_ne.
Qed.

(** New first pointer. *)
Lemma dseg_set_prev h l p p' q a f :
  NoDup (((a, f) :: l).*1) -> dseg h p ((a, f) :: l) q -> dseg (alter (with_prev p') a h) p' ((a, f) :: l) q.
Proof.
  cbn. intros [Ha _]%NoDup_cons [Hh Hl]. split; [|by apply dseg_out].
  rewrite lookup_alter_eq, Hh. done.
Qed.

(** New last pointer. *)
Lemma dseg_set_next h l p q q' a f :
  NoDup ((l ++ [(a, f)]).*1) -> dseg h p (l ++ [(a, f)]) q -> dseg (alter (with_next q') a h) p (l ++ [(a, f)]) q'.
Proof.
  rewrite fmap_app, !dseg_app. cbn. intros (_ & Hd & _)%NoDup_app (Hl & Ha & _). split; [|split; [|done]].
  - apply dseg_out; [|done]. intros Hin. by apply (Hd a Hin), list_elem_of_here.
  - rewrite lookup_alter_eq, Ha. done.
Qed.

Lemma dseg_lookup h l p q a f : dseg h p l q -> (a, f) ∈ l -> exists x y, h !! a = Some (mkDirty f x y).
Proof.
  revert p. induction l as [|[b g] l IH]; intros p Hl Hin; [by apply elem_of_nil in Hin|].
  destruct Hl as [Hb Hl]. apply elem_of_cons in Hin as [[= -> ->]|Hin]; eauto.
Qed.

(** Domains do not change when nodes do. *)
Lemma alter_is_Some (h : gmap nat pDirty) g a b : is_Some (alter g a h !! b) <-> is_Some (h !! b).
Proof. by rewrite lookup_alter_is_Some. Qed.

(** ** Steps through pointers *)

Definition alter_opt (p : option nat) (g : pDirty -> pDirty) (h : gmap nat pDirty) : gmap nat pDirty :=
  match p with Some a => alter g a h | None => h end.

Lemma returns_load a d n Q : dp_store d !! a = Some n -> Q n d -> returns (load a) d Q.
Proof. intros H HQ. exists n, d. unfold load. by rewrite H. Qed.

Lemma returns_store a g d Q :
  is_Some (dp_store d !! a) -> Q tt (set_store (alter g a (dp_store d)) d) -> returns (store a g) d Q.
Proof.
  intros [n H] HQ. apply returns_bind. eapply returns_load; [exact H|]. apply returns_modify.
  replace (<[a := g n]> (dp_store d)) with (alter g a (dp_store d)); [done|].
  apply map_eq. intros b. destruct (decide (a = b)) as [->|].
  - by rewrite lookup_insert_eq, lookup_alter_eq, H.
  - by rewrite lookup_insert_ne, lookup_alter_ne.
Qed.

Lemma returns_store_opt p g d Q :
  (forall a, p = Some a -> is_Some (dp_store d !! a)) -> Q tt (set_store (alter_opt p g (dp_store d)) d) ->
  returns (store_opt p g) d Q.
Proof.
  destruct p as [a|]; cbn; intros Ha HQ.
  - apply returns_store; [by apply Ha|done].
  - apply returns_ret. by destruct d.
Qed.

(** ** The linked list *)

Record linked (d : dPages) (l : run) : Prop := mk_linked {
  ln_nodup : NoDup l.*1;
  ln_head : dp_head d = head_or l None;
  ln_tail : dp_tail d = last_or l None;
  (** the last node may still point to a node that was popped *)
  ln_seg : exists q, dseg (dp_store d) None l q /\ forall b, q = Some b -> b ∉ l.*1 /\ is_Some (dp_store d !! b);
  ln_fresh : forall a, is_Some (dp_store d !! a) -> (a < dp_fresh d)%nat }.

(** The pieces around node [a], and the two stores that unlink it. *)
Lemma unlink h l1 l2 a f q :
  NoDup ((l1 ++ (a, f) :: l2).*1) -> dseg h None (l1 ++ (a, f) :: l2) q ->
  (forall b, q = Some b -> b ∉ (l1 ++ (a, f) :: l2).*1) ->
  let h1 := alter_opt (head_or l2 q) (with_prev (last_or l1 None)) h in
  let h2 := alter_opt (last_or l1 None) (with_next (head_or l2 q)) h1 in
  h1 !! a = h !! a /\ h2 !! a = h !! a /\ dseg h2 None (l1 ++ l2) q.
Proof.
  rewrite fmap_app. cbn. intros (Hn1 & Hd & [Ha Hn2]%NoDup_cons)%NoDup_app Hseg Hq.
  apply dseg_app in Hseg as [H1 [Hn H2]]. cbn in Hn, H1.
  assert (forall b, head_or l2 q = Some b -> b <> a /\ b ∉ l1.*1) as Hhd.
  { intros b Hb. destruct l2 as [|[c g] l2]; cbn in Hb.
    - apply Hq in Hb. set_solver.
    - simplify_eq. cbn in *. split; [set_solver|]. intros Hin. apply (Hd b Hin). set_solver. }
  set (h1 := alter_opt (head_or l2 q) (with_prev (last_or l1 None)) h).
  assert (h1 !! a = h !! a /\ dseg h1 None l1 (Some a) /\ dseg h1 (last_or l1 None) l2 q) as (Ha1 & H1' & H2').
  { unfold h1. destruct (head_or l2 q) as [b|] eqn:Hb; cbn.
    - destruct (Hhd b eq_refl). rewrite lookup_alter_ne by done. split; [done|]. split; [by apply dseg_out|].
      destruct l2 as [|[c g] l2]; [done|]. cbn in Hb. simplify_eq. by eapply dseg_set_prev.
    - split; [done|]. split; [done|]. by destruct l2 as [|[]]. }
  cbn. split; [done|]. destruct l1 as [|[b g] l1 _] using rev_ind.
  { split; [done|]. done. }
  rewrite last_or_snoc in *. cbn. rewrite fmap_app in Hd, Hn1. cbn in Hd.
  assert (b <> a /\ b ∉ l2.*1) as [Hba Hbl]. { specialize (Hd b). set_solver. }
  rewrite lookup_alter_ne by done. split; [done|]. apply dseg_app. rewrite last_or_snoc.
  split; [|by apply dseg_out]. eapply dseg_set_next; [by rewrite fmap_app|done].
Qed.

(** The two stores in the other order, as [removeFromLru] does them. *)
Lemma unlink_commute h l1 l2 a f q :
  NoDup ((l1 ++ (a, f) :: l2).*1) -> (forall b, q = Some b -> b ∉ (l1 ++ (a, f) :: l2).*1) ->
  let p := last_or l1 None in let n := head_or l2 q in
  alter_opt n (with_prev p) (alter_opt p (with_next n) h) = alter_opt p (with_next n) (alter_opt n (with_prev p) h).
Proof.
  cbn. rewrite fmap_app. cbn. intros (Hn1 & Hd & _)%NoDup_app Hq.
  destruct l1 as [|[b g] l1 _] using rev_ind; [done|]. rewrite last_or_snoc. cbn.
  destruct (head_or l2 q) as [c|] eqn:Hc; cbn; [|done]. apply alter_alter_ne.
  rewrite fmap_app in *. cbn in *. intros ->. destruct l2 as [|[c g'] l2]; cbn in Hc.
  - apply Hq in Hc. set_solver.
  - simplify_eq. apply (Hd b); set_solver.
Qed.

Lemma alter_opt_is_Some p g h b : is_Some (alter_opt p g h !! b) <-> is_Some (h !! b).
Proof. destruct p; [apply alter_is_Some|done]. Qed.

(** Both neighbours of a node are in the store. *)
Lemma neighbours h l1 l2 a f q :
  dseg h None (l1 ++ (a, f) :: l2) q -> (forall b, q = Some b -> is_Some (h !! b)) ->
  (forall b, last_or l1 None = Some b -> is_Some (h !! b)) /\ (forall b, head_or l2 q = Some b -> is_Some (h !! b)).
Proof.
  intros [H1 [_ H2]]%dseg_app Hq. split.
  - intros b Hb. destruct l1 as [|[c g] l1 _] using rev_ind; [done|]. rewrite last_or_snoc in Hb. simplify_eq.
    apply dseg_app in H1 as [_ [Hc _]]. by eexists.
  - intros b Hb. destruct l2 as [|[c g] l2]; [by apply Hq|]. cbn in Hb. simplify_eq. destruct H2 as [Hc _]. by eexists.
Qed.

Lemma linked_node d l1 l2 a f q :
  dseg (dp_store d) None (l1 ++ (a, f) :: l2) q -> dp_store d !! a = Some (mkDirty f (head_or l2 q) (last_or l1 None)).
Proof. by intros [_ [Ha _]]%dseg_app. Qed.

Lemma last_or_head_ne l1 l2 a f : NoDup ((l1 ++ (a, f) :: l2).*1) -> l1 <> [] -> head_or (l1 ++ (a, f) :: l2) None <> Some a.
Proof.
  destruct l1 as [|[b g] l1]; [done|]. cbn. intros [Hb _]%NoDup_cons _ [= ->].
  apply Hb. rewrite fmap_app. set_solver.
Qed.

Lemma last_or_mid l1 l2 a f p : last_or (l1 ++ (a, f) :: l2) p = last_or l2 (Some a).
Proof. unfold last_or. rewrite last_app, last_cons. by destruct (last l2) as [[]|]. Qed.

Lemma last_or_in l p b : last_or l p = Some b -> p = Some b \/ b ∈ l.*1.
Proof.
  unfold last_or. destruct (last l) as [[a f]|] eqn:Hl; [|by left]. intros [= ->]. right.
  apply last_Some in Hl as [l' ->]. rewrite fmap_app. set_solver.
Qed.

(** The last node is [a] exactly when nothing follows it. *)
Lemma last_or_self l1 l2 a f :
  NoDup ((l1 ++ (a, f) :: l2).*1) -> (last_or (l1 ++ (a, f) :: l2) None = Some a <-> l2 = []).
Proof.
  rewrite last_or_mid, fmap_app. cbn. intros (_ & _ & [Ha _]%NoDup_cons)%NoDup_app. split; [|by intros ->].
  destruct l2 as [|[b g] l2 _] using rev_ind; [done|]. rewrite last_or_snoc. intros [= ->].
  rewrite fmap_app in Ha. cbn in Ha. set_solver.
Qed.

(** The three stores that put node [a] first. *)
Lemma relink h l a f b g x y q :
  NoDup (((a, f) :: (b, g) :: l).*1) -> dseg h None ((b, g) :: l) q -> h !! a = Some (mkDirty f x y) ->
  let h4 := alter (with_prev (Some a)) b (alter (with_next (Some b)) a h) in
  h4 !! a = Some (mkDirty f (Some b) y) /\ dseg (alter (with_prev None) a h4) None ((a, f) :: (b, g) :: l) q.
Proof.
  cbn [fmap list_fmap fst]. intros [Ha Hnd]%NoDup_cons Hseg Hh. cbn zeta.
  assert (b <> a) by set_solver.
  assert (alter (with_prev (Some a)) b (alter (with_next (Some b)) a h) !! a = Some (mkDirty f (Some b) y)) as H4.
  { rewrite lookup_alter_ne by done. rewrite lookup_alter_eq, Hh. done. }
  split; [done|]. split; [by rewrite lookup_alter_eq, H4|].
  apply dseg_out; [done|]. eapply dseg_set_prev; [done|]. by apply dseg_out.
Qed.

Lemma NoDup_mid_front (l1 l2 : run) a f : NoDup ((l1 ++ (a, f) :: l2).*1) -> NoDup (((a, f) :: l1 ++ l2).*1).
Proof.
  intros Hn. eapply NoDup_Permutation_proper; [|exact Hn]. apply fmap_Permutation. apply Permutation_middle.
Qed.

Lemma moveToHead_linked d l1 l2 a f :
  linked d (l1 ++ (a, f) :: l2) ->
  returns (moveToHead a) d (fun _ d' => linked d' ((a, f) :: l1 ++ l2) /\ dPageMap d' = dPageMap d).
Proof.
  intros [Hnd Hh Ht (q & Hseg & Hq) Hfr].
  assert (Ha := linked_node d _ _ _ _ _ Hseg). unfold moveToHead. go_steps. rewrite Hh.
  destruct l1 as [|[b g] l1'] eqn:El1.
  { cbn [head_or app]. rewrite decide_True by done. go_step. eapply returns_load; [exact Ha|]. cbn. go_step.
    split; [by split; eauto|done]. }
  rewrite decide_False by (by eapply last_or_head_ne). cbn [app head_or] in Hh.
  rewrite <- El1 in *.
  destruct (unlink _ _ _ _ _ _ Hnd Hseg (fun b Hb => proj1 (Hq b Hb))) as (Ha1 & Ha2 & Hs2).
  destruct (neighbours _ _ _ _ _ _ Hseg (fun b Hb => proj2 (Hq b Hb))) as [Hp Hn].
  assert (Hnd' := NoDup_mid_front _ _ _ _ Hnd).
  set (h2 := alter_opt (last_or l1 None) _ _) in *.
  destruct (relink h2 (l1' ++ l2) a f b g (head_or l2 q) (last_or l1 None) q
    ltac:(by rewrite El1 in Hnd') ltac:(by rewrite El1 in Hs2) ltac:(by rewrite Ha2, Ha)) as [Ha4 Hs5]. subst h2.
  rewrite app_comm_cons, <- El1 in Hs5.
  replace (head_or (l1 ++ (a, f) :: l2) None) with (Some b) by by rewrite El1.
  assert (is_Some (dp_store d !! b)) as Hbs.
  { rewrite El1 in Hseg. destruct Hseg as [Hbs _]. by eexists. }
  go_step. eapply returns_load; [exact Ha|]. cbn [pd_next pd_prev].
  go_step. apply returns_store_opt; [exact Hn|].
  go_step. eapply returns_load; [cbn; rewrite Ha1; exact Ha|]. cbn [pd_next pd_prev].
  go_step. apply returns_store_opt; [cbn; intros; rewrite alter_opt_is_Some; by apply Hp|]. cbn.
  go_step. apply returns_store; [cbn; rewrite !alter_opt_is_Some; by rewrite Ha|]. cbn.
  go_step. apply returns_store; [cbn; by rewrite alter_is_Some, !alter_opt_is_Some|]. cbn.
  go_steps. rewrite Ht.
  eapply (returns_mono _ _ (fun _ d' => dp_store d' = _ /\ dPageMap d' = dPageMap d /\ dp_fresh d' = dp_fresh d /\
    dp_head d' = Some a /\ dp_tail d' = last_or ((a, f) :: l1 ++ l2) None)).
  { intros _ d' (Hst & Hm & Hf & Hhd & Htl). apply returns_store; [rewrite Hst; by rewrite Ha4|].
    split; [|done]. split; cbn; [done|done|done| |].
    - exists q. rewrite Hst. split; [exact Hs5|]. intros c Hc. destruct (Hq c Hc) as [Hc1 Hc2].
      rewrite !alter_is_Some, !alter_opt_is_Some. split; [|done]. by rewrite <- Permutation_middle in Hc1.
    - rewrite Hst, Hf. intros c. rewrite !alter_is_Some, !alter_opt_is_Some. apply Hfr. }
  case_decide as Hl; cbn.
  - apply (last_or_self _ _ _ _ Hnd) in Hl as ->. go_steps.
    eapply returns_load; [cbn; exact Ha4|]. go_steps. cbn. split_and!; try done.
    rewrite app_nil_r, last_or_cons, El1. by rewrite !last_or_cons.
  - go_steps. cbn. split_and!; try done. rewrite Ht, last_or_cons.
    destruct l2 as [|[c k] l2 _] using rev_ind; [by rewrite last_or_mid in Hl|].
    rewrite app_comm_cons, !app_assoc, !last_or_snoc. done.
Qed.

Lemma removeFromLru_linked d l1 l2 a f :
  linked d (l1 ++ (a, f) :: l2) ->
  returns (removeFromLru a) d (fun _ d' => linked d' (l1 ++ l2) /\ dPageMap d' = dPageMap d).
Proof.
  intros [Hnd Hh Ht (q & Hseg & Hq) Hfr].
  assert (Ha := linked_node d _ _ _ _ _ Hseg). unfold removeFromLru. go_steps.
  assert (Hnd' := NoDup_mid_front _ _ _ _ Hnd). apply NoDup_cons in Hnd' as [_ Hnd'].
  assert (dp_head d = Some a <-> l1 = []) as Eh.
  { rewrite Hh. split; [|by intros ->]. intros Hl. destruct l1; [done|]. by apply last_or_head_ne in Hl. }
  assert (dp_tail d = Some a <-> l2 = []) as Et by (rewrite Ht; by apply last_or_self).
  case_decide as Hone.
  { destruct Hone as [->%Eh ->%Et]. go_steps. split; [|done].
    split; cbn; [constructor|done|done| |done]. by exists None. }
  destruct (unlink _ _ _ _ _ _ Hnd Hseg (fun b Hb => proj1 (Hq b Hb))) as (Ha1 & Ha2 & Hs2).
  assert (Hcm := unlink_commute (dp_store d) _ _ _ _ _ Hnd (fun b Hb => proj1 (Hq b Hb))). cbn zeta in Hcm.
  destruct (neighbours _ _ _ _ _ _ Hseg (fun b Hb => proj2 (Hq b Hb))) as [Hp Hn].
  assert (alter_opt (last_or l1 None) (with_next (head_or l2 q)) (dp_store d) !! a = dp_store d !! a) as Ha1'.
  { destruct l1 as [|[b g] l1 _] using rev_ind; [done|]. rewrite last_or_snoc. apply lookup_alter_ne.
    intros ->. rewrite <- app_assoc, !fmap_app in Hnd. cbn in Hnd. apply NoDup_app in Hnd as (_ & _ & [Hn' _]%NoDup_cons). set_solver. }
  go_step. eapply returns_load; [exact Ha|]. cbn [pd_next pd_prev].
  go_step. apply returns_store_opt; [exact Hp|].
  go_step. eapply returns_load; [cbn; rewrite Ha1'; exact Ha|]. cbn [pd_next pd_prev].
  go_step. apply returns_store_opt; [cbn; intros; rewrite alter_opt_is_Some; by apply Hn|]. cbn. rewrite Hcm.
  go_step. eapply returns_load; [cbn; rewrite Ha2; exact Ha|]. cbn [pd_next pd_prev].
  set (h2 := alter_opt (last_or l1 None) _ _) in *.
  assert (forall c, is_Some (h2 !! c) <-> is_Some (dp_store d !! c)) as Hdom.
  { intros c. unfold h2. by rewrite !alter_opt_is_Some. }
  assert (a ∉ (l1 ++ l2).*1) as Hal. { apply NoDup_mid_front, NoDup_cons in Hnd. by destruct Hnd. }
  go_step.
  eapply (returns_mono _ _ (fun _ d' => dp_store d' = h2 /\ dPageMap d' = dPageMap d /\ dp_fresh d' = dp_fresh d /\
    dp_head d' = head_or (l1 ++ l2) None /\ dp_tail d' = dp_tail d)).
  { intros _ d1 (Hst & Hm & Hf & Hhd & Htl). go_step.
    eapply (returns_mono _ _ (fun _ d' => dp_store d' = h2 /\ dPageMap d' = dPageMap d /\ dp_fresh d' = dp_fresh d /\
      dp_head d' = head_or (l1 ++ l2) None /\ dp_tail d' = last_or (l1 ++ l2) None)).
    - intros _ d2 (Hst2 & Hm2 & Hf2 & Hhd2 & Htl2).
      go_step. apply returns_store; [rewrite Hst2, Ha2, Ha; done|]. cbn.
      apply returns_store; [cbn; rewrite alter_is_Some, Hst2, Ha2, Ha; done|]. cbn. split; [|done].
      split; cbn; [done|done|done| |].
      + exists q. rewrite Hst2. split; [by apply dseg_out, dseg_out|]. intros c Hc. destruct (Hq c Hc) as [Hc1 Hc2].
        rewrite !alter_is_Some, Hdom. split; [|done]. rewrite <- Permutation_middle in Hc1. set_solver.
      + rewrite Hst2, Hf2. intros c. rewrite !alter_is_Some, Hdom. apply Hfr.
    - case_decide as Hl.
      + apply Et in Hl as ->. go_steps. cbn. rewrite app_nil_r in *. done.
      + go_steps. split_and!; try done. rewrite Htl, Ht, last_or_mid.
        destruct l2 as [|[c k] l2 _] using rev_ind; [naive_solver|]. by rewrite app_assoc, !last_or_snoc. }
  case_decide as Hl; go_steps; cbn; split_and!; try done.
  - apply Eh in Hl as ->. cbn. destruct l2 as [|[c k] l2]; [naive_solver|done].
  - rewrite Hh. destruct l1 as [|[c k] l1]; [naive_solver|done].
Qed.

Lemma popDirty_linked d l a f :
  linked d (l ++ [(a, f)]) ->
  returns popDirty d (fun r d' => r = Some a /\ linked d' l /\ dPageMap d' = dPageMap d /\
    exists x y, dp_store d' !! a = Some (mkDirty f x y)).
Proof.
  intros [Hnd Hh Ht (q & Hseg & Hq) Hfr].
  assert (Ha := linked_node d _ _ _ _ _ Hseg). unfold popDirty. go_steps. rewrite Ht, last_or_snoc, Hh.
  assert (exists b, head_or (l ++ [(a, f)]) None = Some b) as [b Hb] by (destruct l as [|[]]; eauto). rewrite Hb.
  rewrite fmap_app in Hnd. cbn in Hnd. assert (Hnd2 := Hnd). apply NoDup_app in Hnd2 as (Hnl & Hd & _).
  destruct (b =? a)%nat eqn:Eba.
  - apply Nat.eqb_eq in Eba as ->. destruct l as [|[c k] l].
    + go_steps. cbn. split_and!; try done; [|eauto]. split; cbn; [constructor|done|done|by exists None|done].
    + cbn in Hb. simplify_eq. exfalso. apply (Hd a); set_solver.
  - go_steps. eapply returns_load; [exact Ha|]. go_steps. cbn. split_and!; try done; [|eauto].
    destruct l as [|[c k] l'] eqn:El; [cbn in Hb; simplify_eq; by rewrite Nat.eqb_refl in Eba|]. rewrite <- El in *.
    split; cbn; [done|rewrite Hh, El; done|done| |done].
    exists (Some a). apply dseg_app in Hseg as [Hs _]. split; [done|]. intros c' [= <-]. split; [|by eexists].
    intros Hin. apply (Hd a Hin). set_solver.
Qed.

Lemma popDirty_empty d : linked d [] -> popDirty d = (Val None, d).
Proof. intros [_ Hh Ht _ _]. unfold popDirty, mbind, M_bind, get_state. by rewrite Ht. Qed.

(** A new node, linked in front; the map may have changed in between. *)
Lemma addToDirtyList_linked d l f m :
  linked d l ->
  let a := dp_fresh d in
  let d1 := mkPages (dp_head d) (dp_tail d) m (<[a := mkDirty f None None]> (dp_store d)) (S a) in
  returns (addToDirtyList a) d1 (fun _ d' => linked d' ((a, f) :: l) /\ dPageMap d' = m).
Proof.
  intros [Hnd Hh Ht (q & Hseg & Hq) Hfr] a d1.
  assert (a ∉ l.*1) as Hal.
  { intros ([a' g] & Hin & Hin2)%list_elem_of_fmap. cbn in Hin. subst a'.
    destruct (dseg_lookup _ _ _ _ _ _ Hseg Hin2) as (x & y & Hx). assert (a < a)%nat; [|lia]. apply Hfr. by eexists. }
  assert (forall c, is_Some (dp_store d1 !! c) -> (c < S a)%nat) as Hfr1.
  { intros c. cbn. destruct (decide (c = a)) as [->|]; [lia|]. rewrite lookup_insert_ne by done. intros Hc%Hfr. lia. }
  unfold addToDirtyList. go_steps. cbn [d1 dp_head dp_tail]. rewrite Hh, Ht. destruct l as [|[b g] l].
  { cbn. go_steps. cbn. split; [|done]. split; cbn; [by apply NoDup_singleton|done|done| |done].
    exists None. by rewrite lookup_insert_eq. }
  assert (exists t, last_or ((b, g) :: l) None = Some t) as [t Et].
  { destruct l as [|[c k] l _] using rev_ind; [by eexists|]. rewrite app_comm_cons, last_or_snoc. eauto. }
  cbn [head_or]. rewrite Et.
  assert (dseg (dp_store d1) None ((b, g) :: l) q) as Hs1.
  { by apply dseg_new. }
  assert (dp_store d1 !! a = Some (mkDirty f None None)) as Ha1 by apply lookup_insert_eq.
  destruct (relink _ l a f b g None None q ltac:(by constructor) Hs1 Ha1) as [Ha4 Hs5].
  go_steps. apply returns_store; [by rewrite Ha1|]. go_steps. apply returns_store.
  { cbn. rewrite alter_is_Some. destruct Hs1 as [Hb _]. cbn in Hb. by rewrite Hb. }
  go_steps. cbn. split; [|done]. split; cbn; [by constructor|done|by rewrite Ht, !last_or_cons| |].
  - exists q. split; [rewrite alter_id in Hs5; [exact Hs5|]; intros x Hx; rewrite Ha4 in Hx; by simplify_eq|].
    intros c Hc. destruct (Hq c Hc) as [Hc1 Hc2]. assert (c <> a) by (apply Hfr in Hc2; lia).
    rewrite !alter_is_Some. cbn. rewrite lookup_insert_ne by done. set_solver.
  - intros c. rewrite !alter_is_Some. apply Hfr1.
Qed.

(** ** The list with its map *)

(** What callers do with the list, and what they see of it. *)
Inductive dop := DAdd (f : nat) | DPop | DRemove (id : Z) | DEmpty.
Inductive dout := DNothing | DFrame (o : option nat) | DBool (b : bool).

(** The frames from a node on, by the [next] pointers, up to the node [t]. *)
Fixpoint walk_to (t : option nat) (n : nat) (h : gmap nat pDirty) (p : option nat) : list nat :=
  match n, p with
  | S n, Some a =>
      match h !! a with
      | Some nd => pd_frame nd :: (if decide (t = Some a) then [] else walk_to t n h (pd_next nd))
      | None => []
      end
  | _, _ => []
  end.

(** The frames from a node on, by the [prev] pointers, up to [nil]. *)
Fixpoint walk_back (n : nat) (h : gmap nat pDirty) (p : option nat) : list nat :=
  match n, p ≫= (h !!.) with
  | S n, Some nd => pd_frame nd :: walk_back n h (pd_prev nd)
  | _, _ => []
  end.

Section Spec.
Context (fkey : nat -> Z).

Definition run_dop (o : dop) : M dPages dout :=
  match o with
  | DAdd f => addDirtyFrame fkey f;; mret DNothing
  | DPop =>
      p ← popDirtyPage fkey;
      match p with
      | None => mret (DFrame None)
      | Some p => n ← load p; mret (DFrame (Some (pd_frame n)))
      end
  | DRemove id => removePage id;; mret DNothing
  | DEmpty => b ← isEmpty; mret (DBool b)
  end.

Fixpoint run_dops (os : list dop) : M dPages (list dout) :=
  match os with
  | [] => mret []
  | o :: os => r ← run_dop o; rs ← run_dops os; mret (r :: rs)
  end.

(** The same on a list of frames, most recent first, one frame per page. *)
Definition spec_dop (o : dop) (l : list nat) : dout * list nat :=
  match o with
  | DAdd f =>
      (DNothing, match filter (fun g => fkey g = fkey f) l with
                 | g :: _ => g :: filter (fun g => fkey g <> fkey f) l
                 | [] => f :: l
                 end)
  | DPop => (DFrame (last l), take (length l - 1) l)
  | DRemove id => (DNothing, filter (fun g => fkey g <> id) l)
  | DEmpty => (DBool (bool_decide (l = [])), l)
  end.

Fixpoint spec_dops (os : list dop) (l : list nat) : list dout * list nat :=
  match os with
  | [] => ([], l)
  | o :: os => let '(r, l) := spec_dop o l in let '(rs, l) := spec_dops os l in (r :: rs, l)
  end.

Definition dop_ok (o : dop) : Prop := match o with DAdd f => fkey f <> 0%Z | _ => True end.

Record drep (d : dPages) (l : run) : Prop := mk_drep {
  dr_linked : linked d l;
  dr_keys : NoDup (fkey <$> l.*2);
  dr_nonzero : Forall (fun f => fkey f <> 0%Z) l.*2;
  dr_map : forall k a, dPageMap d !! k = Some a <-> exists f, (a, f) ∈ l /\ fkey f = k }.

(** With one frame per page, the frames of other pages are those around it. *)
Lemma filter_others (l : list nat) k : k ∉ (fkey <$> l) -> filter (fun g => fkey g <> k) l = l /\ filter (fun g => fkey g = k) l = [].
Proof.
  induction l as [|g l IH]; [done|]. rewrite fmap_cons. intros [Hg Hl]%not_elem_of_cons. destruct (IH Hl) as [IH1 IH2].
  rewrite !filter_cons. by rewrite decide_True, decide_False, IH1, IH2 by done.
Qed.

Lemma filter_mid (l1 l2 : list nat) f :
  NoDup (fkey <$> (l1 ++ f :: l2)) ->
  filter (fun g => fkey g <> fkey f) (l1 ++ f :: l2) = l1 ++ l2 /\ filter (fun g => fkey g = fkey f) (l1 ++ f :: l2) = [f].
Proof.
  rewrite fmap_app, fmap_cons. intros (_ & Hd & [Hf _]%NoDup_cons)%NoDup_app.
  destruct (filter_others l1 (fkey f)) as [E1 E1']. { intros Hin. apply (Hd _ Hin). set_solver. }
  destruct (filter_others l2 (fkey f) Hf) as [E2 E2'].
  rewrite !filter_app, !filter_cons, decide_False, decide_True, E1, E1', E2, E2' by naive_solver. done.
Qed.

Lemma snd_mid (l1 l2 : run) a f : (l1 ++ (a, f) :: l2).*2 = l1.*2 ++ f :: l2.*2.
Proof. by rewrite fmap_app. Qed.

Lemma drep_lookup d l k a :
  drep d l -> dPageMap d !! k = Some a -> exists l1 f l2, l = l1 ++ (a, f) :: l2 /\ fkey f = k.
Proof.
  intros Hd Hk. apply (dr_map _ _ Hd) in Hk as (f & Hin & Hf).
  apply list_elem_of_split in Hin as (l1 & l2 & ->). by eexists _, _, _.
Qed.

Lemma drep_absent d l k : drep d l -> dPageMap d !! k = None -> k ∉ (fkey <$> l.*2).
Proof.
  intros Hd Hk Hin. apply list_elem_of_fmap in Hin as (f & -> & ([a g] & -> & Hin)%list_elem_of_fmap).
  assert (dPageMap d !! fkey g = Some a) as Hs; [|cbn in Hk; congruence]. apply (dr_map _ _ Hd). eauto.
Qed.

(** Without the node [a]: the map without its key. *)
Lemma map_without d d' l1 l2 a f :
  drep d (l1 ++ (a, f) :: l2) -> linked d' (l1 ++ l2) -> dPageMap d' = delete (fkey f) (dPageMap d) -> drep d' (l1 ++ l2).
Proof.
  intros [Hl Hk Hz Hm] Hl' Hm'. rewrite <- Permutation_middle in Hk, Hz. cbn in Hk, Hz.
  apply NoDup_cons in Hk as [Hfk Hk]. apply Forall_cons in Hz as [_ Hz]. split; [done..|].
  intros k b. rewrite Hm', lookup_delete_Some, Hm. split.
  - intros (Hne & g & Hin & <-). exists g. split; [|done]. set_solver.
  - intros (g & Hin & <-). split; [|exists g; set_solver]. intros Heq. apply Hfk. rewrite Heq.
    apply list_elem_of_fmap. exists g. split; [done|]. apply list_elem_of_fmap. by exists (b, g).
Qed.

Lemma addDirtyFrame_drep d l f :
  drep d l -> fkey f <> 0%Z ->
  returns (addDirtyFrame fkey f) d (fun _ d' => exists l', drep d' l' /\ l'.*2 = (spec_dop (DAdd f) l.*2).2).
Proof.
  intros Hd Hf. unfold addDirtyFrame. go_steps. destruct (dPageMap d !! fkey f) as [a|] eqn:Hm.
  - destruct (drep_lookup _ _ _ _ Hd Hm) as (l1 & g & l2 & -> & Hg). go_steps.
    go_call (moveToHead_linked _ _ _ _ _ (dr_linked _ _ Hd)). intros _ d' [Hl Hm'].
    exists ((a, g) :: l1 ++ l2). destruct Hd as [_ Hk Hz Hmp]. cbn [spec_dop snd].
    assert (forall (P : list nat -> Prop), Proper ((≡ₚ) ==> impl) P -> P (l1 ++ (a, g) :: l2).*2 -> P ((a, g) :: l1 ++ l2).*2) as Hperm.
    { intros P HP. apply HP. apply fmap_Permutation. symmetry. apply Permutation_middle. }
    split; [split; [done| | |]|].
    + apply (Hperm (fun l => NoDup (fkey <$> l))); [|done]. intros x y Hxy. unfold impl. by rewrite Hxy.
    + apply (Hperm (Forall _)); [|done]. intros x y Hxy. unfold impl. by rewrite Hxy.
    + intros k b. rewrite Hm', Hmp. by setoid_rewrite <- Permutation_middle.
    + rewrite snd_mid in Hk |- *. rewrite <- Hg.
      destruct (filter_mid _ _ _ Hk) as [-> ->]. by rewrite fmap_cons, fmap_app.
  - assert (Hno := drep_absent _ _ _ Hd Hm). apply returns_bind. unfold new_node.
    eexists _, _. split; [done|]. go_steps.
    go_call (addToDirtyList_linked _ _ f (<[fkey f := dp_fresh d]> (dPageMap d)) (dr_linked _ _ Hd)).
    intros _ d' [Hl Hm']. exists ((dp_fresh d, f) :: l). destruct Hd as [Hlk Hk Hz Hmp]. cbn [spec_dop snd].
    split; [split; [done|by constructor|by constructor|]|].
    + intros k b. rewrite Hm'. destruct (decide (k = fkey f)) as [->|Hne].
      * rewrite lookup_insert_eq. split; [intros [= <-]; exists f; set_solver|].
        intros (g & [[= -> ->]|Hin]%elem_of_cons & Hg); [done|]. exfalso. apply Hno. rewrite <- Hg.
        apply list_elem_of_fmap. exists g. split; [done|]. apply list_elem_of_fmap. by exists (b, g).
      * rewrite lookup_insert_ne, Hmp by done. set_solver.
    + destruct (filter_others _ _ Hno) as [_ ->]. done.
Qed.

Lemma popDirtyPage_drep d l :
  drep d l ->
  returns (run_dop DPop) d (fun r d' => exists l', drep d' l' /\ (r, l'.*2) = spec_dop DPop l.*2).
Proof.
  intros Hd. unfold run_dop, popDirtyPage. destruct l as [|[a f] l _] using rev_ind.
  - go_steps. eexists _, _. split; [apply popDirty_empty, Hd|]. cbn. go_steps. cbn. go_steps. by exists [].
  - go_steps. go_call (popDirty_linked _ _ _ _ (dr_linked _ _ Hd)). intros r d' (-> & Hl & Hm & x & y & Ha). go_steps.
    eapply returns_load; [exact Ha|]. cbn [pd_frame].
    assert (fkey f <> 0%Z) as Hf. { destruct Hd as [_ _ Hz _]. rewrite fmap_app in Hz. by apply Forall_app in Hz as [_ [? _]%Forall_cons]. }
    rewrite (proj2 (Z.eqb_neq _ _) Hf). go_steps. eapply returns_load; [exact Ha|]. go_steps.
    exists l. split.
    + rewrite <- (app_nil_r l). eapply map_without; [exact Hd| |cbn; by rewrite Hm]. rewrite app_nil_r.
      by destruct Hl; split.
    + cbn. rewrite fmap_app. cbn. rewrite last_snoc, length_app, length_fmap. cbn.
      replace (length l + 1 - 1) with (length l.*2) by (rewrite length_fmap; lia). by rewrite take_app_length.
Qed.

Lemma removePage_drep d l id :
  drep d l ->
  returns (removePage id) d (fun _ d' => exists l', drep d' l' /\ l'.*2 = (spec_dop (DRemove id) l.*2).2).
Proof.
  intros Hd. unfold removePage. go_steps. cbn [spec_dop snd]. destruct (dPageMap d !! id) as [a|] eqn:Hm.
  - destruct (drep_lookup _ _ _ _ Hd Hm) as (l1 & f & l2 & -> & Hf). go_steps.
    assert (linked (set_pmap (delete id (dPageMap d)) d) (l1 ++ (a, f) :: l2)) as Hl by (destruct (dr_linked _ _ Hd); by split).
    go_call (removeFromLru_linked _ _ _ _ _ Hl). intros _ d' [Hl' Hm']. exists (l1 ++ l2). split.
    + eapply map_without; [exact Hd|done|]. by rewrite Hm', Hf.
    + destruct Hd as [_ Hk _ _]. rewrite snd_mid in Hk |- *. rewrite <- Hf.
      destruct (filter_mid _ _ _ Hk) as [-> _]. by rewrite fmap_app.
  - go_steps. exists l. split; [done|]. symmetry. apply filter_others. by eapply drep_absent.
Qed.

Lemma isEmpty_drep d l : drep d l -> isEmpty d = (Val (bool_decide (l.*2 = [])), d).
Proof.
  intros [[_ Hh Ht _ _] _ _ _]. unfold isEmpty, gets. rewrite Hh, Ht. destruct l as [|[a f] l]; [done|].
  destruct l as [|[b g] l _] using rev_ind; [done|]. by rewrite app_comm_cons, last_or_snoc.
Qed.

Lemma run_dop_drep d l o :
  drep d l -> dop_ok o -> returns (run_dop o) d (fun r d' => exists l', drep d' l' /\ (r, l'.*2) = spec_dop o l.*2).
Proof.
  intros Hd Ho. destruct o as [f| |id|].
  - unfold run_dop. go_steps. go_call (addDirtyFrame_drep _ _ _ Hd Ho). intros _ d' (l' & Hd' & E). go_steps.
    exists l'. by rewrite E.
  - by apply popDirtyPage_drep.
  - unfold run_dop. go_steps. go_call (removePage_drep _ _ id Hd). intros _ d' (l' & Hd' & E). go_steps.
    exists l'. by rewrite E.
  - unfold run_dop. go_steps. eexists _, _. split; [by apply isEmpty_drep|]. go_steps. by exists l.
Qed.

Lemma run_dops_drep os d l :
  drep d l -> Forall dop_ok os ->
  returns (run_dops os) d (fun rs d' => exists l', drep d' l' /\ (rs, l'.*2) = spec_dops os l.*2).
Proof.
  intros Hd Hos. revert d l Hd. induction Hos as [|o os Ho Hos IH]; intros d l Hd; cbn [run_dops spec_dops].
  - go_steps. by exists l.
  - go_steps. go_call (run_dop_drep _ _ _ Hd Ho). intros r d' (l' & Hd' & E). go_steps. rewrite <- E.
    go_call (IH _ _ Hd'). intros rs d'' (l'' & Hd'' & E'). go_steps. exists l''. rewrite <- E'. done.
Qed.

Lemma dseg_walk_to h l p q n : NoDup l.*1 -> dseg h p l q -> walk_to (last_or l None) (length l + n) h (head_or l None) = l.*2.
Proof.
  revert p. induction l as [|[a f] l IH]; intros p; [by destruct n|]. cbn [fmap list_fmap fst]. intros [Ha Hn]%NoDup_cons [Hh Hl].
  cbn. rewrite Hh. cbn. f_equal. rewrite last_or_cons. destruct l as [|[b g] l].
  - by rewrite decide_True.
  - rewrite decide_False.
    + specialize (IH (Some a) Hn Hl). rewrite last_or_cons in *. exact IH.
    + unfold last_or. destruct (last ((b, g) :: l)) as [[c x]|] eqn:E; [|by apply last_None in E].
      intros [= ->]. apply Ha. apply list_elem_of_fmap. exists (a, x). split; [done|]. apply last_Some in E as [l' ->]. set_solver.
Qed.

Lemma dseg_walk_back h l q n : dseg h None l q -> walk_back (length l + n) h (last_or l None) = reverse l.*2.
Proof.
  revert q. induction l as [|[a f] l IH] using rev_ind; intros q Hl; [by destruct n|].
  apply dseg_app in Hl as [Hl [Ha _]]. rewrite last_or_snoc, length_app, fmap_app, reverse_app. cbn [length fmap list_fmap].
  replace (length l + 1 + n)%nat with (S (length l + n)) by lia. cbn. rewrite Ha. cbn. f_equal. by apply (IH (Some a)).
Qed.

Lemma drep_new : drep NewDirtyPageList [].
Proof.
  split; [split|..]; cbn; try done; try constructor; try by exists None.
  - intros a [x Hx]. by rewrite lookup_empty in Hx.
  - by rewrite lookup_empty.
  - intros (f & Hin & _). by apply elem_of_nil in Hin.
Qed.

(** C22: the dirty-page list, a doubly linked list with a hash table, behaves as a
    plain list of frames, most recently marked first and one per page.  Whatever
    frames are marked, popped and removed from a new list, in any order, no call
    panics and a pop returns the least recently marked frame.  The nodes from the head
    to the tail, by the next pointers, are the frames of that list, and from the tail
    to [nil], by the prev pointers, they are its reverse.  (Behind the tail the next
    pointer can lead on, to a node that was popped: [popDirty] does not reset it.)  The
    frames hold pages other than page 0 and keep them meanwhile. *)
Theorem dirty_refines_lru os n :
  Forall dop_ok os ->
  returns (run_dops os) NewDirtyPageList (fun rs d => let l := (spec_dops os []).2 in
    rs = (spec_dops os []).1 /\
    walk_to (dp_tail d) (length l + n) (dp_store d) (dp_head d) = l /\
    walk_back (length l + n) (dp_store d) (dp_tail d) = reverse l).
Proof.
  intros Hos. go_call (run_dops_drep os _ _ drep_new Hos). intros rs d (l & Hd & E). cbn in E. rewrite <- E. cbn.
  split; [done|]. destruct Hd as [[Hn Hh Ht (q & Hs & _) _] _ _ _]. rewrite length_fmap, Hh, Ht.
  split; [by eapply dseg_walk_to|by eapply dseg_walk_back].
Qed.

End Spec.

Module DirtySample.

(** Frame [f] holds page [f + 1]; frames 0 and 4 both hold page 1. *)
Definition key (f : nat) : Z := Z.of_nat (f mod 4) + 1.
Definition ops : list dop := [DEmpty; DAdd 0; DAdd 1; DAdd 2; DAdd 4; DPop; DAdd 3; DAdd 2; DRemove 1; DPop; DAdd 1; DPop; DPop; DPop].

Example ops_spec :
  spec_dops key ops [] =
    ([DBool true; DNothing; DNothing; DNothing; DNothing; DFrame (Some 1); DNothing; DNothing; DNothing;
      DFrame (Some 3); DNothing; DFrame (Some 2); DFrame (Some 1); DFrame None], []).
Proof. reflexivity. Qed.

Definition ops2 : list dop := [DAdd 0; DAdd 1; DAdd 2; DPop; DAdd 3; DAdd 1].

Lemma dirty_refines_lru_witness :
  (spec_dops key ops2 []).2 = [1; 3; 2]%nat /\
  returns (run_dops key ops2) NewDirtyPageList (fun rs d => let l := (spec_dops key ops2 []).2 in
    rs = (spec_dops key ops2 []).1 /\ walk_to (dp_tail d) (length l + 5) (dp_store d) (dp_head d) = l /\
    walk_back (length l + 5) (dp_store d) (dp_tail d) = reverse l).
Proof. split; [reflexivity|]. apply dirty_refines_lru. repeat constructor; done. Defined.

(** The node of the tail still points to the node that was popped. *)
Example popped_next : let d := (run_dops key [DAdd 0; DAdd 1; DPop] NewDirtyPageList).2 in
  dp_head d = Some 1%nat /\ dp_tail d = Some 1%nat /\ pd_next <$> dp_store d !! 1%nat = Some (Some 0%nat) /\ dPageMap d !! 1%Z = None.
Proof. vm_compute. auto. Qed.

End DirtySample.
