(* ===== verification/Shard.v ===== *)
(** * Shards and the buffer manager ([pkg/buffermanager/shard.go], [buffermanager.go], [bgwriter.go])

    A shard serves requests for its pages through a pool of workers: the caller
    queues a job and waits for the first message on the job's channels.  The
    channels are unbuffered and the caller takes one message, so a worker that sends
    a second one waits for ever ([send]).  A job is run to its end before the next
    one starts; the latches of the frames and of the shard are not modelled.  The
    hash table is part of [pool], and so is the pager, which all shards share. *)

From S2P Require Import Prelude Keys Files Helpers Disk FreeList Page Pager TinyLFU Clock WTinyLFU DirtyList.
Local Open Scope Z_scope.

(** ** Jobs *)

Definition GET_CREATE : Z := 7.
Definition DELETE : Z := 6.
Definition ISINTERNAL : Z := 5.
Definition SETASROOT : Z := 4.

Record bmJob := mkBmJob { bj_flag : Z; bj_pid : Z }.

(** A message on [errChan] (possibly nil) or on [resultChan]. *)
Inductive reply := RErr (e : error) | RNil | RRes (fr : nat) (cacheHit : bool).

(** A running job: the shard, and the messages sent so far. *)
Record running := mkRunning { r_pool : pool; r_sent : list reply }.

Definition on_pool {A} (m : M pool A) : M running A := zoom r_pool (fun p r => mkRunning p (r_sent r)) m.

Definition send (m : reply) : M running unit :=
  r ← get_state;
  match r_sent r with
  | [] => modify (fun r => mkRunning (r_pool r) [m])
  | _ :: _ => blocked
  end.

(** [if err != nil { j.errChan <- err; return }] *)
Definition or_send {A} (m : M pool A) (k : A -> M running unit) : M running unit :=
  r ← catch (on_pool m);
  match r with
  | inl a => k a
  | inr e => send (RErr e)
  end.

Definition table_of (p : pool) : gmap Z nat := p_table p.
Definition store_key (k : Z) (en : nat) : M pool unit := modify (fun p => set_table (<[k := en]> (p_table p)) p).

(** An operation on the page of an entry's frame. *)
Definition on_fpage {A} (m : M Page A) : M clockentry A :=
  zoom (fun e => f_page (entry e)) (fun pg e => set_frame (mkFrame pg (f_isInternal (entry e)) (f_isDeleted (entry e)) (f_dirty (entry e)) (f_key (entry e))) e) m.

Section Jobs.
Context (Sum64 : bytes -> Z).

Definition put (k : Z) (en : nat) : M pool nat :=
  t ← gets table_of;
  (match t !! k with
   | Some v => ignore (Increment Sum64 v)
   | None => mret tt
   end);;
  store_key k en;;
  mret en.

(** The page read into a frame just taken from the pool; the error paths give the
    frame back.  Both the lookup and the deletion of a page that is not cached do
    this. *)
Definition read_into (en : nat) (pid : Z) : M pool unit :=
  on_en en unMarkForEviction;;
  frBuff ← on_en en RawBufferSlice;
  r ← catch (on_pager (ReadPage pid frBuff));
  match r with
  | inr e => readdFrameToPool en;; fail (ekind e) (Message e)
  | inl b =>
      on_en en (on_fpage (modify (set_data b)));;
      p ← lift_outcome (get32 b 1);
      if negb (p =? pid) then readdFrameToPool en;; fail BufferManagerError "Invalid pageId provided"
      else
        r ← catch (on_en en (on_fpage (UpdatePageMeta p (BitIsSet (default 0 (head b)) IsInternalBit))));
        match r with
        | inr e => fail BufferManagerError (Message e)
        | inl _ => on_en en (modify (frame_SetData false))
        end
  end.

Definition markDead (en : nat) : M pool unit := on_en en (modify (fun e => set_frame (frame_MarkDead (entry e)) e)).

Definition runDelete (pid : Z) : M running unit :=
  t ← on_pool (gets table_of);
  match t !! pid with
  | Some v =>
      on_pool (on_en v reference);; on_pool (markDead v);; on_pool (on_en v unref);;
      send RNil
  | None =>
      or_send (getFreeFrame Sum64) (fun en =>
      or_send (read_into en pid) (fun _ =>
      on_pool (put pid en);; on_pool (markDead en);; on_pool (on_en en unref);;
      send RNil))
  end.

(** The lookup of a page that is not in the cache, or whose frame is being evicted. *)
Definition runMiss (pid : Z) : M running unit :=
  or_send (getFreeFrame Sum64) (fun en =>
  or_send (read_into en pid) (fun _ =>
  f ← on_pool (put pid en);
  send (RRes f false))).

(** [getMetadataPage]: the address of a field of a nil entry panics. *)
Definition getMetadataPage : M pool nat :=
  r ← on_clock getReserved;
  match r with
  | Some en => mret en
  | None => panic "invalid memory address or nil pointer dereference"
  end.

Definition runGet (pid : Z) : M running unit :=
  if pid =? 0 then fr ← on_pool getMetadataPage; send (RRes fr true)
  else
    t ← on_pool (gets table_of);
    match t !! pid with
    | None => runMiss pid
    | Some v =>
        hit ← on_pool (on_en v refIfOccupied);
        if negb hit then runMiss pid
        else
          dead ← on_pool (on_en v frame_IsDead);
          if dead : bool then
            dirty ← on_pool (on_en v frame_isDirty);
            (if negb dirty then on_pool (modify (fun p => set_table (delete pid (p_table p)) p)) else mret tt);;
            on_pool (on_en v unref);;
            send (RErr (mkError BufferManagerError "No entry found."))
          else
            on_pool (ignore (Increment Sum64 v));;
            send (RRes v true)
    end.

Definition runCreate (internal setAsRoot : bool) (pid : Z) : M running unit :=
  (if pid =? 0 then send (RErr (mkError BufferManagerError "Invalid pid 0")) else mret tt);;
  or_send (getFreeFrame Sum64) (fun en =>
  on_pool (on_en en unMarkForEviction);;
  frPge ← on_pool (on_en en frame_GetPage);
  r ← catch (on_pool (on_pager (NewPage setAsRoot internal (Some frPge) pid)));
  match r with
  | inr e => on_pool (on_en en unref);; send (RErr e)
  | inl (pgeId, pge) =>
      on_pool (on_en en (on_fpage (put_state pge)));;
      if pgeId =? 0 then on_pool (on_en en unref);; panic "Invalid frame ID 0"
      else
        on_pool (on_en en (modify (frame_SetData true)));;
        k ← on_pool (on_en en frame_getKey);
        if k =? 0 then panic "Invalid frame ID 0"
        else
          on_pool (put pgeId en);;
          send (RRes en false)
  end).

Definition runJob (j : bmJob) : M running unit :=
  if BitIsSet (bj_flag j) DELETE then runDelete (bj_pid j)
  else if BitIsSet (bj_flag j) GET_CREATE then runGet (bj_pid j)
  else runCreate (BitIsSet (bj_flag j) ISINTERNAL) (BitIsSet (bj_flag j) SETASROOT) (bj_pid j).

(** The caller's side: the first message; a panic of a worker ends the program. *)
Definition submit (j : bmJob) : M pool reply := fun p =>
  let '(o, r) := runJob j (mkRunning p []) in
  match o with
  | Val _ | Blocked => match r_sent r with m :: _ => (Val m, r_pool r) | [] => (Blocked, r_pool r) end
  | Err e => (Err e, r_pool r)
  | Panic m => (Panic m, r_pool r)
  | OutOfFuel => (OutOfFuel, r_pool r)
  end.

(** The frame (nil for [None]) and whether it was cached. *)
Definition get (pageId : Z) : M pool (option nat * bool) :=
  m ← submit (mkBmJob 128 pageId);
  match m with
  | RErr e => fail (ekind e) (Message e)
  | RNil => mret (None, false)
  | RRes fr hit => mret (Some fr, hit)
  end.

Definition shard_delete (pid : Z) : M pool unit :=
  m ← submit (mkBmJob 64 pid);
  match m with
  | RErr e => fail (ekind e) (Message e)
  | RNil => mret tt
  | RRes _ _ => blocked
  end.

Definition newFrame (internal setAsRoot : bool) (pid : Z) : M pool (option nat) :=
  let flag := 0 in
  let flag := if internal then Z.lor flag (Z.shiftl 1 ISINTERNAL) else flag in
  let flag := if setAsRoot then Z.lor flag (Z.shiftl 1 SETASROOT) else flag in
  m ← submit (mkBmJob flag pid);
  match m with
  | RErr e => fail (ekind e) (Message e)
  | RNil => mret None
  | RRes fr _ => mret (Some fr)
  end.

End Jobs.

(** ** The rest of a shard *)

Record shard := mkShard { sh_pool : pool; diryList : dPages }.

Definition on_shpool {A} (m : M pool A) : M shard A := zoom sh_pool (fun p s => mkShard p (diryList s)) m.
Definition on_dirty {A} (m : M dPages A) : M shard A := zoom diryList (fun d s => mkShard (sh_pool s) d) m.

(** The page id a frame of the shard holds now. *)
Definition key_in (p : pool) (i : nat) : Z := default 0 ((fun e => f_key (entry e)) <$> bPool (clock_of p) !! i).

Definition mark_dirty (f : nat) : M pool unit := on_en f (modify (fun e => set_frame (frame_MarkDirty (entry e)) e)).

Definition markFrameDirty (f : nat) : M shard unit :=
  on_shpool (mark_dirty f);;
  sh ← get_state;
  on_dirty (addDirtyFrame (key_in (sh_pool sh)) f).

Definition flushFreeList : M pool unit := on_pager FlushFreeList.

Definition prepareForEviction (f : option nat) : M pool unit :=
  match f with
  | None => fail BufferManagerError "Provided frame is nil."
  | Some f =>
      dirty ← on_en f frame_isDirty;
      if negb dirty then mret tt
      else
        fBuff ← on_en f RawBufferSlice;
        k ← on_en f frame_getKey;
        b ← or_panic (on_pager (WritePage k fBuff false));
        on_en f (on_fpage (modify (set_data b)))
  end.

(** The metadata frame is written with the root, the page count and the last page
    id; the pin is dropped when the call returns, with or without an error. *)
Definition flush_metadata : M pool unit :=
  r ← on_clock getReserved;
  match r with
  | None => fail BufferManagerError "No metadata frame available"
  | Some en =>
      on_en en reference;;
      metaBuff ← on_en en RawBufferSlice;
      r ← catch (on_pager (Pager.FlushMetadata metaBuff));
      match r with
      | inl b => on_en en (on_fpage (modify (set_data b)));; on_en en unref
      | inr e => on_en en unref;; fail (ekind e) (Message e)
      end
  end.

(** [newShard] for frames of [windSize] and [mainSize]; the filter [t] is the one
    of [NewWTinylfu]. *)
Definition newShard (t : TinyLFU) (pgr : Pager) (windSize mainSize : Z) (reserveMetadataEntry : bool) : outcome shard :=
  match NewWTinylfu t windSize mainSize reserveMetadataEntry with
  | Val w =>
      if reserveMetadataEntry then
        match Reserved (cBuffer w) with
        | None => Err (mkError BufferManagerError "Unable to initialize metadata frame")
        | Some _ => Val (mkShard (mkPool w pgr ∅) NewDirtyPageList)
        end
      else Val (mkShard (mkPool w pgr ∅) NewDirtyPageList)
  | Err e => Panic (Message e)
  | Panic m => Panic m
  | Blocked => Blocked
  | OutOfFuel => OutOfFuel
  end.

(** ** The background writer *)

Definition MAX_PAGES : Z := 5000.

(** The shard and the number of pages written since the last reset ([uint32]). *)
Record bgState := mkBg { bg_pool : pool; writtenPages : Z }.

Definition on_bg {A} (m : M pool A) : M bgState A := zoom bg_pool (fun p b => mkBg p (writtenPages b)) m.

(** One entry of the clock; the result says whether the end of the loop's body is
    reached, [continue] skips it. *)
Definition bg_visit (i : nat) : M bgState bool :=
  ok ← on_bg (on_en i refIfNotReferenced);
  if negb ok then mret false
  else
    dirty ← on_bg (on_en i frame_isDirty);
    if negb dirty then on_bg (on_en i unref);; mret false
    else
      n ← gets writtenPages;
      let shouldFlush := u32 (n + 1) =? MAX_PAGES in
      k ← on_bg (on_en i frame_getKey);
      tmp ← on_bg (on_en i RawBufferSlice);
      on_bg (on_en i (modify (fun e => set_frame (frame_MarkClean (entry e)) e)));;
      r ← catch (on_bg (on_pager (WritePage k tmp shouldFlush)));
      match r with
      | inr _ => on_bg (on_en i unref);; mret false
      | inl _ =>
          on_bg (on_en i unref);;
          modify (fun b => mkBg (bg_pool b) (u32 (writtenPages b + 1)));;
          mret true
      end.

(** One pass over the clock from entry [i], [n] entries to go. *)
Fixpoint bg_pass (n : nat) (i : nat) : M bgState unit :=
  match n with
  | O => mret tt
  | S n' =>
      fin ← bg_visit i;
      if fin : bool then
        w ← gets writtenPages;
        if w >=? MAX_PAGES then modify (fun b => mkBg (bg_pool b) 0) else bg_pass n' (S i)
      else bg_pass n' (S i)
  end.

(** The body of the loop of [Start]: one pass. *)
Definition bg_cycle : M bgState unit :=
  c ← gets (fun b => capacity (clock_of (bg_pool b)));
  bg_pass c 0.

(** One round of [watchFreeList]. *)
Definition watch_free_list : M pool unit := or_panic flushFreeList.

(** ** The buffer manager *)

(** The shards use the pager of the buffer manager: [on_shard] lends it to the shard
    for the call. *)
Record BufferManager := mkBM { bm_pager : Pager; bm_shards : list shard }.

Definition lend (pgr : Pager) (s : shard) : shard := mkShard (set_pager pgr (sh_pool s)) (diryList s).

Definition on_shard {A} (i : Z) (m : M shard A) : M BufferManager A := fun b =>
  match bm_shards b !! Z.to_nat i with
  | None => (Panic "index out of range", b)
  | Some s =>
      let '(o, s') := m (lend (bm_pager b) s) in
      (o, mkBM (p_pager (sh_pool s')) (<[Z.to_nat i := s']> (bm_shards b)))
  end.

Definition on_bm_pager {A} (m : M Pager A) : M BufferManager A := zoom bm_pager (fun p b => mkBM p (bm_shards b)) m.

(** Frames are named by their shard and their index there. *)
Section Manager.
Context (Sum64 : bytes -> Z) (hasher : bytes -> Z).

Definition getShard (key : Z) (b : BufferManager) : Z := u64 (hasher (le32 key)) mod Z.of_nat (length (bm_shards b)).

Definition with_frame (i : Z) (fr : option nat) : M BufferManager (Z * nat) :=
  match fr with
  | None => panic "Could not get frame"
  | Some f => mret (i, f)
  end.

Definition GetFromShard (pid : Z) (shardId : Z) : M BufferManager (Z * nat) :=
  r ← on_shard shardId (on_shpool (get Sum64 pid));
  with_frame shardId r.1.

Definition Get (pid : Z) : M BufferManager ((Z * nat) * bool) :=
  idx ← gets (getShard pid);
  r ← on_shard idx (on_shpool (get Sum64 pid));
  f ← with_frame idx r.1;
  mret (f, r.2).

Definition NewFrame (internal setAsRoot : bool) : M BufferManager (Z * nat) :=
  newPid ← on_bm_pager NewPageId;
  idx ← gets (getShard newPid);
  r ← on_shard idx (on_shpool (newFrame Sum64 internal setAsRoot newPid));
  with_frame idx r.

Definition Delete (pid : Z) : M BufferManager unit :=
  idx ← gets (getShard pid);
  on_shard idx (on_shpool (shard_delete Sum64 pid)).

Definition frame_key (f : Z * nat) : M BufferManager Z := on_shard f.1 (on_shpool (on_en f.2 frame_getKey)).

(** The list is that of the shard of the frame's page id; it names the frame by its
    index. *)
Definition MarkFrameDirty (f : Z * nat) : M BufferManager unit :=
  k ← frame_key f;
  idx ← gets (getShard k);
  on_shard f.1 (on_shpool (mark_dirty f.2));;
  on_shard idx (on_dirty (addDirtyFrame (fun _ => k) f.2)).

Definition SetNewRoot (f : Z * nat) : M BufferManager unit :=
  pId ← frame_key f;
  on_bm_pager (UpdateRootPage pId).

Definition GetRootPageId : M BufferManager Z := on_bm_pager RootPage.

Fixpoint flush_shards (n : nat) (i : Z) : M BufferManager unit :=
  match n with
  | O => mret tt
  | S n' => on_shard i (on_shpool flushFreeList);; flush_shards n' (i + 1)
  end.

Definition flushShardsFreeList : M BufferManager unit :=
  b ← get_state;
  flush_shards (length (bm_shards b)) 0.

(** ** Construction *)

Definition MIN_CACHE_SIZE_KB : Z := 8192.

(** The shards from [i] on. [sizes] gives the frames of the window and of the main
    cache for a cache size (computed in [Sizing]), [filter i] the filter of
    shard [i]. *)
Fixpoint new_shards (sizes : Z -> Z * Z) (filter : nat -> TinyLFU) (pgr : Pager) (perShard : Z) (meta : Z) (n i : nat) : outcome (list shard) :=
  match n with
  | O => Val []
  | S n' =>
      match newShard (filter i) pgr (sizes perShard).1 (sizes perShard).2 (Z.of_nat i =? meta) with
      | Val s =>
          match new_shards sizes filter pgr perShard meta n' (S i) with
          | Val l => Val (s :: l)
          | o => o
          end
      | Err e => Err e
      | Panic m => Panic m
      | Blocked => Blocked
      | OutOfFuel => OutOfFuel
      end
  end.

Definition NewBufferManager (sizes : Z -> Z * Z) (filter : nat -> TinyLFU) (numCPU : Z) (pgr : option Pager)
    (CacheSize numShards : Z) (testing : bool) : outcome BufferManager :=
  if CacheSize <? MIN_CACHE_SIZE_KB then Err (mkError BufferManagerError "Minimum cache size is 8192KB")
  else
    match pgr with
    | None => Err (mkError BufferManagerError "pager instance  not provided.")
    | Some pgr =>
        let numShards := if (numShards <? numCPU) && negb testing || (numShards =? 0) then numCPU else numShards in
        let meta := u64 (hasher (le32 0)) mod numShards in
        match new_shards sizes filter pgr (CacheSize / numShards) meta (Z.to_nat numShards) 0 with
        | Val l => Val (mkBM pgr l)
        | Err e => Err e
        | Panic m => Panic m
        | Blocked => Blocked
        | OutOfFuel => OutOfFuel
        end
    end.

End Manager.
