(* ===== verification/ShardInv.v ===== *)
(** * The invariant of a shard

    [seen p k] is the content of page [k] as a user of the shard sees it: the bytes
    of the frame that holds it, or of the data file, up to the dirty flag in the
    page header.  [cache_ok] is the invariant of frames, hash table and file; pins,
    promotion, eviction and the installation of a page in a new frame keep it. *)

From S2P Require Import Prelude Keys Files Helpers Disk FreeList Page Pager TinyLFU TinyLFUTheorems Clock ClockTheorems WTinyLFU WTinyLFUTheorems DirtyList Shard.
Local Open Scope Z_scope.

#[local] Arguments page_of : simpl never.
#[local] Arguments region : simpl never.
#[local] Arguments WriteAt : simpl never.
#[local] Arguments replicate : simpl never.

(** ** Pages up to the dirty flag *)

Definition undirty (b : bytes) : bytes := match b with [] => [] | x :: r => UnsetFlag x [Dirty] :: r end.

Lemma UnsetFlag_dirty x : UnsetFlag x [Dirty] = Z.land x 223.
Proof. reflexivity. Qed.

Lemma SetFlag_dirty x : SetFlag x [Dirty] = Z.lor x 32.
Proof. reflexivity. Qed.

Lemma undirty_idem b : undirty (undirty b) = undirty b.
Proof. destruct b as [|x r]; [done|]. cbn. by rewrite !UnsetFlag_dirty, <- Z.land_assoc. Qed.

Lemma undirty_length b : length (undirty b) = length b.
Proof. by destruct b. Qed.

Lemma undirty_label b b' : undirty b = undirty b' -> region b 1 4 = region b' 1 4.
Proof.
  intros H. assert (forall c, region (undirty c) 1 4 = region c 1 4) as Hu by (by intros []).
  by rewrite <- (Hu b), H, Hu.
Qed.

Lemma undirty_dead b b' : undirty b = undirty b' -> is_dead b = is_dead b'.
Proof.
  intros H. assert (forall c, is_dead (undirty c) = is_dead c) as Hu.
  { intros [|x r]; [done|]. unfold is_dead, BitIsSet. cbn. rewrite UnsetFlag_dirty, <- Z.land_assoc. done. }
  by rewrite <- (Hu b), H, Hu.
Qed.

Definition fdata (f : Frame) : bytes := pgeData (f_page f).

Lemma MarkClean_data f : fdata f <> [] -> fdata (frame_MarkClean f) = undirty (fdata f).
Proof. unfold fdata, frame_MarkClean, on_page, MarkClean, modify, set_flag_byte, flag_byte. cbn -[WriteAt]. by destruct (pgeData (f_page f)). Qed.

Lemma MarkDirty_data f : fdata f <> [] -> undirty (fdata (frame_MarkDirty f)) = undirty (fdata f).
Proof.
  unfold fdata, frame_MarkDirty, on_page, MarkDirty, modify, set_flag_byte, flag_byte. cbn. destruct (pgeData (f_page f)) as [|x r]; [done|].
  intros _. change (UnsetFlag (SetFlag x [Dirty]) [Dirty] :: r = UnsetFlag x [Dirty] :: r). f_equal.
  rewrite !UnsetFlag_dirty, SetFlag_dirty, Z.land_lor_distr_l. by rewrite Z.lor_0_r.
Qed.

(** Writing what is there. *)
Lemma WriteAt_same fd data off : region fd (Z.to_nat off) (length data) = data -> (Z.to_nat off + length data <= length fd)%nat ->
  WriteAt fd data off = fd.
Proof.
  intros Hr Hl. unfold WriteAt. replace (Z.to_nat off - length fd)%nat with 0%nat by lia. change (replicate 0 0) with (@nil Z). cbn [app].
  unfold region in Hr. rewrite <- Hr at 1. rewrite <- drop_drop, take_drop, take_drop. done.
Qed.

(** ** The invariant *)

Definition cached (p : pool) (k : Z) : option bytes := i ← p_table p !! k; f ← (fs p).*1 !! i; Some (fdata f).
Definition seen (p : pool) (k : Z) : bytes := undirty (default (page_of (p_pager p) k) (cached p k)).

(** A page of the data file that can be read back under its id. *)
Definition stored (pgr : Pager) (k : Z) : Prop :=
  page_exists pgr k /\ region (page_of pgr k) 1 4 = le32 k /\ is_dead (page_of pgr k) = false.

Definition available (p : pool) (k : Z) : Prop := is_Some (p_table p !! k) \/ stored (p_pager p) k.

(** A frame that holds a live page under its id. *)
Definition live_frame (f : Frame) : Prop :=
  0 < f_key f /\ f_isDeleted f = false /\ is_dead (fdata f) = false /\ region (fdata f) 1 4 = le32 (f_key f).

(** A frame that is not dirty agrees with the file. *)
Definition agrees (pgr : Pager) (f : Frame) : Prop :=
  f_dirty f = false -> page_exists pgr (f_key f) /\ undirty (page_of pgr (f_key f)) = undirty (fdata f).

Section Shard.
Context (Sum64 : bytes -> Z).

Record cache_ok (p : pool) : Prop := {
  ck_wt : wt_ok Sum64 p;
  ck_filter : filter_ok (tinyFilter (p_w p));
  ck_frames : forall i f s, fs p !! i = Some (f, s) -> s <> unassigned ->
    p_table p !! f_key f = Some i /\ live_frame f /\ agrees (p_pager p) f;
  ck_table : forall k i, p_table p !! k = Some i -> exists f s, fs p !! i = Some (f, s) /\ s <> unassigned /\ f_key f = k;
  ck_free : forall i e, bPool (clock_of p) !! i = Some e -> segtype e = unassigned -> reserved e = false ->
    fdata (entry e) = replicate DM_PAGE 0 }.

(** Exactly the frames of the segments are occupied, and no frame is marked for
    eviction but those of [X]. *)
Definition quiet_but (X : nat -> Prop) (p : pool) : Prop := forall i e, bPool (clock_of p) !! i = Some e ->
  if decide (segtype e = unassigned) then isOccupied e = false else (markedForEviction e = true -> X i) /\ isOccupied e = true.

(** No frame is being evicted. *)
Definition quiet (p : pool) : Prop := quiet_but (fun _ => False) p.

(** The entries marked for eviction, and the pages in their frames: a lookup does not
    use the frame of such a page but reads the page from the file. *)
Definition marked (p : pool) (i : nat) : Prop := exists e, bPool (clock_of p) !! i = Some e /\ markedForEviction e = true.
Definition stranded (p : pool) (k : Z) : Prop := exists i, p_table p !! k = Some i /\ marked p i.

Lemma quiet_but_mono (X Y : nat -> Prop) p : quiet_but X p -> (forall i, X i -> Y i) -> quiet_but Y p.
Proof. intros H HXY i e He. specialize (H i e He). destruct (decide _); [done|]. destruct H. auto. Qed.

Lemma quiet_but_marked X p : quiet_but X p -> quiet_but (marked p) p.
Proof.
  intros H i e He. specialize (H i e He). destruct (decide _); [done|]. destruct H as [_ H]. split; [|done]. intros Hm. by exists e.
Qed.

(** Every page is still there with the same content. *)
Definition same_pages (p p' : pool) : Prop := forall k, addressable k -> available p k -> available p' k /\ seen p' k = seen p k.

Lemma same_pages_refl p : same_pages p p.
Proof. by intros k _ Ha. Qed.

Lemma page_views_trans p p1 p2 : same_pages p p1 -> same_pages p1 p2 -> same_pages p p2.
Proof. intros H1 H2 k Hk Ha. destruct (H1 k Hk Ha) as [Ha1 <-]. by apply H2. Qed.

(** *** The frames stay, entries move and are pinned *)

Lemma page_of_fd pgr pgr' k : d_fd (dManager pgr') = d_fd (dManager pgr) -> page_of pgr' k = page_of pgr k.
Proof. unfold page_of. by intros ->. Qed.
Lemma page_exists_fd pgr pgr' k : d_fd (dManager pgr') = d_fd (dManager pgr) -> page_exists pgr' k <-> page_exists pgr k.
Proof. unfold page_exists. by intros ->. Qed.
Lemma stored_fd pgr pgr' k : d_fd (dManager pgr') = d_fd (dManager pgr) -> stored pgr' k <-> stored pgr k.
Proof. intros H. unfold stored. by rewrite (page_exists_fd _ _ _ H), (page_of_fd _ _ _ H). Qed.

(** Frames, table and file are the same. *)
Definition same_store (p p' : pool) : Prop :=
  same_frames p p' /\ p_table p' = p_table p /\ d_fd (dManager (p_pager p')) = d_fd (dManager (p_pager p)).

Lemma same_store_pages p p' : same_store p p' -> same_pages p p'.
Proof.
  intros (Hf & Ht & Hd) k Hk Ha. unfold available, seen, cached. rewrite Ht, Hf, (page_of_fd _ _ k Hd), (stored_fd _ _ k Hd). done.
Qed.

Lemma fs_frame p i f s : fs p !! i = Some (f, s) -> (fs p).*1 !! i = Some f.
Proof. intros H. by rewrite list_lookup_fmap, H. Qed.

Lemma fs_entry p i f s : fs p !! i = Some (f, s) -> exists e, bPool (clock_of p) !! i = Some e /\ entry e = f /\ segtype e = s.
Proof. apply fsc_entry. Qed.

Lemma free_at_fs p i f s : fs p !! i = Some (f, s) -> (free_at (fs p) i <-> s = unassigned).
Proof. unfold free_at. intros ->. cbn. naive_solver. Qed.

(** The frame of an index in a pool with the same frames and the same free ones. *)
Lemma same_frame_at p p' i f s : same_frames p p' -> same_free p p' -> fs p' !! i = Some (f, s) ->
  exists s', fs p !! i = Some (f, s') /\ (s = unassigned <-> s' = unassigned).
Proof.
  intros Hf Hfr Hi. apply fs_frame in Hi as Hi1. rewrite Hf, list_lookup_fmap in Hi1.
  destruct (fs p !! i) as [[f' s']|] eqn:E; [|done]. cbn in Hi1. simplify_eq. exists s'. split; [done|].
  rewrite <- (free_at_fs _ _ _ _ Hi), <- (free_at_fs _ _ _ _ E). apply Hfr.
Qed.

Lemma same_free_sym p p' : same_free p p' -> same_free p' p.
Proof. intros H i. symmetry. apply H. Qed.

Definition reserved_kept (c c' : clock) : Prop := forall i x', bPool c' !! i = Some x' -> exists x, bPool c !! i = Some x /\ reserved x' = reserved x.

Lemma calm_reserved c c' : calm c c' -> reserved_kept c c'.
Proof. intros H i x' Hx'. destruct (H i x' Hx') as (x & Hx & _ & _ & _ & Hr). by exists x. Qed.

Lemma cache_ok_same p p' : cache_ok p -> wt_ok Sum64 p' -> filter_ok (tinyFilter (p_w p')) -> same_store p p' -> same_free p p' ->
  reserved_kept (clock_of p) (clock_of p') -> cache_ok p'.
Proof.
  intros [Hw Hfi Hfr Ht Hz] Hw' Hfi' (Hsf & Htb & Hfd) Hfree Hcalm. split; [done|done| | |].
  - intros i f s Hi Hs. destruct (same_frame_at _ _ _ _ _ Hsf Hfree Hi) as (s' & Hi' & Hss).
    destruct (Hfr i f s' Hi') as (H1 & H2 & H3); [by rewrite <- Hss|]. rewrite Htb. split_and!; [done|done|].
    intros Hd. destruct (H3 Hd) as [H4 H5]. by rewrite (page_exists_fd _ _ _ Hfd), (page_of_fd _ _ _ Hfd).
  - intros k i Hk. rewrite Htb in Hk. destruct (Ht k i Hk) as (f & s & Hi & Hs & Hkey).
    destruct (same_frame_at p' p i f s) as (s' & Hi' & Hss); [by symmetry|by apply same_free_sym|done|].
    exists f, s'. rewrite <- Hss. done.
  - intros i e He Hs Hr. destruct (Hcalm i e He) as (x & Hx & Hrx).
    apply fsc_lookup in He as Hf. change (fsc (clock_of p')) with (fs p') in Hf.
    destruct (same_frame_at _ _ _ _ _ Hsf Hfree Hf) as (s' & Hf' & Hss).
    apply fsc_lookup in Hx as Hf2. change (fsc (clock_of p)) with (fs p) in Hf2. rewrite Hf' in Hf2. simplify_eq.
    rewrite H. apply (Hz i x Hx); [by apply Hss|congruence].
Qed.

Lemma quiet_calm X p p' : quiet_but X p -> calm (clock_of p) (clock_of p') ->
  (forall i e e', bPool (clock_of p) !! i = Some e -> bPool (clock_of p') !! i = Some e' -> segtype e' <> unassigned -> segtype e <> unassigned) ->
  quiet_but X p'.
Proof.
  intros Hq Hc Hs i e' He'. destruct (Hc i e' He') as (e & He & Hm & Ho & Hf & _). specialize (Hq i e He).
  destruct (decide (segtype e' = unassigned)) as [Hu|Hu].
  - destruct (isOccupied e') eqn:E; [|done]. destruct (Hf Hu eq_refl) as [H1 H2]. rewrite decide_True in Hq by done. congruence.
  - rewrite decide_False in Hq by eauto. destruct Hq as [H1 H2]. rewrite Ho by done. split; [|done].
    intros E. auto.
Qed.

Lemma same_free_seg p p' i e e' : same_free p p' -> bPool (clock_of p) !! i = Some e -> bPool (clock_of p') !! i = Some e' ->
  segtype e' <> unassigned -> segtype e <> unassigned.
Proof.
  intros Hf He He' Hs Hu. apply Hs. apply fsc_lookup in He as H1, He' as H2.
  apply (free_at_fs p' i _ _ H2). apply Hf. by apply (free_at_fs p i _ _ H1).
Qed.

(** *** A frame dropped *)

Lemma written_back_other pgr pgr' f k : d_fd (dManager pgr') = written_back (f_key f) f (d_fd (dManager pgr)) ->
  addressable (f_key f) -> addressable k -> k <> f_key f -> length (fdata f) = DM_PAGE -> page_exists pgr k ->
  page_exists pgr' k /\ page_of pgr' k = page_of pgr k.
Proof.
  intros Hfd Ha Hk Hne Hl He. unfold page_exists, page_of in *. rewrite Hfd. unfold written_back. destruct (f_dirty f); [|done].
  split; [by apply on_disk_write|]. by apply write_page_other.
Qed.

Lemma written_back_self pgr pgr' f : d_fd (dManager pgr') = written_back (f_key f) f (d_fd (dManager pgr)) ->
  length (fdata f) = DM_PAGE -> live_frame f -> agrees pgr f ->
  stored pgr' (f_key f) /\ undirty (page_of pgr' (f_key f)) = undirty (fdata f).
Proof.
  intros Hfd Hl (_ & _ & Hdead & Hlab) Hag.
  assert (page_exists pgr' (f_key f) /\ undirty (page_of pgr' (f_key f)) = undirty (fdata f)) as [He Hu].
  { unfold page_exists, page_of, agrees, page_exists, page_of in *. rewrite Hfd. unfold written_back. destruct (f_dirty f); [|by apply Hag].
    fold (fdata f). rewrite Hdead. cbn [written_page]. split; [by apply on_disk_written|]. by rewrite page_write_same. }
  split; [|done]. split; [done|]. by rewrite (undirty_label _ _ Hu), (undirty_dead _ _ Hu).
Qed.

Lemma frame_ok_at p i f s : cache_ok p -> fs p !! i = Some (f, s) -> length (fdata f) = DM_PAGE /\ addressable (f_key f).
Proof. intros [Hw _ _ _ _] Hi. pose proof (wo_frames _ _ Hw) as Hf. rewrite Forall_lookup in Hf. exact (Hf i _ Hi). Qed.

(** The other frames after a drop. *)
Lemma dropped_other p p' v f s i g t : dropped_at v f s p p' -> (forall i, free_at (fs p') i <-> i = v \/ free_at (fs p) i) ->
  i <> v -> fs p' !! i = Some (g, t) -> exists t', fs p !! i = Some (g, t') /\ (t = unassigned <-> t' = unassigned).
Proof.
  intros (Hv & Hs & Hf & _) Hfree Hi Hg. apply fs_frame in Hg as Hg1. rewrite Hf, list_lookup_insert_ne, list_lookup_fmap in Hg1 by done.
  destruct (fs p !! i) as [[g' t']|] eqn:E; [|done]. cbn in Hg1. simplify_eq. exists t'. split; [done|].
  rewrite <- (free_at_fs _ _ _ _ Hg), <- (free_at_fs _ _ _ _ E), Hfree. naive_solver.
Qed.

Lemma dropped_cache p p' v f s : cache_ok p -> wt_ok Sum64 p' -> filter_ok (tinyFilter (p_w p')) -> dropped_at v f s p p' ->
  (forall i, free_at (fs p') i <-> i = v \/ free_at (fs p) i) -> calm (clock_of p) (clock_of p') -> cache_ok p'.
Proof.
  intros Hok Hw' Hfi' Hdr Hfree Hcalm. pose proof Hok as [Hw Hfi Hfr Ht Hz]. pose proof Hdr as (Hv & Hs & Hf & Htb & Hfd).
  destruct (Hfr v f s Hv Hs) as (Htv & Hlive & Hag). destruct (frame_ok_at p v f s Hok Hv) as [Hl Ha].
  assert (forall i g t, fs p' !! i = Some (g, t) -> t <> unassigned -> i <> v) as Hnv.
  { intros i g t Hg Ht' ->. apply Ht'. apply (free_at_fs _ _ _ _ Hg), Hfree. by left. }
  split; [done|done| | |].
  - intros i g t Hg Ht'. pose proof (Hnv i g t Hg Ht') as Hi.
    destruct (dropped_other _ _ _ _ _ _ _ _ Hdr Hfree Hi Hg) as (t' & Hg' & Htt).
    destruct (Hfr i g t' Hg') as (H1 & H2 & H3); [by rewrite <- Htt|]. destruct (frame_ok_at p i g t' Hok Hg') as [Hlg Hag'].
    assert (f_key g <> f_key f) as Hk by congruence. rewrite Htb, lookup_delete_ne by done. split_and!; [done|done|].
    intros Hd. destruct (H3 Hd) as [H4 H5]. destruct (written_back_other _ _ _ _ Hfd Ha Hag' Hk Hl H4) as [H6 ->]. done.
  - intros k i Hk. rewrite Htb, lookup_delete_Some in Hk. destruct Hk as [Hne Hk]. destruct (Ht k i Hk) as (g & t & Hg & Ht' & Hgk).
    assert (i <> v) as Hi by (intros ->; congruence).
    assert ((fs p').*1 !! i = Some g) as Hg1 by (rewrite Hf, list_lookup_insert_ne by done; by apply fs_frame in Hg).
    rewrite list_lookup_fmap in Hg1. destruct (fs p' !! i) as [[g2 t2]|] eqn:E; [|done]. cbn in Hg1. simplify_eq.
    exists g, t2. split; [done|]. split; [|done]. intros Hu. apply Ht'. apply (free_at_fs _ _ _ _ Hg).
    apply (free_at_fs _ _ _ _ E), Hfree in Hu. by destruct Hu.
  - intros i e He Hs' Hr. destruct (Hcalm i e He) as (x & Hx & _ & _ & _ & Hrx).
    apply fsc_lookup in He as He1. change (fsc (clock_of p')) with (fs p') in He1. destruct (decide (i = v)) as [->|Hi].
    + apply fs_frame in He1. rewrite Hf, list_lookup_insert_eq in He1; [by injection He1 as <-|].
      rewrite length_fmap. by eapply lookup_lt_Some.
    + destruct (dropped_other _ _ _ _ _ _ _ _ Hdr Hfree Hi He1) as (t' & Hg' & Htt).
      apply fsc_lookup in Hx as Hx1. change (fsc (clock_of p)) with (fs p) in Hx1. rewrite Hg' in Hx1. simplify_eq.
      rewrite H. apply (Hz i x Hx); [by apply Htt|congruence].
Qed.

Lemma dropped_pages p p' v f s : cache_ok p -> dropped_at v f s p p' -> same_pages p p'.
Proof.
  intros Hok (Hv & Hs & Hf & Htb & Hfd) k Hk Hav. pose proof Hok as [Hw Hfi Hfr Ht Hz].
  destruct (Hfr v f s Hv Hs) as (Htv & Hlive & Hag). destruct (frame_ok_at p v f s Hok Hv) as [Hl Ha].
  unfold available, seen, cached. rewrite Htb. destruct (decide (k = f_key f)) as [->|Hne].
  - destruct (written_back_self _ _ _ Hfd Hl Hlive Hag) as [Hst Hu]. rewrite lookup_delete_eq, Htv. cbn.
    rewrite (fs_frame _ _ _ _ Hv). cbn. split; [right; exact Hst|exact Hu].
  - rewrite lookup_delete_ne by done. destruct (p_table p !! k) as [i|] eqn:Hi; cbn.
    + destruct (Ht k i Hi) as (g & t & Hg & _ & Hgk). split; [by left; eexists|].
      assert (v <> i) as Hvi by (intros <-; congruence).
      rewrite Hf, list_lookup_insert_ne by done. by rewrite (fs_frame _ _ _ _ Hg).
    + destruct Hav as [Hav|(H1 & H2 & H3)]; [rewrite Hi in Hav; by destruct Hav|].
      destruct (written_back_other _ _ _ _ Hfd Ha Hk Hne Hl H1) as [H4 H5]. unfold stored. rewrite H5. split; [right; exact (conj H4 (conj H2 H3))|reflexivity].
Qed.

Lemma made_room_cache p p' : cache_ok p -> made_room Sum64 p p' ->
  cache_ok p' /\ same_pages p p' /\ (forall X, quiet_but X p -> quiet_but X p').
Proof.
  intros Hok (Hw' & Hk & (_ & _ & _ & Hfil) & _ & Hcalm).
  assert (filter_ok (tinyFilter (p_w p'))) as Hfi by (rewrite Hfil; apply Hok).
  destruct Hk as [((Hsf & Htb & Hpg) & Hfree)|(v & f & s & Hd & Hfree)].
  - assert (same_store p p') as Hst by (split_and!; [done|done|by rewrite Hpg]).
    split; [by eapply cache_ok_same, calm_reserved|]. split; [by apply same_store_pages|]. intros X Hq. eapply quiet_calm; [done|done|].
    intros i e e'. by apply same_free_seg.
  - split; [by eapply dropped_cache|]. split; [by eapply dropped_pages|]. intros X Hq. eapply quiet_calm; [done|done|].
    intros i e e' He He' Hs Hu. apply Hs. apply fsc_lookup in He as H1, He' as H2.
    apply (free_at_fs p' i _ _ H2), Hfree. right. by apply (free_at_fs p i _ _ H1).
Qed.

(** *** Operations that keep the frames *)

Definition kept (p p' : pool) : Prop := same_store p p' /\ same_free p p' /\ calm (clock_of p) (clock_of p').

Lemma kept_refl p : kept p p.
Proof. split_and!; try done. intros i. apply calm_refl. Qed.

Lemma kept_trans p p1 p2 : kept p p1 -> kept p1 p2 -> kept p p2.
Proof.
  intros ((Hf & Ht & Hd) & Hfree & Hc) ((Hf' & Ht' & Hd') & Hfree' & Hc'). split; [|split].
  - unfold same_store, same_frames in *. by rewrite Hf', Ht', Hd'.
  - intros i. etrans; [apply Hfree'|apply Hfree].
  - intros i z Hz. destruct (Hc' i z Hz) as (y & Hy & Hm & Ho & Hu & Hr). destruct (Hc i y Hy) as (x & Hx & Hm' & Ho' & Hu' & Hr').
    exists x. split; [done|]. split_and!; [auto| | |congruence].
    + intros Hs. rewrite Ho by done. apply Ho'. exact (same_free_seg _ _ _ _ _ Hfree' Hy Hz Hs).
    + intros H1 H2. destruct (Hu H1 H2). by apply Hu'.
Qed.

Lemma kept_ok p p' : cache_ok p -> kept p p' -> wt_ok Sum64 p' -> filter_ok (tinyFilter (p_w p')) ->
  cache_ok p' /\ same_pages p p' /\ (forall X, quiet_but X p -> quiet_but X p').
Proof.
  intros Hok (Hst & Hfree & Hc) Hw Hfi. split; [by eapply cache_ok_same, calm_reserved|]. split; [by apply same_store_pages|].
  intros X Hq. eapply quiet_calm; [done|done|]. intros i e e'. by apply same_free_seg.
Qed.

(** An entry with the same frame, segment and marks; only its pins differ. *)
Definition repinned (e e' : clockentry) : Prop :=
  entry e' = entry e /\ segtype e' = segtype e /\ markedForEviction e' = markedForEviction e /\ isOccupied e' = isOccupied e /\
  reserved e' = reserved e /\ pins_ok e'.

Lemma repin_fs p i e e' : bPool (clock_of p) !! i = Some e -> entry e' = entry e -> segtype e' = segtype e ->
  fsc (put_entry i e' (clock_of p)) = fs p.
Proof. intros He H1 H2. rewrite fsc_put, H1, H2. apply list_insert_id. by apply fsc_lookup. Qed.

Lemma repin_kept p i e e' : cache_ok p -> bPool (clock_of p) !! i = Some e -> repinned e e' ->
  let p' := set_clock (put_entry i e' (clock_of p)) p in kept p p' /\ wt_ok Sum64 p' /\ filter_ok (tinyFilter (p_w p')).
Proof.
  intros Hok He (H1 & H2 & H3 & H4 & H5 & H6) p'. pose proof (repin_fs p i e e' He H1 H2) as Hfs.
  assert (fs p' = fs p) as Hfs' by exact Hfs. split; [split_and!|split].
  - unfold same_store, same_frames. by rewrite Hfs'.
  - intros j. by rewrite Hfs'.
  - eapply calm_put; [intros; apply calm_refl|exact He|]. unfold calm_entry. by rewrite H3, H4, H5, H2.
  - apply wt_ok_clock; [apply Hok|apply pool_ok_put; [apply Hok|done]|done].
  - apply Hok.
Qed.

Lemma readable_filter t : filter_ok t -> readable Sum64 t.
Proof. intros Ht key. by apply CheckItemCount_total. Qed.

Lemma filter_kept p t : cache_ok p -> filter_ok t ->
  kept p (set_filter t p) /\ wt_ok Sum64 (set_filter t p) /\ filter_ok (tinyFilter (p_w (set_filter t p))).
Proof.
  intros Hok Ht. split; [split_and!; try done; intros i; apply calm_refl|]. split; [|done]. destruct (ck_wt _ Hok) as [H1 H2 H3 H4 H5].
  split; try done. by apply readable_filter.
Qed.

Lemma Increment_settles p v e : cache_ok p -> bPool (clock_of p) !! v = Some e -> segtype e <> unassigned ->
  settles (WTinyLFU.Increment Sum64 v) p (fun _ p' => kept p p' /\ cache_ok p' /\ pins_kept (clock_of p) (clock_of p')) (fun p' => p' = p).
Proof.
  intros Hok He Hs. unfold WTinyLFU.Increment. rewrite <- (set_clock_id p) at 1. eapply en_get; [exact He|]. rewrite set_clock_id.
  apply settles_bind.
  assert (forall p1, kept p p1 -> cache_ok p1 -> pins_kept (clock_of p) (clock_of p1) -> settles (k ← on_en v frame_getKey;
    or_panic (on_filter (IncrementItem Sum64 (key_bytes k)));; mret true) p1 (fun _ p' => kept p p' /\ cache_ok p' /\ pins_kept (clock_of p) (clock_of p')) (fun p' => p' = p)) as Hrest.
  { intros p1 Hk1 Hok1 Hpins. pose proof Hk1 as ((Hf1 & _) & _).
    assert (exists e1, bPool (clock_of p1) !! v = Some e1) as [e1 He1].
    { apply fsc_lookup, fs_frame in He. rewrite <- Hf1, list_lookup_fmap in He. unfold fs, fsc in He. rewrite list_lookup_fmap in He.
      destruct (bPool (clock_of p1) !! v); [eauto|done]. }
    rewrite <- (set_clock_id p1). eapply en_get; [exact He1|]. rewrite set_clock_id.
    destruct (IncrementItem_total Sum64 (tinyFilter (p_w p1)) (key_bytes (f_key (entry e1))) (ck_filter _ Hok1)) as (t' & Ht & Hft); [done|].
    apply settles_bind, settles_returns, returns_or_panic. exists tt, (set_filter t' p1).
    split; [unfold on_filter, zoom; by rewrite Ht|].
    destruct (filter_kept p1 t' Hok1 Hft) as (Hk & Hw & Hfi). apply settles_returns, returns_ret.
    split; [by eapply kept_trans|]. split; [by eapply kept_ok|exact Hpins]. }
  assert (settles (mret tt : M pool unit) p (fun _ p1 => kept p p1 /\ cache_ok p1 /\ pins_kept (clock_of p) (clock_of p1)) (fun p' => p' = p)) as Hskip.
  { apply settles_returns, returns_ret. split; [apply kept_refl|]. split; [done|]. intros i x _ Hx. by exists x. }
  apply (settles_mono _ _ (fun _ p1 => kept p p1 /\ cache_ok p1 /\ pins_kept (clock_of p) (clock_of p1)) _ (fun p' => p' = p));
    [intros _ p1 (H1 & H2 & H3); exact (Hrest p1 H1 H2 H3)|done|].
  destruct (segtype e) eqn:Es; [done|exact Hskip| |exact Hskip].
  eapply settles_mono; [| |eapply promote_settles; [apply Hok|exact He]]; [|done].
  intros _ p1 (Hw & Hsf & Hcalm & Hfree & Htb & Hpg & Hfil & Hpins).
  assert (kept p p1) as Hk by (split; [split; [exact Hsf|split; [exact Htb|by rewrite Hpg]]|by split]). split; [done|]. split; [|done].
  eapply kept_ok; [done|done|done|rewrite Hfil; apply Hok].
Qed.

(** *** A page installed in a new frame *)

Lemma wt_ok_frame p c i f f' s pgr tbl : wt_ok Sum64 p -> fs p !! i = Some (f, s) -> pool_ok c -> fsc c = <[i := (f', s)]> (fs p) ->
  frame_ok (f', s) -> idle (dManager pgr) -> wt_ok Sum64 (set_clock c (set_table tbl (set_pager pgr p))).
Proof.
  intros [H1 (Hw & Hpb & Hpt & B) H3 H4 H5] Hi Hc Hf Hfo Hid. set (p' := set_clock _ _). assert (fs p' = <[i := (f', s)]> (fs p)) as Hfs by exact Hf.
  split; try done.
  - rewrite Hfs. unfold counts_ok. cbn. rewrite !(scnt_insert _ _ _ _ _ Hi).
    assert (forall t, in_seg t (f', s) = in_seg t (f, s)) as He by done. rewrite !He. lia.
  - rewrite Hfs. by apply Forall_insert.
Qed.

(** The entry [x] of the frame of page [k], in place of the entry handed out. *)
Record page_entry (pgr : Pager) (k : Z) (x : clockentry) : Prop := {
  pe_key : f_key (entry x) = k;
  pe_frame : frame_ok (entry x, windowSegment);
  pe_live : live_frame (entry x);
  pe_agrees : agrees pgr (entry x);
  pe_seg : segtype x = windowSegment;
  pe_pins : pins_ok x;
  pe_marks : markedForEviction x = false /\ isOccupied x = true }.

Definition installed (p : pool) (en : nat) (x : clockentry) (k : Z) (pgr : Pager) : pool :=
  set_clock (put_entry en x (clock_of p)) (set_table (<[k := en]> (p_table p)) (set_pager pgr p)).

Section Install.
Context (p1 p2 : pool) (en : nat) (x : clockentry) (k : Z) (pgr : Pager).
Context (Hok : cache_ok p1) (Hgiven : given p1 en p2) (Hw : wt_ok Sum64 p2).
Context (Hx : page_entry pgr k x) (Hk : p_table p1 !! k = None).
Context (Hfd : d_fd (dManager pgr) = d_fd (dManager (p_pager p1))) (Hid : idle (dManager pgr)).

Let p3 := installed p2 en x k pgr.

Lemma install_given : exists f, fs p1 !! en = Some (f, unassigned) /\ fs p2 !! en = Some (f, windowSegment) /\
  fs p3 = <[en := (entry x, windowSegment)]> (fs p2) /\ (forall i, i <> en -> fs p2 !! i = fs p1 !! i) /\ p_table p2 = p_table p1.
Proof.
  destruct Hgiven as (e & He & Hel & He2 & Hfs & _ & Ht & _). exists (entry e).
  assert (fs p1 !! en = Some (entry e, unassigned)) as H1.
  { apply fsc_lookup in He. unfold eligible in Hel. rewrite !andb_true_iff, bool_decide_eq_true in Hel. destruct Hel as [_ Hs]. by rewrite Hs in He. }
  split_and!; try done.
  - rewrite Hfs. apply list_lookup_insert_eq. by eapply lookup_lt_Some.
  - change (fs p3) with (fsc (put_entry en x (clock_of p2))). rewrite fsc_put. by rewrite (pe_seg _ _ _ Hx).
  - intros i Hi. rewrite Hfs. by apply list_lookup_insert_ne.
Qed.

Lemma install_wt : wt_ok Sum64 p3.
Proof.
  destruct install_given as (f & _ & H2 & H3 & _). eapply wt_ok_frame; [done|exact H2| |exact H3|apply Hx|done].
  apply pool_ok_put; [apply Hw|apply Hx].
Qed.

Lemma install_cache : cache_ok p3.
Proof.
  destruct install_given as (f & H1 & H2 & H3 & H4 & Ht). pose proof Hok as [_ Hfi Hfr Htab Hz].
  assert (fs p3 !! en = Some (entry x, windowSegment)) as Hen by (rewrite H3; apply list_lookup_insert_eq; by eapply lookup_lt_Some).
  assert (forall i, i <> en -> fs p3 !! i = fs p1 !! i) as Hoth by (intros i Hi; rewrite H3, list_lookup_insert_ne by done; by apply H4).
  split.
  - apply install_wt.
  - destruct Hgiven as (? & _ & _ & _ & _ & _ & _ & _ & Hf). change (filter_ok (tinyFilter (p_w p2))). by rewrite Hf.
  - intros i g t Hg Ht'. change (p_table p3) with (<[k := en]> (p_table p2)). rewrite Ht. destruct (decide (i = en)) as [->|Hi].
    + rewrite Hen in Hg. injection Hg as <- <-. rewrite (pe_key _ _ _ Hx), lookup_insert_eq. split; [done|]. split; apply Hx.
    + rewrite (Hoth i Hi) in Hg. destruct (Hfr i g t Hg Ht') as (Ha & Hb & Hc). rewrite lookup_insert_ne by congruence. split; [done|]. split; [done|].
      intros Hd. destruct (Hc Hd) as [Hp Hq]. change (p_pager p3) with pgr. by rewrite (page_exists_fd _ _ _ Hfd), (page_of_fd _ _ _ Hfd).
  - intros k' i. change (p_table p3) with (<[k := en]> (p_table p2)). rewrite Ht, lookup_insert_Some. intros [[<- <-]|[Hne Hi]].
    + exists (entry x), windowSegment. split; [exact Hen|]. split; [done|]. apply Hx.
    + destruct (Htab k' i Hi) as (g & t & Hg & Ht' & Hgk). exists g, t. split; [|done]. rewrite Hoth; [done|]. intros ->. congruence.
  - intros i y Hy Hs Hr. destruct (decide (i = en)) as [->|Hi].
    + apply fsc_lookup in Hy. change (fsc (clock_of p3)) with (fs p3) in Hy. rewrite Hen in Hy. congruence.
    + change (bPool (put_entry en x (clock_of p2)) !! i = Some y) in Hy. rewrite put_entry_ne in Hy by done.
      destruct Hgiven as (e & _ & _ & _ & _ & Hcalm & _). destruct (Hcalm i Hi y Hy) as (y1 & Hy1 & _ & _ & _ & Hr1).
      apply fsc_lookup in Hy as Hy'. apply fsc_lookup in Hy1 as Hy1'. change (fsc (clock_of p2)) with (fs p2) in Hy'.
      change (fsc (clock_of p1)) with (fs p1) in Hy1'. rewrite H4, Hy1' in Hy' by done. injection Hy' as E1 E2.
      rewrite <- E1. apply (Hz i y1 Hy1); congruence.
Qed.

Lemma install_quiet X : quiet_but X p1 -> quiet_but X p3.
Proof.
  intros Hq i y Hy. destruct install_given as (f & H1 & H2 & H3 & H4 & Ht). destruct (decide (i = en)) as [->|Hi].
  - destruct (fs_entry _ _ _ _ H2) as (z & Hz & _). change (bPool (put_entry en x (clock_of p2)) !! en = Some y) in Hy.
    rewrite (put_entry_eq _ _ _ _ Hz) in Hy. injection Hy as <-. rewrite decide_False; [|by rewrite (pe_seg _ _ _ Hx)].
    destruct (pe_marks _ _ _ Hx) as [-> ->]. done.
  - change (bPool (put_entry en x (clock_of p2)) !! i = Some y) in Hy. rewrite put_entry_ne in Hy by done.
    destruct Hgiven as (e & _ & _ & _ & _ & Hcalm & _). destruct (Hcalm i Hi y Hy) as (y1 & Hy1 & Hm & Ho & Hf & _).
    apply fsc_lookup in Hy as Hy'. apply fsc_lookup in Hy1 as Hy1'. change (fsc (clock_of p2)) with (fs p2) in Hy'.
    change (fsc (clock_of p1)) with (fs p1) in Hy1'. rewrite H4, Hy1' in Hy' by done. injection Hy' as E1 E2.
    specialize (Hq i y1 Hy1). rewrite E2 in Hq. destruct (decide (segtype y = unassigned)) as [Hu|Hu].
    + destruct (isOccupied y) eqn:E; [|done]. destruct (Hf Hu eq_refl). congruence.
    + destruct Hq as [Hq1 Hq2]. rewrite Ho by done. split; [|done]. auto.
Qed.

Lemma install_seen : available p3 k /\ seen p3 k = undirty (fdata (entry x)) /\
  forall k', k' <> k -> available p1 k' -> available p3 k' /\ seen p3 k' = seen p1 k'.
Proof.
  destruct install_given as (f & H1 & H2 & H3 & H4 & Ht). unfold available, seen, cached.
  change (p_table p3) with (<[k := en]> (p_table p2)). change (p_pager p3) with pgr. rewrite Ht, lookup_insert_eq.
  split; [left; by eexists|]. split.
  - cbn [mbind option_bind]. rewrite H3, list_fmap_insert, list_lookup_insert_eq; [done|]. rewrite length_fmap. by eapply lookup_lt_Some.
  - intros k' Hne Ha. rewrite lookup_insert_ne by done. rewrite (stored_fd _ _ k' Hfd), (page_of_fd _ _ k' Hfd). split; [done|].
    destruct (p_table p1 !! k') as [i|] eqn:Hi; [|done]. cbn [mbind option_bind].
    destruct (ck_table _ Hok k' i Hi) as (g & t & Hg & Ht' & _).
    assert (i <> en) as Hie by (intros ->; congruence). rewrite !list_lookup_fmap, H3, list_lookup_insert_ne, (H4 i Hie) by done. done.
Qed.

End Install.

(** *** The frame of a cached page rewritten *)

(** The entry [e'] in place of [e]: the same page, segment and marks. *)
Record rewritten (pgr : Pager) (e e' : clockentry) : Prop := {
  rw_key : f_key (entry e') = f_key (entry e);
  rw_seg : segtype e' = segtype e;
  rw_marks : markedForEviction e' = markedForEviction e /\ isOccupied e' = isOccupied e /\ reserved e' = reserved e;
  rw_pins : pins_ok e';
  rw_length : length (fdata (entry e')) = DM_PAGE;
  rw_live : live_frame (entry e');
  rw_agrees : agrees pgr (entry e') }.

Section Rewrite.
Context (p : pool) (i : nat) (e e' : clockentry) (pgr : Pager).
Context (Hok : cache_ok p) (He : bPool (clock_of p) !! i = Some e) (Hs : segtype e <> unassigned) (Hrw : rewritten pgr e e').
Context (Hid : idle (dManager pgr)).
Context (Hfile : forall k, addressable k -> k <> f_key (entry e) -> page_exists (p_pager p) k ->
  page_exists pgr k /\ page_of pgr k = page_of (p_pager p) k).

Let p' := set_clock (put_entry i e' (clock_of p)) (set_table (p_table p) (set_pager pgr p)).

Lemma rewrite_fs : fs p !! i = Some (entry e, segtype e) /\ fs p' = <[i := (entry e', segtype e)]> (fs p).
Proof.
  split; [by apply fsc_lookup|]. change (fs p') with (fsc (put_entry i e' (clock_of p))). rewrite fsc_put. by rewrite (rw_seg _ _ _ Hrw).
Qed.

Lemma rewrite_wt : wt_ok Sum64 p'.
Proof.
  destruct rewrite_fs as [H1 H2]. eapply wt_ok_frame; [apply Hok|exact H1| |exact H2| |done].
  - apply pool_ok_put; [apply Hok|apply Hrw].
  - split; [apply Hrw|]. cbn. rewrite (rw_key _ _ _ Hrw). exact (proj2 (frame_ok_at _ _ _ _ Hok H1)).
Qed.

Lemma rewrite_cache : cache_ok p'.
Proof.
  destruct rewrite_fs as [H1 H2]. pose proof Hok as [_ Hfi Hfr Htab Hz]. destruct (Hfr i _ _ H1 Hs) as (Hti & _).
  assert (fs p' !! i = Some (entry e', segtype e)) as Hi by (rewrite H2; apply list_lookup_insert_eq; by eapply lookup_lt_Some).
  assert (forall j, j <> i -> fs p' !! j = fs p !! j) as Hoth by (intros j Hj; rewrite H2; by apply list_lookup_insert_ne).
  split; [apply rewrite_wt|done| | |].
  - intros j g t Hg Ht. change (p_table p') with (p_table p). change (p_pager p') with pgr. destruct (decide (j = i)) as [->|Hj].
    + rewrite Hi in Hg. injection Hg as <- <-. rewrite (rw_key _ _ _ Hrw). split; [done|]. split; apply Hrw.
    + rewrite Hoth in Hg by done. destruct (Hfr j g t Hg Ht) as (Ha & Hb & Hc). split; [done|]. split; [done|]. intros Hd. destruct (Hc Hd) as [Hx Hy].
      destruct (Hfile (f_key g)) as [Hx' ->]; [exact (proj2 (frame_ok_at _ _ _ _ Hok Hg))|intros E; rewrite E in Ha; congruence|done|done].
  - intros k j Hk. destruct (Htab k j Hk) as (g & t & Hg & Ht & Hgk). destruct (decide (j = i)) as [->|Hj].
    + rewrite H1 in Hg. injection Hg as <- <-. exists (entry e'), (segtype e). split; [done|]. split; [done|]. by rewrite (rw_key _ _ _ Hrw).
    + exists g, t. by rewrite Hoth.
  - intros j x Hx Hsx Hr. destruct (decide (j = i)) as [->|Hj].
    + change (bPool (put_entry i e' (clock_of p)) !! i = Some x) in Hx. rewrite (put_entry_eq _ _ _ _ He) in Hx. injection Hx as <-.
      by rewrite (rw_seg _ _ _ Hrw) in Hsx.
    + change (bPool (put_entry i e' (clock_of p)) !! j = Some x) in Hx. rewrite put_entry_ne in Hx by done. by apply (Hz j).
Qed.

Lemma rewrite_quiet X : quiet_but X p -> quiet_but X p'.
Proof.
  intros Hq. destruct (rw_marks _ _ _ Hrw) as (Hm & Ho & Hr). eapply quiet_calm; [exact Hq| |].
  - eapply calm_put; [intros; apply calm_refl|exact He|]. unfold calm_entry. by rewrite Hm, Ho, Hr, (rw_seg _ _ _ Hrw).
  - intros j x x' Hx Hx' Hsx. destruct (decide (j = i)) as [->|Hj]; [congruence|].
    change (bPool (put_entry i e' (clock_of p)) !! j = Some x') in Hx'. rewrite put_entry_ne in Hx' by done. congruence.
Qed.

Lemma rewrite_seen : available p' (f_key (entry e)) /\ seen p' (f_key (entry e)) = undirty (fdata (entry e')) /\
  forall k, addressable k -> k <> f_key (entry e) -> available p k -> available p' k /\ seen p' k = seen p k.
Proof.
  destruct rewrite_fs as [H1 H2]. pose proof Hok as [_ Hfi Hfr Htab Hz]. destruct (Hfr i _ _ H1 Hs) as (Hti & _).
  unfold available, seen, cached. change (p_table p') with (p_table p). change (p_pager p') with pgr. rewrite Hti.
  split; [left; by eexists|]. split.
  - cbn [mbind option_bind]. rewrite H2, list_fmap_insert, list_lookup_insert_eq; [done|]. rewrite length_fmap. by eapply lookup_lt_Some.
  - intros k Hk Hne Ha. destruct (p_table p !! k) as [j|] eqn:Hj.
    + split; [left; by eexists|]. cbn [mbind option_bind]. destruct (Htab k j Hj) as (g & t & Hg & Ht & Hgk).
      assert (j <> i) as Hji by (intros ->; congruence). rewrite !list_lookup_fmap, H2, list_lookup_insert_ne by done. by rewrite Hg.
    + destruct Ha as [[? Ha]|(Ha & Hb & Hc)]; [done|]. destruct (Hfile k Hk Hne Ha) as [Hx Hy]. cbn [mbind option_bind from_option].
      unfold stored. rewrite Hy. split; [right; exact (conj Hx (conj Hb Hc))|reflexivity].
Qed.

End Rewrite.

End Shard.
