(* ===== verification/ShardTheorems.v ===== *)
(** * What a shard promises

    Lookups, new pages, writes and the background writer, over the invariant of
    [ShardInv]: the cache is transparent, and what is lost where it is not. *)

From S2P Require Import Prelude Keys Files Helpers Disk FreeList Page Pager TinyLFU TinyLFUTheorems Clock ClockTheorems WTinyLFU WTinyLFUTheorems DirtyList Shard ShardInv.
Local Open Scope Z_scope.

#[local] Arguments page_of : simpl never.
#[local] Arguments region : simpl never.
#[local] Arguments WriteAt : simpl never.
#[local] Arguments replicate : simpl never.

(** ** Running a job *)

Section Running.
Context {A : Type}.

Lemma on_pool_step {B} (m : M pool A) (f : A -> M running B) p s Q E :
  settles m p (fun a p' => settles (f a) (mkRunning p' s) Q E) (fun p' => E (mkRunning p' s)) ->
  settles (on_pool m ≫= f) (mkRunning p s) Q E.
Proof.
  unfold settles, on_pool, zoom, mbind, M_bind. cbn. destruct (m p) as [[] p']; cbn; done.
Qed.

(** The error of the call is the job's answer. *)
Lemma or_send_step (m : M pool A) k p (Q : unit -> running -> Prop) E (F : pool -> Prop) :
  settles m p (fun a p' => settles (k a) (mkRunning p' []) Q E) F ->
  (forall e p', F p' -> Q tt (mkRunning p' [RErr e])) ->
  settles (or_send m k) (mkRunning p []) Q E.
Proof.
  intros Hm He. unfold or_send, settles, on_pool, zoom, catch, mbind, M_bind in *. cbn in *.
  destruct (m p) as [[a|e| | |] p']; cbn in *; [exact Hm| |done|done|done]. by apply He.
Qed.

(** The caller looks at the error. *)
Lemma settles_catch {S} (m : M S A) s (Q : A + error -> S -> Prop) E :
  settles m s (fun a s' => Q (inl a) s') (fun s' => forall e, Q (inr e) s') -> settles (catch m) s Q E.
Proof. unfold settles, catch. destruct (m s) as [[]]; cbn; auto. Qed.

End Running.

(** A job that sends one message. *)
Definition answers (m : M running unit) (p : pool) (Q : reply -> pool -> Prop) : Prop :=
  settles m (mkRunning p []) (fun _ r => exists a, r_sent r = [a] /\ Q a (r_pool r)) (fun _ => False).

Lemma answers_submit Sum64 j p Q : answers (runJob Sum64 j) p Q -> returns (submit Sum64 j) p Q.
Proof.
  unfold answers, settles, submit. destruct (runJob Sum64 j (mkRunning p [])) as [[u|e| | |] r] eqn:E; try done.
  intros (a & Ha & HQ). exists a, (r_pool r). by rewrite E, Ha.
Qed.

Section Shard.
Context (Sum64 : bytes -> Z).

Notation cache_ok := (cache_ok Sum64).

(** ** Reading a page into a frame *)

(** The entry of a frame just handed out, with page [k] read into it. *)
Definition loaded (b : bytes) (k : Z) (x : clockentry) : clockentry :=
  frame_SetData false (set_frame (mkFrame (mkPage b k) (f_isInternal (entry x)) (f_isDeleted (entry x)) (f_dirty (entry x)) (f_key (entry x)))
    (set_evict false x)).

Lemma SetFlag_set x : BitIsSet x IsInternalBit = true -> SetFlag x [IsInternalBit] = x.
Proof.
  change (SetFlag x [IsInternalBit]) with (Z.lor x (2 ^ 7)). change (BitIsSet x IsInternalBit) with (Z.land x (2 ^ 7) >? 0). intros Hb.
  assert (Z.testbit x 7 = true) as Ht.
  { destruct (Z.testbit x 7) eqn:E; [done|]. replace (Z.land x (2 ^ 7)) with 0 in Hb; [done|]. symmetry.
    apply Z.bits_inj'. intros n Hn. rewrite Z.land_spec, Z.bits_0, Z.pow2_bits_eqb by lia.
    destruct (Z.eqb_spec 7 n) as [<-|]; [by rewrite E|by rewrite andb_false_r]. }
  apply Z.bits_inj'. intros n Hn. rewrite Z.lor_spec, Z.pow2_bits_eqb by lia.
  destruct (Z.eqb_spec 7 n) as [<-|]; [by rewrite Ht|by rewrite orb_false_r].
Qed.

Lemma page_of_length pgr k : page_exists pgr k -> length (page_of pgr k) = DM_PAGE.
Proof. unfold page_exists, on_disk, page_of, page_at, region. rewrite length_take, length_drop. lia. Qed.

(** Page metadata written over a page that has it already changes no byte. *)
Lemma UpdatePageMeta_same b k pid : k <> 0 -> length b = DM_PAGE -> region b 1 4 = le32 k ->
  UpdatePageMeta k (BitIsSet (default 0 (head b)) IsInternalBit) (mkPage b pid) = (Val tt, mkPage b k).
Proof.
  intros Hk Hl Hr. unfold UpdatePageMeta, initializePage. rewrite (proj2 (Z.eqb_neq _ _) Hk).
  assert (WriteAt b (le32 k) 1 = b) as Hw by (apply WriteAt_same; [exact Hr|rewrite Hl; cbn; unfold DM_PAGE; lia]).
  unfold mbind, M_bind, modify, PutUint32, set_data. cbn [pgeData PageId]. rewrite Hw.
  destruct (BitIsSet (default 0 (head b)) IsInternalBit) eqn:Hb; [|done].
  unfold set_flag_byte, flag_byte, set_data. cbn [pgeData PageId]. rewrite (SetFlag_set _ Hb).
  destruct b as [|y r]; [done|]. done.
Qed.

Lemma label_decode b k : 0 <= k < 2 ^ 32 -> region b 1 4 = le32 k -> get32 b 1 = Val k.
Proof. intros Hk Hr. unfold get32. rewrite Hr. by apply le32_decode_nil. Qed.

Lemma read_into_settles p en x k : bPool (clock_of p) !! en = Some x -> length (fdata (entry x)) = DM_PAGE ->
  0 < k -> addressable k -> idle (dManager (p_pager p)) -> stored (p_pager p) k ->
  settles (read_into en k) p (fun _ p' => exists pgr', p' = set_clock (put_entry en (loaded (page_of (p_pager p) k) k x) (clock_of p)) (set_pager pgr' p) /\
    idle (dManager pgr') /\ d_fd (dManager pgr') = d_fd (dManager (p_pager p))) (fun _ => False).
Proof.
  intros Hx Hl H0 Hk Hi (Hex & Hlab & Hdead).
  destruct (read_job k (fdata (entry x)) (p_pager p) Hk Hl Hi Hex) as (pgr' & Hrd & (_ & _ & _ & _ & Hi' & Hfd')).
  pose proof (page_of_length _ _ Hex) as Hlp.
  rewrite <- (set_clock_id p) at 1. unfold read_into. eapply en_step; [exact Hx|reflexivity|].
  eapply en_get; [by eapply put_entry_eq|]. cbn [entry set_evict]. fold (fdata (entry x)).
  apply settles_bind. unfold settles at 1, catch, on_pager, zoom. cbn [p_pager set_clock].
  unfold ReadPage. rewrite Hl. change (Z.of_nat DM_PAGE =? PAGE_SIZE_BYTES) with true. cbn [negb]. rewrite Hrd.
  set (b := page_of (p_pager p) k) in *. cbn beta iota.
  change (set_pager pgr' (set_clock ?c p)) with (set_clock c (set_pager pgr' p)).
  eapply en_again; [exact Hx|reflexivity|].
  apply settles_bind, settles_returns. eapply returns_lift; [apply label_decode; [|exact Hlab]; unfold addressable, MAX_PAGE in Hk; lia|].
  rewrite Z.eqb_refl. cbn [negb].
  apply settles_bind. set (x1 := set_frame _ _).
  assert (on_fpage (UpdatePageMeta k (BitIsSet (default 0 (head b)) IsInternalBit)) x1 = (Val tt, set_frame (mkFrame (mkPage b k) (f_isInternal (entry x)) (f_isDeleted (entry x)) (f_dirty (entry x)) (f_key (entry x))) (set_evict false x))) as Hup.
  { unfold on_fpage, zoom. cbn [entry x1 set_frame f_page set_data]. unfold set_data. rewrite UpdatePageMeta_same by (lia || done). done. }
  apply settles_catch. eapply en_last; [exact Hx|exact Hup|]. cbn beta iota.
  eapply en_last; [exact Hx|reflexivity|]. exists pgr'. split; [reflexivity|]. by split.
Qed.

(** ** Lookup *)

(** The hash table has no new page but [k]. *)
Definition table_within (k : Z) (p p' : pool) : Prop := forall k' i, p_table p' !! k' = Some i -> k' = k \/ is_Some (p_table p !! k').

(** What a lookup of page [k] gives: frame [en], pinned, with the content of the
    page; no page is changed or lost. *)
Definition got_page (X : nat -> Prop) (k : Z) (p : pool) (en : nat) (p' : pool) : Prop :=
  cache_ok p' /\ quiet_but X p' /\ same_pages p p' /\ table_within k p p' /\ exists e, bPool (clock_of p') !! en = Some e /\ f_key (entry e) = k /\
    p_table p' !! k = Some en /\ undirty (fdata (entry e)) = seen p k /\ (0 < outstanding e)%nat.

(** A refused request: no page is changed or lost either, but one more frame may be
    marked for eviction and left like that.  It is refused because the frames of the
    full segments cannot be evicted, or no free frame can be taken. *)
Definition no_page (X : nat -> Prop) (p p' : pool) : Prop :=
  cache_ok p' /\ (exists v, quiet_but (fun i => X i \/ i = v) p') /\ same_pages p p' /\ (forall k, table_within k p p') /\
  (starved p \/ none_eligible unassigned p' /\ (p' = p \/ windowCount (p_w p) = windowCapacity (p_w p))).

Section Quiet.
Context {X : nat -> Prop}.

Lemma made_room_table p p1 k : p1 = p \/ made_room Sum64 p p1 -> p_table p !! k = None -> p_table p1 !! k = None.
Proof.
  intros [->|(_ & [((_ & -> & _) & _)|(v & f & s & (_ & _ & _ & -> & _) & _)] & _)] Hk; [done|done|]. apply lookup_delete_None. by right.
Qed.

Lemma refused_quiet p p' v : quiet_but X p -> fs p' = fs p -> marked_at_most v (clock_of p) (clock_of p') -> quiet_but (fun i => X i \/ i = v) p'.
Proof.
  intros Hq Hf Hm i e' He'. destruct (Hm i e' He') as (e & He & Hmk & Ho & _). specialize (Hq i e He).
  apply fsc_lookup in He as H1, He' as H2. change (fsc (clock_of p')) with (fs p') in H2. rewrite Hf in H2.
  change (fsc (clock_of p)) with (fs p) in H1. rewrite H1 in H2. injection H2 as _ Hs. rewrite <- Hs, Ho.
  destruct (decide _); [done|]. destruct Hq as [Hq1 Hq2]. split; [|done]. intros E. destruct (Hmk E); auto.
Qed.

Lemma no_frame_pages p p' : cache_ok p -> quiet_but X p -> no_frame Sum64 p p' -> no_page X p p'.
Proof.
  intros Hok Hq (Hw & _ & (_ & _ & _ & Hfil) & [((_ & (Hs & Ht & Hp) & _ & Hf & v & Hm) & Hst)|[Hroom Hnone]]).
  - assert (same_store p p') as Hss by (split_and!; [done|done|by rewrite Hp]).
    split; [|split; [exists v; by eapply refused_quiet|]].
    + eapply cache_ok_same; [done|done|rewrite Hfil; apply Hok|done| |].
      * intros i. by rewrite Hf.
      * intros i x' Hx'. destruct (Hm i x' Hx') as (x & Hx & _ & _ & Hr). by exists x.
    + split; [by apply same_store_pages|]. split; [|by left]. intros k k' i. rewrite Ht. right. by eexists.
  - assert (cache_ok p' /\ quiet_but X p' /\ same_pages p p') as (H1 & H2 & H3).
    { destruct Hroom as [->|[Hm _]]; [split_and!; [done|done|apply same_pages_refl]|].
      destruct (made_room_cache Sum64 p p' Hok Hm) as (H1 & H2 & H3). auto. }
    split; [done|]. split; [exists 0%nat; eapply quiet_but_mono; [exact H2|auto]|]. split; [done|].
    split; [|right; split; [done|]; destruct Hroom as [?|[_ ?]]; auto].
    intros k k' i Hk. right. destruct (p_table p !! k') eqn:E; [by eexists|].
    rewrite (made_room_table p p' k') in Hk; [done| |done]. destruct Hroom as [?|[? _]]; auto.
Qed.

(** The pool before the frame was handed out. *)
Lemma room_cache p p1 : cache_ok p -> quiet_but X p -> p1 = p \/ made_room Sum64 p p1 -> cache_ok p1 /\ same_pages p p1 /\ quiet_but X p1.
Proof.
  intros Hok Hq [->|Hm]; [split_and!; [done|apply same_pages_refl|done]|].
  destruct (made_room_cache Sum64 p p1 Hok Hm) as (H1 & H2 & H3). auto.
Qed.

(** The entry handed out. *)
Lemma given_entry p1 en p2 : wt_ok Sum64 p2 -> given p1 en p2 -> exists x, bPool (clock_of p2) !! en = Some x /\
  segtype x = windowSegment /\ pins_ok x /\ length (fdata (entry x)) = DM_PAGE /\ (0 < outstanding x)%nat /\
  (cache_ok p1 -> fdata (entry x) = replicate DM_PAGE 0).
Proof.
  intros Hw (e & He & Hel & Hx & _). exists (set_seg windowSegment (victim e)). pose proof (wo_frames _ _ Hw) as Hf. rewrite Forall_lookup in Hf.
  pose proof (pool_ok_pins _ _ _ (wo_pool _ _ Hw) Hx) as Hp. split_and!; try done.
  - exact (proj1 (Hf en _ (fsc_lookup _ _ _ Hx))).
  - by apply Hp.
  - intros Hok. unfold eligible in Hel. rewrite !andb_true_iff, bool_decide_eq_true, !negb_true_iff in Hel.
    destruct Hel as [[[Hr _] _] Hs]. exact (ck_free _ _ Hok en e He Hs Hr).
Qed.

Lemma loaded_entry pgr k x : 0 < k -> addressable k -> stored pgr k -> segtype x = windowSegment -> pins_ok x ->
  page_entry pgr k (loaded (page_of pgr k) k x).
Proof.
  intros H0 Hk (He & Hl & Hd) Hs Hp. split; try done.
  split; [|done]. by apply page_of_length.
Qed.

Lemma put_new p k en : p_table p !! k = None -> put Sum64 k en p = (Val en, set_table (<[k := en]> (p_table p)) p).
Proof. intros Hk. unfold put, mbind, M_bind, gets, table_of. by rewrite Hk. Qed.

Lemma runMiss_answers p k : cache_ok p -> quiet_but X p -> 0 < k -> addressable k -> p_table p !! k = None -> stored (p_pager p) k ->
  answers (runMiss Sum64 k) p (fun a p' => match a with RRes en false => got_page X k p en p' | RErr _ => no_page X p p' | _ => False end).
Proof.
  intros Hok Hq H0 Hk Ht Hst. unfold answers, runMiss.
  eapply or_send_step; [eapply settles_mono; [| |apply getFreeFrame_settles; apply Hok]|]; [|exact (fun p' H => H)|].
  2:{ intros e p' Hn. eexists. split; [done|]. by apply no_frame_pages. }
  intros en p2 (Hw2 & _ & _ & _ & p1 & Hroom & Hgiven).
  destruct (room_cache p p1 Hok Hq Hroom) as (Hok1 & Hsp & Hq1). pose proof (made_room_table _ _ _ Hroom Ht) as Ht1.
  assert (stored (p_pager p1) k /\ seen p1 k = seen p k) as [Hst1 Hseen].
  { destruct (Hsp k Hk (or_intror Hst)) as [[Ha|Ha] Hs]; [rewrite Ht1 in Ha; by destruct Ha|done]. }
  destruct (given_entry p1 en p2 Hw2 Hgiven) as (x & Hx & Hxs & Hxp & Hxl & Hxo & _).
  pose proof Hgiven as (_ & _ & _ & _ & _ & _ & Htb & Hpg & _).
  eapply or_send_step; [eapply settles_mono; [| |eapply (read_into_settles p2 en x k Hx Hxl H0 Hk (wo_idle _ _ Hw2))]|]; [|exact (fun p' H => H)|by rewrite Hpg|done].
  intros _ ? (pgr' & -> & Hid & Hfd). rewrite Hpg in *.
  set (y := loaded (page_of (p_pager p1) k) k x).
  assert (page_entry pgr' k y) as Hy.
  { unfold y. rewrite <- (page_of_fd (p_pager p1) pgr' k Hfd). apply loaded_entry; try done. by apply (stored_fd (p_pager p1) pgr' k Hfd). }
  apply on_pool_step, settles_returns. do 2 eexists. split; [apply put_new; cbn; by rewrite Htb|].
  apply settles_returns. eexists tt, _. split; [reflexivity|]. eexists. split; [reflexivity|].
  change (got_page X k p en (installed p2 en y k pgr')).
  destruct (install_seen Sum64 p1 p2 en y k pgr' Hok1 Hgiven Hy Hfd) as (Ha & Hs & Hoth).
  split; [by eapply install_cache|]. split; [by eapply install_quiet|]. split; [|split].
  - intros k' Hk' Hav. destruct (Hsp k' Hk' Hav) as [Hav1 <-]. destruct (decide (k' = k)) as [->|Hne]; [|by apply Hoth].
    split; [done|]. rewrite Hs. unfold seen, cached. by rewrite Ht1.
  - intros k' i Hi. change (<[k := en]> (p_table p2) !! k' = Some i) in Hi. rewrite Htb in Hi.
    apply lookup_insert_Some in Hi as [[<- _]|[_ Hi]]; [by left|right].
    destruct (p_table p !! k') eqn:E; [by eexists|]. by rewrite (made_room_table _ _ _ Hroom E) in Hi.
  - exists y. split; [by eapply put_entry_eq|]. split_and!; try done; [apply lookup_insert_eq|].
    rewrite <- Hseen. unfold seen, cached. by rewrite Ht1.
Qed.

(** The entry of a cached page. *)
Lemma table_entry p k v : cache_ok p -> quiet_but X p -> p_table p !! k = Some v -> exists e, bPool (clock_of p) !! v = Some e /\
  segtype e <> unassigned /\ f_key (entry e) = k /\ live_frame (entry e) /\ agrees (p_pager p) (entry e) /\
  (markedForEviction e = true -> X v) /\ isOccupied e = true /\ seen p k = undirty (fdata (entry e)).
Proof.
  intros Hok Hq Hk. destruct (ck_table _ _ Hok k v Hk) as (f & s & Hf & Hs & Hkey). destruct (fs_entry _ _ _ _ Hf) as (e & He & He1 & He2).
  destruct (ck_frames _ _ Hok v f s Hf Hs) as (_ & Hl & Ha). specialize (Hq v e He). rewrite decide_False in Hq by congruence. destruct Hq as [Hq1 Hq2].
  exists e. subst f s. split_and!; try done. unfold seen, cached. rewrite Hk. cbn [mbind option_bind]. by rewrite (fs_frame _ _ _ _ Hf).
Qed.

(** The same frame after an operation that keeps the frames. *)
Lemma kept_entry p p' v e : kept p p' -> bPool (clock_of p) !! v = Some e ->
  exists e', bPool (clock_of p') !! v = Some e' /\ entry e' = entry e.
Proof.
  intros ((Hf & _) & _) He. apply fsc_lookup, fs_frame in He. rewrite <- Hf, list_lookup_fmap in He. unfold fs, fsc in He.
  rewrite list_lookup_fmap in He. destruct (bPool (clock_of p') !! v) as [e'|]; [|done]. cbn in He. injection He as He. eauto.
Qed.

Lemma pin_repinned e : pins_ok e -> repinned e (pin_entry e).
Proof. intros Hp. split_and!; try done. by apply pins_ok_pin. Qed.

Lemma pin_step p v e : cache_ok p -> quiet_but X p -> bPool (clock_of p) !! v = Some e ->
  let p' := set_clock (put_entry v (pin_entry e) (clock_of p)) p in cache_ok p' /\ quiet_but X p' /\ kept p p'.
Proof.
  intros Hok Hq He p'. pose proof (pool_ok_pins _ _ _ (wo_pool _ _ (ck_wt _ _ Hok)) He) as Hp.
  destruct (repin_kept Sum64 p v e (pin_entry e) Hok He (pin_repinned e Hp)) as (Hk & Hw & Hfi).
  destruct (kept_ok Sum64 p p' Hok Hk Hw Hfi) as (H1 & _ & H3). auto.
Qed.

Lemma ignore_settles {A} (m : M pool A) p (Q : pool -> Prop) : settles m p (fun _ => Q) Q -> settles (ignore m) p (fun _ => Q) (fun _ => False).
Proof. unfold settles, ignore, catch, mbind, M_bind. destruct (m p) as [[]]; cbn; done. Qed.

Lemma runHit_answers p k v : cache_ok p -> quiet_but X p -> 0 < k -> addressable k -> p_table p !! k = Some v -> ~ X v ->
  answers (runGet Sum64 k) p (fun a p' => match a with RRes en true => en = v /\ got_page X k p en p' | _ => False end).
Proof.
  intros Hok Hq H0 Hk Ht Hv. destruct (table_entry p k v Hok Hq Ht) as (e & He & Hs & Hkey & (_ & Hdel & _) & _ & Hmk & Ho & Hseen).
  assert (markedForEviction e = false) as Hm by (destruct (markedForEviction e); [by destruct Hv; apply Hmk|done]).
  unfold answers, runGet. rewrite (proj2 (Z.eqb_neq _ _)) by lia. apply on_pool_step. unfold settles at 1. cbn [gets].
  unfold table_of. rewrite Ht. apply on_pool_step. rewrite <- (set_clock_id p) at 1.
  eapply en_end; [exact He|unfold refIfOccupied, mbind, M_bind, get_state; rewrite Ho, Hm; reflexivity|].
  cbn [negb]. destruct (pin_step p v e Hok Hq He) as (Hok1 & Hq1 & Hk1). set (p1 := set_clock _ p) in *.
  assert (bPool (clock_of p1) !! v = Some (pin_entry e)) as He1 by (by eapply put_entry_eq).
  apply on_pool_step. rewrite <- (set_clock_id p1). eapply en_end; [exact He1|reflexivity|]. cbn [entry pin_entry set_marks set_pins]. rewrite Hdel.
  replace (set_clock (put_entry v (pin_entry e) (clock_of p1)) p1) with p1.
  2:{ unfold put_entry. rewrite list_insert_id by done. by destruct p1 as [[[]]]. }
  apply on_pool_step.
  assert (0 < outstanding (pin_entry e))%nat as Hout.
  { pose proof (pool_ok_pins _ _ _ (wo_pool _ _ (ck_wt _ _ Hok)) He) as [Hle _]. unfold outstanding. cbn. lia. }
  eapply (settles_mono _ _ (fun _ p' => kept p1 p' /\ cache_ok p' /\ pins_kept (clock_of p1) (clock_of p')) _ (fun _ => False)); [|done|].
  - intros _ p' (Hk2 & Hok2 & Hpins). apply settles_returns. eexists tt, _. split; [reflexivity|]. eexists. split; [reflexivity|].
    split; [done|]. cbn [r_pool]. pose proof (kept_trans _ _ _ Hk1 Hk2) as Hk'.
    destruct (kept_ok Sum64 p p' Hok Hk' (ck_wt _ _ Hok2) (ck_filter _ _ Hok2)) as (_ & Hsp & Hq').
    split; [done|]. split; [auto|]. split; [done|].
    split; [intros k' i; destruct Hk' as ((_ & -> & _) & _); right; by eexists|]. destruct (kept_entry _ _ _ _ Hk' He) as (e' & He' & Hee).
    exists e'. rewrite Hee. split_and!; try done.
    + destruct Hk' as ((_ & -> & _) & _). done.
    + destruct (Hpins v (pin_entry e) eq_refl He1) as (e2 & He2 & Ho2). rewrite He' in He2. injection He2 as <-. lia.
  - apply ignore_settles. eapply settles_mono; [| |eapply (Increment_settles Sum64 p1 v _ Hok1 He1 Hs)]; [done|].
    intros ? ->. split; [apply kept_refl|]. split; [done|]. intros i x _ Hx. by exists x.
Qed.

(** Lookups are transparent: for a page that is cached or stored in the data file,
    [get] either returns a pinned frame that holds the page, with the content last
    seen under that id, or it is refused for want of a frame; in both cases every
    page keeps its content.  The page must not be in a frame of [X]. *)
Lemma get_transparent p k : cache_ok p -> quiet_but X p -> 0 < k -> addressable k -> available p k -> (forall v, p_table p !! k = Some v -> ~ X v) ->
  settles (get Sum64 k) p (fun r p' => exists en, r = (Some en, bool_decide (is_Some (p_table p !! k))) /\ got_page X k p en p') (no_page X p).
Proof.
  intros Hok Hq H0 Hk Hav Hnx. unfold get. apply settles_bind.
  destruct (p_table p !! k) as [v|] eqn:Ht.
  - apply settles_returns. eapply returns_mono; [|apply answers_submit; exact (runHit_answers p k v Hok Hq H0 Hk Ht (Hnx v eq_refl))].
    intros [| |en []] p' Ha; try done. destruct Ha as [-> Ha]. apply settles_returns, returns_ret. by exists v.
  - assert (stored (p_pager p) k) as Hst by (destruct Hav as [[? Ha]|Ha]; [congruence|done]).
    apply settles_returns. eapply returns_mono; [|apply answers_submit].
    2:{ unfold answers. change (runJob Sum64 (mkBmJob 128 k)) with (runGet Sum64 k). unfold runGet. rewrite (proj2 (Z.eqb_neq _ _)) by lia.
        apply on_pool_step. unfold settles at 1. cbn [gets]. unfold table_of. rewrite Ht. exact (runMiss_answers p k Hok Hq H0 Hk Ht Hst). }
    intros [e| |en []] p' Ha; try done. apply settles_returns, returns_ret. by exists en.
Qed.

(** ** New pages *)

(** The bytes of a new page: its id, and the flag of an internal node. *)
Definition new_page (internal : bool) (k : Z) : bytes :=
  let b := WriteAt (replicate DM_PAGE 0) (le32 k) 1 in
  if internal then WriteAt b [SetFlag (default 0 (head b)) [IsInternalBit]] 0 else b.

Lemma labelled_zero k : WriteAt (replicate DM_PAGE 0) (le32 k) 1 = 0 :: le32 k ++ replicate 8187 0.
Proof. reflexivity. Qed.

Lemma new_page_bytes internal k : new_page internal k = (if internal then 128 else 0) :: le32 k ++ replicate 8187 0.
Proof. unfold new_page. rewrite labelled_zero. by destruct internal. Qed.

Lemma new_page_ok internal k : length (new_page internal k) = DM_PAGE /\ is_dead (new_page internal k) = false /\
  region (new_page internal k) 1 4 = le32 k /\ undirty (new_page internal k) = new_page internal k.
Proof. rewrite new_page_bytes. by destruct internal. Qed.

Lemma initialize_new internal k pid : k <> 0 ->
  initializePage k internal (mkPage (replicate DM_PAGE 0) pid) = (Val tt, mkPage (new_page internal k) k).
Proof.
  intros Hk. unfold initializePage. rewrite (proj2 (Z.eqb_neq _ _) Hk). unfold mbind, M_bind, modify, PutUint32, set_flag_byte, set_data, flag_byte, new_page.
  cbn [pgeData PageId]. by destruct internal.
Qed.

Lemma NewPage_new root internal pg k pgr : k <> 0 -> pgeData pg = replicate DM_PAGE 0 ->
  exists pgr', NewPage root internal (Some pg) k pgr = (Val (k, mkPage (new_page internal k) k), pgr') /\ dManager pgr' = dManager pgr.
Proof.
  intros Hk Hpg. destruct pg as [b pid]. change (b = replicate DM_PAGE 0) in Hpg. subst b. unfold NewPage. rewrite (initialize_new internal k pid Hk).
  destruct root; (eexists; split; [reflexivity|done]).
Qed.

Definition made_page (k : Z) (internal : bool) (p : pool) (en : nat) (p' : pool) : Prop :=
  cache_ok p' /\ quiet_but X p' /\ (forall k', addressable k' -> k' <> k -> available p k' -> available p' k' /\ seen p' k' = seen p k') /\
  available p' k /\ seen p' k = new_page internal k /\ exists e, bPool (clock_of p') !! en = Some e /\ f_key (entry e) = k /\
    p_table p' !! k = Some en /\ f_dirty (entry e) = true /\ (0 < outstanding e)%nat.

(** The entry of a new page, from the entry handed out. *)
Definition created (internal : bool) (k : Z) (x : clockentry) : clockentry :=
  frame_SetData true (set_frame (mkFrame (mkPage (new_page internal k) k) (f_isInternal (entry x)) (f_isDeleted (entry x)) (f_dirty (entry x)) (f_key (entry x)))
    (set_evict false x)).

Lemma created_entry pgr internal k x : 0 < k -> addressable k -> segtype x = windowSegment -> pins_ok x ->
  page_entry pgr k (created internal k x).
Proof. intros H0 Hk Hs Hp. destruct (new_page_ok internal k) as (Hl & Hd & Hlab & _). by split. Qed.

Lemma runCreate_answers p internal root k : cache_ok p -> quiet_but X p -> 0 < k -> addressable k -> p_table p !! k = None ->
  answers (runCreate Sum64 internal root k) p
    (fun a p' => match a with RRes en false => made_page k internal p en p' | RErr _ => no_page X p p' | _ => False end).
Proof.
  intros Hok Hq H0 Hk Ht. unfold answers, runCreate. rewrite (proj2 (Z.eqb_neq _ _)) by lia. apply settles_bind, settles_returns, returns_ret.
  eapply or_send_step; [eapply settles_mono; [| |apply getFreeFrame_settles; apply Hok]|]; [|exact (fun p' H => H)|].
  2:{ intros e p' Hn. eexists. split; [done|]. by apply no_frame_pages. }
  intros en p2 (Hw2 & _ & _ & _ & p1 & Hroom & Hgiven).
  destruct (room_cache p p1 Hok Hq Hroom) as (Hok1 & Hsp & Hq1). pose proof (made_room_table _ _ _ Hroom Ht) as Ht1.
  destruct (given_entry p1 en p2 Hw2 Hgiven) as (x & Hx & Hxs & Hxp & Hxl & Hxo & Hxz).
  pose proof Hgiven as (_ & _ & _ & _ & _ & _ & Htb & Hpg & _). specialize (Hxz Hok1).
  apply on_pool_step. rewrite <- (set_clock_id p2). eapply en_end; [exact Hx|reflexivity|].
  apply on_pool_step. eapply en_end; [by eapply put_entry_eq|reflexivity|]. rewrite put_entry_twice. cbn [entry set_evict].
  destruct (NewPage_new root internal (f_page (entry x)) k (p_pager p2)) as (pgr' & Hnew & Hdm); [lia|exact Hxz|].
  apply settles_bind, settles_catch. unfold settles at 1, on_pool, on_pager, zoom. cbn [r_pool p_pager set_clock]. rewrite Hnew. cbn beta iota.
  change (set_pager pgr' (set_clock ?c p2)) with (set_clock c (set_pager pgr' p2)).
  apply on_pool_step. eapply en_last; [exact Hx|reflexivity|]. rewrite (proj2 (Z.eqb_neq k 0)) by lia.
  apply on_pool_step. eapply en_last; [exact Hx|reflexivity|].
  apply on_pool_step. eapply en_last; [exact Hx|reflexivity|]. cbn [f_key entry frame_SetData set_occupied set_frame f_page PageId].
  rewrite (proj2 (Z.eqb_neq k 0)) by lia.
  set (y := frame_SetData true _). change y with (created internal k x). clear y. set (y := created internal k x).
  pose proof (created_entry pgr' internal k x H0 Hk Hxs Hxp) as Hy. fold y in Hy.
  apply on_pool_step, settles_returns. do 2 eexists. split; [apply put_new; cbn; by rewrite Htb|].
  apply settles_returns. eexists tt, _. split; [reflexivity|]. eexists. split; [reflexivity|].
  change (made_page k internal p en (installed p2 en y k pgr')).
  assert (d_fd (dManager pgr') = d_fd (dManager (p_pager p1))) as Hfd by (by rewrite Hdm, Hpg).
  assert (idle (dManager pgr')) as Hid by (rewrite Hdm; apply Hw2).
  destruct (install_seen Sum64 p1 p2 en y k pgr' Hok1 Hgiven Hy Hfd) as (Ha & Hs & Hoth).
  split; [by eapply install_cache|]. split; [by eapply install_quiet|]. split; [|split; [done|split]].
  - intros k' Hk' Hne Hav. destruct (Hsp k' Hk' Hav) as [Hav1 <-]. by apply Hoth.
  - rewrite Hs. apply new_page_ok.
  - exists y. split; [by eapply put_entry_eq|]. split_and!; try done. apply lookup_insert_eq.
Qed.

Lemma newFrame_settles p internal root k : cache_ok p -> quiet_but X p -> 0 < k -> addressable k -> p_table p !! k = None ->
  settles (newFrame Sum64 internal root k) p (fun r p' => exists en, r = Some en /\ made_page k internal p en p') (no_page X p).
Proof.
  intros Hok Hq H0 Hk Ht. unfold newFrame. apply settles_bind, settles_returns.
  set (f2 := if root then _ else _). eapply returns_mono; [|apply answers_submit].
  2:{ replace (runJob Sum64 (mkBmJob f2 k)) with (runCreate Sum64 internal root k) by (unfold f2; by destruct internal, root).
      by apply runCreate_answers. }
  intros [e| |en []] p' Ha; try done. apply settles_returns, returns_ret. by exists en.
Qed.

(** ** Writes through a frame *)

(** A user stores [b] in the page of frame [en] and marks it dirty. *)
Definition write_frame (en : nat) (b : bytes) : M pool unit :=
  on_en en (on_fpage (modify (set_data b)));; mark_dirty en.

(** Contents a page keeps its id and stays alive with. *)
Definition page_bytes (k : Z) (b : bytes) : Prop := length b = DM_PAGE /\ is_dead b = false /\ region b 1 4 = le32 k.

Definition wrote (k : Z) (b : bytes) (p p' : pool) : Prop :=
  cache_ok p' /\ quiet_but X p' /\ available p' k /\ seen p' k = undirty b /\
  forall k', addressable k' -> k' <> k -> available p k' -> available p' k' /\ seen p' k' = seen p k'.

Lemma write_settles p k en b : cache_ok p -> quiet_but X p -> p_table p !! k = Some en -> page_bytes k b ->
  settles (write_frame en b) p (fun _ p' => wrote k b p p') (fun _ => False).
Proof.
  intros Hok Hq Ht (Hl & Hd & Hlab). destruct (table_entry p k en Hok Hq Ht) as (e & He & Hs & Hkey & (H0 & Hdel & _) & _).
  rewrite <- (set_clock_id p) at 1. unfold write_frame, mark_dirty. eapply en_step; [exact He|reflexivity|]. eapply en_last; [exact He|reflexivity|].
  set (e1 := set_frame (mkFrame (set_data b (f_page (entry e))) _ _ _ _) e). set (e' := set_frame (frame_MarkDirty _) _).
  assert (b <> []) as Hb by (intros ->; done).
  assert (undirty (fdata (entry e')) = undirty b) as Hu by (apply (MarkDirty_data (entry e1)); exact Hb).
  assert (rewritten (p_pager p) e e') as Hrw.
  { split; try done.
    - by apply (pool_ok_pins _ _ _ (wo_pool _ _ (ck_wt _ _ Hok)) He).
    - rewrite <- Hl, <- (undirty_length b), <- Hu. by rewrite undirty_length.
    - split; [done|]. split; [done|]. rewrite (undirty_dead _ _ Hu), (undirty_label _ _ Hu). split; [done|]. change (f_key (entry e')) with (f_key (entry e)). by rewrite Hkey. }
  pose proof (wo_idle _ _ (ck_wt _ _ Hok)) as Hid. change (set_clock ?c p) with (set_clock c (set_table (p_table p) (set_pager (p_pager p) p))).
  destruct (rewrite_seen Sum64 p en e e' (p_pager p) Hok He Hs Hrw) as (Ha & Hse & Hoth); [by intros|]. rewrite Hkey in *.
  split; [by eapply rewrite_cache|]. split; [by eapply rewrite_quiet|]. split; [done|]. split; [by rewrite Hse|done].
Qed.

(** ** Pins *)

Lemma unref_repinned e : pins_ok e -> (0 < outstanding e)%nat -> exists e', unref e = (Val tt, e') /\ repinned e e'.
Proof.
  intros [Hle Hacc] Ho. unfold unref, mbind, M_bind, get_state, modify, outstanding in *. rewrite (proj2 (Nat.leb_gt _ _)) by lia.
  destruct (_ =? 1)%nat eqn:E; (eexists; split; [reflexivity|]); split_and!; try done; unfold pins_ok, outstanding; cbn.
  - apply Nat.eqb_eq in E. split; [lia|]. split; [done|lia].
  - apply Nat.eqb_neq in E. split; [lia|]. rewrite Hacc. lia.
Qed.

(** ** The background writer *)

(** After a visit of entry [i]: no page changed, and if the entry was not pinned and
    held a page then the frame is clean. *)
Definition visited (i : nat) (p p' : pool) : Prop :=
  cache_ok p' /\ quiet_but X p' /\ same_pages p p' /\ p_table p' = p_table p /\ length (bPool (clock_of p')) = length (bPool (clock_of p)) /\
  forall j e, bPool (clock_of p) !! j = Some e -> exists e', bPool (clock_of p') !! j = Some e' /\ acc e' = acc e /\ segtype e' = segtype e /\
    f_key (entry e') = f_key (entry e) /\ (f_dirty (entry e) = false -> f_dirty (entry e') = false) /\
    (j = i -> acc e = false -> segtype e <> unassigned -> ~ X j -> f_dirty (entry e') = false).

Lemma visited_same i p e : cache_ok p -> quiet_but X p -> bPool (clock_of p) !! i = Some e -> acc e = true \/ segtype e = unassigned \/ X i -> visited i p p.
Proof.
  intros Hok Hq He Hc. split_and!; try done. intros j x Hx. exists x. split_and!; try done. intros -> Ha Hs Hx'. exfalso.
  rewrite He in Hx. injection Hx as <-. destruct Hc as [?|[?|?]]; congruence.
Qed.

Lemma put_entry_id i e c : bPool c !! i = Some e -> put_entry i e c = c.
Proof. intros He. unfold put_entry. rewrite list_insert_id by done. by destruct c. Qed.

Lemma on_bg_step {A B} (m : M pool A) (f : A -> M bgState B) p n Q E :
  settles m p (fun a p' => settles (f a) (mkBg p' n) Q E) (fun p' => E (mkBg p' n)) ->
  settles (on_bg m ≫= f) (mkBg p n) Q E.
Proof. unfold settles, on_bg, zoom, mbind, M_bind. cbn. destruct (m p) as [[] p']; cbn; done. Qed.

(** The page of a live frame written to the file. *)
Lemma WritePage_frame pgr f flush : live_frame f -> length (fdata f) = DM_PAGE -> addressable (f_key f) -> idle (dManager pgr) ->
  exists pgr', WritePage (f_key f) (fdata f) flush pgr = (Val (fdata f), pgr') /\ idle (dManager pgr') /\
    page_exists pgr' (f_key f) /\ page_of pgr' (f_key f) = fdata f /\
    forall k, addressable k -> k <> f_key f -> page_exists pgr k -> page_exists pgr' k /\ page_of pgr' k = page_of pgr k.
Proof.
  intros (_ & _ & Hd & _) Hl Ha Hi. destruct (WritePage_live (f_key f) (fdata f) flush pgr Ha Hl Hi Hd) as (pgr' & Hw & (_ & _ & _ & _ & Hi' & Hfd)).
  exists pgr'. split; [done|]. split; [done|]. unfold page_exists, page_of. rewrite Hfd. split; [by apply on_disk_written|].
  split; [by apply page_write_same|]. intros k Hk Hne He. split; [by apply on_disk_write|].
  exact (write_page_other (f_key f) k _ false (fdata f) Ha Hk Hne Hl He).
Qed.

(** The entry the writer leaves: clean, and not pinned. *)
Definition cleaned (e : clockentry) : clockentry := unpinned (set_frame (frame_MarkClean (entry e)) (pin_entry e)).

Lemma cleaned_rewritten pgr e : acc e = false -> pins_ok e -> live_frame (entry e) -> length (fdata (entry e)) = DM_PAGE ->
  page_exists pgr (f_key (entry e)) -> page_of pgr (f_key (entry e)) = fdata (entry e) -> rewritten pgr e (cleaned e).
Proof.
  intros Hacc [Hle Hp] (H0 & Hdel & Hd & Hlab) Hl Hex Hpg.
  assert (fdata (entry (cleaned e)) = undirty (fdata (entry e))) as Hf by (apply MarkClean_data; intros E; by rewrite E in Hl).
  assert (undirty (fdata (entry (cleaned e))) = undirty (fdata (entry e))) as Hu by (by rewrite Hf, undirty_idem).
  split; try done.
  - apply unpinned_ok. unfold outstanding in *. cbn. destruct (pinCount e - unpinCount e)%nat eqn:E; [lia|].
    destruct Hp as [_ Hp]. rewrite Hp in Hacc by lia. done.
  - by rewrite Hf, undirty_length.
  - split; [done|]. split; [done|]. by rewrite (undirty_dead _ _ Hu), (undirty_label _ _ Hu).
  - intros _. change (f_key (entry (cleaned e))) with (f_key (entry e)). by rewrite Hpg, Hu.
Qed.

Lemma unpinned_outstanding e : acc e = false -> pins_ok e -> outstanding (pin_entry e) = 1%nat.
Proof.
  intros Hacc [Hle Hp]. unfold outstanding in *. cbn. destruct (pinCount e - unpinCount e)%nat eqn:E; [lia|].
  destruct Hp as [_ Hp]. rewrite Hp in Hacc by lia. done.
Qed.

Lemma repin_visited i p e e' : cache_ok p -> quiet_but X p -> bPool (clock_of p) !! i = Some e -> repinned e e' -> acc e' = acc e -> f_dirty (entry e) = false ->
  visited i p (set_clock (put_entry i e' (clock_of p)) p).
Proof.
  intros Hok Hq He Hr Ha Hd. destruct (repin_kept Sum64 p i e e' Hok He Hr) as (Hk & Hw & Hfi).
  destruct (kept_ok Sum64 _ _ Hok Hk Hw Hfi) as (H1 & H2 & H3). split_and!; [done|auto|done|done|by apply length_insert|]. intros j x Hx. destruct Hr as (R1 & R2 & _).
  destruct (decide (j = i)) as [->|Hj].
  - rewrite He in Hx. injection Hx as <-. exists e'. rewrite R1. split_and!; try done. by eapply put_entry_eq.
  - exists x. split_and!; try done. change (bPool (put_entry i e' (clock_of p)) !! j = Some x). by rewrite put_entry_ne.
Qed.

Lemma cleaned_visited i p e pgr' : cache_ok p -> quiet_but X p -> bPool (clock_of p) !! i = Some e -> acc e = false -> segtype e <> unassigned ->
  idle (dManager pgr') -> page_exists pgr' (f_key (entry e)) -> page_of pgr' (f_key (entry e)) = fdata (entry e) ->
  (forall k, addressable k -> k <> f_key (entry e) -> page_exists (p_pager p) k -> page_exists pgr' k /\ page_of pgr' k = page_of (p_pager p) k) ->
  visited i p (set_clock (put_entry i (cleaned e) (clock_of p)) (set_pager pgr' p)).
Proof.
  intros Hok Hq He Ha Hs Hid Hex Hpg Hfile. pose proof (pool_ok_pins _ _ _ (wo_pool _ _ (ck_wt _ _ Hok)) He) as Hp.
  pose proof (fsc_lookup _ _ _ He) as Hf. destruct (frame_ok_at _ _ _ _ _ Hok Hf) as [Hl Hadr].
  destruct (ck_frames _ _ Hok i _ _ Hf Hs) as (Ht & Hlive & _).
  pose proof (cleaned_rewritten pgr' e Ha Hp Hlive Hl Hex Hpg) as Hrw.
  change (set_clock ?c (set_pager pgr' p)) with (set_clock c (set_table (p_table p) (set_pager pgr' p))).
  destruct (rewrite_seen Sum64 p i e (cleaned e) pgr' Hok He Hs Hrw Hfile) as (Hav & Hse & Hoth).
  split; [by eapply rewrite_cache|]. split; [by eapply rewrite_quiet|]. split; [|split; [done|split; [by apply length_insert|]]].
  - intros k Hk Hak. destruct (decide (k = f_key (entry e))) as [->|Hne]; [|by apply Hoth]. split; [done|]. rewrite Hse.
    destruct (table_entry p _ i Hok Hq Ht) as (x & Hx & _ & _ & _ & _ & _ & _ & ->). rewrite He in Hx. injection Hx as <-.
    change (fdata (entry (cleaned e))) with (fdata (frame_MarkClean (entry e))).
    rewrite (MarkClean_data (entry e)) by (intros E; by rewrite E in Hl). apply undirty_idem.
  - intros j x Hx. destruct (decide (j = i)) as [->|Hj].
    + rewrite He in Hx. injection Hx as <-. exists (cleaned e). split_and!; try done. by eapply put_entry_eq.
    + exists x. split_and!; try done. change (bPool (put_entry i (cleaned e) (clock_of p)) !! j = Some x). by rewrite put_entry_ne.
Qed.

(** The writer takes the entries that hold a page and are not pinned. *)
Lemma refIfNotReferenced_cases p i e : quiet_but X p -> bPool (clock_of p) !! i = Some e ->
  (refIfNotReferenced e = (Val false, e) /\ (acc e = true \/ segtype e = unassigned \/ X i)) \/
  (refIfNotReferenced e = (Val true, pin_entry e) /\ acc e = false /\ segtype e <> unassigned).
Proof.
  intros Hq He. specialize (Hq i e He). unfold refIfNotReferenced, mbind, M_bind, get_state, modify. destruct (acc e); [by auto|].
  destruct (decide (segtype e = unassigned)) as [Hu|Hu].
  - rewrite Hq. left. destruct (markedForEviction e); auto.
  - destruct Hq as [Hm ->]. destruct (markedForEviction e); [left|right]; auto 6.
Qed.

Lemma bg_visit_settles p n i e : cache_ok p -> quiet_but X p -> bPool (clock_of p) !! i = Some e ->
  settles (bg_visit i) (mkBg p n) (fun fin b => visited i p (bg_pool b) /\ writtenPages b = (if fin then u32 (n + 1) else n)) (fun _ => False).
Proof.
  intros Hok Hq He. unfold bg_visit. apply on_bg_step. rewrite <- (set_clock_id p) at 1.
  pose proof (pool_ok_pins _ _ _ (wo_pool _ _ (ck_wt _ _ Hok)) He) as Hp.
  destruct (refIfNotReferenced_cases p i e Hq He) as [[Href Hc]|(Href & Ha & Hs)]; (eapply en_end; [exact He|exact Href|]); cbn [negb].
  { rewrite put_entry_id, set_clock_id by done. apply settles_returns, returns_ret. split; [by eapply visited_same|done]. }
  pose proof (unpinned_outstanding e Ha Hp) as Ho.
  apply on_bg_step. eapply en_last; [exact He|reflexivity|]. destruct (f_dirty (entry e)) eqn:Hd; cbn [f_dirty entry pin_entry set_marks set_pins]; rewrite Hd; cbn [negb].
  2:{ apply on_bg_step. eapply en_last; [exact He|by apply unref_last|]. apply settles_returns, returns_ret. split; [|done].
      apply repin_visited with (e := e); try done. split_and!; try done. by apply unpinned_ok. }
  apply settles_bind, settles_returns, returns_gets. cbn [writtenPages].
  apply on_bg_step. eapply en_last; [exact He|reflexivity|]. apply on_bg_step. eapply en_last; [exact He|reflexivity|].
  apply on_bg_step. eapply en_last; [exact He|reflexivity|]. cbn [entry pin_entry set_marks set_pins].
  pose proof (fsc_lookup _ _ _ He) as Hf. destruct (frame_ok_at _ _ _ _ _ Hok Hf) as [Hl Hadr]. destruct (ck_frames _ _ Hok i _ _ Hf Hs) as (Ht & Hlive & _).
  destruct (WritePage_frame (p_pager p) (entry e) (u32 (n + 1) =? MAX_PAGES) Hlive Hl Hadr (wo_idle _ _ (ck_wt _ _ Hok))) as (pgr' & Hw & Hid & Hex & Hpg & Hfile).
  apply settles_bind, settles_catch. unfold settles at 1, on_bg, on_pager, zoom. cbn [bg_pool p_pager set_clock]. fold (fdata (entry e)). rewrite Hw.
  change (set_pager pgr' (set_clock ?c p)) with (set_clock c (set_pager pgr' p)). cbn [writtenPages].
  apply on_bg_step. eapply en_last; [exact He|by apply unref_last|].
  apply settles_bind, settles_returns, returns_modify. apply settles_returns, returns_ret. cbn [bg_pool writtenPages]. split; [|done].
  by apply cleaned_visited.
Qed.

(** Entries [i], ..., visited in turn. *)
Definition swept (i : nat) (p p' : pool) : Prop :=
  cache_ok p' /\ quiet_but X p' /\ same_pages p p' /\ p_table p' = p_table p /\
  forall j e, bPool (clock_of p) !! j = Some e -> exists e', bPool (clock_of p') !! j = Some e' /\ acc e' = acc e /\ segtype e' = segtype e /\
    f_key (entry e') = f_key (entry e) /\ (f_dirty (entry e) = false -> f_dirty (entry e') = false) /\
    ((i <= j)%nat -> acc e = false -> segtype e <> unassigned -> ~ X j -> f_dirty (entry e') = false).

Lemma swept_cons i p p1 p2 : visited i p p1 -> swept (S i) p1 p2 -> swept i p p2.
Proof.
  intros (_ & _ & Hsp & Htb & _ & Hent) (Hok & Hq & Hsp' & Htb' & Hent'). split; [done|]. split; [done|].
  split; [by eapply page_views_trans|]. split; [congruence|]. intros j e He.
  destruct (Hent j e He) as (e1 & He1 & A1 & A2 & A3 & A4 & A5). destruct (Hent' j e1 He1) as (e2 & He2 & B1 & B2 & B3 & B4 & B5).
  exists e2. split; [done|]. split; [congruence|]. split; [congruence|]. split; [congruence|]. split; [auto|]. intros Hj Ha Hs Hnx.
  destruct (decide (j = i)) as [->|Hne]; [auto|]. apply B5; [lia|congruence|congruence|done].
Qed.

Lemma bg_pass_settles m : forall i p n, cache_ok p -> quiet_but X p -> (i + m)%nat = length (bPool (clock_of p)) ->
  0 <= n -> n + Z.of_nat m < MAX_PAGES ->
  settles (bg_pass m i) (mkBg p n) (fun _ b => swept i p (bg_pool b)) (fun _ => False).
Proof.
  induction m as [|m IH]; intros i p n Hok Hq Hlen Hn Hmax; cbn [bg_pass].
  - apply settles_returns, returns_ret. split_and!; try done. intros j e He. exists e. split_and!; try done.
    intros Hj. apply lookup_lt_Some in He. lia.
  - destruct (lookup_lt_is_Some_2 (bPool (clock_of p)) i) as [e He]; [lia|]. apply settles_bind.
    eapply settles_mono; [| |eapply (bg_visit_settles p n i e Hok Hq He)]; [|done].
    intros fin [p1 n1] [Hv Hn1]. cbn [bg_pool writtenPages] in *. pose proof Hv as (Hok1 & Hq1 & _ & _ & Hlen1 & _).
    assert (forall n', 0 <= n' -> n' + Z.of_nat m < MAX_PAGES -> settles (bg_pass m (S i)) (mkBg p1 n') (fun _ b => swept i p (bg_pool b)) (fun _ => False)) as Hrest.
    { intros n' H1 H2. eapply settles_mono; [| |eapply (IH (S i) p1 n' Hok1 Hq1)]; [|done|lia..]. intros ? b Hb. by eapply swept_cons. }
    unfold MAX_PAGES in *. destruct fin; [|apply Hrest; lia]. apply settles_bind, settles_returns, returns_gets. cbn [writtenPages].
    subst n1. rewrite u32_small by lia. rewrite Z.geb_leb, (proj2 (Z.leb_gt _ _)) by lia. apply Hrest; lia.
Qed.

End Quiet.
#[global] Arguments made_page _ _ _ _ _ _ : clear implicits.
#[global] Arguments wrote _ _ _ _ _ : clear implicits.
#[global] Arguments visited _ _ _ _ : clear implicits.
#[global] Arguments swept _ _ _ _ : clear implicits.


(** ** Runs of a shard *)

(** What users and the background writer do with a shard.  [EvGet k b]: a lookup of
    page [k] gave a frame with content [b]. *)
Inductive event := EvGet (k : Z) (b : bytes) | EvNew (k : Z) (internal : bool) | EvWrite (k : Z) (b : bytes) | EvOther.

Inductive shard_step : pool -> event -> pool -> Prop :=
| ss_get p k en hit e p' : 0 < k -> addressable k -> available p k -> ~ stranded p k -> get Sum64 k p = (Val (Some en, hit), p') ->
    bPool (clock_of p') !! en = Some e -> shard_step p (EvGet k (undirty (fdata (entry e)))) p'
| ss_new p k internal root en p' : 0 < k -> addressable k -> p_table p !! k = None ->
    newFrame Sum64 internal root k p = (Val (Some en), p') -> shard_step p (EvNew k internal) p'
| ss_refused_get p k err p' : 0 < k -> addressable k -> available p k -> ~ stranded p k -> get Sum64 k p = (Err err, p') -> shard_step p EvOther p'
| ss_refused_new p k internal root err p' : 0 < k -> addressable k -> p_table p !! k = None ->
    newFrame Sum64 internal root k p = (Err err, p') -> shard_step p EvOther p'
| ss_write p k en b p' : p_table p !! k = Some en -> page_bytes k b -> write_frame en b p = (Val tt, p') ->
    shard_step p (EvWrite k (undirty b)) p'
| ss_unpin p i e p' : bPool (clock_of p) !! i = Some e -> (0 < outstanding e)%nat -> on_en i unref p = (Val tt, p') -> shard_step p EvOther p'
| ss_bgwriter p i n fin b : bg_visit i (mkBg p n) = (Val fin, b) -> shard_step p EvOther (bg_pool b).

Inductive shard_run : pool -> list event -> pool -> Prop :=
| sr_nil p : shard_run p [] p
| sr_cons p ev p1 evs p2 : shard_step p ev p1 -> shard_run p1 evs p2 -> shard_run p (ev :: evs) p2.

(** The events agree with a plain map of pages: a lookup gives what was last
    written, created or looked up under the id. *)
Fixpoint consistent (m : gmap Z bytes) (evs : list event) : Prop :=
  match evs with
  | [] => True
  | EvGet k b :: evs => (forall b', m !! k = Some b' -> b = b') /\ consistent (<[k := b]> m) evs
  | EvNew k internal :: evs => consistent (<[k := new_page internal k]> m) evs
  | EvWrite k b :: evs => consistent (<[k := b]> m) evs
  | EvOther :: evs => consistent m evs
  end.

(** The pages of [m] are in the shard or in its file, with that content. *)
Definition holds (p : pool) (m : gmap Z bytes) : Prop := forall k b, m !! k = Some b -> addressable k /\ available p k /\ seen p k = b.

Lemma holds_same p p' m : same_pages p p' -> holds p m -> holds p' m.
Proof. intros Hs Hm k b Hk. destruct (Hm k b Hk) as (H1 & H2 & <-). split; [done|]. by apply Hs. Qed.

Lemma holds_insert p p' m k b : addressable k -> available p' k -> seen p' k = b ->
  (forall k', addressable k' -> k' <> k -> available p k' -> available p' k' /\ seen p' k' = seen p k') -> holds p m -> holds p' (<[k := b]> m).
Proof.
  intros Hk Ha Hs Hoth Hm k' b' Hk'. apply lookup_insert_Some in Hk' as [[<- <-]|[Hne Hk']]; [done|].
  destruct (Hm k' b' Hk') as (H1 & H2 & <-). split; [done|]. by apply Hoth.
Qed.

(** Exactly the frames of the segments are occupied. *)
Definition resting_pool (p : pool) : Prop := quiet_but (marked p) p.

Lemma quiet_resting X p : quiet_but X p -> resting_pool p.
Proof. apply quiet_but_marked. Qed.

(** Without marks nothing is stranded. *)
Definition no_marks (p : pool) : bool := forallb (fun e => negb (markedForEviction e)) (bPool (clock_of p)).

Lemma no_marks_spec p i : no_marks p = true -> ~ marked p i.
Proof.
  intros Hn (e & He & Hm). unfold no_marks in Hn. rewrite forallb_forall in Hn.
  specialize (Hn e). rewrite Hm in Hn. discriminate Hn. apply list_elem_of_In. by eapply list_elem_of_lookup_2.
Qed.

Lemma no_marks_quiet p : resting_pool p -> no_marks p = true -> quiet p.
Proof. intros Hr Hn. eapply quiet_but_mono; [exact Hr|]. intros i. by apply no_marks_spec. Qed.

Lemma no_marks_stranded p k : no_marks p = true -> ~ stranded p k.
Proof. intros Hn (i & _ & Hm). by eapply no_marks_spec. Qed.

Lemma settles_Err {S A} (m : M S A) s e s' Q E : settles m s Q E -> m s = (Err e, s') -> E s'.
Proof. unfold settles. intros H Hm. by rewrite Hm in H. Qed.

Lemma settles_Val {S A} (m : M S A) s a s' Q E : settles m s Q E -> m s = (Val a, s') -> Q a s'.
Proof. unfold settles. intros H Hm. by rewrite Hm in H. Qed.

Lemma not_stranded p k : ~ stranded p k -> forall v, p_table p !! k = Some v -> ~ marked p v.
Proof. intros Hns v Hv Hm. apply Hns. by exists v. Qed.

Definition next_map (m : gmap Z bytes) (ev : event) : gmap Z bytes :=
  match ev with
  | EvGet k b | EvWrite k b => <[k := b]> m
  | EvNew k internal => <[k := new_page internal k]> m
  | EvOther => m
  end.

Lemma step_holds p ev p' m : cache_ok p -> resting_pool p -> shard_step p ev p' -> holds p m ->
  cache_ok p' /\ resting_pool p' /\ holds p' (next_map m ev) /\ match ev with EvGet k b => forall b', m !! k = Some b' -> b = b' | _ => True end.
Proof.
  intros Hok Hq Hstep Hm. destruct Hstep as [p k en hit e p' H0 Hk Ha Hns Hg He|p k internal root en p' H0 Hk Ht Hn
    |p k err p' H0 Hk Ha Hns Hg|p k internal root err p' H0 Hk Ht Hn|p k en b p' Ht Hb Hw|p i e p' He Ho Hu|p i n fin b Hb].
  - destruct (settles_Val _ _ _ _ _ _ (get_transparent p k Hok Hq H0 Hk Ha (not_stranded p k Hns)) Hg) as (en' & [= <- _] & Hok' & Hq' & Hsp & _ & x & Hx & _ & _ & Hs & _).
    rewrite He in Hx. injection Hx as <-. rewrite Hs. split_and!; try done; [by eapply quiet_resting| |].
    + destruct (Hsp k Hk Ha) as [Ha' Hs']. apply (holds_insert p); try done. intros k' Hk' _ Hav. by apply Hsp.
    + intros b' Hb'. by destruct (Hm k b' Hb') as (_ & _ & ->).
  - destruct (settles_Val _ _ _ _ _ _ (newFrame_settles p internal root k Hok Hq H0 Hk Ht) Hn) as (en' & _ & Hok' & Hq' & Hoth & Ha & Hs & _).
    split_and!; try done; [by eapply quiet_resting|]. by apply (holds_insert p).
  - destruct (settles_Err _ _ _ _ _ _ (get_transparent p k Hok Hq H0 Hk Ha (not_stranded p k Hns)) Hg) as (Hok' & (v & Hq') & Hsp & _).
    split_and!; try done; [by eapply quiet_resting|]. by eapply holds_same.
  - destruct (settles_Err _ _ _ _ _ _ (newFrame_settles p internal root k Hok Hq H0 Hk Ht) Hn) as (Hok' & (v & Hq') & Hsp & _).
    split_and!; try done; [by eapply quiet_resting|]. by eapply holds_same.
  - destruct (settles_Val _ _ _ _ _ _ (write_settles p k en b Hok Hq Ht Hb) Hw) as (Hok' & Hq' & Ha & Hs & Hoth). split_and!; try done; [by eapply quiet_resting|].
    apply (holds_insert p); try done. destruct (table_entry p k en Hok Hq Ht) as (e & He & _ & <- & _).
    exact (proj2 (frame_ok_at _ _ _ _ _ Hok (fsc_lookup _ _ _ He))).
  - pose proof (pool_ok_pins _ _ _ (wo_pool _ _ (ck_wt _ _ Hok)) He) as Hp. destruct (unref_repinned e Hp Ho) as (e' & Hun & Hr).
    unfold on_en, on_clock, zoom, on_entry in Hu. rewrite He, Hun in Hu. injection Hu as <-.
    destruct (repin_kept Sum64 p i e e' Hok He Hr) as (Hk & Hw & Hfi). destruct (kept_ok Sum64 _ _ Hok Hk Hw Hfi) as (H1 & H2 & H3).
    split_and!; try done; [by eapply quiet_resting, H3|]. by eapply holds_same.
  - destruct (bPool (clock_of p) !! i) as [e|] eqn:He.
    2:{ unfold bg_visit, mbind, M_bind, on_bg, zoom, on_en, on_clock, zoom, on_entry in Hb. cbn in Hb. by rewrite He in Hb. }
    destruct (settles_Val _ _ _ _ _ _ (bg_visit_settles p n i e Hok Hq He) Hb) as [(Hok' & Hq' & Hsp & _) _].
    split_and!; try done; [by eapply quiet_resting|]. by eapply holds_same.
Qed.

Lemma run_holds p evs p' : shard_run p evs p' -> forall m, cache_ok p -> resting_pool p -> holds p m ->
  consistent m evs /\ cache_ok p' /\ resting_pool p'.
Proof.
  induction 1 as [|p ev p1 evs p2 Hstep Hrun IH]; intros m Hok Hq Hm; [done|].
  destruct (step_holds p ev p1 m Hok Hq Hstep Hm) as (Hok1 & Hq1 & Hm1 & Hev).
  destruct (IH _ Hok1 Hq1 Hm1) as (Hc & H1 & H2). split; [|done]. by destruct ev.
Qed.

(** ** New shards *)

Lemma NewClock_vacant n reserve c i e : NewClock n reserve = Val c -> bPool c !! i = Some e -> isOccupied e = false.
Proof.
  unfold NewClock. destruct (n <? 3)%nat eqn:Hn; [done|]. apply Nat.ltb_ge in Hn. set (c0 := mkClock 0 None n (replicate n new_entry)).
  assert (forall j x, bPool c0 !! j = Some x -> isOccupied x = false) as H0 by (intros j x Hx; by apply lookup_replicate in Hx as [-> _]).
  destruct reserve; [|intros [= <-]; apply H0].
  assert (clock_ok c0) as Hc0 by (split; cbn; [apply length_replicate|lia]).
  destruct (evict_spec unassigned c0 Hc0) as ([v|] & c1 & He & Hr); rewrite He; [|done]. intros [= <-].
  destruct Hr as ((_ & x & Hv & _ & Hv' & Ho) & _). cbn [bPool set_Reserved set_bPool]. rewrite list_lookup_alter.
  destruct (decide (v = i)) as [<-|Hne].
  - rewrite Hv'. cbn. intros [= <-]. exact (H0 v x Hv).
  - destruct (Ho i ltac:(done)) as [-> | ->]; [apply H0|]. destruct (bPool c0 !! i) as [y|] eqn:Hy; [|done]. cbn. intros [= <-].
    destruct (tick_marks unassigned y) as (_ & -> & _). exact (H0 i y Hy).
Qed.

Lemma newShard_ok t pgr ws ms reserve s : newShard t pgr ws ms reserve = Val s -> ws + ms < 2 ^ 63 -> filter_ok t -> idle (dManager pgr) ->
  cache_ok (sh_pool s) /\ quiet (sh_pool s) /\ p_pager (sh_pool s) = pgr /\ p_table (sh_pool s) = ∅.
Proof.
  intros Hs Hb Hf Hi. assert (exists w, NewWTinylfu t ws ms reserve = Val w /\ sh_pool s = mkPool w pgr ∅ ) as (w & Hw & ->).
  { unfold newShard in Hs. destruct (NewWTinylfu t ws ms reserve) as [w| | | |]; try done. exists w. split; [done|].
    destruct reserve; [destruct (Reserved (cBuffer w)); [|done]|]; by injection Hs as <-. }
  destruct (new_pool Sum64 t ws ms reserve w pgr ∅ Hw Hb (readable_filter Sum64 t Hf) Hi) as (Hok & Hfs & _).
  set (p := mkPool w pgr ∅) in *.
  assert (forall i f s0, fs p !! i = Some (f, s0) -> f = new_frame /\ s0 = unassigned) as Hall.
  { intros i f s0 H. rewrite Hfs in H. by apply lookup_replicate in H as [[= -> ->] _]. }
  assert (tinyFilter w = t /\ exists n, NewClock n reserve = Val (cBuffer w)) as [Ht (n & Hn)].
  { unfold NewWTinylfu in Hw. destruct (ws <=? 0); [done|]. destruct (ms <=? 0); [done|]. destruct (ws >=? ms); [done|].
    destruct (NewClock _ reserve) as [c| | | |] eqn:Hc; try done. injection Hw as <-. split; [done|]. by eexists. }
  split_and!; try done; [split|].
  - done.
  - change (filter_ok (tinyFilter w)). by rewrite Ht.
  - intros i f s0 H Hs0. by destruct (Hall i f s0 H).
  - intros k i H. change ((∅ : gmap Z nat) !! k = Some i) in H. by rewrite lookup_empty in H.
  - intros i e He _ _. by destruct (Hall i _ _ (fsc_lookup _ _ _ He)) as [-> _].
  - intros i e He. destruct (Hall i _ _ (fsc_lookup _ _ _ He)) as [_ Hseg]. rewrite decide_True by done. by eapply NewClock_vacant.
Qed.

(** The pager a shard is made with is the one it is lent. *)
Lemma newShard_lend t pgr pgr' ws ms reserve s : newShard t pgr ws ms reserve = Val s -> newShard t pgr' ws ms reserve = Val (lend pgr' s).
Proof.
  unfold newShard. destruct (NewWTinylfu t ws ms reserve) as [w| | | |]; try done.
  destruct reserve; [destruct (Reserved (cBuffer w)); [|done]|]; by intros [= <-].
Qed.

(** A new shard has a frame for a first page. *)
Lemma newShard_newFrame t pgr ws ms reserve s internal root k : newShard t pgr ws ms reserve = Val s -> ws + ms < 2 ^ 63 -> filter_ok t -> idle (dManager pgr) ->
  0 < k -> addressable k ->
  returns (newFrame Sum64 internal root k) (sh_pool s) (fun r p' => exists en, r = Some en /\ made_page (fun _ => False) k internal (sh_pool s) en p').
Proof.
  intros Hs Hb Hf Hi H0 Hk. destruct (newShard_ok t pgr ws ms reserve s Hs Hb Hf Hi) as (Hok & Hq & _ & Ht).
  pose proof (newFrame_settles (sh_pool s) internal root k Hok Hq H0 Hk) as Hn. rewrite Ht, lookup_empty in Hn. specialize (Hn eq_refl).
  assert (windowCount (p_w (sh_pool s)) <> windowCapacity (p_w (sh_pool s)) /\ ~ none_eligible unassigned (sh_pool s)) as [Hw Hel].
  { unfold newShard in Hs. destruct (NewWTinylfu t ws ms reserve) as [w| | | |] eqn:Hnew; try done.
    assert (sh_pool s = mkPool w pgr ∅) as -> by (destruct reserve; [destruct (Reserved (cBuffer w)); [|done]|]; by injection Hs as <-).
    destruct (new_pool Sum64 t ws ms reserve w pgr ∅ Hnew Hb (readable_filter _ _ Hf) Hi) as (_ & _ & Hcap & Hpos & Hwc & _).
    cbn. split; [lia|]. unfold NewWTinylfu in Hnew. destruct (ws <=? 0); [done|]. destruct (ms <=? 0); [done|]. destruct (ws >=? ms); [done|].
    destruct (NewClock _ reserve) as [c| | | |] eqn:Hc; try done. injection Hnew as <-.
    destruct (NewClock_eligible _ _ _ Hc) as (i & e & He & Hee). intros Hnone. unfold none_eligible in Hnone. cbn in Hnone.
    rewrite (Hnone i e He) in Hee. discriminate Hee. }
  unfold settles in Hn. destruct (newFrame Sum64 internal root k (sh_pool s)) as [[r|err| | |] p'] eqn:E; try done.
  - by exists r, p'.
  - destruct Hn as (_ & _ & _ & _ & [[Hst _]|[Hnone [->|Hst]]]); done.
Qed.


(** ** A page id that is used again *)

(** A request for a frame drops a frame of the same page id at most once, and then the
    page leaves the hash table. *)
Lemma dropped_stale p p1 v f s j g t k : fs p !! v = Some (f, s) -> fs p !! j = Some (g, t) -> j <> v -> f_key f = k ->
  frames_kept p p1 \/ frame_dropped p p1 -> (fs p1).*1 !! v <> Some f -> p_table p1 = delete k (p_table p) /\ (fs p1).*1 !! j = Some g.
Proof.
  intros Hv Hj Hne Hk [(Hf & _)|(x & fx & sx & Hx & _ & Hf & Ht & _)] Hgone.
  - exfalso. apply Hgone. rewrite Hf. by eapply fs_frame.
  - destruct (decide (x = v)) as [->|Hxv].
    + rewrite Hv in Hx. injection Hx as <- <-. rewrite Ht, Hk. split; [done|].
      rewrite Hf, list_lookup_insert_ne by done. by eapply fs_frame.
    + exfalso. apply Hgone. rewrite Hf, list_lookup_insert_ne by done. by eapply fs_frame.
Qed.

(** C39: a page id that is used again can lose its page.  The frame of a deleted page
    stays in its segment under its id, also after the id went to the free list and was
    given to a new page.  In any pool with such a stale frame [v] beside the frame [j]
    that the hash table has for page [k]: when a request for a frame reuses [v], the
    entry of page [k] leaves the hash table, although frame [j] still holds the page
    (pinned or not, dirty or not).  The next lookup of [k] does not find frame [j]; it
    asks for another frame and reads the page from the file. *)
Theorem reused_id_loses_page p v f s j g t k r p1 :
  wt_ok Sum64 p -> fs p !! v = Some (f, s) -> f_key f = k -> fs p !! j = Some (g, t) -> j <> v -> k <> 0 ->
  p_table p !! k = Some j -> getFreeFrame Sum64 p = (r, p1) -> (fs p1).*1 !! v <> Some f ->
  (fs p1).*1 !! j = Some g /\ p_table p1 !! k = None /\
  runJob Sum64 (mkBmJob 128 k) (mkRunning p1 []) = runMiss Sum64 k (mkRunning p1 []).
Proof.
  intros Hok Hv Hk Hj Hne H0 Ht Hget Hgone.
  assert (frames_kept p p1 \/ frame_dropped p p1) as Hc.
  { pose proof (getFreeFrame_settles Sum64 p Hok) as Hs. unfold settles in Hs. rewrite Hget in Hs.
    destruct r; try done; destruct Hs as (_ & Hs & _); done. }
  destruct (dropped_stale _ _ _ _ _ _ _ _ _ Hv Hj Hne Hk Hc Hgone) as [Htb Hfj].
  assert (p_table p1 !! k = None) as Hn by (rewrite Htb; apply lookup_delete_eq). split; [done|]. split; [done|].
  change (runGet Sum64 k (mkRunning p1 []) = runMiss Sum64 k (mkRunning p1 [])). unfold runGet.
  rewrite (proj2 (Z.eqb_neq _ _) H0). unfold mbind, M_bind, on_pool, zoom, gets. cbn [r_pool]. unfold table_of. by rewrite Hn.
Qed.

End Shard.

(** ** Examples *)

Module ShardSample.
Import PoolSample.

(** A shard of two window frames and three others, over an empty data file. *)
Definition shard0 : outcome shard := newShard filter0 pager0 2 3 false.
Definition sh0 : shard := match shard0 with Val s => s | _ => mkShard pool0 NewDirtyPageList end.

Lemma filter0_ok : filter_ok filter0.
Proof.
  split; cbn; try done; try lia; [split; cbn; try done; try lia; by repeat constructor|by repeat constructor].
Qed.

Lemma pair_val {A B} (x : A * B) a : x.1 = a -> x = (a, x.2).
Proof. destruct x. by intros <-. Qed.

(** Page 1 is created, written, unpinned and looked up. *)
Definition page1 : bytes := undirty (WriteAt (new_page false 1) [7] 100).
Definition p1 : pool := (newFrame hash0 false false 1 (sh_pool sh0)).2.
Definition p2 : pool := (write_frame 0 page1 p1).2.
Definition p3 : pool := (on_en 0 unref p2).2.
Definition p4 : pool := (get hash0 1 p3).2.

Lemma new1 : newFrame hash0 false false 1 (sh_pool sh0) = (Val (Some 0%nat), p1).
Proof. unfold p1. apply (pair_val (newFrame hash0 false false 1 (sh_pool sh0))). vm_compute. reflexivity. Qed.
Lemma write1 : write_frame 0 page1 p1 = (Val tt, p2).
Proof. unfold p2. apply (pair_val (write_frame 0 page1 p1)). vm_compute. reflexivity. Qed.
Lemma unpin1 : on_en 0 unref p2 = (Val tt, p3).
Proof. unfold p3. apply (pair_val (on_en 0 unref p2)). vm_compute. reflexivity. Qed.
Lemma get1 : get hash0 1 p3 = (Val (Some 0%nat, true), p4).
Proof. unfold p4. apply (pair_val (get hash0 1 p3)). vm_compute. reflexivity. Qed.

Definition entry_at (p : pool) (i : nat) : clockentry := default new_entry (bPool (clock_of p) !! i).

(** A fact about the entry of a concrete pool. *)
Lemma entry_at_lookup p i : is_Some (bPool (clock_of p) !! i) -> bPool (clock_of p) !! i = Some (entry_at p i).
Proof. intros [e He]. unfold entry_at. by rewrite He. Qed.

Lemma page1_id : addressable 1.
Proof. unfold addressable, MAX_PAGE. lia. Qed.

Lemma run_from_p3 evs p : shard_run hash0 p3 evs p -> shard_run hash0 (sh_pool sh0) (EvNew 1 false :: EvWrite 1 (undirty page1) :: EvOther :: evs) p.
Proof.
  intros Hrun.
  eapply sr_cons; [apply (ss_new hash0 _ 1 false false 0 p1); [lia|exact page1_id|vm_compute; reflexivity|exact new1]|].
  eapply sr_cons; [apply (ss_write hash0 p1 1 0 page1 p2); [vm_compute; reflexivity|split_and!; vm_compute; reflexivity|exact write1]|].
  eapply sr_cons; [apply (ss_unpin hash0 p2 0 (entry_at p2 0) p3); [apply entry_at_lookup; vm_compute; eauto|vm_compute; lia|exact unpin1]|exact Hrun].
Qed.

Lemma sample_run : shard_run hash0 (sh_pool sh0) [EvNew 1 false; EvWrite 1 (undirty page1); EvOther; EvGet 1 (undirty (fdata (entry (entry_at p4 0))))] p4.
Proof.
  apply run_from_p3. eapply sr_cons; [|apply sr_nil].
  apply (ss_get hash0 p3 1 0 true (entry_at p4 0) p4); [lia|exact page1_id|left; vm_compute; eauto|apply no_marks_stranded; vm_compute; reflexivity|exact get1|apply entry_at_lookup; vm_compute; eauto].
Qed.

Lemma sh0_new : newShard filter0 pager0 2 3 false = Val sh0.
Proof. vm_compute. reflexivity. Qed.

Lemma p3_ok : cache_ok hash0 p3 /\ quiet p3.
Proof.
  destruct (newShard_ok hash0 filter0 pager0 2 3 false sh0 sh0_new ltac:(lia) filter0_ok pager0_idle) as (Hok & Hq & _).
  destruct (run_holds hash0 _ _ _ (run_from_p3 [] p3 (sr_nil hash0 p3)) ∅ Hok (quiet_resting _ _ Hq) ltac:(intros k b Hk; by rewrite lookup_empty in Hk)) as (_ & H1 & H2).
  split; [done|]. apply no_marks_quiet; [done|vm_compute; reflexivity].
Qed.



(** A page made under the next id, with a pin. *)
Definition create : M pool (Z * nat) :=
  k ← on_pager NewPageId;
  r ← newFrame hash0 false false k;
  match r with Some en => mret (k, en) | None => panic "nil frame" end.

(** Page 1 is made and deleted, and the background writer gives its id back; page 1
    is made again and its user stores 7 in it and keeps the frame; one more page is
    made. *)
Definition reuse : M pool (Z * nat) :=
  a ← create; on_en a.2 unref;; shard_delete hash0 a.1;;
  zoom (fun p => mkBg p 0) (fun b _ => bg_pool b) (bg_visit a.2);;
  b ← create; on_en b.2 (on_fpage (modify (PutUint32 100 7)));; mark_dirty b.2;;
  c ← create; on_en c.2 unref;;
  mret b.
Definition p_reuse : pool := (reuse (sh_pool sh0)).2.

Lemma reuse_runs : reuse (sh_pool sh0) = (Val (1, 1%nat), p_reuse).
Proof. unfold p_reuse. apply (pair_val (reuse (sh_pool sh0))). vm_compute. reflexivity. Qed.
#[local] Opaque p_reuse.

(** The invariant of a concrete pool, by computation. *)
Definition entry_check (e : clockentry) : bool :=
  (unpinCount e <=? pinCount e)%nat && eqb (acc e) (0 <? outstanding e)%nat && (length (fdata (entry e)) =? DM_PAGE)%nat &&
  (0 <=? f_key (entry e)) && (f_key (entry e) <? MAX_PAGE).
Definition queue_check (q : JobQueue) : bool :=
  match jq_jobs q, jq_running q, jq_go q with [], false, [] => true | _, _, _ => false end.
Definition pool_check (p : pool) : bool :=
  let w := p_w p in
  (length (bPool (clock_of p)) =? capacity (clock_of p))%nat && (Head (clock_of p) <? capacity (clock_of p))%nat && (0 <? capacity (clock_of p))%nat &&
  forallb entry_check (bPool (clock_of p)) && forallb (fun x => queue_check x.2) (map_to_list (d_Queues (dManager (p_pager p)))) &&
  (windowCount w =? scnt windowSegment (fs p)) && (probationCount w =? scnt probationSegment (fs p)) && (protectedCount w =? scnt protectedSegment (fs p)) &&
  (windowCount w <=? windowCapacity w) && (probationCount w <=? probationCapacity w) && (protectedCount w <=? protectedCapacity w) &&
  (windowCapacity w <? 2 ^ 63) && (probationCapacity w <? 2 ^ 63) && (protectedCapacity w <? 2 ^ 63).

Lemma pool_check_ok p : pool_check p = true -> readable hash0 (tinyFilter (p_w p)) -> wt_ok hash0 p.
Proof.
  unfold pool_check. cbv zeta. rewrite !andb_true_iff, !forallb_forall, !Z.eqb_eq, !Z.leb_le, !Z.ltb_lt, Nat.eqb_eq, !Nat.ltb_lt.
  intros (((((((((((((Hlen & Hhd) & Hcap) & Hent) & Hq) & H1) & H2) & H3) & H4) & H5) & H6) & H7) & H8) & H9) Hread.
  assert (forall e, e ∈ bPool (clock_of p) -> pins_ok e /\ frame_ok (entry e, segtype e)) as He.
  { intros e He%list_elem_of_In%Hent. unfold entry_check in He. rewrite !andb_true_iff, eqb_true_iff, Nat.leb_le, Nat.eqb_eq, Z.leb_le, Z.ltb_lt in He.
    destruct He as ((((Ha & Hb) & Hc) & Hd) & Hf). split; [split; [done|]; by rewrite Hb, Nat.ltb_lt|]. split; [exact Hc|]. split; [exact Hd|exact Hf]. }
  split; [split| | | |done].
  - by split.
  - apply Forall_forall. intros e Hin. by apply He.
  - split_and!; done.
  - apply Forall_forall. intros x Hx. unfold fs, fsc in Hx. apply list_elem_of_fmap in Hx as (e & -> & Hin). by apply He.
  - intros off. unfold queue_of. destruct (d_Queues (dManager (p_pager p)) !! off) as [q|] eqn:E; [|done]. cbn.
    specialize (Hq (off, q)). rewrite <- list_elem_of_In, elem_of_map_to_list in Hq. specialize (Hq E). unfold queue_check in Hq. cbn in Hq.
    by destruct (jq_jobs q), (jq_running q), (jq_go q).
Qed.

Lemma p_reuse_ok : wt_ok hash0 p_reuse.
Proof.
  apply pool_check_ok; [vm_compute; reflexivity|].
  assert (tinyFilter (p_w p_reuse) = mkTinyLFU (Doorkeeper (tinyFilter (p_w p_reuse))) (NewCMS 4 1)) as -> by (vm_compute; reflexivity).
  apply sketch0_readable.
Qed.

(** Frame 0 is the deleted page's, frame 1 the new one's, with its pin; the request for
    the next new page takes frame 0. *)
Lemma reused_id_loses_page_witness :
  f_isDeleted (entry (entry_at p_reuse 1)) = false /\ f_dirty (entry (entry_at p_reuse 1)) = true /\ outstanding (entry_at p_reuse 1) = 1%nat /\
  let p1 := (getFreeFrame hash0 p_reuse).2 in
  (fs p1).*1 !! 1%nat = Some (entry (entry_at p_reuse 1)) /\ p_table p1 !! 1 = None /\
  runJob hash0 (mkBmJob 128 1) (mkRunning p1 []) = runMiss hash0 1 (mkRunning p1 []).
Proof.
  split; [vm_compute; reflexivity|]. split; [vm_compute; reflexivity|]. split; [vm_compute; reflexivity|]. intros p1.
  apply (reused_id_loses_page hash0 p_reuse 0 (entry (entry_at p_reuse 0)) (segtype (entry_at p_reuse 0)) 1
    (entry (entry_at p_reuse 1)) (segtype (entry_at p_reuse 1)) 1 (getFreeFrame hash0 p_reuse).1 p1);
    [exact p_reuse_ok|apply fsc_lookup, entry_at_lookup; vm_compute; eauto|vm_compute; reflexivity
    |apply fsc_lookup, entry_at_lookup; vm_compute; eauto|done|done|vm_compute; reflexivity|apply surjective_pairing|].
  intros E. apply (f_equal (fmap f_key)) in E. vm_compute in E. discriminate E.
Defined.

(** When the frame is used for the next new page, the lookup fails: the new page 1 was
    never written. *)
Example reused_id_not_found : ((d ← create; on_en d.2 unref;; get hash0 1) p_reuse).1 =
  Err (mkError BufferManagerError "Invalid pageId provided").
Proof. vm_compute. reflexivity. Qed.

End ShardSample.
