(* ===== verification/FailedReads.v ===== *)
(** * Lookups of pages that do not exist

    A shard that is asked for a page which is in neither the cache nor the data file
    takes a frame, reads nothing into it, and gives it back.  The window's counter keeps
    counting the frame, so after as many such lookups as the window has frames no page
    can be looked up or created any more. *)

From S2P Require Import Prelude Keys Files Helpers Disk FreeList Page Pager TinyLFU Clock ClockTheorems WTinyLFU WTinyLFUTheorems DirtyList Shard ShardInv ShardTheorems.
Local Open Scope Z_scope.

(** The page lies behind the end of the data file. *)
Definition behind_file (pgr : Pager) (k : Z) : Prop := Z.of_nat (length (d_fd (dManager pgr))) <= k * 8192.

(** The buffer comes back as it was. *)
Lemma read_behind k buff pgr : addressable k -> length buff = DM_PAGE -> idle (dManager pgr) -> behind_file pgr k ->
  exists pgr', ReadPage k buff pgr = (Val buff, pgr') /\ file_is (d_fd (dManager pgr)) pgr pgr'.
Proof.
  intros Hk Hl Hi Hb. destruct (page_offset_aligned k Hk) as [Hoff [Hr _]].
  unfold ReadPage. rewrite Hl. change (Z.of_nat DM_PAGE =? PAGE_SIZE_BYTES) with true. cbn [negb].
  unfold executeJob. cbn [j_flag j_pageId j_buff]. change (BitIsSet 0 7) with false. cbv iota. rewrite Hoff.
  unfold ReadReq, read_ioReq. rewrite (u64_small (k * 8192)) by lia.
  apply job_runs; [done|]. intros d Hd. unfold execute. cbn [q_flag q_off q_buff]. change (BitIsSet 128 7) with true. cbv iota.
  rewrite u32_small by lia. unfold loadPage, mbind, M_bind, get_state. rewrite ReadAt_region. unfold behind_file in Hb. rewrite <- Hd in Hb |- *.
  unfold region. rewrite drop_ge, take_nil by lia. by destruct d.
Qed.

(** A shard's pool with nothing in it, whose window's counter is [n]. *)
Record barren (fd : bytes) (n : Z) (p : pool) : Prop := {
  ba_drained : drained n p;
  ba_table : p_table p = ∅;
  ba_idle : idle (dManager (p_pager p));
  ba_file : d_fd (dManager (p_pager p)) = fd;
  ba_zero : forall i e, bPool (clock_of p) !! i = Some e -> fdata (entry e) = replicate DM_PAGE 0 }.

Section FailedReads.
Context (Sum64 : bytes -> Z).

(** A lookup of a page that is not there, one step of the way. *)
Lemma absent_get fd n p k : barren fd n p -> 0 <= n < windowCapacity (p_w p) -> windowCapacity (p_w p) < 2 ^ 63 ->
  0 < k -> addressable k -> Z.of_nat (length fd) <= k * 8192 ->
  exists err p', get Sum64 k p = (Err err, p') /\ barren fd (n + 1) p' /\ same_caps p p'.
Proof.
  intros [Hd Ht Hi Hf Hz] Hn Hcap H0 Hk Hb.
  enough (answers (runJob Sum64 (mkBmJob 128 k)) p (fun a p' => (exists e, a = RErr e) /\ barren fd (n + 1) p' /\ same_caps p p')) as H.
  { apply answers_submit in H as (a & p' & Hs & (e & ->) & Hba & Hc). eexists _, p'. split; [|done].
    unfold get, mbind, M_bind. by rewrite Hs. }
  change (runJob Sum64 (mkBmJob 128 k)) with (runGet Sum64 k). unfold answers, runGet. rewrite (proj2 (Z.eqb_neq _ _)) by lia.
  apply on_pool_step. unfold settles at 1. cbn [gets]. unfold table_of. rewrite Ht, lookup_empty. unfold runMiss.
  eapply or_send_step with (F := fun _ => False); [|by intros]. apply drained_frame with n; [done|done|done|]. intros v e c Hel Htk Hv.
  set (p1 := set_counts _ _ _ p). set (e1 := set_seg windowSegment (victim e)).
  eapply or_send_step with (F := fun p' => barren fd (n + 1) p' /\ same_caps p p'); [|by intros er p' HF; eexists; split; [done|]; split; [by eexists|]].
  assert (Hv1 : bPool (put_entry v e1 c) !! v = Some e1) by (by eapply put_entry_eq).
  assert (Hdata : fdata (entry e1) = replicate DM_PAGE 0) by (apply (Hz v e), Htk).
  unfold read_into. eapply en_again; [exact Hv|reflexivity|]. eapply en_get; [by eapply put_entry_eq|]. cbn [entry set_evict].
  change (pgeData (f_page (entry e1))) with (fdata (entry e1)). rewrite Hdata.
  destruct (read_behind k (replicate DM_PAGE 0) (p_pager p)) as (pgr' & Hrd & (_ & _ & _ & _ & Hi' & Hf')); [done|done|done|by unfold behind_file; rewrite Hf|].
  apply settles_bind. unfold settles at 1, catch, on_pager, zoom. cbn [p_pager set_clock p1 set_counts]. rewrite Hrd. cbn beta iota.
  change (set_pager pgr' (set_clock ?c p1)) with (set_clock c (set_pager pgr' p1)).
  assert (Hget : get32 (replicate DM_PAGE 0) 1 = Val 0) by (vm_compute; reflexivity).
  eapply en_again; [exact Hv|reflexivity|]. apply settles_bind, settles_returns. eapply returns_lift; [exact Hget|].
  rewrite (proj2 (Z.eqb_neq 0 k)) by lia. cbn [negb].
  eapply en_again; [exact Hv|reflexivity|]. unfold settles, fail.
  match goal with |- barren _ _ ?q /\ _ => set (p2 := q) end. split; [|done].
  assert (Hdr : drained (n + 1) p2) by (eapply (drained_cleared n p v e c); [done|done|done|reflexivity|done|cbn; rewrite (proj1 (dr_probation _ _ Hd)); done|done]).
  split; [exact Hdr|exact Ht|exact Hi'|exact (eq_trans Hf' Hf)|].
  intros i x Hx. destruct (decide (i = v)) as [->|Hne].
  - unfold p2 in Hx. cbn [clock_of p_w cBuffer set_clock] in Hx. erewrite put_entry_eq in Hx by exact Hv. by injection Hx as <-.
  - cbn in Hx. rewrite list_lookup_insert_ne in Hx by done. pose proof (fsc_lookup c i x Hx) as Fx. rewrite (tk_fs _ _ _ _ _ Htk) in Fx.
    apply fsc_entry in Fx as (y & Hy & <- & _). by apply (Hz i y).
Qed.

(** Lookups one after the other, all of which return an error. *)
Fixpoint all_fail (ks : list Z) (p p' : pool) : Prop :=
  match ks with
  | [] => p' = p
  | k :: ks' => exists err p1, get Sum64 k p = (Err err, p1) /\ all_fail ks' p1 p'
  end.

Lemma absent_gets fd ks : Forall (fun k => 0 < k /\ addressable k /\ Z.of_nat (length fd) <= k * 8192) ks -> forall n p,
  barren fd n p -> 0 <= n -> n + Z.of_nat (length ks) = windowCapacity (p_w p) -> windowCapacity (p_w p) < 2 ^ 63 ->
  exists p', all_fail ks p p' /\ barren fd (windowCapacity (p_w p')) p'.
Proof.
  induction 1 as [|k ks (H0 & Hk & Hb) _ IH]; intros n p Hba Hn Hlen Hcap; cbn [length all_fail] in *.
  - exists p. split; [done|]. by replace (windowCapacity (p_w p)) with n by lia.
  - destruct (absent_get fd n p k) as (err & p1 & Hg & Hb1 & Hc & _); [done|lia|done..|].
    destruct (IH (n + 1) p1) as (p' & Hall & Hp'); [done|lia|rewrite Hc; lia|by rewrite Hc|]. exists p'. split; [by exists err, p1|done].
Qed.

(** Without a free frame no lookup gets through, and no page is created. *)
Lemma stuck_get p k err : p_table p !! k = None -> k <> 0 -> getFreeFrame Sum64 p = (Err err, p) -> exists e, get Sum64 k p = (Err e, p).
Proof.
  intros Ht H0 Hf. assert (runJob Sum64 (mkBmJob 128 k) (mkRunning p []) = (Val tt, mkRunning p [RErr err])) as Hr.
  { change (runJob Sum64 (mkBmJob 128 k)) with (runGet Sum64 k). unfold runGet. rewrite (proj2 (Z.eqb_neq _ _)) by done.
    unfold mbind at 1, M_bind at 1, on_pool at 1, zoom at 1, gets at 1, table_of. cbn. rewrite Ht.
    unfold runMiss, or_send, catch, on_pool, zoom, mbind, M_bind. cbn. by rewrite Hf. }
  eexists. unfold get, submit, mbind, M_bind. by rewrite Hr.
Qed.

Lemma stuck_new p internal root k err : k <> 0 -> getFreeFrame Sum64 p = (Err err, p) -> exists e, newFrame Sum64 internal root k p = (Err e, p).
Proof.
  intros H0 Hf. unfold newFrame. set (f2 := if root then _ else _).
  assert (runJob Sum64 (mkBmJob f2 k) (mkRunning p []) = (Val tt, mkRunning p [RErr err])) as Hr.
  { replace (runJob Sum64 (mkBmJob f2 k)) with (runCreate Sum64 internal root k) by (unfold f2; by destruct internal, root).
    unfold runCreate. rewrite (proj2 (Z.eqb_neq _ _)) by done. unfold or_send, catch, on_pool, zoom, mbind, M_bind. cbn. by rewrite Hf. }
  eexists. unfold submit, mbind, M_bind. by rewrite Hr.
Qed.

(** C40: lookups of pages that do not exist use up the window.  On a new shard, of any
    size and over any data file, let as many lookups as the window has frames ask for
    pages behind the end of the file.  They fail, every frame is free afterwards, and
    yet from then on every lookup of any page, on disk or not, and every creation of a
    page fails and changes nothing: giving a frame back does not decrement the
    window's counter. *)
Theorem failed_reads_exhaust_window t ws ms reserve w pgr ks :
  NewWTinylfu t ws ms reserve = Val w -> ws < 2 ^ 63 -> idle (dManager pgr) -> Z.of_nat (length ks) = ws ->
  Forall (fun k => 0 < k /\ addressable k /\ behind_file pgr k) ks ->
  exists p, all_fail ks (mkPool w pgr ∅) p /\
    (forall i e, bPool (clock_of p) !! i = Some e -> segtype e = unassigned) /\
    forall k, k <> 0 -> (exists err, get Sum64 k p = (Err err, p)) /\
      forall internal root, exists err, newFrame Sum64 internal root k p = (Err err, p).
Proof.
  intros Hw Hb Hi Hlen Hks. destruct (NewWTinylfu_drained t ws ms reserve w pgr ∅ Hw) as (Hd & Hcap & Hpos & Hnew).
  assert (barren (d_fd (dManager pgr)) 0 (mkPool w pgr ∅)) as Hb0.
  { split; [done|done|done|done|]. intros i e He. unfold fdata. by rewrite (Hnew i e He). }
  destruct (absent_gets _ ks Hks 0 _ Hb0) as (p & Hall & Hp); [lia|cbn; lia|cbn; lia|].
  destruct (drained_stuck Sum64 _ _ (ba_drained _ _ _ Hp) eq_refl) as [err He].
  exists p. split; [done|]. split; [apply (ba_drained _ _ _ Hp)|]. intros k Hk. split.
  - eapply stuck_get; [|done|exact He]. by rewrite (ba_table _ _ _ Hp), lookup_empty.
  - intros. by eapply stuck_new.
Qed.

End FailedReads.

Module FailSample.
Import PoolSample.

(** A shard with a window of one frame: one lookup of a page that is not there. *)
Lemma failed_reads_exhaust_window_witness :
  exists p, all_fail hash0 [1] (mkPool w0 pager0 ∅) p /\
    (forall i e, bPool (clock_of p) !! i = Some e -> segtype e = unassigned) /\
    forall k, k <> 0 -> (exists err, get hash0 k p = (Err err, p)) /\
      forall internal root, exists err, newFrame hash0 internal root k p = (Err err, p).
Proof.
  apply (failed_reads_exhaust_window hash0 filter0 1 6 false w0 pager0 [1]); [reflexivity|lia|exact pager0_idle|reflexivity|].
  repeat constructor; vm_compute; intros [=].
Defined.

End FailSample.
