(* ===== verification/Sizing.v ===== *)
(** * Sizes computed in floating point

    The constructors that derive their sizes from [float64] numbers, with the
    arithmetic of [Float64]: [NewCMS] and [NewTinyLFU] ([internal/tinylfu]), the
    segments of [NewWTinylfu] and the frames of [newShard] ([pkg/buffermanager]).
    The other files take the sizes as integers; here they are computed and shown to
    be those integers. *)

From Stdlib Require Import SpecFloat.
From S2P Require Import Prelude Float64 TinyLFU Clock ClockTheorems WTinyLFU WTinyLFUTheorems DirtyList Pager Shard ShardTheorems.
Local Open Scope Z_scope.

(** ** The sketch *)

Definition BLOOM_BIT_ARR_SIZE : Z := 10000.
Definition HASH_FUNC_COUNT : Z := 20.
Definition CMS_ERROR_RATE : float64 := const 1 10.
Definition CMS_PROBABILITY : float64 := const 1 100.

(** [2/(errorRate/100)] and [ln(probability/100)/ln(1/2)], rounded up. *)
Definition cms_width (errorRate : float64) : option Z := to_uint64 (Ceil (of_int 2 / (errorRate / of_int 100))%f64).
Definition cms_depth (probability : float64) : option Z :=
  to_uint64 (Ceil (Log (probability / of_int 100) / Log (const 1 2))%f64).

(** A depth or width the language leaves open gives no result. *)
Definition NewCMS (errorRate probability : float64) (hasher : bool) : option (outcome CMS) :=
  if SFleb errorRate (of_int 0) then Some (Err (mkError CountMinSketchError "Error rate cannot be zero."))
  else if SFleb probability (of_int 0) then Some (Err (mkError CountMinSketchError "Error rate cannot be zero."))
  else if negb hasher then Some (Err (mkError CountMinSketchError "hasher is required"))
  else
    w ← cms_width errorRate;
    d ← cms_depth probability;
    Some (Val (TinyLFU.NewCMS w (Z.to_nat d))).

Definition NewTinyLFU : option (outcome TinyLFU) :=
  match NewDoorkeeper BLOOM_BIT_ARR_SIZE HASH_FUNC_COUNT with
  | Val doorKeep =>
      o ← NewCMS CMS_ERROR_RATE CMS_PROBABILITY true;
      Some (outcome_bind o (fun cms => Val (mkTinyLFU doorKeep cms)))
  | Err e => Some (Err e)
  | Panic m => Some (Panic m)
  | Blocked => Some Blocked
  | OutOfFuel => Some OutOfFuel
  end.

(** The constants make a sketch of 14 rows of 2000 counters: the filter is the one
    [TinyLFU] makes for these sizes. *)
Lemma NewTinyLFU_sizes : NewTinyLFU = Some (TinyLFU.NewTinyLFU BLOOM_BIT_ARR_SIZE HASH_FUNC_COUNT 2000 14).
Proof.
  assert (cms_width CMS_ERROR_RATE = Some 2000) as Hw by (vm_compute; reflexivity).
  assert (cms_depth CMS_PROBABILITY = Some 14) as Hd by (vm_compute; reflexivity).
  unfold NewTinyLFU, NewCMS. rewrite Hw, Hd.
  assert (SFleb CMS_ERROR_RATE (of_int 0) = false) as -> by (vm_compute; reflexivity).
  assert (SFleb CMS_PROBABILITY (of_int 0) = false) as -> by (vm_compute; reflexivity). done.
Qed.

(** ** Segments and frames *)

Definition MAIN_CACHE_RATIO : Z * Z := (1, 5).
Definition WINDOW_CACHE_RATIO : Z * Z := (1, 10).

(** [math.Round(x * p/q)] as an integer; constants are exact before they are
    converted, also [1 - p/q]. *)
Definition share (x : float64) (r : Z * Z) : option Z := to_uint64 (Round (x * const r.1 r.2)%f64).
Definition rest (r : Z * Z) : Z * Z := (r.2 - r.1, r.2).

Definition probationCap (mainCacheSize : Z) : option Z := share (of_int mainCacheSize) MAIN_CACHE_RATIO.
Definition protectedCap (mainCacheSize : Z) : option Z := share (of_int mainCacheSize) (rest MAIN_CACHE_RATIO).

(** [entrySize] is the size of a [clockentry], which is up to the compiler. *)
Definition totFrames (entrySize cacheSize : Z) : float64 := Round (of_int (u64 (cacheSize * 1024)) / of_int entrySize)%f64.
Definition windSize (tot : float64) : option Z := share tot WINDOW_CACHE_RATIO.
Definition mainSize (tot : float64) : option Z := share tot (rest WINDOW_CACHE_RATIO).

(** [newShard] from its arguments on. *)
Definition newShard_of (t : TinyLFU) (pgr : Pager) (entrySize cacheSize : Z) (reserveMetadataEntry : bool) : option (outcome shard) :=
  let tot := totFrames entrySize cacheSize in
  w ← windSize tot;
  m ← mainSize tot;
  Some (newShard t pgr w m reserveMetadataEntry).

(** All frame counts of a shard that the default cache size allows. *)
Definition MAX_FRAMES : nat := 1024.

Fixpoint below_all (n : nat) (p : Z -> bool) : bool :=
  match n with
  | O => true
  | S n' => p (Z.of_nat n') && below_all n' p
  end.

Lemma below_all_spec n p z : below_all n p = true -> 0 <= z < Z.of_nat n -> p z = true.
Proof.
  induction n as [|n IH]; [lia|]. cbn [below_all]. intros [Hp Hn]%andb_true_iff Hz.
  destruct (decide (z = Z.of_nat n)) as [->|]; [done|]. apply IH; [done|lia].
Qed.

Definition sizes_agree (n : Z) : bool :=
  bool_decide (windSize (of_int n) = Some ((n + 5) / 10)) && bool_decide (mainSize (of_int n) = Some ((9 * n + 5) / 10)) &&
  bool_decide (probationCap n = Some (probation_cap n)) && bool_decide (protectedCap n = Some (protected_cap n)).

(** The rounded products are the exact quotients. *)
Lemma sizes_exact n : 0 <= n < Z.of_nat MAX_FRAMES ->
  windSize (of_int n) = Some ((n + 5) / 10) /\ mainSize (of_int n) = Some ((9 * n + 5) / 10) /\
  probationCap n = Some (probation_cap n) /\ protectedCap n = Some (protected_cap n).
Proof.
  intros Hn. assert (below_all MAX_FRAMES sizes_agree = true) as Hall by (vm_compute; reflexivity).
  apply (below_all_spec _ _ n) in Hall; [|done]. unfold sizes_agree in Hall.
  apply andb_true_iff in Hall as [[[H1 H2]%andb_true_iff H3]%andb_true_iff H4].
  by apply bool_decide_eq_true in H1, H2, H3, H4.
Qed.

(** ** The frames of a shard *)

Lemma NewClock_reserved n : (3 <= n)%nat -> forall reserve, exists c, NewClock n reserve = Val c /\ (reserve = true -> is_Some (Reserved c)).
Proof.
  intros Hn reserve. unfold NewClock. rewrite (proj2 (Nat.ltb_ge _ _)) by done. destruct reserve; [|by eexists].
  set (c0 := mkClock 0 None n (replicate n new_entry)). assert (clock_ok c0) as Hc0 by (split; cbn; [apply length_replicate|lia]).
  destruct (evict_spec unassigned c0 Hc0) as ([v|] & c1 & He & Hr); rewrite He.
  - eexists. split; [done|]. intros _. by eexists.
  - destruct Hr as [_ Hno]. assert (bPool c0 !! 0%nat = Some new_entry) as H0 by (apply lookup_replicate; split; [done|lia]).
    specialize (Hno 0%nat new_entry H0). done.
Qed.

Lemma newShard_frames t pgr ws ms reserve : 0 < ws < ms -> exists s, newShard t pgr ws ms reserve = Val s /\
  length (bPool (cBuffer (p_w (sh_pool s)))) = Z.to_nat (ws + ms).
Proof.
  intros Hw. unfold newShard, NewWTinylfu. rewrite (proj2 (Z.leb_gt _ _)), (proj2 (Z.leb_gt _ _)), Z.geb_leb, (proj2 (Z.leb_gt _ _)) by lia.
  destruct (NewClock_reserved (Z.to_nat (ws + ms)) ltac:(lia) reserve) as (c & Hc & Hr). rewrite Hc. cbn [cBuffer].
  assert (length (bPool c) = Z.to_nat (ws + ms)) as Hl.
  { pose proof (NewClock_fs _ _ _ Hc) as Hf. apply (f_equal length) in Hf. unfold fsc in Hf. by rewrite length_fmap, length_replicate in Hf. }
  destruct reserve; [destruct (Hr eq_refl) as [e He]; rewrite He|]; by eexists.
Qed.

(** C35: how many frames a shard gets.  The budget is rounded to a number [n] of
    frames and then split by floating-point products into a window and a main cache.
    Up to the number of frames of the default cache, a budget below five frames
    panics (the window would be empty), and any other gives a shard of [n] frames,
    or of one frame more than the budget when [n] ends in 5. *)
Theorem shard_frames t pgr entrySize cacheSize reserve n :
  totFrames entrySize cacheSize = of_int n -> 0 <= n < Z.of_nat MAX_FRAMES ->
  if n <? 5 then newShard_of t pgr entrySize cacheSize reserve = Some (Panic "Window size must be greater than 0")
  else exists s, newShard_of t pgr entrySize cacheSize reserve = Some (Val s) /\
    Z.of_nat (length (bPool (cBuffer (p_w (sh_pool s))))) = n + if n mod 10 =? 5 then 1 else 0.
Proof.
  intros Ht Hn. unfold newShard_of. rewrite Ht. destruct (sizes_exact n Hn) as (-> & -> & _). cbn [mbind option_bind].
  destruct (Z.ltb_spec n 5) as [H5|H5].
  - rewrite (Z.div_small (n + 5) 10) by lia. done.
  - destruct (newShard_frames t pgr ((n + 5) / 10) ((9 * n + 5) / 10) reserve) as (s & -> & Hl).
    { pose proof (Z.div_mod (n + 5) 10). pose proof (Z.div_mod (9 * n + 5) 10). pose proof (Z.mod_pos_bound (n + 5) 10).
      pose proof (Z.mod_pos_bound (9 * n + 5) 10). lia. }
    exists s. split; [done|]. rewrite Hl. pose proof (Z.div_mod n 10 ltac:(lia)) as Hdm. pose proof (Z.mod_pos_bound n 10 ltac:(lia)) as Hb.
    set (q := n / 10) in *. set (r := n mod 10) in *. replace ((n + 5) / 10) with (q + if 5 <=? r then 1 else 0).
    2: { destruct (Z.leb_spec 5 r); [apply (Z.div_unique _ _ _ (r - 5))|apply (Z.div_unique _ _ _ (r + 5))]; lia. }
    replace ((9 * n + 5) / 10) with (9 * q + r - if 6 <=? r then 1 else 0); [destruct (Z.leb_spec 5 r), (Z.leb_spec 6 r), (Z.eqb_spec r 5); lia|].
    destruct (Z.leb_spec 6 r); [apply (Z.div_unique _ _ _ (15 - r))|apply (Z.div_unique _ _ _ (5 - r))]; lia.
Qed.

Module SizingSample.
Import PoolSample ShardSample.

(** 41 KB for entries of 8240 bytes: a budget of five frames, and six of them. *)
Lemma shard_frames_witness :
  totFrames 8240 41 = of_int 5 /\
  if 5 <? 5 then newShard_of filter0 pager0 8240 41 true = Some (Panic "Window size must be greater than 0")
  else exists s, newShard_of filter0 pager0 8240 41 true = Some (Val s) /\
    Z.of_nat (length (bPool (cBuffer (p_w (sh_pool s))))) = 5 + if 5 mod 10 =? 5 then 1 else 0.
Proof. split; [vm_compute; reflexivity|]. apply (shard_frames filter0 pager0 8240 41 true 5); [vm_compute; reflexivity|vm_compute; split; congruence]. Defined.

End SizingSample.
