(* ===== verification/BufferManagerTheorems.v ===== *)
(** * The shards together

    The shards share one data file.  Each page id belongs to one shard, and what a
    shard does to the file leaves the pages of the others alone. *)

From S2P Require Import Prelude Keys Files Helpers Disk FreeList Page Pager TinyLFU TinyLFUTheorems Clock ClockTheorems WTinyLFU WTinyLFUTheorems DirtyList Shard ShardInv ShardTheorems.
Local Open Scope Z_scope.

#[local] Arguments page_of : simpl never.
#[local] Arguments region : simpl never.

Section Manager.
Context (Sum64 hasher : bytes -> Z).

Notation shard_of := (getShard hasher).

(** The pool of shard [i], with the buffer manager's pager. *)
Definition pool_at (b : BufferManager) (i : Z) : option pool :=
  (fun s => sh_pool (lend (bm_pager b) s)) <$> bm_shards b !! Z.to_nat i.

(** The shards' invariants hold, they cache only pages of their own, and of the frames
    of shard [i] only those of [X i] are marked for eviction. *)
Record bm_ok_but (X : Z -> nat -> Prop) (b : BufferManager) : Prop := {
  bo_shards : bm_shards b <> [];
  bo_cache : forall i p, 0 <= i -> pool_at b i = Some p -> cache_ok Sum64 p /\ quiet_but (X i) p /\
    forall k j, p_table p !! k = Some j -> shard_of k b = i }.

(** No frame is marked. *)
Definition bm_ok (b : BufferManager) : Prop := bm_ok_but (fun _ _ => False) b.

(** A page as the shard of its id sees it. *)
Definition bm_pool (b : BufferManager) (k : Z) : pool := default (mkPool (mkW (mkClock 0 None 0 []) (mkTinyLFU (mkBloom 0 0 []) (NewCMS 0 0)) 0 0 0 0 0 0) (bm_pager b) ∅) (pool_at b (shard_of k b)).
Definition bm_available (b : BufferManager) (k : Z) : Prop := available (bm_pool b k) k.
Definition bm_seen (b : BufferManager) (k : Z) : bytes := seen (bm_pool b k) k.
Definition bm_stranded (b : BufferManager) (k : Z) : Prop := stranded (bm_pool b k) k.

(** The frames that are marked now. *)
Definition bm_marked (b : BufferManager) (i : Z) (j : nat) : Prop := exists p, pool_at b i = Some p /\ marked p j.

Lemma shard_range b k : bm_shards b <> [] -> 0 <= shard_of k b < Z.of_nat (length (bm_shards b)).
Proof. intros H. apply Z.mod_pos_bound. destruct (bm_shards b); [done|]. cbn. lia. Qed.

Lemma shard_exists b k : bm_shards b <> [] -> exists s, bm_shards b !! Z.to_nat (shard_of k b) = Some s.
Proof. intros H. pose proof (shard_range b k H). apply lookup_lt_is_Some_2. lia. Qed.

Lemma bm_pool_at b k s : bm_shards b !! Z.to_nat (shard_of k b) = Some s -> bm_pool b k = sh_pool (lend (bm_pager b) s).
Proof. intros H. unfold bm_pool, pool_at. by rewrite H. Qed.

(** *** Another shard's view of the file *)

(** What the work of another shard does to the file: the page [k] is still there. *)
Definition file_kept (pgr pgr' : Pager) (k : Z) : Prop :=
  stored pgr k -> stored pgr' k /\ undirty (page_of pgr' k) = undirty (page_of pgr k).

Lemma file_kept_pages p p' k : same_pages p p' -> addressable k -> p_table p !! k = None -> p_table p' !! k = None ->
  file_kept (p_pager p) (p_pager p') k.
Proof.
  intros Hs Hk H1 H2 Hst. destruct (Hs k Hk (or_intror Hst)) as [[[? Ha]|Ha] He]; [congruence|].
  split; [done|]. unfold seen, cached in He. by rewrite H1, H2 in He.
Qed.

Lemma foreign_pages p pgr k : cache_ok Sum64 p -> file_kept (p_pager p) pgr k -> available p k ->
  available (set_pager pgr p) k /\ seen (set_pager pgr p) k = seen p k.
Proof.
  intros Hok Hf Ha. unfold available, seen, cached in *. change (fs (set_pager pgr p)) with (fs p).
  change (p_table (set_pager pgr p)) with (p_table p). change (p_pager (set_pager pgr p)) with pgr.
  destruct (p_table p !! k) as [i|] eqn:Hi; [|destruct Ha as [[? Ha]|Ha]; [done|]; destruct (Hf Ha); auto].
  split; [left; by eexists|]. destruct (ck_table _ _ Hok k i Hi) as (f & t & Hft & _). cbn [mbind option_bind]. by rewrite (fs_frame _ _ _ _ Hft).
Qed.

Lemma foreign_cache X p pgr : cache_ok Sum64 p -> quiet_but X p -> idle (dManager pgr) ->
  (forall k i, p_table p !! k = Some i -> file_kept (p_pager p) pgr k) -> cache_ok Sum64 (set_pager pgr p) /\ quiet_but X (set_pager pgr p).
Proof.
  intros [[W1 W2 W3 W4 W5] Hfi Hfr Ht Hz] Hq Hid Hf. split; [|exact Hq]. split; [by split|done| |done|done].
  intros i f t Hi Hs. destruct (Hfr i f t Hi Hs) as (H1 & H2 & H3). split; [done|]. split; [done|]. intros Hd.
  destruct (H3 Hd) as [H4 H5]. destruct H2 as (_ & _ & Hdead & Hlab).
  destruct (Hf _ _ H1) as [[H6 _] H7]; [|change (p_pager (set_pager pgr p)) with pgr; split; [done|congruence]].
  split; [done|]. by rewrite (undirty_label _ _ H5), (undirty_dead _ _ H5).
Qed.

(** *** A call of one shard *)

Lemma getShard_length k b b' : length (bm_shards b') = length (bm_shards b) -> shard_of k b' = shard_of k b.
Proof. unfold getShard. by intros ->. Qed.

(** The buffer manager after shard [i] went from pool [p] to [p']. *)
Definition shard_moved (b : BufferManager) (i : Z) (s : shard) (p' : pool) : BufferManager :=
  mkBM (p_pager p') (<[Z.to_nat i := mkShard p' (diryList s)]> (bm_shards b)).

Section Moved.
Context (b : BufferManager) (i : Z) (s : shard) (p' : pool).
Let p := sh_pool (lend (bm_pager b) s).
Let b' := shard_moved b i s p'.
Context (X Y : Z -> nat -> Prop).
Context (Hb : bm_ok_but X b) (Hi : 0 <= i) (Hs : bm_shards b !! Z.to_nat i = Some s).
Context (Hw : wt_ok Sum64 p') (Hsp : same_pages p p') (Htw : forall k j, p_table p' !! k = Some j -> shard_of k b = i).

Lemma moved_length : length (bm_shards b') = length (bm_shards b).
Proof. apply length_insert. Qed.

Lemma moved_route k : shard_of k b' = shard_of k b.
Proof. apply getShard_length, moved_length. Qed.

Lemma moved_own : pool_at b i = Some p.
Proof. unfold pool_at. by rewrite Hs. Qed.

(** Pages of other shards are not in this shard's table, before and after. *)
Lemma moved_foreign k : addressable k -> shard_of k b <> i -> file_kept (bm_pager b) (bm_pager b') k.
Proof.
  intros Hk Hne. destruct (bo_cache _ _ Hb i p Hi moved_own) as (_ & _ & Hr).
  apply (file_kept_pages p p'); [done|done| |].
  - destruct (p_table p !! k) eqn:E; [by apply Hr in E|done].
  - destruct (p_table p' !! k) eqn:E; [by apply Htw in E|done].
Qed.

Lemma moved_at j q : 0 <= j -> pool_at b' j = Some q -> (j = i /\ q = p') \/ (j <> i /\ exists q0, pool_at b j = Some q0 /\ q = set_pager (bm_pager b') q0).
Proof.
  intros Hj. unfold pool_at, b', shard_moved. cbn [bm_shards bm_pager]. destruct (decide (j = i)) as [->|Hne].
  - rewrite list_lookup_insert_eq by (by eapply lookup_lt_Some). cbn. intros [= <-]. left. split; [done|]. by destruct p'.
  - rewrite list_lookup_insert_ne by lia. destruct (bm_shards b !! Z.to_nat j) as [sj|]; [|done]. cbn. intros [= <-].
    right. split; [done|]. eexists. split; [done|]. done.
Qed.

Lemma moved_bm_ok : cache_ok Sum64 p' -> quiet_but (Y i) p' -> (forall j v, j <> i -> X j v -> Y j v) -> bm_ok_but Y b'.
Proof.
  intros Hok' Hq' HXY. pose proof Hb as [Hne Hc]. split.
  - intros E. pose proof moved_length as Hl. rewrite E in Hl. by destruct (bm_shards b).
  - intros j q Hj Hq. destruct (moved_at j q Hj Hq) as [[-> ->]|(Hji & q0 & Hq0 & ->)].
    + split; [done|]. split; [done|]. intros k m Hk. rewrite moved_route. by eapply Htw.
    + destruct (Hc j q0 Hj Hq0) as (Hok0 & Hq00 & Hr).
      assert (p_pager q0 = bm_pager b) as Hpg by (unfold pool_at in Hq0; destruct (bm_shards b !! Z.to_nat j); [|done]; by injection Hq0 as <-).
      destruct (foreign_cache (X j) q0 (bm_pager b') Hok0 Hq00) as [H1 H2]; [apply Hw| |].
      { intros k m Hk. rewrite Hpg. apply moved_foreign; [|rewrite (Hr k m Hk); done].
        destruct (ck_table _ _ Hok0 k m Hk) as (f & t & Hf & _ & <-). exact (proj2 (frame_ok_at _ _ _ _ _ Hok0 Hf)). }
      split; [done|]. split; [eapply quiet_but_mono; [exact H2|]; intros v; by apply HXY|]. intros k m Hk. rewrite moved_route. by eapply Hr.
Qed.

Lemma moved_pages k : addressable k -> bm_available b k -> bm_available b' k /\ bm_seen b' k = bm_seen b k.
Proof.
  intros Hk Ha. pose proof Hb as [Hne Hc]. unfold bm_available, bm_seen in *. destruct (shard_exists b k Hne) as [sk Hsk].
  pose proof (shard_range b k Hne) as Hr. rewrite (bm_pool_at b k sk Hsk) in *. unfold bm_pool, pool_at. rewrite moved_route.
  unfold b', shard_moved. cbn [bm_shards bm_pager]. destruct (decide (shard_of k b = i)) as [E|E].
  - rewrite E in *. rewrite list_lookup_insert_eq by (by eapply lookup_lt_Some). rewrite Hs in Hsk. injection Hsk as <-. cbn [fmap option_fmap option_map from_option].
    replace (sh_pool (lend (p_pager p') (mkShard p' (diryList s)))) with p' by (by destruct p'). by apply Hsp.
  - rewrite list_lookup_insert_ne, Hsk by lia. cbn [fmap option_fmap option_map from_option].
    destruct (Hc (shard_of k b) (sh_pool (lend (bm_pager b) sk))) as (Hok & _ & _); [lia|unfold pool_at; by rewrite Hsk|].
    apply (foreign_pages (sh_pool (lend (bm_pager b) sk)) (p_pager p') k Hok); [|done]. by apply moved_foreign.
Qed.

End Moved.

(** C14: lookups are routed to the shard of the page id and are transparent for all
    shards together.  Let [k] be cached by its shard or stored in the file, and not
    stranded, which is: not in a frame that an earlier refused request has left marked
    for eviction.  [Get] of [k] returns a pinned frame of that shard with the page's
    content and marks no frame; or it fails, only because in that shard the frames of the
    full segments or all free frames are pinned or marked, and then it leaves at most one
    more frame of that shard marked.  Either way all shards keep their invariant, and
    every page of every shard keeps its content, in its frame or in the file, although
    the shards share the file. *)
Theorem Get_routed b k : bm_ok_but (bm_marked b) b -> 0 < k -> addressable k -> bm_available b k -> ~ bm_stranded b k ->
  let same b' := forall k', addressable k' -> bm_available b k' -> bm_available b' k' /\ bm_seen b' k' = bm_seen b k' in
  settles (Get Sum64 hasher k) b (fun r b' => exists i en hit p e, r = ((i, en), hit) /\ i = shard_of k b /\ pool_at b' i = Some p /\
      bPool (clock_of p) !! en = Some e /\ f_key (entry e) = k /\ undirty (fdata (entry e)) = bm_seen b k /\ (0 < outstanding e)%nat /\
      bm_ok_but (bm_marked b) b' /\ same b')
    (fun b' => (starved (bm_pool b k) \/ none_eligible unassigned (bm_pool b' k)) /\
      (exists v, bm_ok_but (fun i j => bm_marked b i j \/ i = shard_of k b /\ j = v) b') /\ same b').
Proof.
  intros Hb H0 Hk Ha Hns same. pose proof Hb as [Hne Hc]. destruct (shard_exists b k Hne) as [s Hs]. pose proof (shard_range b k Hne) as Hr.
  unfold bm_available in Ha. unfold bm_stranded in Hns. unfold bm_seen at 1. rewrite (bm_pool_at b k s Hs) in *. set (p := sh_pool (lend (bm_pager b) s)) in *.
  assert (pool_at b (shard_of k b) = Some p) as Hpat by (unfold pool_at; by rewrite Hs).
  destruct (Hc (shard_of k b) p) as (Hok & Hq & Hrt); [lia|done|].
  assert (quiet_but (marked p) p) as Hrest by (by eapply quiet_resting).
  assert (forall v, marked p v -> bm_marked b (shard_of k b) v) as Hmk by (intros v Hv; by exists p).
  pose proof (get_transparent Sum64 p k Hok Hrest H0 Hk Ha (not_stranded p k Hns)) as Hget.
  unfold settles in *. unfold Get, mbind, M_bind, gets, on_shard, on_shpool, zoom. rewrite Hs. fold p.
  destruct (get Sum64 k p) as [[r|err| | |] p'] eqn:E; try done.
  - destruct Hget as (en & -> & Hok' & Hq' & Hsp & Htw & e & He & Hkey & _ & Hseen & Ho).
    assert (forall k' j, p_table p' !! k' = Some j -> shard_of k' b = shard_of k b) as Hown.
    { intros k' j Hj. apply Htw in Hj as [->|[? Hj]]; [done|]. by eapply Hrt. }
    cbn [fst snd with_frame]. unfold mret, M_ret.
    change (mkBM _ _) with (shard_moved b (shard_of k b) s p').
    exists (shard_of k b), en, (bool_decide (is_Some (p_table p !! k))), p', e. split_and!; try done.
    + unfold pool_at, shard_moved. cbn [bm_shards bm_pager]. rewrite list_lookup_insert_eq by (by eapply lookup_lt_Some). cbn. by destruct p'.
    + eapply (moved_bm_ok b _ s p' (bm_marked b)); try done; [lia|apply Hok'|]. eapply quiet_but_mono; [exact Hq'|done].
    + intros k' Hk' Ha'. eapply (moved_pages b _ s p' (bm_marked b)); try done; [lia|apply Hok'].
  - destruct Hget as (Hok' & (v & Hq') & Hsp & Htw & Hwhy). change (mkBM _ _) with (shard_moved b (shard_of k b) s p').
    assert (forall k' j, p_table p' !! k' = Some j -> shard_of k' b = shard_of k b) as Hown.
    { intros k' j Hj. apply (Htw k) in Hj as [->|[? Hj]]; [done|]. by eapply Hrt. }
    split; [|split].
    + destruct Hwhy as [Hwhy|[Hwhy _]]; [by left|right].
      assert (bm_pool (shard_moved b (shard_of k b) s p') k = p') as ->; [|done].
      unfold bm_pool, pool_at. rewrite (moved_route b (shard_of k b) s p'). unfold shard_moved. cbn [bm_shards bm_pager].
      rewrite list_lookup_insert_eq by (by eapply lookup_lt_Some). cbn. by destruct p'.
    + exists v. eapply (moved_bm_ok b _ s p' (bm_marked b)); try done; [lia|apply Hok'| |by left].
      eapply quiet_but_mono; [exact Hq'|]. intros j [Hj| ->]; [left; auto|by right].
    + intros k' Hk' Ha'. eapply (moved_pages b _ s p' (bm_marked b)); try done; [lia|apply Hok'].
Qed.

(** ** New buffer managers *)

Lemma new_shards_spec sizes filter pgr per meta n : forall i l, new_shards sizes filter pgr per meta n i = Val l ->
  length l = n /\ forall j s, l !! j = Some s -> newShard (filter (i + j)%nat) pgr (sizes per).1 (sizes per).2 (Z.of_nat (i + j) =? meta) = Val s.
Proof.
  induction n as [|n IH]; intros i l; cbn [new_shards]; [by intros [= <-]|].
  destruct (newShard _ _ _ _ _) as [s0| | | |] eqn:Hs; try done. destruct (new_shards _ _ _ _ _ n (S i)) as [l0| | | |] eqn:Hl; try done.
  intros [= <-]. destruct (IH _ _ Hl) as [H1 H2]. split; [cbn; lia|]. intros [|j] s; cbn; [intros [= <-]; by rewrite Nat.add_0_r|].
  rewrite Nat.add_succ_r. apply H2.
Qed.

Lemma NewBufferManager_shards sizes filter numCPU pgr size num testing b :
  NewBufferManager hasher sizes filter numCPU (Some pgr) size num testing = Val b ->
  bm_pager b = pgr /\ forall j s, bm_shards b !! j = Some s -> exists i c reserve, newShard (filter i) pgr (sizes c).1 (sizes c).2 reserve = Val s.
Proof.
  unfold NewBufferManager. destruct (_ <? _); [done|]. cbv zeta.
  destruct (new_shards _ _ _ _ _ _ _) as [l| | | |] eqn:Hl; try done. intros [= <-]. split; [done|]. intros j s Hj.
  destruct (new_shards_spec _ _ _ _ _ _ _ _ Hl) as [_ Hsh]. do 3 eexists. by apply Hsh.
Qed.

(** The first new page of a buffer manager whose pager has no free ids: its id is the
    next one the pager counts to. *)
Lemma first_NewFrame sizes filter numCPU pgr size num testing b internal root :
  NewBufferManager hasher sizes filter numCPU (Some pgr) size num testing = Val b -> bm_shards b <> [] -> idle (dManager pgr) ->
  (forall i, filter_ok (filter i)) -> (forall c, (sizes c).1 + (sizes c).2 < 2 ^ 63) ->
  fl_count (freeList pgr) = 0 -> maxPageId pgr = 0 ->
  returns (NewFrame Sum64 hasher internal root) b (fun f b' => exists p e, pool_at b' f.1 = Some p /\ bPool (clock_of p) !! f.2 = Some e /\
    f_key (entry e) = 1 /\ f_dirty (entry e) = true /\ bm_available b' 1 /\ bm_seen b' 1 = new_page internal 1).
Proof.
  intros Hb Hne Hid Hfil Hsz Hfl Hmax. destruct (NewBufferManager_shards _ _ _ _ _ _ _ _ Hb) as [Hpg Hsh].
  set (pgr1 := set_max 1 pgr).
  assert (on_bm_pager NewPageId b = (Val 1, mkBM pgr1 (bm_shards b))) as Hid1.
  { unfold on_bm_pager, zoom. rewrite Hpg. unfold NewPageId, on_free_list, zoom, pop, mbind, M_bind, get_state. rewrite Hfl. cbn.
    unfold modify, mret, M_ret. cbn. rewrite Hmax. done. }
  destruct (shard_exists b 1 Hne) as [s Hs]. destruct (Hsh _ _ Hs) as (i & c & reserve & Hnew).
  pose proof (newShard_lend _ _ pgr1 _ _ _ _ Hnew) as Hnew1.
  destruct (newShard_newFrame Sum64 _ _ _ _ _ _ internal root 1 Hnew1 (Hsz c) (Hfil i) Hid) as (r & p' & Hfr & en & -> & Hmade); [lia|unfold addressable, MAX_PAGE; lia|].
  destruct Hmade as (_ & _ & _ & Ha & Hseen & e & He & Hkey & _ & Hd & _).
  eexists (shard_of 1 b, en), _. split.
  - unfold NewFrame. rewrite (bind_Val _ _ _ _ _ Hid1). unfold mbind, M_bind, gets, on_shard, on_shpool, zoom. cbn [bm_shards bm_pager].
    change (getShard hasher 1 (mkBM pgr1 (bm_shards b))) with (shard_of 1 b). rewrite Hs, Hfr. cbn. reflexivity.
  - cbn [lend sh_pool diryList]. set (b1 := mkBM (p_pager p') _).
    assert (pool_at b1 (shard_of 1 b) = Some p') as Hp.
    { unfold pool_at, b1. cbn [bm_shards bm_pager]. rewrite list_lookup_insert_eq by (by eapply lookup_lt_Some). cbn. by destruct p'. }
    assert (bm_pool b1 1 = p') as Hbp.
    { unfold bm_pool. rewrite (getShard_length 1 b b1) by (cbn; by rewrite length_insert). by rewrite Hp. }
    exists p', e. cbn [fst snd]. unfold bm_available, bm_seen. rewrite Hbp. split_and!; done.
Qed.

(** The invariant holds at the start. *)
Lemma NewBufferManager_ok sizes filter numCPU pgr size num testing b :
  NewBufferManager hasher sizes filter numCPU (Some pgr) size num testing = Val b -> 0 < numCPU -> 0 <= num -> idle (dManager pgr) ->
  (forall i, filter_ok (filter i)) -> (forall c, (sizes c).1 + (sizes c).2 < 2 ^ 63) ->
  bm_ok b /\ bm_pager b = pgr /\ forall i p, pool_at b i = Some p -> p_table p = ∅.
Proof.
  unfold NewBufferManager. destruct (_ <? _); [done|]. set (n := if _ && _ || _ then _ else _). cbv zeta.
  destruct (new_shards _ _ _ _ _ _ _) as [l| | | |] eqn:Hl; try done. intros [= <-] Hcpu Hnum Hid Hfil Hsz.
  assert (0 < n) as Hn. { unfold n. destruct (Z.eqb_spec num 0); [rewrite orb_true_r; lia|]. destruct (_ || _); lia. }
  destruct (new_shards_spec _ _ _ _ _ _ _ _ Hl) as [Hlen Hsh].
  assert (forall i p, pool_at (mkBM pgr l) i = Some p -> cache_ok Sum64 p /\ quiet p /\ p_table p = ∅) as Hall.
  { intros i p. unfold pool_at. cbn [bm_shards bm_pager]. destruct (l !! Z.to_nat i) as [s|] eqn:Hs; [|done]. cbn. intros [= <-].
    destruct (newShard_ok Sum64 _ _ _ _ _ _ (Hsh _ _ Hs) (Hsz _) (Hfil _) Hid) as (H1 & H2 & H3 & H4).
    replace (set_pager pgr (sh_pool s)) with (sh_pool s) by (rewrite <- H3; by destruct (sh_pool s)). done. }
  split; [split|split; [done|]].
  - cbn. intros ->. cbn in Hlen. lia.
  - intros i p Hi Hp. destruct (Hall i p Hp) as (H1 & H2 & H3). split; [done|]. split; [done|]. intros k j. by rewrite H3, lookup_empty.
  - intros i p Hp. by apply (Hall i p Hp).
Qed.

End Manager.

Module ManagerSample.
Import PoolSample ShardSample.

(** Two shards, even and odd page ids; page 2 is in the data file. *)
Definition parity (b : bytes) : Z := default 0 (head b).
Definition file2 : bytes := replicate (2 * DM_PAGE) 0 ++ new_page false 2.
Definition pager2 : Pager := mkPager (mkFreeList 0 [] false []) (mkDisk file2 ∅) 0 0 2.

Lemma pager2_idle : idle (dManager pager2).
Proof. intros off. unfold queue_of. cbn. by rewrite lookup_empty. Qed.

(** The numbers of frames for any cache size. *)
Definition sizes (c : Z) : Z * Z := (2, 3).
Definition new0 : outcome BufferManager := NewBufferManager parity sizes (fun _ => filter0) 1 (Some pager2) 8192 2 true.
Definition bm0 : BufferManager := match new0 with Val b => b | _ => mkBM pager2 [] end.

Lemma bm0_new : new0 = Val bm0.
Proof. reflexivity. Qed.

Lemma page2_stored : stored pager2 2.
Proof.
  assert (Z.to_nat (2 * 8192) = (2 * DM_PAGE)%nat) as E by (vm_compute; reflexivity).
  assert (page_of pager2 2 = new_page false 2) as Hp.
  { unfold page_of, page_at, region. cbn [d_fd dManager pager2]. rewrite E. unfold file2.
    rewrite drop_app_length' by (by rewrite length_replicate). apply take_ge. by rewrite (proj1 (new_page_ok false 2)). }
  split; [|rewrite Hp; split; apply new_page_ok]. unfold page_exists, on_disk. cbn [d_fd dManager pager2]. rewrite E. unfold file2.
  rewrite length_app, length_replicate, (proj1 (new_page_ok false 2)). done.
Qed.

Lemma Get_routed_witness : bm_ok hash0 parity bm0 /\
  let same b' := forall k', addressable k' -> bm_available parity bm0 k' -> bm_available parity b' k' /\ bm_seen parity b' k' = bm_seen parity bm0 k' in
  settles (Get hash0 parity 2) bm0 (fun r b' => exists i en hit p e, r = ((i, en), hit) /\ i = getShard parity 2 bm0 /\ pool_at b' i = Some p /\
      bPool (clock_of p) !! en = Some e /\ f_key (entry e) = 2 /\ undirty (fdata (entry e)) = bm_seen parity bm0 2 /\ (0 < outstanding e)%nat /\
      bm_ok_but hash0 parity (bm_marked bm0) b' /\ same b')
    (fun b' => (starved (bm_pool parity bm0 2) \/ none_eligible unassigned (bm_pool parity b' 2)) /\
      (exists v, bm_ok_but hash0 parity (fun i j => bm_marked bm0 i j \/ i = getShard parity 2 bm0 /\ j = v) b') /\ same b').
Proof.
  destruct (NewBufferManager_ok hash0 parity sizes (fun _ => filter0) 1 pager2 8192 2 true bm0 bm0_new) as (Hb & Hp & _);
    [lia|lia|exact pager2_idle|intros _; exact filter0_ok|intros c; cbn; lia|].
  split; [exact Hb|].
  apply (Get_routed hash0 parity bm0 2); [|lia|unfold addressable, MAX_PAGE; lia| |].
  - destruct Hb as [H1 H2]. split; [exact H1|]. intros i p Hi Hpool. destruct (H2 i p Hi Hpool) as (H3 & H4 & H5). split; [exact H3|]. split; [|exact H5].
    eapply quiet_but_mono; [exact H4|]. by intros j [].
  - unfold bm_available. destruct (shard_exists parity bm0 2 (bo_shards _ _ _ _ Hb)) as [s Hs]. rewrite (bm_pool_at _ _ _ _ Hs). right.
    change (stored (bm_pager bm0) 2). rewrite Hp. exact page2_stored.
  - intros (i & Hi & _). vm_compute in Hi. discriminate Hi.
Defined.

End ManagerSample.
