(* ===== verification/Lifecycle.v ===== *)
(** * Opening and closing the buffer manager

    [NewDiskManager], [ForceFlush] and [Close] of the disk manager, [Close] of the
    pager, [close] of the free list, of a shard and of its clock, and [Close] of the
    buffer manager.  A running manager is the buffer manager of [Shard] with what
    runs and is open around it: the workers of each shard and of the pager, the
    background writers, and the two file descriptors.  The goroutines that close the
    shards share nothing but the pager and run one after the other here.  Freed
    memory is a pool without entries. *)

From S2P Require Import Prelude Keys Files Helpers Disk FreeList Page Pager Workers TinyLFU Clock WTinyLFU DirtyList Shard.
Local Open Scope Z_scope.

(** The file exists and can be opened. *)
Definition NewDiskManager (DataFile : string) (file : bytes) : outcome DiskManager :=
  if (String.length DataFile =? 0)%nat then Err (mkError DiskManagerError "data file path not provided")
  else Val (mkDisk file ∅).

(** ** The state around a shard *)

(** [sr_exit]: [exitchan] is closed, the background writer has left; [sr_written] is
    its count of written pages. *)
Record shard_rt := mkRt { sr_workers : workerpool bmJob; sr_exit : bool; sr_written : Z }.

Record Manager := mkManager {
  mg_bm : BufferManager; mg_rt : list shard_rt; mg_io : workerpool IOJob; mg_fd : bool; mg_flfd : bool }.

Definition data_file (g : Manager) : bytes := d_fd (dManager (bm_pager (mg_bm g))).
Definition freelist_file (g : Manager) : bytes := fl_fd (freeList (bm_pager (mg_bm g))).

(** An operation on shard [i] and what runs around it. *)
Definition with_shard {A} (i : nat) (m : M (shard_rt * shard) A) : M Manager A := fun g =>
  match mg_rt g !! i, bm_shards (mg_bm g) !! i with
  | Some rt, Some s =>
      let '(o, (rt', s')) := m (rt, lend (bm_pager (mg_bm g)) s) in
      (o, mkManager (mkBM (p_pager (sh_pool s')) (<[i := s']> (bm_shards (mg_bm g)))) (<[i := rt']> (mg_rt g))
            (mg_io g) (mg_fd g) (mg_flfd g))
  | _, _ => (Panic "index out of range", g)
  end.

(** The shards [i], ..., [i + n - 1] in turn. *)
Fixpoint each_shard (n i : nat) (m : M (shard_rt * shard) unit) : M Manager unit :=
  match n with
  | O => mret tt
  | S n' => with_shard i m;; each_shard n' (S i) m
  end.

(** A round of the background writer of a shard, until it is told to leave. *)
Definition bg_round : M (shard_rt * shard) unit :=
  x ← get_state;
  if sr_exit x.1 then mret tt
  else zoom (fun x => mkBg (sh_pool x.2) (sr_written x.1))
    (fun b x => (mkRt (sr_workers x.1) (sr_exit x.1) (writtenPages b), mkShard (bg_pool b) (diryList x.2))) bg_cycle.

Definition bg_rounds : M Manager unit :=
  g ← get_state;
  each_shard (length (bm_shards (mg_bm g))) 0 bg_round.

(** ** Closing a shard *)

Section Close.
Context (Sum64 hasher : bytes -> Z).

(** A worker of a shard with a job: a job that waits for a receiver, or panics, never ends. *)
Definition perform_bm (j : bmJob) (p : pool) : option pool :=
  match runJob Sum64 j (mkRunning p []) with
  | (Val _, r) => Some (r_pool r)
  | _ => None
  end.

Definition shutdownWorkers : M (shard_rt * shard) unit :=
  zoom (fun x => (sr_workers x.1, sh_pool x.2))
    (fun wp x => (mkRt wp.1 (sr_exit x.1) (sr_written x.1), mkShard wp.2 (diryList x.2))) (shutdown perform_bm).

Definition close_exitchan : M (shard_rt * shard) unit :=
  x ← get_state;
  if sr_exit x.1 then panic "close of closed channel"
  else modify (fun x => (mkRt (sr_workers x.1) true (sr_written x.1), x.2)).

(** The frames are gone, written or not. *)
Definition clock_close : M clock unit :=
  c ← get_state;
  match bPool c with
  | [] => panic "index out of range"
  | _ :: _ => modify (set_bPool [])
  end.

Definition wtinylfu_close : M pool unit := or_panic (on_clock clock_close).

Definition shard_close : M (shard_rt * shard) unit :=
  shutdownWorkers;;
  close_exitchan;;
  zoom snd (fun s x => (x.1, s)) (on_shpool wtinylfu_close).

(** ** Closing the pager and the files *)

Definition ForceFlush : M Manager unit :=
  g ← get_state;
  if mg_fd g then mret tt else panic "Unable to flush to disk: file already closed".

Definition disk_Close : M Manager unit :=
  g ← get_state;
  if mg_fd g then modify (fun g => mkManager (mg_bm g) (mg_rt g) (mg_io g) false (mg_flfd g))
  else panic "close: file already closed".

Definition freelist_close : M Manager unit :=
  g ← get_state;
  if mg_flfd g then modify (fun g => mkManager (mg_bm g) (mg_rt g) (mg_io g) (mg_fd g) false)
  else panic "Unable to close free list file descriptor: file already closed".

Definition Flush : M Manager unit := ForceFlush.

Definition shutdown_io : M Manager unit :=
  zoom (fun g => (mg_io g, bm_pager (mg_bm g)))
    (fun wp g => mkManager (mkBM wp.2 (bm_shards (mg_bm g))) (mg_rt g) wp.1 (mg_fd g) (mg_flfd g)) (shutdown perform_io).

Definition pager_Close : M Manager unit :=
  Flush;;
  shutdown_io;;
  ForceFlush;;
  disk_Close;;
  freelist_close.

Definition flushWritten : M Manager unit := Flush.

Definition Close : M Manager unit :=
  g ← get_state;
  each_shard (length (bm_shards (mg_bm g))) 0 shard_close;;
  pager_Close.

(** ** Calls of a running manager *)

(** A call of the buffer manager that hands job [j] to the shard of [pid].  A job the
    channel takes is served before the call returns. *)
Definition submitted {A} (pid : Z) (j : bmJob) (m : M BufferManager A) : M Manager A := fun g =>
  match mg_rt g !! Z.to_nat (getShard hasher pid (mg_bm g)) with
  | None => (Panic "index out of range", g)
  | Some rt =>
      match send_job j (sr_workers rt) with
      | (Val _, _) => let '(o, b) := m (mg_bm g) in (o, mkManager b (mg_rt g) (mg_io g) (mg_fd g) (mg_flfd g))
      | (Err e, _) => (Err e, g)
      | (Panic msg, _) => (Panic msg, g)
      | (Blocked, _) => (Blocked, g)
      | (OutOfFuel, _) => (OutOfFuel, g)
      end
  end.

Definition mg_Get (pid : Z) : M Manager ((Z * nat) * bool) := submitted pid (mkBmJob 128 pid) (Get Sum64 hasher pid).

(** ** Opening *)

Definition workerPoolSize : Z := 400.

(** The disk manager, the pager and the buffer manager over the files' contents, as
    the tests of the package put them together; a new shard starts its workers and
    its background writer. *)
Definition open_manager (sizes : Z -> Z * Z) (filter : nat -> TinyLFU) (numCPU : Z) (DataFile FreeListFile : string) (data fl : bytes)
    (WorkerSize CacheSize numShards : Z) (testing : bool) : outcome Manager :=
  outcome_bind (NewDiskManager DataFile data) (fun d =>
  outcome_bind (NewPager (Some d) FreeListFile fl WorkerSize) (fun pgr =>
  let size := if WorkerSize =? 0 then MAX_WORKERS else WorkerSize in
  outcome_bind (startWorkers size (new_workers (Z.to_nat size))) (fun io =>
  outcome_bind (NewBufferManager hasher sizes filter numCPU (Some pgr) CacheSize numShards testing) (fun bm =>
  outcome_bind (startBmWorkers workerPoolSize (new_workers (Z.to_nat workerPoolSize))) (fun w =>
  Val (mkManager bm (replicate (length (bm_shards bm)) (mkRt w false 0)) io true true)))))).

End Close.
