(* ===== verification/LifecycleTheorems.v ===== *)
(** * Closing and reopening the buffer manager

    What a round of the background writers followed by [Close] leaves in the files,
    and what a manager opened on these files finds there. *)

From S2P Require Import Prelude Keys Files Helpers Disk FreeList Page Pager Workers TinyLFU TinyLFUTheorems Clock ClockTheorems WTinyLFU WTinyLFUTheorems DirtyList Shard ShardInv ShardTheorems BufferManagerTheorems Lifecycle.
Local Open Scope Z_scope.

#[local] Arguments page_of : simpl never.
#[local] Arguments region : simpl never.

(** ** Frames that can be dropped *)

(** No cached page is pinned; no cached page is dirty. *)
Definition unpinned_pool (p : pool) : Prop := forall k i e, p_table p !! k = Some i -> bPool (clock_of p) !! i = Some e -> acc e = false.
Definition clean_pool (p : pool) : Prop := forall k i e, p_table p !! k = Some i -> bPool (clock_of p) !! i = Some e -> f_dirty (entry e) = false.

Section Manager.
Context (Sum64 hasher : bytes -> Z).

Notation shard_of := (getShard hasher).

(** A swept pool whose pages were not pinned is clean, and they still are not pinned. *)
Lemma swept_clean p p' : cache_ok Sum64 p -> quiet p -> unpinned_pool p -> swept Sum64 (fun _ => False) 0 p p' -> clean_pool p' /\ unpinned_pool p'.
Proof.
  intros Hok Hq Hu (_ & _ & _ & Htb & Hent).
  assert (forall k i e', p_table p' !! k = Some i -> bPool (clock_of p') !! i = Some e' -> f_dirty (entry e') = false /\ acc e' = false) as H.
  { intros k i e' Hk He'. rewrite Htb in Hk. destruct (table_entry Sum64 p k i Hok Hq Hk) as (e & He & Hs & _).
    destruct (Hent i e He) as (x & Hx & Hacc & _ & _ & _ & Hcl). rewrite He' in Hx. injection Hx as <-.
    pose proof (Hu k i e Hk He) as Ha. split; [|congruence]. apply Hcl; [lia|done|done|tauto]. }
  split; intros k i e' Hk He'; by destruct (H k i e' Hk He').
Qed.

(** Every page of a clean pool is in the file with the content its users see. *)
Lemma clean_stored p k : cache_ok Sum64 p -> quiet p -> clean_pool p -> available p k ->
  stored (p_pager p) k /\ undirty (page_of (p_pager p) k) = seen p k.
Proof.
  intros Hok Hq Hc Ha. destruct (p_table p !! k) as [i|] eqn:Hk.
  - destruct (table_entry Sum64 p k i Hok Hq Hk) as (e & He & _ & Hkey & (_ & _ & Hd & Hlab) & Hag & _ & _ & Hseen).
    destruct (Hag (Hc k i e Hk He)) as [Hex Hpg]. rewrite Hkey in *. split; [|by rewrite Hpg, Hseen].
    split; [done|]. by rewrite (undirty_label _ _ Hpg), (undirty_dead _ _ Hpg).
  - destruct Ha as [[? Ha]|Ha]; [congruence|]. split; [done|]. unfold seen, cached. by rewrite Hk.
Qed.

(** ** A running manager *)

(** What runs around a shard while it is open. *)
Record rt_open (rt : shard_rt) : Prop := {
  ro_workers : resting (sr_workers rt);
  ro_exit : sr_exit rt = false }.

Record mg_ok (g : Manager) : Prop := {
  mo_bm : bm_ok Sum64 hasher (mg_bm g);
  mo_rt : length (mg_rt g) = length (bm_shards (mg_bm g)) /\ Forall rt_open (mg_rt g);
  mo_io : resting (mg_io g);
  mo_files : mg_fd g = true /\ mg_flfd g = true }.

Definition mg_pool (g : Manager) (i : nat) : option pool := pool_at (mg_bm g) (Z.of_nat i).

(** The writer of each shard from [i] on has room for a whole round. *)
Definition room_from (i : nat) (g : Manager) : Prop := forall j rt p, (i <= j)%nat -> mg_rt g !! j = Some rt -> mg_pool g j = Some p ->
  0 <= sr_written rt /\ sr_written rt + Z.of_nat (capacity (clock_of p)) < MAX_PAGES.

Definition same_view (g g' : Manager) : Prop := forall k, addressable k -> bm_available hasher (mg_bm g) k ->
  bm_available hasher (mg_bm g') k /\ bm_seen hasher (mg_bm g') k = bm_seen hasher (mg_bm g) k.

(** After the rounds of the shards before [i]. *)
Record rounds_done (i : nat) (g : Manager) : Prop := {
  rd_ok : mg_ok g;
  rd_pins : forall j p, mg_pool g j = Some p -> unpinned_pool p;
  rd_clean : forall j p, (j < i)%nat -> mg_pool g j = Some p -> clean_pool p;
  rd_room : room_from i g }.

(** The manager after shard [i] went from pool [p] to [p'] and its round was counted. *)
Definition after_round (g : Manager) (i : nat) (s : shard) (p' : pool) (rt' : shard_rt) : Manager :=
  mkManager (shard_moved (mg_bm g) (Z.of_nat i) s p') (<[i := rt']> (mg_rt g)) (mg_io g) (mg_fd g) (mg_flfd g).

Lemma after_round_done g i s p' rt rt' : rounds_done i g -> bm_shards (mg_bm g) !! i = Some s -> mg_rt g !! i = Some rt ->
  rt_open rt' -> swept Sum64 (fun _ => False) 0 (sh_pool (lend (bm_pager (mg_bm g)) s)) p' ->
  rounds_done (S i) (after_round g i s p' rt') /\ same_view g (after_round g i s p' rt').
Proof.
  intros [[Hb [Hlen Hrt] Hio Hf] Hpins Hcl Hroom] Hs Hr Hrt' Hsw. set (p := sh_pool (lend (bm_pager (mg_bm g)) s)) in *.
  assert (pool_at (mg_bm g) (Z.of_nat i) = Some p) as Hp by (unfold pool_at; by rewrite Nat2Z.id, Hs).
  destruct (bo_cache _ _ _ _ Hb (Z.of_nat i) p ltac:(lia) Hp) as (Hok & Hq & Hown).
  destruct (swept_clean p p' Hok Hq (Hpins i p Hp) Hsw) as [Hclean Hunp]. destruct Hsw as (Hok' & Hq' & Hsp & Htb & _).
  assert (bm_shards (mg_bm g) !! Z.to_nat (Z.of_nat i) = Some s) as Hs' by (by rewrite Nat2Z.id).
  assert (forall k j, p_table p' !! k = Some j -> shard_of k (mg_bm g) = Z.of_nat i) as Hown' by (intros k j; rewrite Htb; apply Hown).
  assert (forall j q, mg_pool (after_round g i s p' rt') j = Some q -> (j = i /\ q = p') \/ (j <> i /\ exists q0, mg_pool g j = Some q0 /\ clock_of q = clock_of q0 /\ p_table q = p_table q0)) as Hat.
  { intros j q Hj. destruct (moved_at Sum64 hasher (mg_bm g) (Z.of_nat i) s p' ltac:(lia) Hs' (ck_wt _ _ Hok') Hsp Hown' (Z.of_nat j) q ltac:(lia) Hj) as [[E ->]|(Hne & q0 & Hq0 & ->)]; [left; split; [lia|done]|].
    right. split; [lia|]. exists q0. done. }
  split; [split; [split|..]|].
  - eapply (moved_bm_ok Sum64 hasher (mg_bm g) (Z.of_nat i) s p'); try done; [lia|apply Hok'].
  - cbn. rewrite !length_insert. split; [done|]. by apply Forall_insert.
  - done.
  - done.
  - intros j q Hj. destruct (Hat j q Hj) as [[-> ->]|(_ & q0 & Hq0 & Hc & Ht)]; [done|].
    intros k x e. rewrite Hc, Ht. by eapply Hpins.
  - intros j q Hlt Hj. destruct (Hat j q Hj) as [[-> ->]|(Hne & q0 & Hq0 & Hc & Ht)]; [done|].
    intros k x e. rewrite Hc, Ht. eapply (Hcl j); [lia|done].
  - intros j rt0 q Hle Hj Hjq. cbn in Hj. rewrite list_lookup_insert_ne in Hj by lia.
    destruct (Hat j q Hjq) as [[-> _]|(_ & q0 & Hq0 & Hc & _)]; [lia|]. rewrite Hc. by apply (Hroom j rt0 q0); [lia|..].
  - intros k Hk Ha. eapply (moved_pages Sum64 hasher (mg_bm g) (Z.of_nat i) s p'); try done; [lia|apply Hok'].
Qed.

Lemma bg_round_returns g i : rounds_done i g -> (i < length (bm_shards (mg_bm g)))%nat ->
  returns (with_shard i bg_round) g (fun _ g' => rounds_done (S i) g' /\ same_view g g' /\ length (bm_shards (mg_bm g')) = length (bm_shards (mg_bm g))).
Proof.
  intros Hd Hi. pose proof Hd as [[Hb [Hlen Hrt] _ _] _ _ Hroom]. destruct (lookup_lt_is_Some_2 _ _ Hi) as [s Hs].
  destruct (lookup_lt_is_Some_2 (mg_rt g) i) as [rt Hr]; [lia|]. rewrite Forall_lookup in Hrt. destruct (Hrt i rt Hr) as [Hw He].
  set (p := sh_pool (lend (bm_pager (mg_bm g)) s)).
  assert (pool_at (mg_bm g) (Z.of_nat i) = Some p) as Hp by (unfold pool_at; by rewrite Nat2Z.id, Hs).
  destruct (bo_cache _ _ _ _ Hb (Z.of_nat i) p ltac:(lia) Hp) as (Hok & Hq & _).
  destruct (Hroom i rt p ltac:(lia) Hr Hp) as [Hn Hmax]. pose proof (wo_pool _ _ (ck_wt _ _ Hok)) as [[Hcl _] _].
  pose proof (bg_pass_settles Sum64 (capacity (clock_of p)) 0 p (sr_written rt) Hok Hq ltac:(lia) Hn Hmax) as Hset.
  unfold settles in Hset. destruct (bg_pass (capacity (clock_of p)) 0 (mkBg p (sr_written rt))) as [[[]|err| | |] [p' n']] eqn:E; try done.
  cbn [bg_pool] in Hset. destruct (after_round_done g i s p' rt (mkRt (sr_workers rt) false n') Hd Hs Hr) as [H1 H2]; [by split|done|].
  exists tt, (after_round g i s p' (mkRt (sr_workers rt) false n')). split; [|split_and!; [done|done|cbn; by rewrite length_insert]].
  unfold with_shard. rewrite Hr, Hs. unfold bg_round, mbind, M_bind, get_state. cbn [fst snd]. rewrite He. unfold zoom. cbn [fst snd].
  unfold bg_cycle, mbind, M_bind, gets. cbn [bg_pool]. fold p. rewrite E. unfold after_round, shard_moved. cbn. by rewrite Nat2Z.id, He.
Qed.

Lemma bg_rounds_from n : forall i g, rounds_done i g -> (i + n)%nat = length (bm_shards (mg_bm g)) ->
  returns (each_shard n i bg_round) g (fun _ g' => rounds_done (i + n) g' /\ same_view g g' /\ length (bm_shards (mg_bm g')) = length (bm_shards (mg_bm g))).
Proof.
  induction n as [|n IH]; intros i g Hd Hn; cbn [each_shard].
  - go_step. rewrite Nat.add_0_r. by split_and!.
  - go_step. go_call bg_round_returns; [|done|lia]. intros _ g1 (Hd1 & Hv1 & Hl1). cbn beta.
    go_call IH; [|done|lia]. intros _ g2 (Hd2 & Hv2 & Hl2). cbn beta. rewrite Nat.add_succ_r. split_and!; [done| |congruence].
    intros k Hk Ha. destruct (Hv1 k Hk Ha) as [Ha1 <-]. by apply Hv2.
Qed.

(** ** Closing *)

(** Shards from [i] on are open, those before are closed. *)
Definition closing (i : nat) (g : Manager) : Prop :=
  length (mg_rt g) = length (bm_shards (mg_bm g)) /\
  forall j rt s, mg_rt g !! j = Some rt -> bm_shards (mg_bm g) !! j = Some s ->
    if decide (j < i)%nat then jobQ (sr_workers rt) = Some [] /\ w_closed (sr_workers rt) = true
    else rt_open rt /\ bPool (clock_of (sh_pool s)) <> [].

(** The pager and the files are not touched. *)
Definition beside (g g' : Manager) : Prop :=
  bm_pager (mg_bm g') = bm_pager (mg_bm g) /\ mg_io g' = mg_io g /\ mg_fd g' = mg_fd g /\ mg_flfd g' = mg_flfd g /\
  length (bm_shards (mg_bm g')) = length (bm_shards (mg_bm g)).

Lemma shard_close_returns g i : closing i g -> (i < length (bm_shards (mg_bm g)))%nat ->
  returns (with_shard i (shard_close Sum64)) g (fun _ g' => closing (S i) g' /\ beside g g').
Proof.
  intros [Hlen Hc] Hi. destruct (lookup_lt_is_Some_2 _ _ Hi) as [s Hs]. destruct (lookup_lt_is_Some_2 (mg_rt g) i) as [rt Hr]; [lia|].
  pose proof (Hc i rt s Hr Hs) as Hi'. rewrite decide_False in Hi' by lia. destruct Hi' as [[Hw He] Hb].
  destruct (shutdown_resting (perform_bm Sum64) (sr_workers rt) (sh_pool (lend (bm_pager (mg_bm g)) s)) Hw) as (w' & Hsd & Hq & Hcl & _).
  destruct (bPool (clock_of (sh_pool s))) as [|e l] eqn:Hpool; [done|]. unfold with_shard. unfold returns. rewrite Hr, Hs.
  unfold shard_close, shutdownWorkers, close_exitchan, on_shpool, wtinylfu_close, or_panic, catch, on_clock, clock_close, zoom, mbind, M_bind, get_state. cbn [fst snd].
  rewrite Hsd. cbn [fst snd sr_exit]. rewrite He. unfold modify. cbn [fst snd sh_pool]. change (clock_of (sh_pool (lend _ s))) with (clock_of (sh_pool s)).
  rewrite Hpool. do 2 eexists. split; [reflexivity|]. split; [split|split_and!; [done..|apply length_insert]].
  - cbn. by rewrite !length_insert.
  - cbn. intros j rtj sj. destruct (decide (j = i)) as [->|Hne].
    + rewrite !list_lookup_insert_eq by lia. intros [= <-] [= <-]. rewrite decide_True by lia. done.
    + rewrite !list_lookup_insert_ne by done. intros H1 H2. specialize (Hc j rtj sj H1 H2).
      destruct (decide (j < i)%nat), (decide (j < S i)%nat); try lia; done.
Qed.

Lemma close_shards n : forall i g, closing i g -> (i + n)%nat = length (bm_shards (mg_bm g)) ->
  returns (each_shard n i (shard_close Sum64)) g (fun _ g' => closing (i + n) g' /\ beside g g').
Proof.
  induction n as [|n IH]; intros i g Hc Hn; cbn [each_shard].
  - go_step. rewrite Nat.add_0_r. done.
  - go_step. go_call shard_close_returns; [|done|lia]. intros _ g1 (Hc1 & A1 & A2 & A3 & A4 & A5). cbn beta.
    go_call IH; [|done|lia]. intros _ g2 (Hc2 & B1 & B2 & B3 & B4 & B5). cbn beta. rewrite Nat.add_succ_r. split; [done|].
    split_and!; congruence.
Qed.

(** The files as they were, all shards closed, and every later use of them refused. *)
Definition closed_over (g g' : Manager) : Prop :=
  bm_pager (mg_bm g') = bm_pager (mg_bm g) /\ mg_fd g' = false /\ mg_flfd g' = false /\
  length (bm_shards (mg_bm g')) = length (bm_shards (mg_bm g)) /\ closing (length (bm_shards (mg_bm g))) g'.

Lemma Close_returns g : closing 0 g -> resting (mg_io g) -> mg_fd g = true -> mg_flfd g = true ->
  returns (Close Sum64) g (fun _ g' => closed_over g g').
Proof.
  intros Hc Hio Hfd Hfl. unfold Close. go_step. go_step. go_step. go_call (close_shards (length (bm_shards (mg_bm g))) 0 g); [|done|done].
  intros _ g1 (Hc1 & H1 & H2 & H3 & H4 & H5). cbn beta. rewrite <- H2 in Hio.
  destruct (shutdown_resting perform_io (mg_io g1) (bm_pager (mg_bm g1)) Hio) as (w' & Hsd & _).
  unfold pager_Close, Flush, ForceFlush, shutdown_io, disk_Close, freelist_close, returns, mbind, M_bind, get_state, zoom. rewrite H3, Hfd.
  unfold mret, M_ret. rewrite Hsd. cbn [mg_fd]. rewrite H3, Hfd. unfold modify. cbn [mg_flfd]. rewrite H4, Hfl.
  do 2 eexists. split; [reflexivity|]. by split_and!.
Qed.

Lemma open_closing g : mg_ok g -> closing 0 g.
Proof.
  intros [Hb [Hlen Hrt] _ _]. split; [done|]. intros j rt s Hj Hs. rewrite decide_False by lia. rewrite Forall_lookup in Hrt. split; [by eapply Hrt|].
  destruct (bo_cache _ _ _ _ Hb (Z.of_nat j) (sh_pool (lend (bm_pager (mg_bm g)) s))) as (Hok & _); [lia|unfold pool_at; by rewrite Nat2Z.id, Hs|].
  pose proof (wo_pool _ _ (ck_wt _ _ Hok)) as [[Hcl Hh] _].
  intros E. change (clock_of (sh_pool s)) with (clock_of (sh_pool (lend (bm_pager (mg_bm g)) s))) in E. rewrite E in Hcl. cbn [length] in Hcl. lia.
Qed.

(** A lookup on a closed manager panics. *)
Lemma closed_Get g g' k : bm_shards (mg_bm g) <> [] -> closed_over g g' -> mg_Get Sum64 hasher k g' = (Panic "send on closed channel", g').
Proof.
  intros Hne (_ & _ & _ & Hl & Hlen & Hc). assert (bm_shards (mg_bm g') <> []) as Hne'.
  { intros E. rewrite E in Hl. by destruct (bm_shards (mg_bm g)). }
  pose proof (shard_range hasher (mg_bm g') k Hne') as Hr. destruct (shard_exists hasher (mg_bm g') k Hne') as [s Hs].
  destruct (lookup_lt_is_Some_2 (mg_rt g') (Z.to_nat (shard_of k (mg_bm g')))) as [rt Hrt]; [lia|].
  specialize (Hc _ rt s Hrt Hs). rewrite decide_True in Hc by lia. destruct Hc as [Hq Hcl].
  unfold mg_Get, submitted. rewrite Hrt. by rewrite (send_closed _ _ _ Hq Hcl).
Qed.

End Manager.

(** ** Opening *)

(** What [NewBufferManager] is given: some processor, filters and numbers of frames
    that are in range. *)
Record open_args (sizes : Z -> Z * Z) (filter : nat -> TinyLFU) (numCPU WorkerSize numShards : Z) : Prop := {
  oa_cpu : 0 < numCPU;
  oa_workers : 0 <= WorkerSize;
  oa_shards : 0 <= numShards;
  oa_filter : forall i, filter_ok (filter i);
  oa_sizes : forall c, (sizes c).1 + (sizes c).2 < 2 ^ 63 }.

Lemma load_pages_file n : forall i fl o fl', load_pages n i fl = (o, fl') -> fl_fd fl' = fl_fd fl.
Proof.
  induction n as [|n IH]; intros i fl o fl'; cbn [load_pages]; [by intros [= _ <-]|].
  unfold mbind, M_bind, get_state, lift_outcome, put_state, panic. destruct (ReadAt _ _ _) as [b [|]]; [by intros [= _ <-]|].
  destruct (read_items _ b) as [[items [|]]| | | |]; try (by intros [= _ <-]). intros E. by apply IH in E.
Qed.

Lemma loadFreeList_file fl o fl' : loadFreeList fl = (o, fl') -> fl_fd fl' = fl_fd fl.
Proof.
  unfold loadFreeList, mbind, M_bind, get_state. destruct (load_pages _ _ _) as [r fl1] eqn:E. apply load_pages_file in E.
  unfold modify. by destruct r; intros [= _ <-].
Qed.

Section Open.
Context (Sum64 hasher : bytes -> Z).
Context (sizes : Z -> Z * Z) (filter : nat -> TinyLFU) (numCPU : Z) (DataFile FreeListFile : string) (data fl : bytes).
Context (WorkerSize CacheSize numShards : Z) (testing : bool) (g : Manager).
Context (Hargs : open_args sizes filter numCPU WorkerSize numShards).
Context (Hopen : open_manager hasher sizes filter numCPU DataFile FreeListFile data fl WorkerSize CacheSize numShards testing = Val g).

Lemma spawned_resting {J} n m : (0 < n)%nat -> resting (spawn n (new_workers m) : workerpool J).
Proof. intros Hn. split_and!; [done|done|]. destruct n as [|n]; [lia|]. by exists n. Qed.

Lemma open_manager_ok : mg_ok Sum64 hasher g /\ (forall i p, pool_at (mg_bm g) i = Some p -> p_table p = ∅) /\ data_file g = data /\
  freelist_file g = fl /\ rootPageId (bm_pager (mg_bm g)) = 0 /\ maxPageId (bm_pager (mg_bm g)) = 0.
Proof.
  destruct Hargs as [Hcpu Hws Hns Hfil Hsz]. unfold open_manager, NewDiskManager in Hopen.
  destruct (String.length DataFile =? 0)%nat; [done|]. cbn [outcome_bind] in Hopen.
  destruct (NewPager (Some (mkDisk data ∅)) FreeListFile fl WorkerSize) as [pgr| | | |] eqn:Hp; try done. cbn [outcome_bind] in Hopen.
  destruct (startWorkers _ _) as [io| | | |] eqn:Hio; try done. cbn [outcome_bind] in Hopen.
  destruct (NewBufferManager _ _ _ _ _ _ _ _) as [bm| | | |] eqn:Hbm; try done. cbn [outcome_bind] in Hopen. injection Hopen as <-.
  assert (dManager pgr = mkDisk data ∅ /\ fl_fd (freeList pgr) = fl /\ rootPageId pgr = 0 /\ maxPageId pgr = 0) as (Hd & Hfl & Hroot & Hmax).
  { unfold NewPager, NewFreeList in Hp. destruct (String.length FreeListFile =? 0)%nat; [done|].
    destruct (loadFreeList _) as [o fl'] eqn:Hl. destruct o; try done. destruct (_ >? _); [done|]. injection Hp as <-. cbn. split_and!; try done.
    by apply loadFreeList_file in Hl. }
  destruct (NewBufferManager_ok Sum64 hasher sizes filter numCPU pgr CacheSize numShards testing bm Hbm) as (Hok & Hpg & Htab); try done.
  { rewrite Hd. intros off. unfold queue_of. cbn. by rewrite lookup_empty. }
  split_and!; [split| |..]; cbn; unfold data_file, freelist_file; cbn; rewrite ?Hpg, ?Hd; try done.
  - rewrite length_replicate. split; [done|]. apply Forall_replicate. split; [|done]. apply spawned_resting, Nat.ltb_lt. vm_compute. reflexivity.
  - revert Hio. unfold startWorkers. cbn. destruct (Z.eqb_spec (if WorkerSize =? 0 then MAX_WORKERS else WorkerSize) 0); [done|].
    destruct (_ >? _); [done|]. intros [= <-]. apply spawned_resting. destruct (Z.eqb_spec WorkerSize 0); [apply Nat.ltb_lt; vm_compute; reflexivity|lia].
Qed.

(** A page of the file is there for its users, whatever the hash function. *)
Lemma open_stored pgr k : data = d_fd (dManager pgr) -> stored pgr k ->
  bm_available hasher (mg_bm g) k /\ bm_seen hasher (mg_bm g) k = undirty (page_of pgr k).
Proof.
  intros Hfd Hst. destruct open_manager_ok as ([Hb _ _ _] & Htab & Hdata & _). pose proof (bo_shards _ _ _ _ Hb) as Hne.
  destruct (shard_exists hasher (mg_bm g) k Hne) as [s Hs]. pose proof (shard_range hasher (mg_bm g) k Hne) as Hr.
  unfold bm_available, bm_seen. rewrite (bm_pool_at hasher _ _ _ Hs).
  assert (p_table (sh_pool (lend (bm_pager (mg_bm g)) s)) = ∅) as Ht.
  { apply (Htab (getShard hasher k (mg_bm g))). unfold pool_at. by rewrite Hs. }
  unfold data_file in Hdata. rewrite Hfd in Hdata.
  unfold available, seen, cached. rewrite Ht, lookup_empty. cbn [mbind option_bind default from_option].
  change (p_pager (sh_pool (lend (bm_pager (mg_bm g)) s))) with (bm_pager (mg_bm g)).
  rewrite (page_of_fd _ _ k Hdata), (stored_fd _ _ k Hdata). auto.
Qed.

End Open.


(** C38: a restart loses the pager's metadata, and with it pages.  [NewPager] does not
    read the metadata page: whatever the data file holds, a manager opened on it has no
    root and counts page ids from 1 again, so when the file of free ids is empty its
    first new page gets the id 1.  If page 1 is in the file, its users saw it before
    the call; afterwards they see the empty new page instead, whose frame is dirty and
    so will be written over the old page. *)
Theorem restart_reissues_ids Sum64 hasher sizes filter numCPU DataFile FreeListFile data WorkerSize CacheSize numShards testing g internal root :
  open_args sizes filter numCPU WorkerSize numShards ->
  open_manager hasher sizes filter numCPU DataFile FreeListFile data [] WorkerSize CacheSize numShards testing = Val g ->
  rootPageId (bm_pager (mg_bm g)) = 0 /\ maxPageId (bm_pager (mg_bm g)) = 0 /\
  (forall pgr, data = d_fd (dManager pgr) -> stored pgr 1 ->
     bm_available hasher (mg_bm g) 1 /\ bm_seen hasher (mg_bm g) 1 = undirty (page_of pgr 1)) /\
  returns (NewFrame Sum64 hasher internal root) (mg_bm g) (fun f b' => exists p e, pool_at b' f.1 = Some p /\ bPool (clock_of p) !! f.2 = Some e /\
    f_key (entry e) = 1 /\ f_dirty (entry e) = true /\ bm_available hasher b' 1 /\ bm_seen hasher b' 1 = new_page internal 1).
Proof.
  intros Hargs Hopen. pose proof (open_manager_ok Sum64 hasher _ _ _ _ _ _ _ _ _ _ _ _ Hargs Hopen) as ([Hb _ _ _] & _ & _ & _ & Hroot & Hmax).
  split; [done|]. split; [done|]. split.
  { intros pgr. by apply (open_stored Sum64 hasher _ _ _ _ _ _ _ _ _ _ _ _ Hargs Hopen). }
  destruct Hargs as [_ _ _ Hfil Hsz]. unfold open_manager, NewDiskManager in Hopen.
  destruct (String.length DataFile =? 0)%nat; [done|]. cbn [outcome_bind] in Hopen.
  destruct (NewPager (Some (mkDisk data ∅)) FreeListFile [] WorkerSize) as [pgr| | | |] eqn:Hp; try done. cbn [outcome_bind] in Hopen.
  destruct (startWorkers _ _); try done. cbn [outcome_bind] in Hopen.
  destruct (NewBufferManager _ _ _ _ _ _ _ _) as [bm| | | |] eqn:Hbm; try done. cbn [outcome_bind] in Hopen. injection Hopen as <-.
  assert (idle (dManager pgr) /\ fl_count (freeList pgr) = 0 /\ maxPageId pgr = 0) as (Hid & Hfl & Hm).
  { unfold NewPager, NewFreeList in Hp. destruct (String.length FreeListFile =? 0)%nat; [done|].
    change (loadFreeList (mkFreeList 0 [] false [])) with (Val tt, mkFreeList 0 [] false []) in Hp. destruct (_ >? _); [done|]. injection Hp as <-.
    split; [|done]. intros off. unfold queue_of. cbn. by rewrite lookup_empty. }
  eapply first_NewFrame; try done. apply (bo_shards _ _ _ _ Hb).
Qed.

Module LifecycleSample.
Import PoolSample ShardSample ManagerSample.

#[local] Opaque p3 sh0.

(** Two shards: page 1 is in a dirty frame of the second one, with a 7 at offset 100. *)
Definition bm1 : BufferManager := mkBM (p_pager p3) [sh0; mkShard p3 NewDirtyPageList].
Definition rt0 : shard_rt := mkRt (spawn 400 (new_workers 400)) false 0.
Definition g1 : Manager := mkManager bm1 [rt0; rt0] (spawn 2 (new_workers 2)) true true.

Lemma own_pager p : set_pager (p_pager p) p = p.
Proof. by destruct p. Qed.

Lemma bm1_ok : bm_ok hash0 parity bm1.
Proof.
  destruct p3_ok as [Hok Hq]. split; [done|]. intros i p Hi Hp. unfold pool_at in Hp. cbn [bm_shards bm1] in Hp.
  assert (i = 0 \/ i = 1 \/ 2 <= i) as [->|[->|Hi2]] by lia.
  - apply Some_inj in Hp as <-. destruct (newShard_ok hash0 filter0 pager0 2 3 false sh0 sh0_new) as (Hok0 & Hq0 & _ & Ht); [lia|exact filter0_ok|exact pager0_idle|].
    destruct (foreign_cache hash0 (fun _ => False) (sh_pool sh0) (p_pager p3) Hok0 Hq0) as [H1 H2]; [apply (wo_idle _ _ (ck_wt _ _ Hok))|intros k j Hk; by rewrite Ht, lookup_empty in Hk|].
    split; [exact H1|]. split; [exact H2|]. intros k j Hk. change (p_table (sh_pool sh0) !! k = Some j) in Hk. by rewrite Ht, lookup_empty in Hk.
  - change (Some (set_pager (p_pager p3) p3) = Some p) in Hp. rewrite own_pager in Hp. apply Some_inj in Hp as <-. split; [exact Hok|]. split; [exact Hq|]. intros k j Hk.
    assert (p_table p3 = {[1 := 0%nat]}) as E by (vm_compute; reflexivity). change (p_table p3 !! k = Some j) in Hk.
    rewrite E in Hk. apply lookup_singleton_Some in Hk as [<- _]. vm_compute. reflexivity.
  - rewrite lookup_ge_None_2 in Hp; [done|]. cbn. lia.
Qed.

Lemma rt0_open : rt_open rt0.
Proof. split; [apply spawned_resting; lia|done]. Qed.

Lemma g1_ok : mg_ok hash0 parity g1.
Proof.
  split; [exact bm1_ok| | |done].
  - split; [done|]. apply Forall_cons; split; [exact rt0_open|]. apply Forall_cons; split; [exact rt0_open|]. by apply Forall_nil.
  - apply spawned_resting. lia.
Qed.

Lemma g1_pools i p : mg_pool g1 i = Some p -> (unpinned_pool p /\ capacity (clock_of p) = 5%nat).
Proof.
  unfold mg_pool, pool_at. rewrite Nat2Z.id. destruct i as [|[|i]]; [| |done].
  all: cbn [lookup list_lookup bm_shards mg_bm g1 bm1 fmap option_fmap option_map lend bm_pager sh_pool]; rewrite ?own_pager.
  all: intros Hp%Some_inj; subst p; (split; [|vm_compute; reflexivity]); intros k i e Hk He.
  - assert (p_table (sh_pool sh0) = ∅) as E by (vm_compute; reflexivity). change (p_table (sh_pool sh0) !! k = Some i) in Hk. by rewrite E, lookup_empty in Hk.
  - assert (p_table p3 = {[1 := 0%nat]}) as E by (vm_compute; reflexivity). change (p_table p3 !! k = Some i) in Hk.
    rewrite E in Hk. apply lookup_singleton_Some in Hk as [_ <-]. change (bPool (clock_of p3) !! 0%nat = Some e) in He.
    rewrite (entry_at_lookup p3 0) in He by (vm_compute; eauto). injection He as <-. vm_compute. reflexivity.
Qed.


(** *** What a restart loses *)

Definition open0 (data fl : bytes) : outcome Manager := open_manager parity sizes (fun _ => filter0) 1 "data" "baobab" data fl 2 8192 2 true.
Definition reopened (g : Manager) : Manager := match open0 (data_file g) (freelist_file g) with Val g' => g' | _ => g end.
Definition fresh : Manager := match open0 [] [] with Val g => g | _ => g1 end.

Definition on_bm {A} (m : M BufferManager A) : M Manager A :=
  zoom mg_bm (fun b g => mkManager b (mg_rt g) (mg_io g) (mg_fd g) (mg_flfd g)) m.

(** A new page whose user stores [b] at offset 100. *)
Definition new_with (b : Z) : M Manager Z :=
  f ← on_bm (NewFrame hash0 parity false false);
  k ← on_bm (frame_key f);
  on_bm (on_shard f.1 (on_shpool (on_en f.2 (on_fpage (modify (PutUint32 100 b)));; mark_dirty f.2;; on_en f.2 unref)));;
  mret k.

(** The four bytes at offset 100 of a page of the data file. *)
Definition word_of (g : Manager) (k : Z) : bytes := region (page_at (data_file g) (k * 8192)) 100 4.

(** The first life: page 1 is made, written by the background writer, and the
    manager is closed. *)
Definition life1 : M Manager Z := k ← new_with 7; bg_rounds;; Close hash0;; mret k.
Definition closed1 : Manager := (life1 fresh).2.
Definition life2 : M Manager Z := k ← new_with 9; bg_rounds;; mret k.

Lemma life1_runs : life1 fresh = (Val 1, closed1).
Proof. unfold closed1. apply (pair_val (life1 fresh)). vm_compute. reflexivity. Qed.
Lemma reopens : open0 (data_file closed1) (freelist_file closed1) = Val (reopened closed1).
Proof.
  assert (exists g, open0 (data_file closed1) (freelist_file closed1) = Val g) as [g Hg].
  { destruct (open0 (data_file closed1) (freelist_file closed1)) as [g| | | |] eqn:E; [by exists g|exfalso..]; apply (f_equal (fun o => match o with Val _ => true | _ => false end)) in E; vm_compute in E; done. }
  unfold reopened. by rewrite Hg.
Qed.

(** A whole run: page 1 is in the file when it is opened again, the next new page gets
    the same id, and the background writer puts it over the old one. *)
Example restart_overwrites : exists g g2,
  life1 fresh = (Val 1, g) /\ word_of g 1 = le32 7 /\ open0 (data_file g) (freelist_file g) = Val g2 /\ word_of g2 1 = le32 7 /\
  rootPageId (bm_pager (mg_bm g2)) = 0 /\ (life2 g2).1 = Val 1 /\ word_of (life2 g2).2 1 = le32 9.
Proof.
  exists closed1, (reopened closed1). split; [exact life1_runs|]. split; [vm_compute; reflexivity|]. split; [exact reopens|].
  split_and!; vm_compute; reflexivity.
Qed.

Lemma open0_args : open_args sizes (fun _ => filter0) 1 2 2.
Proof. split; [lia|lia|lia|intros _; exact filter0_ok|intros c; cbn; lia]. Qed.

#[local] Opaque closed1 reopened.

Lemma freelist_empty : freelist_file closed1 = [].
Proof. vm_compute. reflexivity. Qed.

Lemma reopens_empty : open_manager parity sizes (fun _ => filter0) 1 "data" "baobab" (data_file closed1) [] 2 8192 2 true = Val (reopened closed1).
Proof. rewrite <- freelist_empty at 1. exact reopens. Qed.

(** The files that the first life left. *)
Lemma restart_reissues_ids_witness :
  rootPageId (bm_pager (mg_bm (reopened closed1))) = 0 /\ maxPageId (bm_pager (mg_bm (reopened closed1))) = 0 /\
  (forall pgr, data_file closed1 = d_fd (dManager pgr) -> stored pgr 1 ->
     bm_available parity (mg_bm (reopened closed1)) 1 /\ bm_seen parity (mg_bm (reopened closed1)) 1 = undirty (page_of pgr 1)) /\
  returns (NewFrame hash0 parity false false) (mg_bm (reopened closed1)) (fun f b' => exists p e, pool_at b' f.1 = Some p /\ bPool (clock_of p) !! f.2 = Some e /\
    f_key (entry e) = 1 /\ f_dirty (entry e) = true /\ bm_available parity b' 1 /\ bm_seen parity b' 1 = new_page false 1).
Proof.
  exact (restart_reissues_ids hash0 parity sizes (fun _ => filter0) 1 "data" "baobab" (data_file closed1) 2 8192 2 true (reopened closed1) false false open0_args reopens_empty).
Defined.

(** Frames the background writer has not come to are dropped by [Close]. *)
Example close_drops_dirty : (new_with 7;; Close hash0;; gets data_file) fresh = (Val [], ((new_with 7;; Close hash0) fresh).2).
Proof. vm_compute. reflexivity. Qed.

End LifecycleSample.
