(* ===== verification/Server.v ===== *)
(** * The HTTP service ([main.go])

    [main] opens the log, builds the index, replays the log and serves requests.  A
    handler is a function over the index that returns the response it writes.

    From [net/http] the model has what the program relies on: the routing of
    [ServeMux] (paths are cleaned by a redirect, the pattern with the longest match
    wins, a path that lacks the final slash of a pattern is redirected), path
    unescaping, the limit on a request's body, and that a panic of a handler ends
    its connection and not the process.  Responses are the values handed to the JSON
    encoder.  The JSON decoder is the argument [Decode]. *)

From S2P Require Import Prelude Keys Helpers BTStack Wal BTree BTreeDelete Recovery.
Local Open Scope Z_scope.

(** ** Strings *)

Definition slash : Z := 47.

(** [strings.TrimPrefix]. *)
Fixpoint strip (prefix s : bytes) : option bytes :=
  match prefix, s with
  | [], _ => Some s
  | a :: p, b :: s' => if a =? b then strip p s' else None
  | _ :: _, [] => None
  end.
Definition TrimPrefix (s prefix : bytes) : bytes := default s (strip prefix s).

(** [strings.Contains(s, "/")]. *)
Definition ContainsSlash (s : bytes) : bool := existsb (Z.eqb slash) s.

Definition hex_digit (a : Z) : option Z :=
  if (48 <=? a) && (a <=? 57) then Some (a - 48)
  else if (65 <=? a) && (a <=? 70) then Some (a - 55)
  else if (97 <=? a) && (a <=? 102) then Some (a - 87)
  else None.

(** [url.PathUnescape]; [None] for an incomplete or invalid escape. *)
Fixpoint PathUnescape (s : bytes) : option bytes :=
  match s with
  | [] => Some []
  | c :: s' =>
      if c =? 37 then
        match s' with
        | a :: b :: r =>
            x ← hex_digit a; y ← hex_digit b; r' ← PathUnescape r; Some (16 * x + y :: r')
        | _ => None
        end
      else r ← PathUnescape s'; Some (c :: r)
  end.

(** [strconv.Atoi]: an optional sign, decimal digits, and the range of [int]. *)
Fixpoint digits (acc : Z) (s : bytes) : option Z :=
  match s with
  | [] => Some acc
  | c :: s' => if (48 <=? c) && (c <=? 57) then digits (10 * acc + (c - 48)) s' else None
  end.
Definition Atoi (s : bytes) : option Z :=
  let '(neg, ds) := match s with
    | c :: s' => if c =? 45 then (true, s') else if c =? 43 then (false, s') else (false, s)
    | [] => (false, s)
    end in
  match ds with
  | [] => None
  | _ =>
      n ← digits 0 ds;
      let v := if neg : bool then - n else n in
      if (- 2 ^ 63 <=? v) && (v <? 2 ^ 63) then Some v else None
  end.

(** ** Requests and responses *)

(** [Query] holds the parsed query, [Cancelled] whether the request's context is done. *)
Record Request := mkRequest {
  Method : string; EscapedPath : bytes; Query : list (bytes * bytes); Cancelled : bool; Body : bytes }.

Record KV := mkKV { kv_Key : bytes; kv_Val : bytes }.
Record RangeRes := mkRangeRes { rr_Status : string; rr_Count : Z; rr_Results : list KV }.
Record DelResp := mkDelResp { dr_Status : string; dr_Deleted : bool }.
Record ErrResp := mkErrResp { Error : string }.

Inductive json_value := JKV (v : KV) | JRange (v : RangeRes) | JDel (v : DelResp) | JErr (v : ErrResp).

(** A JSON response, a plain text, or a redirect to a path. *)
Inductive Response := JSON (status : Z) (v : json_value) | Text (status : Z) (s : string) | Redirect (path : bytes).

Definition StatusOK : Z := 200.
Definition StatusBadRequest : Z := 400.
Definition StatusMethodNotAllowed : Z := 405.
Definition StatusRequestTimeout : Z := 408.

(** [query.Get]: the first value of the key, or the empty string. *)
Definition query_Get (q : list (bytes * bytes)) (key : string) : bytes :=
  match list_find (fun p => p.1 = str key) q with Some (_, (_, v)) => v | None => [] end.

(** The body behind [http.MaxBytesReader]: its bytes up to the limit, and whether
    reading on is an error. *)
Record reader := mkReader { rd_bytes : bytes; rd_tooLarge : bool }.
Definition maxBodyBytes : Z := Z.shiftl 10 20.
Definition MaxBytesReader (b : bytes) (n : Z) : reader :=
  if Z.of_nat (length b) <=? n then mkReader b false else mkReader (take (Z.to_nat n) b) true.

(** ** Routing *)

(** The parts of a path between its slashes; the first slash is dropped. *)
Fixpoint split_slash (s : bytes) : list bytes :=
  match s with
  | [] => [[]]
  | c :: s' =>
      if c =? slash then [] :: split_slash s'
      else match split_slash s' with [] => [[c]] | p :: ps => (c :: p) :: ps end
  end.
Definition segments (p : bytes) : list bytes := split_slash (tail p).

(** [path.Clean] of a rooted path, on its parts: empty parts and dots go away, two
    dots take the part before them along. *)
Fixpoint clean_parts (kept : list bytes) (ps : list bytes) : list bytes :=
  match ps with
  | [] => reverse kept
  | p :: ps' =>
      if decide (p = [] \/ p = str ".") then clean_parts kept ps'
      else if decide (p = str "..") then clean_parts (tail kept) ps'
      else clean_parts (p :: kept) ps'
  end.
Definition join_parts (ps : list bytes) : bytes :=
  match ps with [] => [slash] | _ => concat ((fun p => slash :: p) <$> ps) end.

Definition cleanPath (p : bytes) : bytes :=
  match p with
  | [] => [slash]
  | c :: _ =>
      let p := if c =? slash then p else slash :: p in
      let np := join_parts (clean_parts [] (segments p)) in
      if decide (last p = Some slash /\ np <> [slash]) then np ++ [slash] else np
  end.

(** The registered patterns: literal parts, and whether more may follow. *)
Inductive handler := Hello | GetKey | AddKey | GetRange | RemoveKey.
Record pattern := mkPattern { pat_parts : list bytes; pat_multi : bool; pat_handler : handler }.

Definition patterns : list pattern :=
  [mkPattern [] true Hello;
   mkPattern [str "kv"] true GetKey;
   mkPattern [str "kv"] false AddKey;
   mkPattern [str "kv"; str "range"] false GetRange;
   mkPattern [str "kv"; str "remove"] true RemoveKey].

(** What is left of the parts behind the literal ones. *)
Fixpoint parts_after (lits parts : list bytes) : option (list bytes) :=
  match lits, parts with
  | [], _ => Some parts
  | a :: l, b :: p => if decide (a = b) then parts_after l p else None
  | _ :: _, [] => None
  end.
Definition pat_match (parts : list bytes) (pt : pattern) : bool :=
  match parts_after (pat_parts pt) parts with
  | None => false
  | Some rest => if pat_multi pt then negb (bool_decide (rest = [])) else bool_decide (rest = [])
  end.

(** The matching pattern with the most literal parts. *)
Definition better (parts : list bytes) (best : option pattern) (pt : pattern) : option pattern :=
  if pat_match parts pt then
    match best with
    | Some b => if (length (pat_parts b) <? length (pat_parts pt))%nat then Some pt else best
    | None => Some pt
    end
  else best.
Definition find_pattern (path : bytes) : option pattern :=
  foldl (better ((fun p => default p (PathUnescape p)) <$> segments path)) None patterns.

Definition exactMatch (n : option pattern) (path : bytes) : bool :=
  match n with
  | None => false
  | Some pt =>
      if negb (pat_multi pt) then true
      else if negb (bool_decide (last path = Some slash)) then false
      else (S (length (pat_parts pt)) =? length (filter (fun c => c = slash) path))%nat
  end.

(** [findHandler]: a handler, or the path to redirect to. *)
Definition findHandler (method : string) (escaped path : bytes) : handler + bytes :=
  let p := if decide (method = "CONNECT"%string) then escaped else cleanPath escaped in
  let n := find_pattern p in
  if negb (exactMatch n p) && negb (bool_decide (last p = Some slash)) && exactMatch (find_pattern (p ++ [slash])) (p ++ [slash])
  then inr (cleanPath path ++ [slash])
  else if decide (p <> escaped) then inr p
  else inl (from_option pat_handler Hello n).

(** ** Handlers *)

Section Server.
Context {C F : Type} `{!CacheOps C F}.
Context (Decode : reader -> KV + string).
Local Abbreviation MT := (M (BTree C)).

Definition writeJSON (status : Z) (v : json_value) : MT Response := mret (JSON status v).
Definition write_error (status : Z) (e : string) : MT Response := writeJSON status (JErr (mkErrResp e)).

Definition getKey (fuel : nat) (r : Request) (path : bytes) : MT Response :=
  if decide (Method r <> "GET"%string) then write_error StatusMethodNotAllowed "method not allowed"
  else
    let key := TrimPrefix path (str "/kv/") in
    if bool_decide (key = []) || ContainsSlash key then write_error StatusBadRequest "invalid key in path"
    else
      res ← catch (Get fuel key);
      match res with
      | inr err => write_error StatusBadRequest (Message err)
      | inl val => writeJSON StatusOK (JKV (mkKV key val))
      end.

Definition getRange (fuel : nat) (r : Request) : MT Response :=
  if decide (Method r <> "GET"%string) then write_error StatusMethodNotAllowed "method not allowed"
  else
    let start := query_Get (Query r) "start" in
    let end_ := query_Get (Query r) "end" in
    let limitStr := query_Get (Query r) "limit" in
    if decide (start = []) then write_error StatusBadRequest "invalid start query parameter"
    else
      match (if decide (limitStr = []) then Some 10 else Atoi limitStr) with
      | None => mret (Text StatusBadRequest "invalid limit parameter")
      | Some limit =>
          res ← catch (RangeSearch fuel start end_ (i32 limit));
          match res with
          | inr err => write_error StatusBadRequest (Message err)
          | inl results =>
              writeJSON StatusOK (JRange (mkRangeRes "success" (Z.of_nat (length results))
                ((fun it => mkKV (ri_Key it) (ri_Val it)) <$> results)))
          end
      end.

(** The result of [InsertValue] is dropped. *)
Definition addKey (fuel : nat) (r : Request) : MT Response :=
  if decide (Method r <> "PUT"%string) then write_error StatusMethodNotAllowed "method not allowed"
  else if Cancelled r then write_error StatusRequestTimeout "request cancelled"
  else
    match Decode (MaxBytesReader (Body r) maxBodyBytes) with
    | inr err => write_error StatusBadRequest ("invalid JSON: " +:+ err)
    | inl payload =>
        if decide (kv_Key payload = []) then write_error StatusBadRequest "key is required"
        else
          ignore (InsertValue fuel [kv_Key payload] [kv_Val payload] []);;
          writeJSON StatusOK (JKV payload)
    end.

Definition removeKey (fuel : nat) (r : Request) (path : bytes) : MT Response :=
  if decide (Method r <> "DELETE"%string) then write_error StatusMethodNotAllowed "method not allowed"
  else
    let key := TrimPrefix path (str "/kv/remove/") in
    if bool_decide (key = []) || ContainsSlash key then write_error StatusBadRequest "invalid key in path"
    else
      res ← catch (DeleteValue fuel [key] []);
      match res with
      | inr err => write_error StatusBadRequest (Message err)
      | inl del => writeJSON StatusOK (JDel (mkDelResp "success" del))
      end.

(** [setKey] is not registered.  It does not return after an error, so it writes
    two responses. *)
Definition setKey (fuel : nat) (r : Request) (path : bytes) : MT (list Response) :=
  if decide (Method r <> "GET"%string) then e ← write_error StatusMethodNotAllowed "method not allowed"; mret [e]
  else
    let key := TrimPrefix path (str "/kv/") in
    if bool_decide (key = []) || ContainsSlash key then e ← write_error StatusBadRequest "invalid key in path"; mret [e]
    else
      res ← catch (Get fuel key);
      match res with
      | inr err =>
          e ← write_error StatusBadRequest (Message err);
          ok ← writeJSON StatusOK (JKV (mkKV key []));
          mret [e; ok]
      | inl val => ok ← writeJSON StatusOK (JKV (mkKV key val)); mret [ok]
      end.

(** A request whose path has an invalid escape is refused before it is routed. *)
Definition ServeHTTP (fuel : nat) (r : Request) : MT Response :=
  match PathUnescape (EscapedPath r) with
  | None => mret (Text StatusBadRequest "400 Bad Request")
  | Some path =>
      match findHandler (Method r) (EscapedPath r) path with
      | inr target => mret (Redirect target)
      | inl Hello => mret (Text StatusOK "Hello, world! Server is running on port 8080.")
      | inl GetKey => getKey fuel r path
      | inl AddKey => addKey fuel r
      | inl GetRange => getRange fuel r
      | inl RemoveKey => removeKey fuel r path
      end
  end.

(** ** The server *)

(** What a client sees: a response, a closed connection after a panic, or nothing;
    [Unfinished] is the model's fuel running out. *)
Inductive answer := Answer (r : Response) | Closed | Hangs | Unfinished.

Definition serve (fuel : nat) (r : Request) (t : BTree C) : answer * BTree C :=
  match ServeHTTP fuel r t with
  | (Val resp, t') => (Answer resp, t')
  | (Err e, t') => (Closed, t')
  | (Panic _, t') => (Closed, t')
  | (Blocked, t') => (Hangs, t')
  | (OutOfFuel, t') => (Unfinished, t')
  end.

Fixpoint serve_all (fuel : nat) (rs : list Request) (t : BTree C) : list answer * BTree C :=
  match rs with
  | [] => ([], t)
  | r :: rs' =>
      let '(a, t1) := serve fuel r t in
      let '(l, t2) := serve_all fuel rs' t1 in (a :: l, t2)
  end.

(** [main] up to [runServer]: the log's files as they are on disk, the cache as
    [NewCache] returns it, and the index after recovery. *)
Definition main_start (steps fuel : nat) (walFile conf : bytes) (cache : C) : outcome (BTree C) :=
  match NewWalWriter walFile conf with
  | Val wal =>
      let btree := NewIndex wal cache in
      match NewRecoveryMngr (w_conf wal) (w_file wal) with
      | None => Val btree
      | Some rMngr =>
          match Recover steps fuel rMngr btree with
          | (Val _, btree') => Val btree'
          | (Err err, _) => Panic (Message err)
          | (Panic p, _) => Panic p
          | (Blocked, _) => Blocked
          | (OutOfFuel, _) => OutOfFuel
          end
      end
  | Err err => Panic (Message err)
  | Panic p => Panic p
  | Blocked => Blocked
  | OutOfFuel => OutOfFuel
  end.

End Server.
