(* ===== verification/ServerTheorems.v ===== *)
(** * What clients of the service see

    PUT and GET over HTTP behave as a finite map, also across a crash, except for
    the keys no path leads to; and an empty value stops the service. *)

From S2P Require Import Prelude Keys Helpers BTStack Wal WalTheorems WalRace BTree BTreeDelete CacheSpec BTreeInv BTreeNode BTreeInsert BTreeRead BTreeRange BTreeTheorems Recovery RecoveryTheorems Replay Server.
Local Open Scope Z_scope.
Local Open Scope key_scope.

(** ** Paths *)

Lemma no_slash_cons c s : ContainsSlash (c :: s) = false -> (c =? slash) = false /\ ContainsSlash s = false.
Proof. unfold ContainsSlash. cbn [existsb]. rewrite (Z.eqb_sym slash c). apply orb_false_elim. Qed.

Lemma split_part seg : ContainsSlash seg = false -> split_slash seg = [seg].
Proof.
  induction seg as [|c s IH]; [done|]. intros [Hc Hs]%no_slash_cons. cbn [split_slash app]. by rewrite Hc, (IH Hs).
Qed.

Lemma split_part_slash seg rest : ContainsSlash seg = false -> split_slash (seg ++ slash :: rest) = seg :: split_slash rest.
Proof.
  induction seg as [|c s IH]; [done|]. intros [Hc Hs]%no_slash_cons. cbn [split_slash app]. by rewrite Hc, (IH Hs).
Qed.

Lemma no_slash_last seg : ContainsSlash seg = false -> last seg <> Some slash.
Proof.
  induction seg as [|c [|d s] IH]; [done| |]; intros [Hc Hs]%no_slash_cons; [|by apply IH].
  cbn. intros [= ->]. done.
Qed.

Lemma no_slash_filter seg : ContainsSlash seg = false -> filter (fun c => c = slash) seg = [].
Proof.
  induction seg as [|c s IH]; [done|]. intros [Hc Hs]%no_slash_cons. rewrite filter_cons_False by (by apply Z.eqb_neq).
  by apply IH.
Qed.

Definition kv_path (seg : bytes) : bytes := str "/kv/" ++ seg.

Section KeyPath.
Context (seg k : bytes) (Hslash : ContainsSlash seg = false) (Hunesc : PathUnescape seg = Some k)
  (Hdot : seg <> str ".") (Hdots : seg <> str "..").

Lemma kv_path_last : seg <> [] -> last (kv_path seg) <> Some slash.
Proof.
  intros Hne. unfold kv_path. rewrite last_app. destruct (last seg) eqn:E; [|by apply last_None in E].
  rewrite <- E. by apply no_slash_last.
Qed.

Lemma kv_path_segments : segments (kv_path seg) = [str "kv"; seg].
Proof. cbn. by rewrite split_part. Qed.

Lemma kv_path_clean : cleanPath (kv_path seg) = kv_path seg.
Proof.
  change (cleanPath (kv_path seg)) with (let np := join_parts (clean_parts [] (segments (kv_path seg))) in
    if decide (last (kv_path seg) = Some slash /\ np <> [slash]) then np ++ [slash] else np). cbv zeta.
  rewrite kv_path_segments.
  destruct (decide (seg = [])) as [->|Hne]; [by vm_compute|].
  rewrite decide_False.
  - cbn [clean_parts]. rewrite decide_False by (by intros [?|?]). rewrite (decide_False (P := str "kv" = str "..")) by done.
    rewrite decide_False by (by intros [?|?]). rewrite decide_False by done. cbn. by rewrite app_nil_r.
  - intros [Hl _]. by apply (kv_path_last Hne).
Qed.

Lemma kv_path_decoded : (fun p => default p (PathUnescape p)) <$> segments (kv_path seg) = [str "kv"; k].
Proof. rewrite kv_path_segments. cbn [fmap list_fmap]. by rewrite Hunesc. Qed.

(** The pattern of a key's path. *)
Lemma kv_path_pattern : find_pattern (kv_path seg) =
  Some (if decide (k = str "range") then mkPattern [str "kv"; str "range"] false GetRange else mkPattern [str "kv"] true GetKey).
Proof.
  unfold find_pattern. rewrite kv_path_decoded. unfold patterns. cbn [foldl].
  unfold better, pat_match. cbn -[str].
  rewrite (decide_ext (str "range" = k) (k = str "range")) by done.
  rewrite (decide_ext (str "remove" = k) (k = str "remove")) by done.
  destruct (decide (k = str "range")) as [->|]; [done|]. by destruct (decide (k = str "remove")).
Qed.

Lemma kv_path_slash : find_pattern (kv_path seg ++ [slash]) =
  Some (if decide (k = str "remove") then mkPattern [str "kv"; str "remove"] true RemoveKey else mkPattern [str "kv"] true GetKey).
Proof.
  unfold find_pattern. assert (segments (kv_path seg ++ [slash]) = [str "kv"; seg; []]) as ->.
  { unfold kv_path. rewrite <- app_assoc. cbn. by rewrite split_part_slash. }
  cbn [fmap list_fmap PathUnescape]. rewrite Hunesc. unfold patterns. cbn [foldl].
  unfold better, pat_match. cbn -[str].
  rewrite (decide_ext (str "range" = k) (k = str "range")) by done.
  rewrite (decide_ext (str "remove" = k) (k = str "remove")) by done.
  destruct (decide (k = str "range")) as [->|]; [done|]. by destruct (decide (k = str "remove")).
Qed.

Lemma kv_path_slashes : length (filter (fun c => c = slash) (kv_path seg ++ [slash])) = 3%nat.
Proof. unfold kv_path. by rewrite !filter_app, (no_slash_filter seg Hslash). Qed.

(** Where a GET of a key's path ends up. *)
Lemma kv_path_handler : findHandler "GET" (kv_path seg) (kv_path k) =
  if decide (k = str "range") then inl GetRange
  else if decide (k = str "remove") then inr (str "/kv/remove/") else inl GetKey.
Proof.
  unfold findHandler. rewrite (decide_False (P := "GET"%string = _)) by done. rewrite kv_path_clean, kv_path_pattern, kv_path_slash.
  rewrite (decide_False (P := kv_path seg <> kv_path seg)) by (intros H; by apply H).
  destruct (decide (k = str "range")) as [->|Hr]; [done|].
  destruct (decide (seg = [])) as [->|Hne].
  { injection Hunesc as <-. done. }
  unfold exactMatch. cbn [pat_multi negb pat_parts]. rewrite !bool_decide_eq_false_2 by (by apply kv_path_last).
  rewrite (bool_decide_eq_true_2 (last (_ ++ [slash]) = _)) by (by rewrite last_snoc). cbn [negb andb].
  rewrite kv_path_slashes. destruct (decide (k = str "remove")) as [->|]; [|done]. done.
Qed.

Lemma kv_path_unescape : PathUnescape (kv_path seg) = Some (kv_path k).
Proof. unfold kv_path. cbn. by rewrite Hunesc. Qed.

End KeyPath.

Lemma kv_path_key k : TrimPrefix (kv_path k) (str "/kv/") = k.
Proof. done. Qed.

(** ** The service as a finite map *)

(** A PUT of a body with the binding it decodes to, or with the message it is refused
    with; a GET of a path segment with the key it stands for, or of any path. *)
Inductive api_op := PutOp (body k v : bytes) | BadPutOp (body : bytes) (msg : string) | GetOp (seg k : bytes) | GetPathOp (path : bytes).

Definition request_of (o : api_op) : Request :=
  match o with
  | PutOp body _ _ | BadPutOp body _ => mkRequest "PUT" (str "/kv") [] false body
  | GetOp seg _ => mkRequest "GET" (kv_path seg) [] false []
  | GetPathOp path => mkRequest "GET" path [] false []
  end.

Definition refused (msg : string) : Response := JSON StatusBadRequest (JErr (mkErrResp msg)).
Definition not_allowed : Response := JSON StatusMethodNotAllowed (JErr (mkErrResp "method not allowed")).

(** The lookup of a key in the map. *)
Definition lookup_resp (k : bytes) (M : gmap bytes bytes) : Response :=
  if bool_decide (k = []) || ContainsSlash k then refused "invalid key in path"
  else match M !! k with
       | Some v => JSON StatusOK (JKV (mkKV k v))
       | None => refused (if decide (M = ∅) then "Key Value store not initialized" else "Key not found")
       end.

(** What each handler answers to a GET without a query. *)
Definition handler_resp (h : handler) (k : bytes) (M : gmap bytes bytes) : Response :=
  match h with
  | Hello => Text StatusOK "Hello, world! Server is running on port 8080."
  | GetKey => lookup_resp k M
  | GetRange => refused "invalid start query parameter"
  | AddKey | RemoveKey => not_allowed
  end.

Definition path_resp (p : bytes) (M : gmap bytes bytes) : Response :=
  match PathUnescape p with
  | None => Text StatusBadRequest "400 Bad Request"
  | Some path =>
      match findHandler "GET" p path with
      | inr target => Redirect target
      | inl h => handler_resp h (TrimPrefix path (str "/kv/")) M
      end
  end.

(** What the map machine answers.  No single segment leads to the keys [range] and
    [remove], nor to a key with a slash: they can be put but not read that way. *)
Definition api_step (o : api_op) (M : gmap bytes bytes) : Response * gmap bytes bytes :=
  match o with
  | PutOp _ k v => (JSON StatusOK (JKV (mkKV k v)), <[k := v]> M)
  | BadPutOp _ msg => (refused msg, M)
  | GetOp _ k =>
      (if bool_decide (k = []) || ContainsSlash k then refused "invalid key in path"
       else if decide (k = str "range") then refused "invalid start query parameter"
       else if decide (k = str "remove") then Redirect (str "/kv/remove/")
       else match M !! k with
            | Some v => JSON StatusOK (JKV (mkKV k v))
            | None => refused (if decide (M = ∅) then "Key Value store not initialized" else "Key not found")
            end, M)
  | GetPathOp p => (path_resp p M, M)
  end.

Fixpoint api_run (os : list api_op) (M : gmap bytes bytes) : list Response * gmap bytes bytes :=
  match os with
  | [] => ([], M)
  | o :: os' => let '(r, M1) := api_step o M in let '(rs, M2) := api_run os' M1 in (r :: rs, M2)
  end.

Section Service.
Context {C F : Type} `{!CacheOps C F} `{!PageCache C F}.
Context (Decode : reader -> KV + string).
Implicit Types (t : BTree C) (c : C).

Notation serve := (serve Decode).
Notation serve_all := (serve_all Decode).

(** Bodies decode to bindings that fit in a page and are not empty, or they are
    refused: they do not decode, or to an empty key.  A segment has no slash and is no
    dot path.  Any path from the root may be asked for. *)
Definition api_ok (o : api_op) : Prop :=
  match o with
  | PutOp body k v => Decode (MaxBytesReader body maxBodyBytes) = inl (mkKV k v) /\ op_ok cell_ok (OpPut k v)
  | BadPutOp body msg =>
      match Decode (MaxBytesReader body maxBodyBytes) with
      | inr err => msg = ("invalid JSON: " +:+ err)%string
      | inl payload => kv_Key payload = [] /\ msg = "key is required"%string
      end
  | GetOp seg k => ContainsSlash seg = false /\ PathUnescape seg = Some k /\ seg <> str "." /\ seg <> str ".."
  | GetPathOp path => head path = Some slash
  end.

Lemma serve_answers fuel r t Q :
  returns (ServeHTTP Decode fuel r) t Q -> exists resp t', serve fuel r t = (Answer resp, t') /\ Q resp t'.
Proof. intros (resp & t' & H & HQ). exists resp, t'. split; [|done]. unfold Server.serve. by rewrite H. Qed.

Lemma ServeHTTP_put fuel body k v : Decode (MaxBytesReader body maxBodyBytes) = inl (mkKV k v) -> k <> [] ->
  ServeHTTP (F := F) Decode fuel (request_of (PutOp body k v)) =
    (ignore (InsertValue (C := C) fuel [k] [v] []);; writeJSON StatusOK (JKV (mkKV k v))).
Proof.
  intros Hd Hk. change (ServeHTTP Decode fuel (request_of (PutOp body k v))) with
    (addKey (F := F) Decode fuel (request_of (PutOp body k v))). unfold addKey. cbn [request_of Method Cancelled Body].
  rewrite decide_False by (by intros H). rewrite Hd. cbn [kv_Key kv_Val]. by rewrite decide_False.
Qed.

Lemma ServeHTTP_get fuel seg k : api_ok (GetOp seg k) ->
  ServeHTTP (C := C) (F := F) Decode fuel (request_of (GetOp seg k)) =
    match findHandler "GET" (kv_path seg) (kv_path k) with
    | inr target => mret (Redirect target)
    | inl GetKey => getKey fuel (request_of (GetOp seg k)) (kv_path k)
    | inl GetRange => write_error StatusBadRequest "invalid start query parameter"
    | _ => mret (Redirect [])
    end.
Proof.
  intros (Hs & Hu & Hd & Hdd). unfold ServeHTTP. cbn [request_of EscapedPath Method].
  rewrite (kv_path_unescape seg k Hu), (kv_path_handler seg k Hs Hu Hd Hdd). repeat case_decide; done.
Qed.

Lemma getKey_refines K fuel r path t M : Method r = "GET"%string -> holds K t M -> (size M <= fuel)%nat ->
  returns (getKey fuel r path) t (fun a t' => a = lookup_resp (TrimPrefix path (str "/kv/")) M /\ holds K t' M).
Proof.
  intros Hr Hh Hf. unfold getKey, lookup_resp. rewrite decide_False by (by intros H; apply H).
  destruct (_ || _); [by apply returns_ret|].
  go_step. go_call Get_caught; [|exact Hh|done]. intros a t' (Hh' & ->).
  destruct (M !! _); [by apply returns_ret|]. destruct (decide (M = ∅)); by apply returns_ret.
Qed.

Lemma path_refines K fuel p t M : holds K t M -> (size M <= fuel)%nat ->
  returns (ServeHTTP Decode fuel (mkRequest "GET" p [] false [])) t (fun r t' => r = path_resp p M /\ holds K t' M).
Proof.
  intros Hh Hf. unfold ServeHTTP, path_resp. cbn [EscapedPath Method]. destruct (PathUnescape p) as [path|]; [|by apply returns_ret].
  destruct (findHandler _ _ _) as [[| | | |]|target]; try by apply returns_ret. by apply getKey_refines.
Qed.

Lemma ServeHTTP_badput fuel body msg : api_ok (BadPutOp body msg) ->
  ServeHTTP (C := C) (F := F) Decode fuel (request_of (BadPutOp body msg)) = mret (refused msg).
Proof.
  cbn [api_ok]. intros H. change (ServeHTTP Decode fuel (request_of (BadPutOp body msg))) with
    (addKey (C := C) (F := F) Decode fuel (request_of (BadPutOp body msg))). unfold addKey. cbn [request_of Method Cancelled Body].
  rewrite decide_False by (by intros H'). destruct (Decode _) as [payload|err]; [|by subst msg].
  destruct H as [Hk ->]. by rewrite decide_True.
Qed.

Lemma api_step_refines K fuel o t M :
  holds K t M -> api_ok o -> (size M + 1 <= fuel)%nat -> 2 * Z.of_nat (size M + 1) <= K + 1 ->
  returns (ServeHTTP Decode fuel (request_of o)) t (fun r t' => r = (api_step o M).1 /\ holds K t' (api_step o M).2).
Proof.
  intros Hh Hok Hf HK. destruct o as [body k v|body msg|seg k|p]; cbn [api_step fst snd].
  - destruct Hok as (Hd & Hk & Hv & Hnk & Hnv). rewrite ServeHTTP_put by done. go_step. apply returns_ignore.
    go_call InsertValue_holds; [|exact Hh|done|by repeat constructor|by repeat constructor|by left|cbn; lia|cbn; lia].
    intros b t' (_ & Ht). by apply returns_ret.
  - rewrite ServeHTTP_badput by done. by apply returns_ret.
  - rewrite ServeHTTP_get by done. destruct Hok as (Hs & Hu & Hd & Hdd).
    rewrite (kv_path_handler seg k Hs Hu Hd Hdd).
    destruct (decide (k = str "range")) as [->|Hr]; [by apply returns_ret|].
    destruct (decide (k = str "remove")) as [->|Hr']; [by apply returns_ret|].
    eapply returns_mono; [|apply (getKey_refines K); [done|exact Hh|lia]]. cbn beta. rewrite kv_path_key. by intros r t' (-> & Ht').
  - apply path_refines; [done|lia].
Qed.

Lemma api_step_size o M : (size (api_step o M).2 <= S (size M))%nat.
Proof. destruct o; cbn [api_step snd]; [|lia..]. rewrite map_size_insert. case_match; unfold id; lia. Qed.

Lemma serve_all_refines K fuel os : Forall api_ok os -> forall t M,
  holds K t M -> (size M + length os <= fuel)%nat -> 2 * Z.of_nat (size M + length os) <= K + 1 ->
  exists t', serve_all fuel (request_of <$> os) t = (Answer <$> (api_run os M).1, t') /\ holds K t' (api_run os M).2.
Proof.
  induction 1 as [|o os Ho Hos IH]; intros t M Hh Hf HK; cbn [fmap list_fmap Server.serve_all api_run length] in *.
  { by exists t. }
  destruct (serve_answers fuel (request_of o) t _ (api_step_refines K fuel o t M Hh Ho ltac:(lia) ltac:(lia)))
    as (resp & t1 & -> & -> & Hh1).
  pose proof (api_step_size o M) as Hsz. destruct (api_step o M) as [r M1]. cbn [fst snd] in *.
  destruct (IH t1 M1 Hh1 ltac:(lia) ltac:(lia)) as (t2 & -> & Hh2).
  exists t2. by destruct (api_run os M1).
Qed.

(** C2: PUT and GET over HTTP behave as a finite map: every request of a sequence is
    answered with what the map gives.  The PUTs are those of a body that decodes to a
    binding with neither key nor value empty and each of a page's size, and of a body
    that is refused (it does not decode, or its key is empty); a body with an empty
    value is not among them, since it stops the service, nor one with a key or value
    too large for a page.  The GETs are of any path: one that is a single segment
    other than [.] and [..] finds the key it stands for, except [range], [remove] and
    keys with a slash, and every other path is answered by the handler it is routed
    to, or redirected. *)
Theorem http_refines_map K fuel os t M :
  holds K t M -> Forall api_ok os -> (size M + length os <= fuel)%nat -> 2 * Z.of_nat (size M + length os) <= K + 1 ->
  exists t', serve_all fuel (request_of <$> os) t = (Answer <$> (api_run os M).1, t') /\ holds K t' (api_run os M).2.
Proof. intros. by apply serve_all_refines. Qed.

(** ** Range queries *)

(** A GET of the range path with any query parameters. *)
Definition range_req (q : list (bytes * bytes)) : Request := mkRequest "GET" (str "/kv/range") q false [].

(** The limit asked for: ten by default. *)
Definition asked (q : list (bytes * bytes)) : option Z :=
  let l := query_Get q "limit" in if decide (l = []) then Some 10 else Atoi l.

Definition to_kv (p : bytes * bytes) : KV := mkKV p.1 p.2.

Lemma ServeHTTP_range fuel q limit : query_Get q "start" <> [] -> asked q = Some limit ->
  ServeHTTP (C := C) (F := F) Decode fuel (range_req q) =
    (res ← catch (RangeSearch fuel (query_Get q "start") (query_Get q "end") (i32 limit));
     match res with
     | inr err => write_error StatusBadRequest (Message err)
     | inl results => writeJSON StatusOK (JRange (mkRangeRes "success" (Z.of_nat (length results))
         ((fun it => mkKV (ri_Key it) (ri_Val it)) <$> results)))
     end).
Proof.
  intros Hs Ha. change (ServeHTTP Decode fuel (range_req q)) with (getRange (C := C) (F := F) fuel (range_req q)).
  unfold getRange. cbn [range_req Method Query]. rewrite decide_False by (by intros H). rewrite decide_False by done.
  unfold asked in Ha. by rewrite Ha.
Qed.

Lemma ServeHTTP_range_refused fuel q : query_Get q "start" = [] \/ asked q = None ->
  ServeHTTP (C := C) (F := F) Decode fuel (range_req q) =
    mret (if decide (query_Get q "start" = []) then refused "invalid start query parameter" else Text StatusBadRequest "invalid limit parameter").
Proof.
  intros H. change (ServeHTTP Decode fuel (range_req q)) with (getRange (C := C) (F := F) fuel (range_req q)).
  unfold getRange. cbn [range_req Method Query]. rewrite decide_False by (by intros H').
  destruct (decide (query_Get q "start" = [])); [done|]. destruct H as [H|H]; [done|]. unfold asked in H. by rewrite H.
Qed.

(** C9: a range query over HTTP, with any query parameters, is answered and leaves the
    index unchanged.  With a start key that is in the index and a limit that parses
    (ten without one; the number wraps to 32 bits) the answer is the bindings from the
    start key on, in ascending order and with their number.  The first one to four of
    them, the start key's leaf, come whatever limit and [end] are; the others are at or
    above [end]; and the list stops at the index's end, at the limit, or before the
    first key that is below [end].  So without an [end] there are at least [limit]
    bindings if the index has them, and always at most the larger of [limit] and five.
    A start key that is not in the index is an error, and so is none, or a limit that
    does not parse. *)
Theorem http_range K fuel t m q :
  bt_inv K t m -> (length m <= fuel)%nat ->
  let start := query_Get q "start" in let end_ := query_Get q "end" in let suffix := from_key start m in
  exists resp t', serve fuel (range_req q) t = (Answer resp, t') /\ bt_inv K t' m /\
  if decide (start = []) then resp = refused "invalid start query parameter"
  else match asked q, to_map m !! start with
  | None, _ => resp = Text StatusBadRequest "invalid limit parameter"
  | Some limit, Some _ => exists first n results, (1 <= first <= 4)%nat /\ (first <= n <= length suffix)%nat /\
      results = to_kv <$> take n suffix /\
      resp = JSON StatusOK (JRange (mkRangeRes "success" (Z.of_nat (length results)) results)) /\
      Z.of_nat n <= Z.max (i32 limit) 5 /\ (end_ = [] -> Z.min (i32 limit) (Z.of_nat (length suffix)) <= Z.of_nat n) /\
      Forall (fun p => ~ p.1 <k end_) (drop first (take n suffix)) /\
      forall p, suffix !! n = Some p -> p.1 <k end_ \/ i32 limit <= Z.of_nat n
  | Some _, None => resp = refused (if decide (m = []) then "Key Value store not initialized" else "Key not found")
  end.
Proof.
  intros Hi Hf start end_ suffix. apply serve_answers. destruct (decide (start = [])) as [Hs|Hs].
  { rewrite ServeHTTP_range_refused by (by left). rewrite decide_True by done. by apply returns_ret. }
  destruct (asked q) as [limit|] eqn:Ha.
  2:{ rewrite ServeHTTP_range_refused by (by right). rewrite decide_False by done. by apply returns_ret. }
  rewrite (ServeHTTP_range fuel q limit) by done. fold start end_. destruct (to_map m !! start) as [v|] eqn:E.
  - go_step. go_step. go_call RangeSearch_bounds; [|exact Hi|done|by rewrite E].
    intros items t' (Hi' & first & n & HF & Hn & -> & Hmax & Hend & Hstop). apply returns_ret. split; [done|].
    exists first, n, (to_kv <$> take n suffix). unfold to_items. rewrite !length_fmap, <- list_fmap_compose.
    split_and!; [apply HF..|apply Hn|apply Hn|done|done|done| |done|done].
    intros Hnone. rewrite Hnone in Hstop. destruct (suffix !! n) as [p|] eqn:Ep; [|apply lookup_ge_None in Ep; lia].
    destruct (Hstop p Ep) as [Hlt|]; [|lia]. by apply key_lt_nil in Hlt.
  - go_step. eapply returns_catch_err, fails_mono, (RangeSearch_missing K t m fuel start end_ (i32 limit)); [|done..].
    intros t' Hi'. apply returns_ret. split; [done|]. by destruct (decide (m = [])).
Qed.

(** ** Across a crash *)

Definition put_ops (ps : list (bytes * (bytes * bytes))) : list api_op := (fun p => PutOp p.1 p.2.1 p.2.2) <$> ps.

Lemma put_ops_ok ps : Forall api_ok (put_ops ps) -> Forall (op_ok cell_ok) (puts ps.*2).
Proof. unfold put_ops, puts. rewrite !Forall_fmap. intros H. eapply Forall_impl; [exact H|]. by intros p []. Qed.

Lemma put_ops_map ps M : (api_run (put_ops ps) M).2 = put_all ps.*2.*1 ps.*2.*2 M.
Proof.
  revert M. induction ps as [|[b [k v]] ps IH]; intros M; [done|]. cbn. rewrite <- IH.
  by destruct (api_run (put_ops ps) (<[k := v]> M)) eqn:E; unfold put_ops in E; rewrite E.
Qed.

(** The server's state after the puts is the tree's. *)
Lemma serve_puts fuel ps : Forall api_ok (put_ops ps) -> forall t rs t' M,
  run_tree fuel (puts ps.*2) t = (Val rs, t') ->
  serve_all fuel (request_of <$> put_ops ps) t = (Answer <$> (api_run (put_ops ps) M).1, t').
Proof.
  induction ps as [|[b [k v]] ps IH]; intros Hok t rs t' M Hr.
  { cbn in Hr. by injection Hr as <- <-. }
  apply Forall_cons in Hok as [(Hd & _ & _ & Hk & _) Hok].
  change (puts ((b, (k, v)) :: ps).*2) with (OpPut k v :: puts ps.*2) in Hr.
  change (put_ops ((b, (k, v)) :: ps)) with (PutOp b k v :: put_ops ps). cbn [fmap list_fmap Server.serve_all run_tree run_tree_op api_run api_step] in *.
  unfold Server.serve. rewrite ServeHTTP_put by done. unfold ignore, catch, mbind, M_bind, mret, M_ret, writeJSON in *.
  destruct (InsertValue fuel [k] [v] [] t) as [[ok| | | |] t1]; try done.
  cbn in *. destruct (run_tree fuel (puts ps.*2) t1) as [[rs'| | | |] t2] eqn:E; try done. injection Hr as <- <-.
  specialize (IH Hok t1 rs' t2 (<[k := v]> M) E). unfold mret, M_ret. cbn. rewrite IH.
  by destruct (api_run (put_ops ps) (<[k := v]> M)).
Qed.

(** A first start, without files. *)
Lemma main_start_new steps fuel c : main_start (S (S steps)) fuel [] [] c = Val (NewIndex new_log c).
Proof. reflexivity. Qed.

(** Serving PUTs, flushing the log and starting again: what recovery finds. *)
Lemma serve_and_crash steps fuel ps c1 c2 :
  cinv c1 -> c_GetRootPageId c1 = 0 -> cinv c2 -> c_GetRootPageId c2 = 0 ->
  Forall api_ok (put_ops ps) -> log_fits 25 ps.*2 = true -> (log_end 0 25 ps.*2).1 < 2 ^ 18 ->
  (length ps <= fuel)%nat -> (length ps + 1 < steps)%nat ->
  2 * Z.of_nat (length ps) <= room c1 + 1 -> 2 * Z.of_nat (length ps) <= room c2 + 1 ->
  exists t1 w rm, main_start steps fuel [] [] c1 = Val (NewIndex new_log c1) /\
    serve_all fuel (request_of <$> put_ops ps) (NewIndex new_log c1) = (Answer <$> (api_run (put_ops ps) ∅).1, t1) /\
    BLogWrite (bt_wal t1) = (Val tt, w) /\ NewWalWriter (w_file w) (w_conf w) = Val w /\
    NewRecoveryMngr (w_conf w) (w_file w) = Some rm /\
    replays (Recover steps fuel rm) (room c2) (NewIndex w c2) (log_end 0 25 ps.*2).1 (api_run (put_ops ps) ∅).2.
Proof.
  intros Hc1 Hr1 Hc2 Hr2 Hps Hfit Hend Hf Hst HK1 HK2.
  assert (Hlen : length ps.*2 = length ps) by apply length_fmap. rewrite put_ops_map.
  destruct (flush_and_recover fuel steps ps.*2 c1 c2 new_log Hc1 Hr1 Hc2 Hr2) as
    (rs & t1 & w & rm & Hrun & Hh1 & Hw & Hnew & Hrm & _); [by apply put_ops_ok|done|done|lia..|].
  destruct (flush_and_recover fuel steps ps.*2 c1 c2 w Hc1 Hr1 Hc2 Hr2) as
    (rs' & t1' & w' & rm' & Hrun' & _ & Hw' & _ & Hrm' & Hrec); [by apply put_ops_ok|done|done|lia..|].
  assert (t1' = t1) as -> by congruence. assert (w' = w) as -> by congruence. assert (rm' = rm) as -> by congruence.
  exists t1, w, rm. split_and!; try done; [|by eapply serve_puts].
  destruct steps as [|[|steps]]; [lia..|]. apply main_start_new.
Qed.

(** C3: the service survives a crash.  Start on an empty disk, serve PUTs of bindings
    that fit in a page and are not empty, flush the log, and lose the cache: the next
    start recovers, and from then on every request (a PUT of that kind or one that is
    refused, a GET of any path) is answered as if the service had never stopped.  The log may reach
    into its second page, and no record may end on a page boundary. *)
Theorem service_survives_crash steps fuel ps os c1 c2 :
  cinv c1 -> c_GetRootPageId c1 = 0 -> cinv c2 -> c_GetRootPageId c2 = 0 ->
  Forall api_ok (put_ops ps) -> Forall api_ok os -> log_fits 25 ps.*2 = true -> (log_end 0 25 ps.*2).1 <= 1 ->
  (length ps + length os <= fuel)%nat -> (length ps + 1 < steps)%nat ->
  2 * Z.of_nat (length ps) <= room c1 + 1 -> 2 * Z.of_nat (length ps + length os) <= room c2 + 1 ->
  exists t0 t1 w t2 t3, main_start steps fuel [] [] c1 = Val t0 /\
    serve_all fuel (request_of <$> put_ops ps) t0 = (Answer <$> (api_run (put_ops ps) ∅).1, t1) /\
    BLogWrite (bt_wal t1) = (Val tt, w) /\ main_start steps fuel (w_file w) (w_conf w) c2 = Val t2 /\
    serve_all fuel (request_of <$> os) t2 = (Answer <$> (api_run os (api_run (put_ops ps) ∅).2).1, t3).
Proof.
  intros Hc1 Hr1 Hc2 Hr2 Hps Hos Hfit Hend Hf Hst HK1 HK2.
  destruct (serve_and_crash steps fuel ps c1 c2 Hc1 Hr1 Hc2 Hr2 Hps Hfit) as (t1 & w & rm & H0 & H1 & Hw & Hnew & Hrm & Hrec); [lia..|].
  unfold replays in Hrec. rewrite (proj2 (Z.leb_le _ _)) in Hrec by done. destruct Hrec as (u & t2 & Hrec & Hh2).
  pose proof (put_all_size ps.*2 ∅) as Hsz. rewrite map_size_empty, length_fmap, <- put_ops_map in Hsz.
  destruct (serve_all_refines (room c2) fuel os Hos t2 (api_run (put_ops ps) ∅).2 Hh2) as (t3 & Hs3 & _); [lia..|].
  exists (NewIndex new_log c1), t1, w, t2, t3. split_and!; [done|done|done| |done].
  unfold main_start. rewrite Hnew. cbv beta iota zeta. rewrite Hrm. cbv beta iota. by rewrite Hrec.
Qed.

(** C31: the service does not start again once its log has reached the third page.
    Whatever PUTs it has served and acknowledged, the record that crosses the second
    page boundary makes recovery panic, and so does every later start on the same
    files. *)
Theorem long_log_stops_start steps fuel ps c1 c2 :
  cinv c1 -> c_GetRootPageId c1 = 0 -> cinv c2 -> c_GetRootPageId c2 = 0 ->
  Forall api_ok (put_ops ps) -> log_fits 25 ps.*2 = true -> 2 <= (log_end 0 25 ps.*2).1 < 2 ^ 18 ->
  (length ps <= fuel)%nat -> (length ps + 1 < steps)%nat ->
  2 * Z.of_nat (length ps) <= room c1 + 1 -> 2 * Z.of_nat (length ps) <= room c2 + 1 ->
  exists t0 t1 w msg, main_start steps fuel [] [] c1 = Val t0 /\
    serve_all fuel (request_of <$> put_ops ps) t0 = (Answer <$> (api_run (put_ops ps) ∅).1, t1) /\
    BLogWrite (bt_wal t1) = (Val tt, w) /\ main_start steps fuel (w_file w) (w_conf w) c2 = Panic msg.
Proof.
  intros Hc1 Hr1 Hc2 Hr2 Hps Hfit Hend Hf Hst HK1 HK2.
  destruct (serve_and_crash steps fuel ps c1 c2 Hc1 Hr1 Hc2 Hr2 Hps Hfit) as (t1 & w & rm & H0 & H1 & Hw & Hnew & Hrm & Hrec); [lia..|].
  unfold replays in Hrec. rewrite (proj2 (Z.leb_gt _ _)) in Hrec by lia. destruct Hrec as (msg & t2 & Hrec).
  exists (NewIndex new_log c1), t1, w, msg. split_and!; [done|done|done|].
  unfold main_start. rewrite Hnew. cbv beta iota zeta. rewrite Hrm. cbv beta iota. by rewrite Hrec.
Qed.

(** ** An empty value *)

(** The tree's lock is held by a call that has panicked. *)
Definition wedged t : Prop := Root t <> 0 /\ mu_writer (bt_mu t) = true.

(** Requests that are not refused before they come to the index. *)
Definition reaches_index (o : api_op) : Prop :=
  match o with
  | PutOp body k v => Decode (MaxBytesReader body maxBodyBytes) = inl (mkKV k v) /\ k <> []
  | GetOp _ k => api_ok o /\ k <> [] /\ ContainsSlash k = false /\ k <> str "range" /\ k <> str "remove"
  | BadPutOp _ _ | GetPathOp _ => False
  end.

Lemma wedged_RLock t : wedged t -> mu_RLock t = (Blocked, t).
Proof. intros [_ H]. unfold mu_RLock. by rewrite H. Qed.

Lemma wedged_hangs fuel o t : wedged t -> reaches_index o -> serve fuel (request_of o) t = (Hangs, t).
Proof.
  intros Hw Ho. pose proof (wedged_RLock t Hw) as Hl. unfold Server.serve. destruct o as [body k v|? ?|seg k|?]; [|done| |done].
  - destruct Ho as [Hd Hk]. rewrite ServeHTTP_put by done.
    destruct Hw as [Hr%Z.eqb_neq _]. assert (insert_one fuel [] k v t = (Blocked, t)) as Hi.
    { unfold insert_one, gets, mbind, M_bind. by rewrite Hr, Hl. }
    unfold ignore, catch, mbind, M_bind, InsertValue, mbind, M_bind. by rewrite Hi.
  - destruct Ho as (Hok & Hk & Hs & Hr & Hm). rewrite ServeHTTP_get by done. destruct Hok as (Hs' & Hu & Hd & Hdd).
    rewrite (kv_path_handler seg k Hs' Hu Hd Hdd), !decide_False by done. unfold getKey. cbn [request_of Method].
    rewrite decide_False by (by intros H). rewrite kv_path_key, Hs, bool_decide_eq_false_2 by done. cbn [orb].
    unfold catch, mbind, M_bind, Get, mbind, M_bind. by rewrite Hl.
Qed.

(** C29: an empty value stops the service.  On an empty index, a PUT whose value is
    empty panics while it holds the tree's lock: its connection is closed, and no
    PUT and no GET that comes to the index is ever answered again. *)
Theorem empty_value_wedges fuel body k t :
  Root t = 0 -> bt_mu t = free_mutex -> cinv (bt_cache t) -> 0 < room (bt_cache t) -> cell_ok k -> cell_ok [] ->
  Decode (MaxBytesReader body maxBodyBytes) = inl (mkKV k []) -> k <> [] ->
  exists t', serve fuel (request_of (PutOp body k [])) t = (Closed, t') /\
    forall os, Forall reaches_index os -> serve_all fuel (request_of <$> os) t' = ((fun _ => Hangs) <$> os, t').
Proof.
  destruct t as [root mu w c]. cbn [Root bt_mu bt_cache]. intros -> -> Hc Hr Hck Hce Hd Hk.
  destruct (assignFrame_spec 0 free_mutex w c (mkNode [k] [] true [[]] 0 0 0 []) [] true) as ([f n] & t2 & Ha & c2 & -> & _ & Hf & _);
    [done|done|unfold ORDER, DEGREE; cbn; lia|by apply Forall_singleton|by apply Forall_singleton|].
  exists (mkBTree (fr_Key f) (mkMutex true 0) w c2). split.
  - unfold Server.serve. rewrite ServeHTTP_put by done. unfold ignore, catch, InsertValue, insert_one, gets, insert_root.
    unfold mbind, M_bind. cbn [Root Z.eqb]. rewrite Ha. destruct k; done.
  - intros os Hos. assert (wedged (mkBTree (fr_Key f) (mkMutex true 0) w c2)) as Hw by (split; [cbn; lia|done]).
    induction Hos as [|o os Ho Hos IH]; [done|]. cbn [fmap list_fmap Server.serve_all].
    rewrite (wedged_hangs fuel o _ Hw Ho). by rewrite IH.
Qed.

End Service.

(** ** Sessions on the in-memory cache *)

Module ServerSample.
Import MemCache.

(** A decoder for objects with the fields key and val, in this order. *)
Definition quoted (s : string) : bytes := 34 :: str s ++ [34].
Definition field (s : string) : bytes := quoted s ++ [58; 34].
Definition json_body (k v : string) : bytes := 123 :: field "key" ++ str k ++ [34; 44] ++ field "val" ++ str v ++ [34; 125].

Fixpoint until_quote (s : bytes) : bytes * bytes :=
  match s with
  | [] => ([], [])
  | c :: s' => if c =? 34 then ([], s') else let '(a, r) := until_quote s' in (c :: a, r)
  end.
Definition decode (rd : reader) : KV + string :=
  match strip (123 :: field "key") (rd_bytes rd) with
  | Some r =>
      let '(k, r) := until_quote r in
      match strip (44 :: field "val") r with
      | Some r => inl (mkKV k (until_quote r).1)
      | None => inr "unexpected end"
      end
  | None => inr "invalid character"
  end.

Definition put (k v : string) : api_op := PutOp (json_body k v) (str k) (str v).
Definition get (seg k : string) : api_op := GetOp (str seg) (str k).

Definition session : list api_op :=
  [get "a" "a"; put "a" "1"; put "a/b" "2"; put "range" "3"; get "a" "a"; get "%61" "a"; get "a%2Fb" "a/b"; get "zz" "zz"; get "range" "range";
   BadPutOp (str "{}") "invalid JSON: invalid character"; put "a" "4"; GetPathOp (str "/kv//x/../a"); GetPathOp (str "/kv/a/b"); GetPathOp (str "/kv/a"); GetPathOp (str "/kv")].

Ltac api_ok_tac := repeat constructor; unfold op_ok; cbn -[Nat.lt]; first [by vm_compute | discriminate | vm_compute; lia].

Lemma session_ok : Forall (api_ok (C := cache) (F := Z) decode) session.
Proof. api_ok_tac. Qed.

(** The answers of the session: a key with a slash and the key [range] are stored
    and not found again. *)
Example session_answers : (serve_all decode 15 (request_of <$> session) Sample.index0).1 = Answer <$>
  [refused "Key Value store not initialized"; JSON 200 (JKV (mkKV (str "a") (str "1")));
   JSON 200 (JKV (mkKV (str "a/b") (str "2"))); JSON 200 (JKV (mkKV (str "range") (str "3")));
   JSON 200 (JKV (mkKV (str "a") (str "1"))); JSON 200 (JKV (mkKV (str "a") (str "1")));
   refused "invalid key in path"; refused "Key not found"; refused "invalid start query parameter";
   refused "invalid JSON: invalid character"; JSON 200 (JKV (mkKV (str "a") (str "4"))); Redirect (str "/kv/a");
   refused "invalid key in path"; JSON 200 (JKV (mkKV (str "a") (str "4"))); JSON 405 (JErr (mkErrResp "method not allowed"))].
Proof. vm_compute. reflexivity. Qed.

Lemma http_refines_map_witness : (length session <= 15)%nat /\
  exists t', serve_all decode 15 (request_of <$> session) Sample.index0 = (Answer <$> (api_run session ∅).1, t') /\
    holds Sample.K0 t' (api_run session ∅).2.
Proof.
  split; [cbn; lia|].
  apply (http_refines_map decode Sample.K0 15 session Sample.index0 ∅);
    [exact Sample.index0_holds|exact session_ok|vm_compute; lia|vm_compute; discriminate].
Defined.

(** From the key [4] on, seven bindings at most, and none below [8] behind the first leaf. *)
Definition range_q : list (bytes * bytes) := [(str "start", [4]); (str "limit", str "7"); (str "end", [8])].

Lemma http_range_witness : asked range_q = Some 7 /\
  exists resp t', serve decode 10 (range_req range_q) Sample.index10 = (Answer resp, t') /\ bt_inv Sample.K0 t' Sample.list10 /\
  exists first n results, (1 <= first <= 4)%nat /\ (first <= n <= 7)%nat /\
      results = to_kv <$> take n (from_key [4] Sample.list10) /\
      resp = JSON StatusOK (JRange (mkRangeRes "success" (Z.of_nat (length results)) results)) /\
      Z.of_nat n <= Z.max 7 5 /\ ([8] = [] -> Z.min 7 7 <= Z.of_nat n) /\
      Forall (fun p => ~ p.1 <k [8]) (drop first (take n (from_key [4] Sample.list10))) /\
      forall p, from_key [4] Sample.list10 !! n = Some p -> p.1 <k [8] \/ 7 <= Z.of_nat n.
Proof.
  split; [reflexivity|].
  exact (http_range decode Sample.K0 10 Sample.index10 Sample.list10 range_q Sample.index10_inv ltac:(cbn; lia)).
Defined.

(** PUTs of large bindings: five of them fill a page of the log. *)
Definition large (c : Z) : bytes * (bytes * bytes) :=
  let k := replicate 900 c in let v := replicate 990 c in
  (123 :: field "key" ++ k ++ [34; 44] ++ field "val" ++ v ++ [34; 125], (k, v)).
Definition stored (n : nat) : list (bytes * (bytes * bytes)) := (fun i => large (97 + Z.of_nat i)) <$> seq 0 n.

Lemma stored_ok n : (n <= 10)%nat -> Forall (api_ok (C := cache) (F := Z) decode) (put_ops (stored n)).
Proof.
  intros Hn. unfold put_ops, stored. rewrite !Forall_fmap. apply Forall_forall. intros i Hi%elem_of_seq.
  destruct Hi as [_ Hi]. cbn in Hi. do 10 (destruct i as [|i]; [vm_compute; repeat split; try discriminate; lia|]). lia.
Qed.

Definition later : list api_op := [GetOp (replicate 900 98) (replicate 900 98); put "c" "4"; get "b" "b"; get "c" "c"].

Lemma later_ok : Forall (api_ok (C := cache) (F := Z) decode) later.
Proof. repeat (apply Forall_cons; split; [vm_compute; repeat split; try discriminate; lia|]). done. Qed.

(** The log of six such PUTs ends in its second page. *)
Lemma service_survives_crash_witness : log_end 0 25 (stored 6).*2 = (1, 3385) /\
  exists t0 t1 w t2 t3, main_start 8 10 [] [] MemCache.empty = Val t0 /\
    serve_all decode 10 (request_of <$> put_ops (stored 6)) t0 = (Answer <$> (api_run (put_ops (stored 6)) ∅).1, t1) /\
    BLogWrite (bt_wal t1) = (Val tt, w) /\ main_start 8 10 (w_file w) (w_conf w) MemCache.empty = Val t2 /\
    serve_all decode 10 (request_of <$> later) t2 = (Answer <$> (api_run later (api_run (put_ops (stored 6)) ∅).2).1, t3).
Proof.
  split; [vm_compute; reflexivity|].
  apply (service_survives_crash decode 8 10 (stored 6) later MemCache.empty MemCache.empty);
    [exact Sample.empty_inv|reflexivity|exact Sample.empty_inv|reflexivity|apply stored_ok; lia|exact later_ok|vm_compute; reflexivity
    |vm_compute; discriminate|cbn; lia|cbn; lia|cbn; lia|cbn; lia].
Defined.

(** The log of nine ends in its third. *)
Lemma long_log_stops_start_witness : log_end 0 25 (stored 9).*2 = (2, 973) /\
  exists t0 t1 w msg, main_start 11 9 [] [] MemCache.empty = Val t0 /\
    serve_all decode 9 (request_of <$> put_ops (stored 9)) t0 = (Answer <$> (api_run (put_ops (stored 9)) ∅).1, t1) /\
    BLogWrite (bt_wal t1) = (Val tt, w) /\ main_start 11 9 (w_file w) (w_conf w) MemCache.empty = Panic msg.
Proof.
  split; [vm_compute; reflexivity|].
  apply (long_log_stops_start decode 11 9 (stored 9) MemCache.empty MemCache.empty);
    [exact Sample.empty_inv|reflexivity|exact Sample.empty_inv|reflexivity|apply stored_ok; lia|vm_compute; reflexivity
    |vm_compute; split; [discriminate|reflexivity]|cbn; lia|cbn; lia|cbn; lia|cbn; lia].
Defined.

Lemma empty_value_wedges_witness :
  exists t', serve decode 9 (request_of (put "a" "")) Sample.index0 = (Closed, t') /\
    forall os, Forall (reaches_index (C := cache) (F := Z) decode) os ->
      serve_all decode 9 (request_of <$> os) t' = ((fun _ => Hangs) <$> os, t').
Proof.
  apply (empty_value_wedges decode 9 (json_body "a" "") (str "a") Sample.index0);
    [reflexivity|reflexivity|exact Sample.empty_inv|vm_compute; reflexivity|vm_compute; lia|vm_compute; lia|reflexivity|discriminate].
Defined.

(** The service starts again on the log of [log_order_race]: of the two PUTs of one
    key, the one with the smaller LSN is replayed last and wins. *)
Example race_replayed :
  let call v := mkCall PUT 1 [65] [v] in
  let w := (log_begin (call 2) (log_begin (call 1) new_log).2).2 in
  let w := (log_append (call 1) (mkLSN 0 25 36) (log_append (call 2) (mkLSN 0 61 36) w).2).2 in
  let w := (BLogWrite w).2 in
  match main_start 5 10 (w_file w) (w_conf w) MemCache.empty with
  | Val t => (BTree.Get 10 [65] t).1 = Val [1]
  | _ => False
  end.
Proof. vm_compute. reflexivity. Qed.

End ServerSample.
