(* ===== verification/ServerDelete.v ===== *)
(** * DELETE requests

    What a client of [/kv/remove/] sees, where the deletion has a
    specification ([deletable]). *)

From S2P Require Import Prelude Keys Helpers BTStack Wal BTree BTreeDelete CacheSpec BTreeInv BTreeNode BTreeInsert BTreeRead BTreeRemove BTreeShare BTreeTheorems BTreeRemoveTheorems Recovery Server ServerTheorems.
Local Open Scope Z_scope.

Definition remove_path (seg : bytes) : bytes := str "/kv/remove/" ++ seg.
Definition delete_req (seg : bytes) : Request := mkRequest "DELETE" (remove_path seg) [] false [].

Section RemovePath.
Context (seg k : bytes) (Hslash : ContainsSlash seg = false) (Hunesc : PathUnescape seg = Some k)
  (Hdot : seg <> str ".") (Hdots : seg <> str "..").

Lemma remove_path_last : seg <> [] -> last (remove_path seg) <> Some slash.
Proof.
  intros Hne. unfold remove_path. rewrite last_app. destruct (last seg) eqn:E; [|by apply last_None in E].
  rewrite <- E. by apply no_slash_last.
Qed.

Lemma remove_path_segments : segments (remove_path seg) = [str "kv"; str "remove"; seg].
Proof. cbn. by rewrite split_part. Qed.

Lemma remove_path_clean : cleanPath (remove_path seg) = remove_path seg.
Proof.
  change (cleanPath (remove_path seg)) with (let np := join_parts (clean_parts [] (segments (remove_path seg))) in
    if decide (last (remove_path seg) = Some slash /\ np <> [slash]) then np ++ [slash] else np). cbv zeta.
  rewrite remove_path_segments.
  destruct (decide (seg = [])) as [->|Hne]; [by vm_compute|].
  rewrite decide_False; [|intros [Hl _]; by apply (remove_path_last Hne)].
  cbn [clean_parts]. rewrite !(decide_False (P := _ \/ _)) by (by intros [?|?]).
  rewrite !(decide_False (P := _ = str "..")) by done. cbn. by rewrite app_nil_r.
Qed.

(** Both the path and the path with a slash behind it belong to [/kv/remove/]. *)
Lemma remove_pattern rest : rest <> [] -> foldl (better (str "kv" :: str "remove" :: rest)) None patterns =
  Some (mkPattern [str "kv"; str "remove"] true RemoveKey).
Proof.
  intros Hne. unfold patterns. cbn [foldl]. unfold better, pat_match. cbn -[str].
  by destruct rest.
Qed.

Lemma remove_path_handler : findHandler "DELETE" (remove_path seg) (remove_path k) = inl RemoveKey.
Proof.
  unfold findHandler. rewrite (decide_False (P := "DELETE"%string = _)) by done. rewrite remove_path_clean.
  assert (segments (remove_path seg ++ [slash]) = [str "kv"; str "remove"; seg; []]) as Hseg.
  { unfold remove_path. rewrite <- app_assoc. cbn. by rewrite split_part_slash. }
  unfold find_pattern. rewrite Hseg, remove_path_segments. cbn [fmap list_fmap].
  change (default (str "kv") (PathUnescape (str "kv"))) with (str "kv").
  change (default (str "remove") (PathUnescape (str "remove"))) with (str "remove"). rewrite !remove_pattern by done.
  rewrite (decide_False (P := remove_path seg <> remove_path seg)) by (intros H; by apply H).
  assert (exactMatch (Some (mkPattern [str "kv"; str "remove"] true RemoveKey)) (remove_path seg ++ [slash]) = false \/ seg = []) as [->| ->].
  - destruct (decide (seg = [])) as [->|Hne]; [by right|left]. unfold exactMatch. cbn [pat_multi negb pat_parts length].
    rewrite (bool_decide_eq_true_2 (last (_ ++ [slash]) = _)) by (by rewrite last_snoc). cbn [negb].
    unfold remove_path. by rewrite !filter_app, (no_slash_filter seg Hslash).
  - by rewrite andb_false_r.
  - done.
Qed.

Lemma remove_path_unescape : PathUnescape (remove_path seg) = Some (remove_path k).
Proof. unfold remove_path. cbn. by rewrite Hunesc. Qed.

End RemovePath.

Section Service.
Context {C F : Type} `{!CacheOps C F} `{!PageCache C F}.
Context (Decode : reader -> KV + string).
Implicit Types (t : BTree C).

Lemma ServeHTTP_delete fuel seg k : ContainsSlash seg = false -> PathUnescape seg = Some k -> seg <> str "." -> seg <> str ".." ->
  ServeHTTP (C := C) (F := F) Decode fuel (delete_req seg) = removeKey fuel (delete_req seg) (remove_path k).
Proof.
  intros Hs Hu Hd Hdd. unfold ServeHTTP. cbn [delete_req EscapedPath Method].
  by rewrite (remove_path_unescape seg k Hu), (remove_path_handler seg k Hs Hu Hd Hdd).
Qed.

(** C7: a DELETE over HTTP removes the binding.  On an index that is not empty, a
    DELETE of a key that some path leads to is answered with [deleted: true] and
    leaves the map without the key; a key with a slash, and the empty one, are
    refused.  The answer is the same for a key that was not there.  The key, if it is
    there, lies in a leaf that is the whole index (which then may become empty, at
    the cost of one page id), in one of two leaves under the root that have enough
    bindings to be shared out, or in a leaf that keeps [DEGREE] bindings while page 1
    is a leaf. *)
Theorem http_delete K fuel t M seg k :
  holds K t M -> M <> ∅ -> ContainsSlash seg = false -> PathUnescape seg = Some k -> seg <> str "." -> seg <> str ".." ->
  (size M < fuel)%nat -> (is_Some (M !! k) -> deletable t k) ->
  exists resp t', serve Decode fuel (delete_req seg) t = (Answer resp, t') /\
    if bool_decide (k = []) || ContainsSlash k then resp = refused "invalid key in path" /\ holds K t' M
    else resp = JSON StatusOK (JDel (mkDelResp "success" true)) /\
      exists K', K - 1 <= K' <= K /\ (delete k M <> ∅ -> K' = K) /\ holds K' t' (delete k M).
Proof.
  intros Hh Hne Hs Hu Hd Hdd Hf Hdel. apply serve_answers. rewrite (ServeHTTP_delete fuel seg k) by done.
  unfold removeKey. cbn [delete_req Method]. rewrite decide_False by (by intros H).
  change (TrimPrefix (remove_path k) (str "/kv/remove/")) with k. cbv zeta.
  destruct (bool_decide (k = []) || ContainsSlash k) eqn:Hbad; [by apply returns_ret|].
  apply orb_false_elim in Hbad as [Hk _]. apply bool_decide_eq_false in Hk. go_step. go_step. destruct (M !! k) as [v|] eqn:Hv.
  - go_call (DeleteValue_deletes K fuel k [] [] t M v); [|done|done|done|by apply Hdel|done].
    intros b t' (-> & Hh' & _). by apply returns_ret.
  - go_call (DeleteValue_absent_key K fuel k [] [] t M); [|done|done|done|lia].
    intros b t' (-> & Hh' & _). rewrite (delete_id M k Hv). apply returns_ret. split; [done|]. exists K. split_and!; [lia..|done|done].
Qed.

End Service.

Module ServerDeleteSample.
Import MemCache Sample DeleteSample.

Definition refuse (r : reader) : KV + string := inr "no body".

(** Key 8 (a backspace) of the tree of ten puts. *)
Lemma http_delete_witness :
  map10 !! [8] = Some [80] /\
  exists resp t', serve refuse 11 (delete_req (str "%08")) index10 = (Answer resp, t') /\
    if bool_decide ([8] = []) || ContainsSlash [8] then resp = refused "invalid key in path" /\ holds K0 t' map10
    else resp = JSON StatusOK (JDel (mkDelResp "success" true)) /\
      exists K', K0 - 1 <= K' <= K0 /\ (delete [8] map10 <> ∅ -> K' = K0) /\ holds K' t' (delete [8] map10).
Proof.
  split; [vm_compute; reflexivity|].
  apply (http_delete refuse K0 11 index10 map10 (str "%08") [8]);
    [exact index10_holds|by intros H; apply (f_equal size) in H; vm_compute in H|reflexivity|reflexivity|done|done|vm_compute; lia|].
  intros _. right. right. split; [exact key8_roomy|exact index10_first].
Defined.

(** A put, a deletion and another put of the same key: the emptied index starts over. *)
Example empty_and_refill :
  let run req t := serve refuse 5 req t in
  let '(_, t1) := InsertValue 5 [str "a"] [str "1"] [] index0 in
  let '(r2, t2) := run (delete_req (str "a")) t1 in
  let '(_, t3) := InsertValue 5 [str "b"] [str "2"] [] t2 in
  r2 = Answer (JSON StatusOK (JDel (mkDelResp "success" true))) /\ Root t2 = 0 /\ Root t3 = 2 /\
  (BTree.Get 5 (str "b") t3).1 = Val (str "2").
Proof. vm_compute. done. Qed.

End ServerDeleteSample.
