(* ===== verification/PagerTool.v ===== *)
(** * The page inspector ([cmd/pager/main.go])

    Prints the first bytes of a page of the data file.  The arguments behind the
    program's name and the file (none when it cannot be opened) are the inputs; an
    error is what [log.Fatalf] reports, the result is the page id and the bytes that
    are printed. *)

From S2P Require Import Prelude Keys Files Helpers Disk Page Server.
Local Open Scope Z_scope.

Definition PageSize : Z := 8192.
Definition HeaderSize : Z := 47.

(** Products of [int64] values wrap. *)
Definition i64 (z : Z) : Z := (z + 2 ^ 63) mod 2 ^ 64 - 2 ^ 63.

Definition pager_main (args : list bytes) (file : option bytes) : outcome (Z * bytes) :=
  match args with
  | [] => Err (mkError GoError "Usage: <file> <page_id> <header_bytes>")
  | arg :: _ =>
      match Atoi arg with
      | None => Err (mkError GoError "invalid page_id")
      | Some pageID =>
          if pageID <? 0 then Err (mkError GoError "invalid page_id")
          else match file with
          | None => Err (mkError GoError "failed to open file")
          | Some f =>
              let offset := i64 (pageID * PageSize) in
              if offset <? 0 then Err (mkError GoError "failed to seek to offset")
              else
                let '(buf, _) := ReadAt f HeaderSize offset in
                if (length buf =? 0)%nat then Err (mkError IOEOF "failed to read header")
                else Val (pageID, buf)
          end
      end
  end.

(** The page ids of a data file are in the range where the offset does not wrap, and
    the bytes printed are the first of the page. *)
Lemma pager_main_prints arg rest fd k : Atoi arg = Some k -> 0 <= k < 2 ^ 50 -> on_disk fd (k * 8192) ->
  pager_main (arg :: rest) (Some fd) = Val (k, take 47 (page_at fd (k * 8192))).
Proof.
  intros Ha Hk Hd. unfold pager_main. rewrite Ha, (proj2 (Z.ltb_ge _ _)) by lia. unfold PageSize, HeaderSize, i64. cbv zeta.
  rewrite Z.mod_small by lia. replace (k * 8192 + 2 ^ 63 - 2 ^ 63) with (k * 8192) by lia. rewrite (proj2 (Z.ltb_ge _ _)) by lia.
  assert (47 <= DM_PAGE)%nat as H47 by (apply Nat.leb_le; vm_compute; reflexivity).
  rewrite ReadAt_region. unfold on_disk in Hd. unfold page_at, region. change (Z.to_nat 47) with 47%nat.
  rewrite take_take, (Nat.min_l 47 DM_PAGE) by done. cbv beta iota. rewrite length_take, length_drop.
  destruct (Nat.eqb_spec (47 `min` (length fd - Z.to_nat (k * 8192))) 0); [lia|done].
Qed.

(** Behind the end of the file there is nothing to print. *)
Lemma pager_main_beyond arg rest fd k : Atoi arg = Some k -> 0 <= k < 2 ^ 50 -> (length fd <= Z.to_nat (k * 8192))%nat ->
  pager_main (arg :: rest) (Some fd) = Err (mkError IOEOF "failed to read header").
Proof.
  intros Ha Hk Hd. unfold pager_main. rewrite Ha, (proj2 (Z.ltb_ge _ _)) by lia. unfold PageSize, HeaderSize, i64. cbv zeta.
  rewrite Z.mod_small by lia. replace (k * 8192 + 2 ^ 63 - 2 ^ 63) with (k * 8192) by lia. rewrite (proj2 (Z.ltb_ge _ _)) by lia.
  rewrite ReadAt_region. unfold region. rewrite drop_ge by done. done.
Qed.

(** The header of a page is four bytes longer than what is printed: the left sibling
    at its end is cut off. *)
Example header_is_longer : field_at FLeftSibling = (47, 4)%nat /\ HeaderSize = 47.
Proof. done. Qed.

(** The offset of a large page id wraps: page 2^51 is shown as page 0. *)
Example page_wraps fd : pager_main [str "2251799813685248"] (Some fd) = (if (length (take 47 fd) =? 0)%nat then Err (mkError IOEOF "failed to read header") else Val (2 ^ 51, take 47 fd)).
Proof. unfold pager_main. change (Atoi (str "2251799813685248")) with (Some (2 ^ 51)). cbn -[ReadAt take]. by rewrite ReadAt_region. Qed.
