(* ===== verification/Manual.v ===== *)
(** * Manual memory ([internal/manual/manual.go])

    The buffer pools live outside the garbage collector's reach: [Alloc] and
    [FreeMem] call C's [calloc] and [free], which are parameters with what C says of
    them.  The readings of the resident set size parse what the system reports. *)

From S2P Require Import Prelude Keys Helpers.
Local Open Scope Z_scope.

(** ** Allocation *)

(** A C heap: the blocks that were allocated and not freed, by their address. *)
Abbreviation heap := (gmap Z bytes).

Section Alloc.
(** [calloc 1 n] returns the address of a block, [None] for the null pointer; [free]
    of an address that is not allocated has no defined result. *)
Context (calloc : Z -> heap -> option Z * heap) (free : Z -> heap -> heap).

Definition Alloc (size : Z) : M heap Z := fun hp =>
  match calloc size hp with
  | (Some ptr, hp') => (Val ptr, hp')
  | (None, hp') => (Panic "Out of memory.", hp')
  end.

(** 0 is the nil pointer. *)
Definition FreeMem (d : Z) : M heap unit := fun hp =>
  if d =? 0 then (Panic "d is NIL", hp) else (Val tt, free d hp).

(** A block is fresh and zeroed; when there is none, nothing happens. *)
Context (calloc_spec : forall n hp, 0 < n -> match calloc n hp with
  | (Some p, hp') => p <> 0 /\ hp !! p = None /\ hp' = <[p := replicate (Z.to_nat n) 0]> hp
  | (None, hp') => hp' = hp
  end).
Context (free_spec : forall p hp, is_Some (hp !! p) -> free p hp = delete p hp).

(** A block that was allocated is freed without a panic, and the heap is as it was. *)
Lemma Alloc_FreeMem n hp p hp' : 0 < n -> Alloc n hp = (Val p, hp') ->
  hp' !! p = Some (replicate (Z.to_nat n) 0) /\ FreeMem p hp' = (Val tt, hp).
Proof.
  intros Hn. unfold Alloc, FreeMem. pose proof (calloc_spec n hp Hn) as Hc. destruct (calloc n hp) as [[q|] h1]; [|done].
  intros [= <- <-]. destruct Hc as (H0 & Hno & ->). rewrite (proj2 (Z.eqb_neq _ _)) by done. split; [by rewrite lookup_insert_eq|].
  rewrite free_spec by (by rewrite lookup_insert_eq). by rewrite delete_insert_id.
Qed.

End Alloc.

(** ** Resident set size *)

(** [Rusage.Maxrss] is an [int64]. *)
Definition GetRssKB (maxrss : Z) : Z := u64 maxrss.

(** [strings.Fields] of ASCII text: the maximal runs of other characters. *)
Definition is_space (c : Z) : bool := (c =? 32) || (9 <=? c) && (c <=? 13).

Fixpoint fields (cur : bytes) (s : bytes) : list bytes :=
  match s with
  | [] => match cur with [] => [] | _ => [cur] end
  | c :: s' =>
      if is_space c then match cur with [] => fields [] s' | _ => cur :: fields [] s' end
      else fields (cur ++ [c]) s'
  end.
Definition Fields (s : bytes) : list bytes := fields [] s.

(** [strconv.ParseUint(s, 10, 64)] without its error: 0 for other text than digits,
    and the greatest number for one that is too large. *)
Fixpoint parse_digits (n : Z) (s : bytes) : option Z :=
  match s with
  | [] => Some n
  | c :: s' => if (48 <=? c) && (c <=? 57) then parse_digits (10 * n + (c - 48)) s' else None
  end.
Definition ParseUint (s : bytes) : Z :=
  match s with
  | [] => 0
  | _ => match parse_digits 0 s with
         | Some n => if n <? 2 ^ 64 then n else 2 ^ 64 - 1
         | None => 0
         end
  end.

(** [file] is what reading [/proc/self/statm] gives. *)
Definition CurrentRSSBytes (pagesize : Z) (file : bytes + error) : outcome Z :=
  match file with
  | inr e => Err e
  | inl b =>
      match Fields b with
      | _ :: f :: _ => Val (u64 (ParseUint f * u64 pagesize))
      | _ => Err (mkError GoError "unexpected statm")
      end
  end.

Lemma fields_word w s : Forall (fun c => is_space c = false) w -> forall cur, fields cur (w ++ 32 :: s) =
  match cur ++ w with [] => Fields s | x => x :: Fields s end.
Proof.
  induction 1 as [|c w Hc _ IH]; intros cur; cbn [app fields].
  - change (is_space 32) with true. cbv iota. rewrite app_nil_r. by destruct cur.
  - rewrite Hc, IH, <- app_assoc. done.
Qed.

(** The second word of the report is the number of resident pages. *)
Lemma CurrentRSSBytes_pages pagesize total pages rest n :
  total <> [] -> pages <> [] -> Forall (fun c => is_space c = false) (total ++ pages) -> ParseUint pages = n ->
  CurrentRSSBytes pagesize (inl (total ++ 32 :: pages ++ 32 :: rest)) = Val (u64 (n * u64 pagesize)).
Proof.
  intros Ht Hp [Hst Hsp]%Forall_app <-. unfold CurrentRSSBytes, Fields. rewrite fields_word by done. cbn [app].
  destruct total as [|c total]; [done|]. unfold Fields. rewrite fields_word by done. cbn [app]. by destruct pages.
Qed.

Example statm : CurrentRSSBytes 4096 (inl (str "1200 300 25 7 0 90 0")) = Val 1228800 /\
  CurrentRSSBytes 4096 (inl (str "1200")) = Err (mkError GoError "unexpected statm") /\
  CurrentRSSBytes 4096 (inl (str "1 99999999999999999999")) = Val (2 ^ 64 - 4096).
Proof. vm_compute. done. Qed.
