(* ===== verification/Zipf.v ===== *)
(** * The Zipf generator ([internal/zipf/zipf.go])

    Numbers for load tests, with the floating-point arithmetic of [Float64].  The
    random source is the list of the numbers that [rnd.Float64] is going to return;
    the loop of [GetNext] ends with the list at the latest ([OutOfFuel]).  The lock
    guards single draws and is not modelled. *)

From Stdlib Require Import SpecFloat.
From S2P Require Import Prelude Float64.
Local Open Scope Z_scope.

Record Zipf := mkZipf {
  z_s : float64; z_v : float64; imax : float64; xmin : float64; xmax : float64;
  hlow : float64; hupp : float64; totArea : float64; rnd : list float64
}.

Definition set_rnd (l : list float64) (z : Zipf) : Zipf :=
  mkZipf (z_s z) (z_v z) (imax z) (xmin z) (xmax z) (hlow z) (hupp z) (totArea z) l.

(** [((v + x) ** (1 - s)) / (1 - s)] *)
Definition h (s v x : float64) : float64 := (Pow (v + x) (of_int 1 - s) / (of_int 1 - s))%f64.

Definition rng : M Zipf float64 := fun z =>
  match rnd z with
  | [] => (OutOfFuel, z)
  | u :: l => (Val u, set_rnd l z)
  end.

Definition cummulativeArea (u : float64) : M Zipf float64 :=
  if SFltb u (of_int 0) then panic "invalid random integer"
  else gets (fun z => hlow z + u * totArea z)%f64.

Definition findX (z : Zipf) (cArea : float64) : float64 :=
  let x := (Exp (Log ((of_int 1 - z_s z) * cArea) / (of_int 1 - z_s z)) - z_v z)%f64 in
  Floor (x + const 1 2)%f64.

(** The lower boundary of the whole range stands where the comment has [h(k + 0.5)]. *)
Definition acceptanceTest (z : Zipf) (cArea k : float64) : bool :=
  let l := (hlow z - Pow (z_v z + k) (SFopp (z_s z)))%f64 in
  SFleb l cArea.

(** The number is left a [float64]: its conversion is up to the caller's platform
    when it is negative or too large. *)
Fixpoint GetNext (draws : nat) : M Zipf float64 :=
  match draws with
  | O => fun z => (OutOfFuel, z)
  | S draws' =>
      u ← rng;
      cArea ← cummulativeArea u;
      z ← get_state;
      let k := findX z cArea in
      if acceptanceTest z cArea k then mret k else GetNext draws'
  end.

(** [None] is the nil pointer. *)
Definition NewZipf (s v imax : float64) (r : list float64) : option Zipf :=
  if SFleb s (of_int 1) || SFltb imax (of_int 1) || SFltb v (of_int 0) then None
  else
    let xmin := const 1 2 in
    let xmax := (const 1 2 + imax)%f64 in
    let hlow := h s v xmin in
    let hupp := h s v xmax in
    Some (mkZipf s v imax xmin xmax hlow hupp (hupp - hlow)%f64 r).

(** The generator of the sketch's tests (exponent 2.3, offset 200, up to 5000): the
    first draw is taken, whatever it is. *)
Definition test_zipf (r : list float64) : option Zipf := NewZipf (const 23 10) (of_int 200) (of_int 5000) r.

Example test_numbers :
  ((fun u => z ← test_zipf [u]; Some (GetNext 1 z).1) <$> [of_int 0; const 1 4; const 1 2; const 3 4; const 9 10; const 999 1000]) =
  (fun n => Some (Val (of_int n))) <$> [1; 49; 138; 364; 872; 4744].
Proof. vm_compute. done. Qed.

Example refused_arguments : test_zipf [] <> None /\ NewZipf (of_int 1) (of_int 0) (of_int 10) [] = None /\ NewZipf (of_int 2) (of_int 0) (of_int 0) [] = None.
Proof. vm_compute. done. Qed.
