(* ===== verification/Generators.v ===== *)
(** * Generators of test data ([main.go] with its [sortItems], [RandomString] and [RandomNumber] of [pkg/helpers/helpers.go])

    The randomness is an argument: [Read n] are the bytes that [rand.Read] fills a
    slice of length [n] with, [Int n] is the number below [n] of [rand.Int], and
    [Intn i n] and [Int31n n] those of [math/rand], which panics for [n <= 0]. *)

From S2P Require Import Prelude Keys Server.
Local Open Scope Z_scope.

Definition letters : bytes := str "abcdefghijklmnopqrstuvwxyzABCDEFGHIJKLMNOPQRSTUVWXYZ0123456789".

Record NodeData := mkNodeData { nd_key : Z; nd_value : bytes }.

(** ** Sorting the records *)

(** The comparison is of the keys' little-endian bytes. *)
Definition sortFunc (a b : NodeData) : bool := bytes_compare (le32 (u32 (nd_key a))) (le32 (u32 (nd_key b))) =? -1.

(** [sort.Slice], as the insertion sort the library uses for short slices; for longer
    ones it leaves the order of equal keys open. *)
Fixpoint insert_item (x : NodeData) (t : list NodeData) : list NodeData :=
  match t with
  | [] => [x]
  | y :: t' => if sortFunc x y then x :: t else y :: insert_item x t'
  end.
Definition sortItems (l : list NodeData) : list NodeData := foldl (fun t x => insert_item x t) [] l.

Definition item_le (a b : NodeData) : Prop := sortFunc b a = false.

Lemma sortFunc_trans a b c : item_le a b -> sortFunc c a = true -> item_le c b.
Proof.
  unfold item_le, sortFunc. rewrite !Z.eqb_neq, Z.eqb_eq. set (ka := le32 _). set (kb := le32 (u32 (nd_key b))). set (kc := le32 (u32 (nd_key c))).
  intros Hba Hca Hbc. apply Hba. exact (key_lt_trans _ _ _ Hbc Hca).
Qed.

Lemma insert_item_perm x t : insert_item x t ≡ₚ x :: t.
Proof. induction t as [|y t IH]; cbn [insert_item]; [done|]. destruct (sortFunc x y); [done|]. rewrite IH. apply Permutation_swap. Qed.

Lemma sortFunc_asym a b : sortFunc a b = true -> item_le a b.
Proof. unfold item_le, sortFunc. rewrite Z.eqb_eq, Z.eqb_neq. intros H1. rewrite bytes_compare_opp, H1. lia. Qed.

Lemma insert_item_sorted x t : StronglySorted item_le t -> StronglySorted item_le (insert_item x t).
Proof.
  induction 1 as [|y t Hs IH Hy]; cbn [insert_item]; [by repeat constructor|]. destruct (sortFunc x y) eqn:E.
  - constructor; [by constructor|]. constructor; [by apply sortFunc_asym|]. eapply Forall_impl; [exact Hy|]. intros z Hz. by eapply sortFunc_trans.
  - constructor; [done|]. rewrite insert_item_perm. by constructor.
Qed.

(** The result has the same records, in the order of the comparison. *)
Lemma sortItems_sorts l : sortItems l ≡ₚ l /\ StronglySorted item_le (sortItems l).
Proof.
  induction l as [|x l [Hp Hs]] using rev_ind; [by split; [|constructor]|]. unfold sortItems in *. rewrite foldl_app. cbn [foldl]. split.
  - rewrite insert_item_perm, Hp. apply Permutation_cons_append.
  - by apply insert_item_sorted.
Qed.

(** That is not the order of the numbers: 256 comes before 1. *)
Example sortItems_little_endian : nd_key <$> sortItems [mkNodeData 1 []; mkNodeData 256 []; mkNodeData 2 []] = [256; 1; 2].
Proof. reflexivity. Qed.

Section Random.
Context (Read : nat -> bytes) (Int : Z -> Z).

(** [BigEndian.Uint32] of four bytes, without the sign bit. *)
Definition randomInt32Positive : outcome Z :=
  match Read 4 with
  | b0 :: b1 :: b2 :: b3 :: _ =>
      Val (i32 (Z.land (Z.lor b3 (Z.lor (Z.shiftl b2 8) (Z.lor (Z.shiftl b1 16) (Z.shiftl b0 24)))) 2147483647))
  | _ => Panic "index out of range"
  end.

Definition randomInt32InRange (min max : Z) : outcome Z :=
  if min >? max then Err (mkError GoError "min must be <= max")
  else
    let rangeSize := max - min + 1 in
    Val (i32 (min + Int rangeSize)).

Fixpoint alpha_num (buf : bytes) : outcome bytes :=
  match buf with
  | [] => Val []
  | b :: buf' =>
      match letters !! Z.to_nat (b mod Z.of_nat (length letters)), alpha_num buf' with
      | Some c, Val out => Val (c :: out)
      | _, _ => Panic "index out of range"
      end
  end.
Definition randomAlphaNumBytes (n : Z) : outcome bytes :=
  if n <? 0 then Panic "makeslice: len out of range" else alpha_num (Read (Z.to_nat n)).

Definition NewRandomNodeData (strLen : Z) : outcome NodeData :=
  let strLen := if strLen <=? 0 then 16 else strLen in
  match randomInt32InRange 0 100, randomAlphaNumBytes strLen with
  | Val k, Val v => Val (mkNodeData k v)
  | Err e, _ => Panic (Message e)
  | _, _ => Panic "index out of range"
  end.

(** What the two sources promise. *)
Context (Read_length : forall n, length (Read n) = n).
Context (Int_range : forall n, 0 < n -> 0 <= Int n < n).

Lemma randomInt32Positive_range : exists r, randomInt32Positive = Val r /\ 0 <= r < 2 ^ 31.
Proof.
  unfold randomInt32Positive. pose proof (Read_length 4) as Hl. destruct (Read 4) as [|b0 [|b1 [|b2 [|b3 l]]]]; try done.
  eexists. split; [done|]. change 2147483647 with (Z.ones 31). rewrite Z.land_ones by lia.
  match goal with |- 0 <= i32 (?z mod _) < _ => pose proof (Z.mod_pos_bound z (2 ^ 31)) end. rewrite i32_small; lia.
Qed.

Lemma randomInt32InRange_range min max : - 2 ^ 31 <= min -> max < 2 ^ 31 -> min <= max ->
  exists r, randomInt32InRange min max = Val r /\ min <= r <= max.
Proof.
  intros Hmin Hmax Hle. unfold randomInt32InRange. rewrite Z.gtb_ltb, (proj2 (Z.ltb_ge _ _)) by lia. eexists. split; [done|].
  pose proof (Int_range (max - min + 1)). rewrite i32_small; lia.
Qed.

Lemma alpha_num_letters buf : exists out, alpha_num buf = Val out /\ length out = length buf /\ Forall (fun c => c ∈ letters) out.
Proof.
  induction buf as [|b buf (out & IH & Hl & Hf)]; cbn [alpha_num]; [by exists []|].
  destruct (lookup_lt_is_Some_2 letters (Z.to_nat (b mod Z.of_nat (length letters)))) as [c Hc].
  { pose proof (Z.mod_pos_bound b (Z.of_nat (length letters))) as Hb. assert (Z.of_nat (length letters) = 62) as E by done. lia. }
  rewrite Hc, IH. exists (c :: out). split; [done|]. split; [cbn; lia|]. constructor; [by eapply list_elem_of_lookup_2|done].
Qed.

(** A record has a key from 0 to 100 and a value of the length asked for, 16 by default. *)
Lemma NewRandomNodeData_ok strLen : exists d, NewRandomNodeData strLen = Val d /\ 0 <= nd_key d <= 100 /\
  Z.of_nat (length (nd_value d)) = (if strLen <=? 0 then 16 else strLen) /\ Forall (fun c => c ∈ letters) (nd_value d).
Proof.
  unfold NewRandomNodeData, randomAlphaNumBytes. set (n := if strLen <=? 0 then 16 else strLen). cbv zeta.
  assert (0 < n) as Hn by (unfold n; destruct (Z.leb_spec strLen 0); lia).
  destruct (randomInt32InRange_range 0 100) as (k & -> & Hk); [lia..|]. rewrite (proj2 (Z.ltb_ge _ _)) by lia.
  destruct (alpha_num_letters (Read (Z.to_nat n))) as (v & -> & Hl & Hf). eexists. split; [done|]. cbn. split; [done|]. split; [|done].
  rewrite Hl, Read_length. lia.
Qed.

End Random.

(** ** The generators of the helpers *)

Definition charset : bytes := str "abcdefghijklmnopqrstuvwxyzABCDEFGHIJKLMNOPQRSTUVWXYZ0123456789".

Section MathRand.
Context (Intn : nat -> Z -> Z) (Int31n : Z -> Z).

(** [Intn i] is the answer to the [i]-th call. *)
Fixpoint random_chars (n i : nat) : outcome bytes :=
  match n with
  | O => Val []
  | S n' =>
      match charset !! Z.to_nat (Intn i (Z.of_nat (length charset))), random_chars n' (S i) with
      | Some c, Val out => Val (c :: out)
      | _, _ => Panic "index out of range"
      end
  end.
(** [sb.Grow] panics for a negative count. *)
Definition RandomString (n : Z) : outcome bytes :=
  if n <? 0 then Panic "strings.Builder.Grow: negative count" else random_chars (Z.to_nat n) 0.

Definition RandomNumber (max : Z) : outcome Z :=
  if max =? 0 then Val 0
  else
    let n := i32 (i32 max + 1) in
    if n <=? 0 then Panic "invalid argument to Int31n" else Val (u32 (Int31n n)).

Context (Intn_range : forall i n, 0 < n -> 0 <= Intn i n < n) (Int31n_range : forall n, 0 < n -> 0 <= Int31n n < n).

Lemma random_chars_ok n : forall i, exists out, random_chars n i = Val out /\ length out = n /\ Forall (fun c => c ∈ charset) out.
Proof.
  induction n as [|n IH]; intros i; cbn [random_chars]; [by exists []|]. destruct (IH (S i)) as (out & -> & Hl & Hf).
  destruct (lookup_lt_is_Some_2 charset (Z.to_nat (Intn i (Z.of_nat (length charset))))) as [c Hc].
  { assert (Z.of_nat (length charset) = 62) as E by done. rewrite E. pose proof (Intn_range i 62). lia. }
  rewrite Hc. exists (c :: out). split; [done|]. split; [cbn; lia|]. constructor; [by eapply list_elem_of_lookup_2|done].
Qed.

Lemma RandomString_ok n : 0 <= n -> exists out, RandomString n = Val out /\ Z.of_nat (length out) = n /\ Forall (fun c => c ∈ charset) out.
Proof.
  intros Hn. unfold RandomString. rewrite (proj2 (Z.ltb_ge _ _)) by lia. destruct (random_chars_ok (Z.to_nat n) 0) as (out & -> & Hl & Hf).
  exists out. split; [done|]. split; [lia|done].
Qed.

(** Up to [max] for a [max] below 2^31 - 1; from there on the bound is not positive
    as an [int32] and the call panics. *)
Lemma RandomNumber_range max : 0 <= max < 2 ^ 32 ->
  if max <? 2 ^ 31 - 1 then exists r, RandomNumber max = Val r /\ 0 <= r <= max else RandomNumber max = Panic "invalid argument to Int31n".
Proof.
  intros Hm. unfold RandomNumber. cbv zeta. destruct (Z.ltb_spec max (2 ^ 31 - 1)).
  - destruct (Z.eqb_spec max 0); [eexists; split; [done|lia]|]. rewrite (i32_small max), i32_small by lia.
    rewrite (proj2 (Z.leb_gt _ _)) by lia. eexists. split; [done|]. pose proof (Int31n_range (max + 1)). rewrite u32_small; lia.
  - rewrite (proj2 (Z.eqb_neq _ _)) by lia. assert (i32 (i32 max + 1) <= 0) as Hn.
    { unfold i32. destruct (decide (max = 2 ^ 31 - 1)) as [->|]; [vm_compute; done|].
      replace (max + 2 ^ 31) with (max - 2 ^ 31 + 1 * 2 ^ 32) by lia. rewrite Z.mod_add, (Z.mod_small (max - 2 ^ 31)), Z.mod_small by lia. lia. }
    by rewrite (proj2 (Z.leb_le _ _) Hn).
Qed.

End MathRand.
