(* ===== verification/Logger.v ===== *)
(** * The logger ([pkg/logger/queue.go], [logger.go])

    Callers put log requests in a linked list; goroutines running [run] take them
    out and hand them to [slog] under the logger's lock.  The requests live in a
    store: a pointer is a number and [nil] is [None].

    A goroutine is a value of [runner], and one event of [event] is one step of one
    goroutine, so that a list of events is an interleaving.  An operation of the
    queue holds the queue's lock throughout and is one step. *)

From S2P Require Import Prelude Keys.
Local Open Scope Z_scope.

(** ** The queue *)

Record LogItem := mkLogItem { pkg : string; fn : string; logLevel : Z; msg : string }.

(** [retChan] says whether the caller passed a channel. *)
Record LogReq := mkLogReq { log : LogItem; next : option nat; retChan : bool }.

Record LogQueue := mkLogQueue {
  q_head : option nat; q_tail : option nat; itemCount : Z; q_store : gmap nat LogReq; q_fresh : nat }.

Definition newLogQueue : LogQueue := mkLogQueue None None 0 ∅ 0.

Definition set_q (h t : option nat) (n : Z) (q : LogQueue) : LogQueue := mkLogQueue h t n (q_store q) (q_fresh q).

(** Allocation of a request. *)
Definition new_req (r : LogReq) : M LogQueue nat := fun q =>
  (Val (q_fresh q), mkLogQueue (q_head q) (q_tail q) (itemCount q) (<[q_fresh q := r]> (q_store q)) (S (q_fresh q))).

Definition setNext (lr n : nat) : M LogQueue unit := fun q =>
  match q_store q !! lr with
  | Some r => (Val tt, mkLogQueue (q_head q) (q_tail q) (itemCount q)
                (<[lr := mkLogReq (log r) (Some n) (retChan r)]> (q_store q)) (q_fresh q))
  | None => (Panic "invalid memory address or nil pointer dereference", q)
  end.

Definition addItem (r : option nat) : M LogQueue nat :=
  match r with
  | None => fail LoggerError "(logger) Log request cannot be nil."
  | Some r =>
      q ← get_state;
      if itemCount q <=? 0 then
        modify (set_q (Some r) (Some r) (u64 (itemCount q + 1)));; mret r
      else
        match q_tail q, q_head q with
        | None, _ => panic "(logger) No tail in the log queue."
        | _, None => panic "(logger) No head in the log queue."
        | Some t, Some _ =>
            setNext t r;;
            modify (fun q => set_q (q_head q) (Some r) (u64 (itemCount q + 1)) q);;
            mret r
        end
  end.

Definition getOldest : M LogQueue (option nat) :=
  q ← get_state;
  let currCount := itemCount q in
  if currCount <=? 0 then mret None
  else
    match q_head q, q_tail q with
    | None, _ => panic "(queue) - getOldest - No head in the log queue"
    | _, None => panic "(queue) - getOldest - No tail in the log queue"
    | Some lr, Some t =>
        match q_store q !! lr with
        | None => panic "invalid memory address or nil pointer dereference"
        | Some r =>
            let newCount := currCount - 1 in
            modify (set_q (next r) (if newCount =? 0 then None else Some t) newCount);;
            mret (Some lr)
        end
    end.

(** ** What is written *)

Definition DEBUG : Z := 0.
Definition PRODUCTION : Z := 1.

Definition LevelDebug : Z := -4.
Definition LevelInfo : Z := 0.
Definition LevelWarn : Z := 4.
Definition LevelError : Z := 8.

Inductive line := Line (level : Z) (m p f : string) | InvalidLevel (received : Z).

(** The call of [slog] for a record: its level and its line. *)
Definition slog_call (it : LogItem) : Z * line :=
  let l := logLevel it in
  if (l =? LevelInfo) || (l =? LevelDebug) || (l =? LevelWarn) || (l =? LevelError)
  then (l, Line l (msg it) (pkg it) (fn it))
  else (LevelError, InvalidLevel l).

(** The handler drops what is below its level. *)
Definition handle (level : Z) (it : LogItem) : list line :=
  let '(l, ln) := slog_call it in if level <=? l then [ln] else [].

(** ** The logger's goroutines *)

(** A goroutine of [run]: before [running.Store], at the head of the loop, with a
    request that it has not written yet, or sending on the request's channel with
    the logger's lock held. *)
Inductive runner := RStart | RLoop | RHave (r : nat) | RSend.

#[export] Instance runner_eq_dec : EqDecision runner.
Proof. solve_decision. Defined.

(** [l_checks] counts the calls of [Write] that have queued their request and not
    yet looked at [running]; [l_out] holds the records handed to [slog]. *)
Record BaobabLogger := mkLogger {
  queue : LogQueue; running : bool; l_level : Z; l_mu : bool;
  l_checks : nat; l_runners : list runner; l_out : list LogItem }.

(** One step of a goroutine: [Write] up to the queue and after it, a step of
    runner [i], or the receiver of the channel runner [i] is sending on. *)
Inductive event := EWrite (it : LogItem) (ch : bool) | ECheck | ERun (i : nat) | EReceive (i : nat).

Definition set_queue (q : LogQueue) (l : BaobabLogger) : BaobabLogger :=
  mkLogger q (running l) (l_level l) (l_mu l) (l_checks l) (l_runners l) (l_out l).
Definition set_runner (i : nat) (s : runner) (l : BaobabLogger) : BaobabLogger :=
  mkLogger (queue l) (running l) (l_level l) (l_mu l) (l_checks l) (<[i := s]> (l_runners l)) (l_out l).
Definition set_l_mu (b : bool) (l : BaobabLogger) : BaobabLogger :=
  mkLogger (queue l) (running l) (l_level l) b (l_checks l) (l_runners l) (l_out l).
Definition start_check (n : nat) (l : BaobabLogger) : BaobabLogger :=
  mkLogger (queue l) (running l) (l_level l) (l_mu l) n (l_runners l) (l_out l).

(** [Write]: the request is built and queued. *)
Definition Write_queue (it : LogItem) (ch : bool) : M BaobabLogger unit :=
  zoom queue set_queue (r ← new_req (mkLogReq it None ch); addItem (Some r));;
  modify (fun l => start_check (S (l_checks l)) l).

(** [Write]: [go l.run()] unless [running] is set. *)
Definition Write_start (l : BaobabLogger) : BaobabLogger :=
  mkLogger (queue l) (running l) (l_level l) (l_mu l) (pred (l_checks l))
    (if running l then l_runners l else l_runners l ++ [RStart]) (l_out l).

(** One step of [run] in goroutine [i]; a goroutine waits for the lock. *)
Definition run_step (i : nat) : M BaobabLogger unit :=
  l ← get_state;
  match l_runners l !! i with
  | Some RStart => modify (fun l => set_runner i RLoop
      (mkLogger (queue l) true (l_level l) (l_mu l) (l_checks l) (l_runners l) (l_out l)))
  | Some RLoop =>
      r ← zoom queue set_queue getOldest;
      match r with
      | Some r => modify (set_runner i (RHave r))
      | None => mret tt
      end
  | Some (RHave r) =>
      match q_store (queue l) !! r with
      | None => panic "invalid memory address or nil pointer dereference"
      | Some req =>
          if l_mu l then blocked
          else modify (fun l => set_runner i (if retChan req then RSend else RLoop)
            (mkLogger (queue l) (running l) (l_level l) (retChan req) (l_checks l) (l_runners l) (l_out l ++ [log req])))
      end
  | Some RSend => blocked
  | None => blocked
  end.

Definition do_event (e : event) : M BaobabLogger unit :=
  match e with
  | EWrite it ch => Write_queue it ch
  | ECheck => l ← get_state; if (l_checks l =? 0)%nat then blocked else modify Write_start
  | ERun i => run_step i
  | EReceive i =>
      l ← get_state;
      if decide (l_runners l !! i = Some RSend) then modify (fun l => set_runner i RLoop (set_l_mu false l)) else blocked
  end.

(** An interleaving; an event that is not possible blocks. *)
Fixpoint do_events (es : list event) : M BaobabLogger unit :=
  match es with
  | [] => mret tt
  | e :: es' => do_event e;; do_events es'
  end.

(** What the handler has printed. *)
Definition printed (l : BaobabLogger) : list line := concat (handle (l_level l) <$> l_out l).

(** ** The singleton *)

(** The package's variables: the instance, the mode and the file, and the options
    each instance was made with. *)
Record options := mkOptions { o_mode : Z; o_level : Z; o_file : string; o_maxLogSize : Z }.
Record globals := mkGlobals {
  bLogger : option nat; defaultLogMode : Z; logFile : string; g_made : list options }.

Definition NewLogger (logFilePath : string) (mode lSize : Z) : M globals nat :=
  if lSize =? 0 then panic "Invalid log size provided."
  else
    g ← get_state;
    match bLogger g with
    | Some l => mret l
    | None =>
        let level := if mode =? PRODUCTION then LevelInfo else LevelDebug in
        let file := if (0 <? Z.of_nat (String.length logFilePath)) then logFilePath else logFile g in
        let l := length (g_made g) in
        put_state (mkGlobals (Some l) mode file (g_made g ++ [mkOptions mode level file lSize]));;
        mret l
    end.

Definition Close : M globals unit :=
  modify (fun g => mkGlobals None (defaultLogMode g) (logFile g) (g_made g)).

Definition new_logger (level : Z) : BaobabLogger := mkLogger newLogQueue false level false 0 [] [].
