(* ===== verification/LoggerTheorems.v ===== *)
(** * What the logger guarantees

    The queue is a first-in first-out list; in every interleaving each message is
    waiting, in the hands of one goroutine, or written, exactly once; the order is
    kept by one goroutine and not by two. *)

From S2P Require Import Prelude Keys Logger.
Local Open Scope Z_scope.

(** ** The queue as a list of requests *)

Definition log_at (q : LogQueue) (a : nat) : option LogItem := log <$> q_store q !! a.

Fixpoint qchain (s : gmap nat LogReq) (l : list nat) : Prop :=
  match l with
  | [] => True
  | a :: l' => (exists r, s !! a = Some r /\ next r = head l') /\ qchain s l'
  end.

Record qrep (q : LogQueue) (l : list nat) : Prop := {
  qr_chain : qchain (q_store q) l;
  qr_head : q_head q = head l;
  qr_tail : q_tail q = last l;
  qr_count : itemCount q = Z.of_nat (length l);
  qr_nodup : NoDup l;
  qr_fresh : forall a, is_Some (q_store q !! a) -> (a < q_fresh q)%nat }.

Lemma qchain_in s l a : qchain s l -> a ∈ l -> is_Some (s !! a).
Proof. induction l as [|b l IH]; [by intros _ ?%not_elem_of_nil|]. intros [(r & Hr & _) Hl] [->|Ha]%elem_of_cons; eauto. Qed.

Lemma qchain_out s l a r : a ∉ l -> qchain s l -> qchain (<[a := r]> s) l.
Proof.
  induction l as [|b l IH]; [done|]. intros Ha [(x & Hx & Hn) Hl]. apply not_elem_of_cons in Ha as [Hab Ha].
  split; [|by apply IH]. exists x. by rewrite lookup_insert_ne.
Qed.

(** A new last request. *)
Lemma qchain_snoc s l t r n x : NoDup (l ++ [t]) -> n ∉ l ++ [t] -> s !! t = Some r -> s !! n = Some x -> next x = None ->
  qchain s (l ++ [t]) -> qchain (<[t := mkLogReq (log r) (Some n) (retChan r)]> s) ((l ++ [t]) ++ [n]).
Proof.
  intros Hnd Hn Ht Hx Hnx. induction l as [|a l IH]; cbn [app qchain] in *.
  - intros _. split; [eexists; by rewrite lookup_insert_eq|]. split; [|done]. exists x. rewrite lookup_insert_ne; [done|set_solver].
  - intros [(y & Hy & Hny) Hc]. apply NoDup_cons in Hnd as [Ha Hnd]. split; [|apply IH; [done|set_solver|done]].
    exists y. rewrite lookup_insert_ne by set_solver. split; [done|]. rewrite Hny. by destruct l.
Qed.

Lemma qrep_new : qrep newLogQueue [].
Proof. split; cbn; try done; [constructor|]. intros a. rewrite lookup_empty. by intros []. Qed.

Lemma fresh_not_in q l : qrep q l -> q_fresh q ∉ l.
Proof. intros Hq Hin. pose proof (qr_fresh _ _ Hq _ (qchain_in _ _ _ (qr_chain _ _ Hq) Hin)). lia. Qed.

Definition same_items (q q' : LogQueue) : Prop := forall a, is_Some (q_store q !! a) -> log_at q' a = log_at q a.

(** Queueing a request. *)
Lemma addItem_qrep q l it ch : qrep q l -> Z.of_nat (length l) + 1 < 2 ^ 64 ->
  returns (r ← new_req (mkLogReq it None ch); addItem (Some r)) q (fun r q' =>
    qrep q' (l ++ [r]) /\ log_at q' r = Some it /\ same_items q q' /\ ~ is_Some (q_store q !! r)).
Proof.
  intros Hq Hlen. pose proof (fresh_not_in _ _ Hq) as Hfr. destruct Hq as [Hc Hh Ht Hn Hnd Hf].
  assert (Hnew : ~ is_Some (q_store q !! q_fresh q)) by (intros Hs; specialize (Hf _ Hs); lia).
  go_step. eexists _, _. split; [reflexivity|]. unfold addItem. go_step. go_step. cbn [itemCount q_tail q_head q_store]. rewrite Hn.
  destruct (decide (l = [])) as [->|Hne].
  - rewrite (proj2 (Z.leb_le _ _)) by (cbn; lia). go_step. go_step. go_step. split_and!; [|by unfold log_at; cbn; rewrite lookup_insert_eq| |done].
    + split; cbn; try done; [split; [|done]; eexists; by rewrite lookup_insert_eq|apply NoDup_singleton|].
      intros a [->|[_ Ha]]%lookup_insert_is_Some; [lia|]. specialize (Hf a Ha). lia.
    + intros a Ha. unfold log_at. cbn. rewrite lookup_insert_ne; [done|]. by intros <-.
  - rewrite (proj2 (Z.leb_gt _ _)) by (destruct l; cbn; [done|lia]).
    destruct (exists_last Hne) as (l' & t & ->). rewrite Ht, Hh, last_snoc.
    assert (is_Some (head (l' ++ [t]))) as [h Hhd] by (destruct l'; cbn; eauto). rewrite Hhd.
    assert (is_Some (q_store q !! t)) as [r Hr] by (eapply qchain_in; [exact Hc|set_solver]).
    assert (Hnt : q_fresh q <> t) by set_solver.
    go_step. exists tt. eexists. split; [unfold setNext; cbn; rewrite lookup_insert_ne, Hr by done; reflexivity|].
    go_step. go_step. go_step. split_and!.
    + split; cbn.
      * eapply qchain_snoc; [done|done|by rewrite lookup_insert_ne|by rewrite lookup_insert_eq|done|]. by apply qchain_out.
      * rewrite ?Hh, <- ?Hhd. by destruct l'.
      * by rewrite last_snoc.
      * rewrite ?Hn, !length_app in *. cbn [length] in *. rewrite u64_small; lia.
      * apply NoDup_app. split; [done|]. split; [set_solver|apply NoDup_singleton].
      * intros a [->|[_ [->|[_ Ha]]%lookup_insert_is_Some]]%lookup_insert_is_Some; [|lia|specialize (Hf a Ha); lia].
        apply Nat.lt_lt_succ_r, Hf. by rewrite Hr.
    + unfold log_at. cbn. rewrite lookup_insert_ne by done. by rewrite lookup_insert_eq.
    + intros a Ha. unfold log_at. cbn. destruct (decide (a = t)) as [->|]; [by rewrite lookup_insert_eq, Hr|].
      rewrite !lookup_insert_ne; [done| |done]. by intros <-.
    + done.
Qed.

(** Taking the oldest request. *)
Lemma getOldest_qrep q l : qrep q l ->
  returns getOldest q (fun r q' => r = head l /\ qrep q' (tail l) /\ q_store q' = q_store q).
Proof.
  intros Hq. destruct (Hq) as [Hc Hh Ht Hn Hnd Hf]. unfold getOldest. go_step. go_step. cbv zeta. rewrite Hn.
  destruct l as [|a l]; [by apply returns_ret|].
  rewrite (proj2 (Z.leb_gt _ _)) by (cbn; lia). rewrite Hh, Ht. cbn [head].
  assert (is_Some (last (a :: l))) as [t Hlt] by (by apply last_is_Some). rewrite Hlt.
  destruct Hc as [(r & Hr & Hnx) Hc]. rewrite Hr. go_step. go_step. go_step. split; [done|]. split; [|done].
  apply NoDup_cons in Hnd as [_ Hnd]. split; cbn [q_store q_head q_tail itemCount q_fresh set_q tail]; try done.
  - destruct l as [|b l]; cbn [length]; [done|].
    rewrite (proj2 (Z.eqb_neq _ _)) by lia. by rewrite <- Hlt.
  - cbn [length]. lia.
Qed.

(** ** Where the messages are *)

Definition items (q : LogQueue) (l : list nat) : list LogItem := omap (log_at q) l.

(** The requests goroutines have taken and not written yet. *)
Definition in_hand (s : runner) : option nat := match s with RHave r => Some r | _ => None end.
Definition held (l : BaobabLogger) : list LogItem := items (queue l) (omap in_hand (l_runners l)).

(** The requests in the queue, from its head on. *)
Fixpoint walk (n : nat) (s : gmap nat LogReq) (a : option nat) : list LogItem :=
  match n, a with
  | S n', Some a => match s !! a with Some r => log r :: walk n' s (next r) | None => [] end
  | _, _ => []
  end.
Definition waiting (l : BaobabLogger) : list LogItem :=
  walk (Z.to_nat (itemCount (queue l))) (q_store (queue l)) (q_head (queue l)).

Definition writes (es : list event) : list LogItem :=
  omap (fun e => match e with EWrite it _ => Some it | _ => None end) es.

Lemma walk_items q l : qrep q l -> walk (Z.to_nat (itemCount q)) (q_store q) (q_head q) = items q l.
Proof.
  intros [Hc -> _ -> _ _]. rewrite Nat2Z.id. unfold items, log_at. revert Hc. generalize (q_store q). intros s.
  induction l as [|a l IH]; [done|]. intros [(r & Hr & Hn) Hc]. cbn [length head walk omap list_omap].
  rewrite Hr. cbn. by rewrite Hn, IH.
Qed.

Lemma items_same q q' l : same_items q q' -> (forall a, a ∈ l -> is_Some (q_store q !! a)) -> items q' l = items q l.
Proof.
  intros Hs. induction l as [|a l IH]; [done|]. intros Hl. unfold items in *. cbn. rewrite Hs by (apply Hl; set_solver).
  rewrite IH; [done|]. intros b Hb. apply Hl. set_solver.
Qed.

(** The invariant: every message written is at exactly one place, and in order as
    long as there is one goroutine. *)
Definition all_there (l : BaobabLogger) (W : list LogItem) : Prop :=
  W ≡ₚ l_out l ++ held l ++ waiting l /\
  ((length (l_runners l) <= 1)%nat -> W = l_out l ++ held l ++ waiting l).

Record log_ok (n : nat) (l : BaobabLogger) (W : list LogItem) : Prop := {
  lo_queue : exists q, qrep (queue l) q /\ (length q <= n)%nat;
  lo_held : forall a, a ∈ omap in_hand (l_runners l) -> is_Some (q_store (queue l) !! a);
  lo_there : all_there l W }.

(** The call returns to a state in [Q], or waits. *)
Definition safe {A} (m : M BaobabLogger A) (l : BaobabLogger) (Q : BaobabLogger -> Prop) : Prop :=
  match m l with (Val _, l') => Q l' | (Blocked, _) => True | _ => False end.

Lemma safe_returns {A} (m : M BaobabLogger A) l Q : returns m l (fun _ l' => Q l') -> safe m l Q.
Proof. intros (a & l' & Hm & HQ). unfold safe. by rewrite Hm. Qed.

Lemma runner_split (rs : list runner) i s : rs !! i = Some s ->
  exists r1 r2, rs = r1 ++ s :: r2 /\ forall s', <[i := s']> rs = r1 ++ s' :: r2.
Proof.
  intros Hi. exists (take i rs), (drop (S i) rs). split; [by rewrite take_drop_middle|].
  intros s'. apply insert_take_drop. by eapply lookup_lt_Some.
Qed.

(** The state of one goroutine changes and nothing else that matters. *)
Lemma log_ok_runner n l W i s s' l' : log_ok n l W -> l_runners l !! i = Some s -> in_hand s = None -> in_hand s' = None ->
  queue l' = queue l -> l_out l' = l_out l -> l_runners l' = <[i := s']> (l_runners l) -> log_ok n l' W.
Proof.
  intros [Hq Hh Ht] Hi Hs Hs' Eq Eo Er. destruct (runner_split _ _ _ Hi) as (r1 & r2 & H1 & H2).
  assert (omap in_hand (l_runners l') = omap in_hand (l_runners l)) as Hom.
  { rewrite Er, H2, H1, !omap_app. cbn. by rewrite Hs, Hs'. }
  split; [by rewrite Eq|by rewrite Hom, Eq|].
  unfold all_there, held, waiting. rewrite Hom, Eq, Eo, Er, length_insert. exact Ht.
Qed.

Lemma log_ok_write n l W it ch : log_ok n l W -> Z.of_nat n + 1 < 2 ^ 64 ->
  returns (Write_queue it ch) l (fun _ l' => log_ok (S n) l' (W ++ [it])).
Proof.
  intros [(q & Hq & Hn) Hh [Hp Ho]] Hb. unfold Write_queue. go_step. go_step.
  go_call addItem_qrep; [|exact Hq|lia]. intros r q' (Hq' & Hr & Hsame & _). go_step. cbn [l_checks set_queue].
  assert (Hheld : items q' (omap in_hand (l_runners l)) = held l) by (by apply items_same).
  assert (Hw : walk (Z.to_nat (itemCount q')) (q_store q') (q_head q') = waiting l ++ [it]).
  { rewrite (walk_items _ _ Hq'). unfold waiting. rewrite (walk_items _ _ Hq). unfold items. rewrite omap_app. cbn. rewrite Hr.
    f_equal. apply items_same; [done|]. intros a. by apply qchain_in, (qr_chain _ _ Hq). }
  split; cbn [queue l_runners l_out set_queue start_check].
  - exists (q ++ [r]). split; [done|]. rewrite length_app. cbn. lia.
  - intros a Ha. specialize (Hh a Ha). pose proof (Hsame a Hh) as Hl. unfold log_at in Hl. destruct Hh as [x Hx].
    rewrite Hx in Hl. destruct (q_store q' !! a); [eauto|done].
  - unfold all_there. unfold held at 1 2, waiting at 1 2. cbn [queue l_runners l_out set_queue start_check]. rewrite Hheld, Hw. split; [by rewrite Hp, <- !app_assoc|].
    intros Hl. by rewrite (Ho Hl), <- !app_assoc.
Qed.

Lemma log_ok_take n l W i : log_ok n l W -> l_runners l !! i = Some RLoop -> safe (run_step i) l (fun l' => log_ok n l' W).
Proof.
  intros [(q & Hq & Hn) Hh [Hp Ho]] Hi. apply safe_returns. unfold run_step. go_step. go_step. rewrite Hi. go_step. go_step.
  go_call getOldest_qrep; [|exact Hq]. intros r q' (-> & Hq' & Hst).
  assert (Hlog : forall x, items q' x = items (queue l) x) by (intros x; unfold items, log_at; by rewrite Hst).
  assert (Hold : waiting l = items (queue l) q) by (by apply walk_items).
  assert (Hnew : walk (Z.to_nat (itemCount q')) (q_store q') (q_head q') = items (queue l) (tail q)) by (by rewrite (walk_items _ _ Hq')).
  destruct q as [|a q]; cbn [head tail] in *.
  - go_step. split; cbn [queue l_runners set_queue]; [by exists []|by rewrite Hst|].
    unfold all_there, held, waiting. cbn [queue l_runners l_out set_queue]. rewrite Hlog, Hnew, <- Hold. done.
  - go_step. destruct (runner_split _ _ _ Hi) as (r1 & r2 & H1 & H2).
    destruct (qr_chain _ _ Hq) as [(x & Hx & _) _].
    split; cbn [queue l_runners set_queue set_runner].
    + exists q. split; [done|]. cbn in Hn. lia.
    + rewrite H2, omap_app, Hst. cbn. intros b [Hb|[->|Hb]%elem_of_cons]%elem_of_app; [|eauto|];
        apply Hh; rewrite H1, omap_app; cbn; set_solver.
    + unfold all_there. unfold held, waiting. cbn [queue l_runners l_out set_queue set_runner]. rewrite Hlog, Hnew, H2.
      unfold held in Hp, Ho. rewrite Hold, H1 in Hp, Ho. unfold items in *. rewrite !omap_app in *. cbn in *. unfold log_at in *. rewrite Hx in *. cbn in *.
      split; [rewrite Hp; solve_Permutation|].
      intros Hl. rewrite length_app in *. cbn [length] in *. rewrite Ho by lia.
      destruct r1, r2; [done|cbn in Hl; lia..].
Qed.

Lemma log_ok_emit n l W i r : log_ok n l W -> l_runners l !! i = Some (RHave r) -> safe (run_step i) l (fun l' => log_ok n l' W).
Proof.
  intros [(q & Hq & Hn) Hh [Hp Ho]] Hi. unfold safe, run_step, mbind, M_bind, get_state. rewrite Hi.
  destruct (runner_split _ _ _ Hi) as (r1 & r2 & H1 & H2).
  destruct (Hh r) as [x Hx]; [rewrite H1, omap_app; cbn; set_solver|]. rewrite Hx. destruct (l_mu l); [done|]. cbn.
  set (s' := if retChan x then RSend else RLoop). assert (Hs' : in_hand s' = None) by (unfold s'; by destruct (retChan x)).
  assert (Hom : omap in_hand (<[i := s']> (l_runners l)) = omap in_hand r1 ++ omap in_hand r2).
  { rewrite H2, omap_app. cbn. by rewrite Hs'. }
  split; cbn [queue l_runners set_runner].
  - by exists q.
  - rewrite Hom. intros b Hb. apply Hh. rewrite H1, omap_app. cbn. set_solver.
  - unfold all_there. unfold held, waiting in *. cbn [queue l_runners l_out set_runner]. rewrite Hom, length_insert.
    rewrite H1 in Hp, Ho. unfold items in *. rewrite !omap_app in *. cbn in *. unfold log_at in *. rewrite Hx in *. cbn in *.
    split; [rewrite Hp; solve_Permutation|].
    intros Hl. rewrite H1 in Hl. rewrite Ho by done. rewrite length_app in Hl. cbn [length] in Hl.
    destruct r1, r2; cbn in *; [by rewrite <- app_assoc|lia..].
Qed.

Lemma log_ok_event n l W e : log_ok n l W -> Z.of_nat n + 1 < 2 ^ 64 ->
  safe (do_event e) l (fun l' => log_ok (S n) l' (W ++ writes [e])).
Proof.
  intros Hok Hn. assert (Hmore : forall l', log_ok n l' W -> log_ok (S n) l' (W ++ [])).
  { intros l' [(q & Hq & Hl) Hh Ht]. rewrite app_nil_r. split; [|done|done]. exists q. split; [done|lia]. }
  destruct e as [it ch| |i|i]; cbn [writes omap list_omap do_event].
  - by apply safe_returns, log_ok_write.
  - unfold safe, mbind, M_bind, get_state, modify. destruct (l_checks l =? 0)%nat; [done|]. apply Hmore.
    destruct (running l) eqn:E; [destruct Hok as [Hq Hh Ht]; split; unfold all_there, held, waiting, Write_start in *; rewrite ?E; done|].
    destruct Hok as [Hq Hh [Hp Ho]]. unfold all_there, held, waiting in *.
    split; unfold all_there, held, waiting, Write_start; rewrite ?E; cbn [queue l_runners l_out]; rewrite ?omap_app; cbn [omap list_omap in_hand];
      rewrite ?app_nil_r; [done|done|]. split; [done|]. rewrite length_app. cbn [length]. intros Hl. apply Ho. lia.
  - destruct (l_runners l !! i) as [[| |r|]|] eqn:Hi.
    + unfold safe, run_step, mbind, M_bind, get_state. rewrite Hi. by apply Hmore, (log_ok_runner n l W i RStart RLoop).
    + unfold safe in *. pose proof (log_ok_take n l W i Hok Hi) as H. unfold safe in H. destruct (run_step i l) as [[] l']; [|done..]. by apply Hmore.
    + pose proof (log_ok_emit n l W i r Hok Hi) as H. unfold safe in *. destruct (run_step i l) as [[] l']; [|done..]. by apply Hmore.
    + unfold safe, run_step, mbind, M_bind, get_state. by rewrite Hi.
    + unfold safe, run_step, mbind, M_bind, get_state. by rewrite Hi.
  - unfold safe, mbind, M_bind, get_state. destruct (decide (l_runners l !! i = Some RSend)) as [Hi|]; [|done].
    by apply Hmore, (log_ok_runner n l W i RSend RLoop).
Qed.

Lemma writes_cons e es : writes (e :: es) = writes [e] ++ writes es.
Proof. unfold writes. by rewrite <- (omap_app _ [e] es). Qed.

Lemma log_ok_events es : forall n l W, log_ok n l W -> Z.of_nat (n + length es) < 2 ^ 64 ->
  safe (do_events es) l (fun l' => log_ok (n + length es) l' (W ++ writes es)).
Proof.
  induction es as [|e es IH]; intros n l W Hok Hn; cbn [length] in *.
  - unfold safe. cbn. by rewrite Nat.add_0_r, app_nil_r.
  - pose proof (log_ok_event n l W e Hok ltac:(lia)) as He. unfold safe in *. cbn [do_events]. unfold mbind, M_bind.
    destruct (do_event e l) as [[] l1]; try done. specialize (IH (S n) l1 _ He ltac:(lia)).
    rewrite writes_cons, app_assoc, <- Nat.add_succ_comm. exact IH.
Qed.

Lemma new_logger_ok level : log_ok 0 (new_logger level) [].
Proof. split; [exists []; split; [exact qrep_new|done]|by intros a ?%not_elem_of_nil|done]. Qed.

(** ** A goroutine that is left alone *)

Definition no_channel (l : BaobabLogger) : Prop := map_Forall (fun _ r => retChan r = false) (q_store (queue l)).

Lemma runner_round i l q : qrep (queue l) q -> l_runners l !! i = Some RLoop -> l_mu l = false -> no_channel l ->
  match q with
  | [] => True
  | a :: q' => exists l', do_events [ERun i; ERun i] l = (Val tt, l') /\ qrep (queue l') q' /\
      l_runners l' = l_runners l /\ l_mu l' = false /\ no_channel l' /\ l_out l' = l_out l ++ items (queue l) [a] /\
      q_store (queue l') = q_store (queue l)
  end.
Proof.
  intros Hq Hi Hm Hc. destruct q as [|a q]; [done|].
  destruct (getOldest_qrep _ _ Hq) as (r & q' & Hg & -> & Hq' & Hst). destruct (qr_chain _ _ Hq) as [(x & Hx & _) _].
  assert (Hlt : (i < length (l_runners l))%nat) by (by eapply lookup_lt_Some).
  set (l1 := set_runner i (RHave a) (set_queue q' l)).
  assert (H1 : run_step i l = (Val tt, l1)).
  { unfold run_step, mbind, M_bind, get_state. rewrite Hi. unfold zoom. by rewrite Hg. }
  assert (Hi1 : l_runners l1 !! i = Some (RHave a)) by (cbn; by rewrite list_lookup_insert_eq).
  exists (set_runner i RLoop (mkLogger q' (running l) (l_level l) false (l_checks l) (l_runners l1) (l_out l ++ [log x]))).
  split_and!; cbn [queue l_runners l_mu l_out set_runner set_queue]; try done.
  - cbn [do_events do_event]. unfold mbind at 1, M_bind at 1. rewrite H1. unfold mbind at 1, M_bind at 1.
    unfold run_step, mbind, M_bind, get_state. rewrite Hi1. subst l1. cbn [queue set_runner set_queue l_mu]. rewrite Hst, Hx, Hm.
    by rewrite (Hc a x Hx).
  - subst l1. cbn. rewrite list_insert_insert_eq. by apply list_insert_id.
  - unfold no_channel. cbn. by rewrite Hst.
  - unfold items, log_at. cbn. by rewrite Hx.
Qed.

Lemma runner_drains i q : forall l, qrep (queue l) q -> l_runners l !! i = Some RLoop -> l_mu l = false -> no_channel l ->
  exists l', do_events (replicate (2 * length q) (ERun i)) l = (Val tt, l') /\ qrep (queue l') [] /\
    l_runners l' = l_runners l /\ l_out l' = l_out l ++ items (queue l) q /\ q_store (queue l') = q_store (queue l).
Proof.
  induction q as [|a q IH]; intros l Hq Hi Hm Hc.
  - exists l. split_and!; try done. by rewrite app_nil_r.
  - destruct (runner_round i l _ Hq Hi Hm Hc) as (l1 & H1 & Hq1 & Hr1 & Hm1 & Hc1 & Ho1 & Hs1).
    destruct (IH l1 Hq1 ltac:(by rewrite Hr1) Hm1 Hc1) as (l2 & H2 & Hq2 & Hr2 & Ho2 & Hs2). exists l2.
    split_and!; [|done|congruence| |congruence].
    + cbn [length]. replace (2 * S (length q))%nat with (2 + 2 * length q)%nat by lia. cbn [Nat.add replicate do_events] in *.
      unfold mbind, M_bind in *. destruct (do_event (ERun i) l) as [[] la]; try done. destruct (do_event (ERun i) la) as [[] lb]; try done.
      cbn in H1. by injection H1 as ->.
    + rewrite Ho2, Ho1. assert (items (queue l1) q = items (queue l) q) as -> by (unfold items, log_at; by rewrite Hs1).
      rewrite <- app_assoc. f_equal. unfold items. by rewrite <- omap_app.
Qed.

(** C23: no message is lost or written twice.  After any interleaving of writers and
    goroutines, a goroutine at the head of its loop that finds the lock free writes
    everything that is waiting, oldest first, in two steps a message (callers
    passing no channel); then the messages of all [Write] calls are, each exactly
    once, those written and those in the hands of other goroutines.  With one
    goroutine they are written in the order of the calls. *)
Theorem log_messages_written level es l i :
  do_events es (new_logger level) = (Val tt, l) -> Z.of_nat (length es) < 2 ^ 64 ->
  l_runners l !! i = Some RLoop -> l_mu l = false -> no_channel l ->
  exists l', do_events (replicate (2 * length (waiting l)) (ERun i)) l = (Val tt, l') /\
    l_out l' = l_out l ++ waiting l /\ waiting l' = [] /\ writes es ≡ₚ l_out l' ++ held l' /\
    (length (l_runners l) = 1%nat -> writes es = l_out l').
Proof.
  intros Hrun Hn Hi Hm Hc. pose proof (log_ok_events es 0 _ _ (new_logger_ok level) Hn) as H. unfold safe in H. rewrite Hrun in H.
  destruct H as [(q & Hq & _) _ [Hp Ho]]. cbn [app] in *.
  assert (Hw : waiting l = items (queue l) q) by (by apply walk_items).
  destruct (runner_drains i q l Hq Hi Hm Hc) as (l' & Hd & Hq' & Hr' & Ho' & Hs'). exists l'.
  assert (Hlen : length (items (queue l) q) = length q).
  { pose proof (qr_chain _ _ Hq) as Hch. clear -Hch. unfold items, log_at. induction q as [|a q IH]; [done|].
    destruct Hch as [(r & Hr & _) Hch]. cbn. rewrite Hr. cbn. by rewrite IH. }
  assert (Hheld : held l' = held l) by (unfold held, items, log_at; by rewrite Hr', Hs').
  rewrite Hw, Hlen, Hheld, Ho'. split_and!; [done|done|by apply (walk_items _ [])|rewrite Hp, Hw; solve_Permutation|].
  intros Hone. rewrite Ho by lia. destruct (l_runners l) as [|s [|]] eqn:E; try done. destruct i; [|done]. injection Hi as ->.
  unfold held. rewrite E. cbn. by rewrite Hw.
Qed.

Module LoggerSample.

Definition item (m : string) : LogItem := mkLogItem "bptree" "get" LevelInfo m.

(** Two calls of [Write], one goroutine. *)
Definition calm_run : list event := [EWrite (item "a") false; ECheck; ERun 0; EWrite (item "b") false; ECheck].
Definition calm_end : BaobabLogger := (do_events calm_run (new_logger LevelInfo)).2.

Lemma log_messages_written_witness : waiting calm_end = [item "a"; item "b"] /\
  exists l', do_events (replicate (2 * length (waiting calm_end)) (ERun 0)) calm_end = (Val tt, l') /\
    l_out l' = l_out calm_end ++ waiting calm_end /\ waiting l' = [] /\ writes calm_run ≡ₚ l_out l' ++ held l' /\
    (length (l_runners calm_end) = 1%nat -> writes calm_run = l_out l').
Proof.
  split; [vm_compute; reflexivity|].
  apply (log_messages_written LevelInfo calm_run calm_end 0);
    [vm_compute; reflexivity|cbn; lia|vm_compute; reflexivity|reflexivity|].
  unfold no_channel. by apply (bool_decide_unpack _); vm_compute.
Defined.

(** Both calls of [Write] look at [running] before the first goroutine has set it,
    so two goroutines share the queue: each takes one message, and the one with the
    later message is the first to get the lock. *)
Definition racing_run : list event :=
  [EWrite (item "a") false; ECheck; EWrite (item "b") false; ECheck; ERun 0; ERun 1; ERun 0; ERun 1; ERun 1; ERun 0].

Example logger_reorders : exists l, do_events racing_run (new_logger LevelInfo) = (Val tt, l) /\
  writes racing_run = [item "a"; item "b"] /\ l_out l = [item "b"; item "a"].
Proof. eexists. split; [vm_compute; reflexivity|]. split; reflexivity. Qed.

(** The instance is made once: later callers get it whatever they ask for. *)
Example logger_singleton g l g' : NewLogger "a.log" DEBUG 1 g = (Val l, g') ->
  forall f m s, s <> 0 -> NewLogger f m s g' = (Val l, g').
Proof.
  intros H f m s Hs%Z.eqb_neq. unfold NewLogger in *. rewrite Hs. revert H. cbn.
  unfold mbind, M_bind, get_state. destruct (bLogger g) eqn:E; intros [= <- <-]; cbn; [by rewrite E|done].
Qed.

End LoggerSample.
